(** * pytagtime: a shallow embedding of [TagTimeLog]

    The Python script [pytagtime.py] reads a TagTime log, builds a
    time-indexed table of weighted durations (one column per tag) and
    derives aggregated views from it.  This file embeds the log parser
    ([_parse_file]), the range trimming of [__init__], the tag ranking
    ([top_n_tags]), the obfuscation ([_obfuscate]) and the views [pie],
    [trend] and [day_of_the_week_sums], and proves properties of them.

    Conventions of the embedding:
    - a Python [float] is a real number ([R]) with the exact operations of
      the reals; the weights of the parser and the durations that it
      records can be nan and are values of [option R], [None] being nan,
      and the squares and the exponential that the weights are made of
      are 0.0 where a double underflows; a cell that pandas shows as NaN
      is an absent entry;
    - a naive [datetime] is the number of microseconds since
      1970-01-01T00:00:00 of the local calendar ([Z]);
    - a Python exception is a value of [exn], and code that may raise
      returns a [result];
    - a frame is a mutable object in a store, so that two names of one
      object see each other's updates;
    - the sources of randomness ([np.random.uniform], [random.choice])
      and the local time zone are explicit arguments;
    - the plots themselves are left out: a view returns the table that
      it hands to matplotlib.

    The definitions come first, the lemmas and theorems follow. *)

From Stdlib Require Import ZArith List String Ascii Bool Arith Lia.
From Stdlib Require Import Reals Lra Permutation Sorted.
Import ListNotations.

Local Open Scope string_scope.
Local Open Scope list_scope.
Local Open Scope Z_scope.

(** ** Exceptions and results *)

Inductive exn : Type :=
| ValueError (msg : string)
| TypeError (msg : string)
| OverflowError (msg : string)
| IndexError (msg : string)
| KeyError (msg : string).

Inductive result (A : Type) : Type :=
| Ok (a : A)
| Raise (e : exn).

Arguments Ok {A} a.
Arguments Raise {A} e.

Definition bind {A B : Type} (m : result A) (k : A -> result B) : result B :=
  match m with
  | Ok a => k a
  | Raise e => Raise e
  end.

Notation "x <- m ;; k" := (bind m (fun x => k))
  (at level 61, m at next level, right associativity).

Definition is_ok {A : Type} (m : result A) : bool :=
  match m with Ok _ => true | Raise _ => false end.

(** ** The two regular expressions of the parser

    [_parse_file] uses [re.sub(r'\s*\[.*?\]\s*$', '', line)] and
    [re.split(r'\s+', line)].  Both patterns are sequences of items over
    single-character classes, so the matcher below is a backtracking
    matcher for exactly that fragment, with Python's priorities: a greedy
    star tries the longest repetition first, a lazy star the shortest. *)

Module Regex.

Inductive cls : Type :=
| Lit (c : ascii)   (* a literal character *)
| Space             (* \s *)
| Dot.              (* . *)

Inductive item : Type :=
| One (a : cls)
| StarGreedy (a : cls)   (* a*  *)
| StarLazy (a : cls)     (* a*? *)
| PlusGreedy (a : cls)   (* a+  *)
| EndAnchor.             (* $   *)

Definition regex := list item.

(** [\s] on a byte string without flags: space, \t, \n, \v, \f, \r. *)
Definition isspace (c : ascii) : bool :=
  let n := nat_of_ascii c in
  ((n =? 32) || ((9 <=? n) && (n <=? 13)))%nat.

Definition newline : ascii := ascii_of_nat 10.

Definition accepts (a : cls) (c : ascii) : bool :=
  match a with
  | Lit d => Ascii.eqb c d
  | Space => isspace c
  | Dot => negb (Ascii.eqb c newline)
  end.

(** [$] without MULTILINE: the end of the string, or just before a
    newline that ends the string. *)
Definition at_end (s : string) : bool :=
  match s with
  | EmptyString => true
  | String c EmptyString => Ascii.eqb c newline
  | _ => false
  end.

(** The continuation [k] matches the rest of the pattern; the result is
    the suffix left after the whole match. *)
Fixpoint star_greedy (a : cls) (k : string -> option string) (s : string)
  : option string :=
  match s with
  | String c s' =>
      if accepts a c then
        match star_greedy a k s' with
        | Some rest => Some rest
        | None => k s
        end
      else k s
  | EmptyString => k s
  end.

Fixpoint star_lazy (a : cls) (k : string -> option string) (s : string)
  : option string :=
  match k s with
  | Some rest => Some rest
  | None =>
      match s with
      | String c s' => if accepts a c then star_lazy a k s' else None
      | EmptyString => None
      end
  end.

Fixpoint match_here (r : regex) {struct r} : string -> option string :=
  match r with
  | [] => fun s => Some s
  | One a :: r' => fun s =>
      match s with
      | String c s' => if accepts a c then match_here r' s' else None
      | EmptyString => None
      end
  | StarGreedy a :: r' => star_greedy a (match_here r')
  | StarLazy a :: r' => star_lazy a (match_here r')
  | PlusGreedy a :: r' => fun s =>
      match s with
      | String c s' =>
          if accepts a c then star_greedy a (match_here r') s' else None
      | EmptyString => None
      end
  | EndAnchor :: r' => fun s => if at_end s then match_here r' s else None
  end.

(** Number of characters consumed by a match at the head of [s]. *)
Definition match_len (r : regex) (s : string) : option nat :=
  match match_here r s with
  | Some rest => Some (String.length s - String.length rest)%nat
  | None => None
  end.

(** [re.sub(r, '', s)]: every leftmost non-overlapping non-empty match is
    deleted.  [skip] counts the characters of the current match that are
    still to be dropped. *)
Fixpoint sub_empty (r : regex) (skip : nat) (s : string) : string :=
  match s with
  | EmptyString => EmptyString
  | String c s' =>
      match skip with
      | S n => sub_empty r n s'
      | O =>
          match match_len r s with
          | Some (S n) => sub_empty r n s'
          | _ => String c (sub_empty r O s')
          end
      end
  end.

(** [re.split(r, s)]: the pieces between the non-empty matches; [cur] is
    the piece being read, reversed. *)
Fixpoint rev_string (acc : string) (s : string) : string :=
  match s with
  | EmptyString => acc
  | String c s' => rev_string (String c acc) s'
  end.

Fixpoint split (r : regex) (skip : nat) (cur : string) (s : string)
  : list string :=
  match s with
  | EmptyString => [rev_string EmptyString cur]
  | String c s' =>
      match skip with
      | S n => split r n cur s'
      | O =>
          match match_len r s with
          | Some (S n) =>
              rev_string EmptyString cur :: split r n EmptyString s'
          | _ => split r O (String c cur) s'
          end
      end
  end.

(** [r'\s*\[.*?\]\s*$'] *)
Definition annotation : regex :=
  [StarGreedy Space; One (Lit "["); StarLazy Dot; One (Lit "]");
   StarGreedy Space; EndAnchor].

(** [r'\s+'] *)
Definition spaces : regex := [PlusGreedy Space].

End Regex.

(** [re.sub(r'\s*\[.*?\]\s*$', '', line)] *)
Definition strip_annotation (line : string) : string :=
  Regex.sub_empty Regex.annotation O line.

(** [re.split(r'\s+', line)] *)
Definition split_fields (line : string) : list string :=
  Regex.split Regex.spaces O EmptyString line.

(** ** [int(s)] on a byte string, base 10 *)

Definition digit_of (c : ascii) : option Z :=
  let n := nat_of_ascii c in
  if ((48 <=? n) && (n <=? 57))%nat then Some (Z.of_nat n - 48) else None.

Fixpoint digits_value (acc : Z) (s : string) : option Z :=
  match s with
  | EmptyString => Some acc
  | String c s' =>
      match digit_of c with
      | Some d => digits_value (10 * acc + d) s'
      | None => None
      end
  end.

(** An integer literal: an optional sign and at least one digit.  (The
    surrounding blanks that [int] tolerates cannot occur in a field
    produced by [split_fields].) *)
Definition int_literal (s : string) : option Z :=
  match s with
  | EmptyString => None
  | String c s' =>
      if Ascii.eqb c "+" then
        match s' with EmptyString => None | _ => digits_value 0 s' end
      else if Ascii.eqb c "-" then
        match s' with
        | EmptyString => None
        | _ => option_map Z.opp (digits_value 0 s')
        end
      else digits_value 0 s
  end.

Definition py_int (s : string) : result Z :=
  match int_literal s with
  | Some z => Ok z
  | None =>
      Raise (ValueError
               ("invalid literal for int() with base 10: '" ++ s ++ "'")%string)
  end.


(** ** Naive datetimes

    [datetime.datetime] between [datetime.min] (0001-01-01) and
    [datetime.max] (9999-12-31T23:59:59.999999), counted in microseconds
    from 1970-01-01T00:00:00. *)

Definition datetime := Z.

Definition us_per_second : Z := 1000000.
Definition us_per_hour : Z := 3600 * us_per_second.
Definition us_per_day : Z := 86400 * us_per_second.

(** 719162 days separate 0001-01-01 from 1970-01-01, and 2932897 days
    separate 1970-01-01 from 10000-01-01. *)
Definition datetime_min : Z := - 719162 * us_per_day.
Definition datetime_end : Z := 2932897 * us_per_day.

Definition in_datetime_range (us : Z) : bool :=
  (datetime_min <=? us) && (us <? datetime_end).

(** Days since 1970-01-01 of the calendar day of [dt]. *)
Definition day_of (dt : datetime) : Z := dt / us_per_day.

(** [dt.weekday()]: Monday is 0; 1970-01-01 was a Thursday. *)
Definition weekday (dt : datetime) : Z := (day_of dt + 3) mod 7.

(** Rounding of [timedelta]'s float arguments: to the nearest
    microsecond, halves away from zero. *)
Definition round_half_away (x : R) : Z :=
  if Rle_dec 0 x then Zfloor (x + / 2) else Zceil (x - / 2).

(** [datetime.timedelta(hours=h)], in microseconds; its days must have
    magnitude at most 999999999. *)
Definition timedelta_hours (h : R) : result Z :=
  let us := round_half_away (h * IZR us_per_hour) in
  if (Z.abs (us / us_per_day) <=? 999999999)
  then Ok us
  else Raise (OverflowError "days must have magnitude <= 999999999").

(** [dt + td] *)
Definition datetime_add (dt : datetime) (td : Z) : result datetime :=
  if in_datetime_range (dt + td) then Ok (dt + td)
  else Raise (OverflowError "date value out of range").

(** ** numpy helpers *)

Fixpoint Rsum (l : list R) : R :=
  match l with
  | [] => 0%R
  | x :: l' => (x + Rsum l')%R
  end.

(** The doubles that are not zero have a magnitude of at least
    [2 ^ -1074]: a result of magnitude [2 ^ -1075] or less is rounded to
    0.0.  This rounding to zero is modelled where the program divides by
    the result; the other roundings are not. *)
Definition tiny : R := (/ 2 ^ 1075)%R.

Definition underflow (x : R) : R :=
  if Rle_dec (Rabs x) tiny then 0%R else x.

(** The doubles have a magnitude below [2 ^ 1024]. *)
Definition huge : R := (2 ^ 1024)%R.

(** [x ** 2] for a Python float [x]: unlike the operations of numpy,
    which return infinity, the power of Python raises when its result is
    out of range; a result that underflows is 0.0.  For a double [x] the
    square is below [2 ^ 1024] exactly when [x] has a magnitude below
    [2 ^ 512], and its rounding is then a double. *)
Definition py_square (x : R) : result R :=
  if Rlt_dec (x ^ 2) huge then Ok (underflow (x ^ 2))
  else Raise (OverflowError "(34, 'Numerical result out of range')").

(** [a.sum()] for an array of floats: nan ([None]) when an entry is
    nan. *)
Fixpoint np_sum (w : list (option R)) : option R :=
  match w with
  | [] => Some 0%R
  | x :: w' =>
      match x, np_sum w' with
      | Some a, Some s => Some (a + s)%R
      | _, _ => None
      end
  end.

(** [weight * duration] for a weight that may be nan. *)
Definition np_mul (x : option R) (d : R) : option R :=
  match x with
  | Some a => Some (a * d)%R
  | None => None
  end.

(** The sum of the entries that are numbers, as [sum] with [skipna] of
    pandas. *)
Fixpoint sum_numbers (l : list (option R)) : R :=
  match l with
  | [] => 0%R
  | Some x :: l' => (x + sum_numbers l')%R
  | None :: l' => sum_numbers l'
  end.

(** [np.arange(start, stop, step)]: [ceil((stop - start) / step)]
    values [start + i * step]. *)
Definition np_arange (start stop step : R) : list R :=
  map (fun i => (start + INR i * step)%R)
      (seq 0 (Z.to_nat (Zceil ((stop - start) / step)))).

(** ** The log object and its parser *)

Section TagTimeLog.

(** The local time zone: seconds east of UTC at a given POSIX time. *)
Variable utcoffset : Z -> Z.

(** [datetime.datetime.fromtimestamp(ts)] *)
Definition fromtimestamp (ts : Z) : result datetime :=
  let us := (ts + utcoffset ts) * us_per_second in
  if in_datetime_range us then Ok us
  else Raise (ValueError "year is out of range").

(** The attributes set by [__init__] that the parser and the views read. *)
Record config : Type := {
  skipweekdays : list Z;
  skiptags : list string;
  interval : R;
  multitag : string;
  obfuscate : bool;
  smooth : bool;
  sigma : R
}.

(** The step of the offset grid, [(4 * sigma + 1) / 15]. *)
Definition offsetinterval (c : config) : R := ((4 * sigma c + 1) / 15)%R.

(** [offsetlist] after lines 96-101.  [noise i] is the i-th number drawn
    by [np.random.uniform(-0.1, 0.1, size=offsetlist.shape)]. *)
Definition offsetlist (c : config) (noise : nat -> R) : list R :=
  if smooth c then
    map (fun io => (snd io + noise (fst io))%R)
        (combine (seq 0 (List.length (np_arange (-2 * sigma c) (2 * sigma c) (offsetinterval c))))
                 (np_arange (-2 * sigma c) (2 * sigma c) (offsetinterval c)))
  else [0%R].

(** [o ** 2] for an entry [o] of an array: 0.0 when the square
    underflows and, unlike the power of Python, infinity ([None]) when it
    is out of range; numpy warns and goes on. *)
Definition np_square (o : R) : option R :=
  if Rlt_dec (o ^ 2) huge then Some (underflow (o ^ 2)) else None.

(** [np.exp(- o ** 2 / s2)] for a divisor [s2] that is a positive
    double: the square and the exponential are doubles, 0.0 when they
    underflow; for a square that is infinite the quotient is minus
    infinity, and [np.exp] of minus infinity is 0.0. *)
Definition gaussian (s2 o : R) : R :=
  match np_square o with
  | Some q => underflow (exp (- q / s2))
  | None => 0%R
  end.

(** One entry of [np.exp(- offsetlist ** 2 / self.sigma ** 2)] (line
    102), a number or nan ([None]); [s2] is the value of
    [self.sigma ** 2].  With [s2] equal to 0.0 the quotient is
    [-0.0 / 0.0], nan, for a square of the offset that is 0.0, and
    [-x / 0.0], minus infinity, otherwise, and [np.exp] of minus
    infinity is 0.0.  numpy warns and goes on in both cases. *)
Definition raw_weight (s2 o : R) : option R :=
  if Req_dec_T s2 0 then
    match np_square o with
    | Some q => if Req_dec_T q 0 then None else Some 0%R
    | None => Some 0%R
    end
  else Some (gaussian s2 o).

Definition raw_weights (s2 : R) (offsets : list R) : list (option R) :=
  map (raw_weight s2) offsets.

(** [weights /= weights.sum()] (line 103).  The weights are not negative,
    so their sum is 0.0 only when each of them is 0.0: the quotients are
    then [0.0 / 0.0], nan.  A sum that is nan makes every quotient nan. *)
Definition normalize (w : list (option R)) : list (option R) :=
  map (fun x => match x, np_sum w with
                | Some a, Some s =>
                    if Req_dec_T s 0 then None else Some (a / s)%R
                | _, _ => None
                end) w.

(** Lines 102-103.  [self.sigma ** 2] is evaluated once, as a Python
    float. *)
Definition weights (c : config) (offsets : list R)
  : result (list (option R)) :=
  s2 <- py_square (sigma c) ;;
  Ok (normalize (raw_weights s2 offsets)).

(** A [defaultdict(list)]: keys in order of first insertion. *)
Definition dict (A : Type) := list (string * list A).

Fixpoint dict_get {A : Type} (d : dict A) (k : string) : list A :=
  match d with
  | [] => []
  | (k', l) :: d' => if String.eqb k k' then l else dict_get d' k
  end.

(** [d[k].append(x)] *)
Fixpoint dict_append {A : Type} (k : string) (x : A) (d : dict A) : dict A :=
  match d with
  | [] => [(k, [x])]
  | (k', l) :: d' =>
      if String.eqb k k' then (k', l ++ [x]) :: d'
      else (k', l) :: dict_append k x d'
  end.

Definition dict_keys {A : Type} (d : dict A) : list string := map fst d.

(** The mutable state of the parsing loop: the dictionaries [D] and [V]
    and the counter [n_excluded]. *)
Record parse_state : Type := {
  stD : dict datetime;
  stV : dict (option R);
  n_excluded : Z
}.

Definition initial_state : parse_state :=
  {| stD := []; stV := []; n_excluded := 0 |}.

Fixpoint foldM {A S : Type} (f : S -> A -> result S) (l : list A) (s : S)
  : result S :=
  match l with
  | [] => Ok s
  | x :: l' => s' <- f s x ;; foldM f l' s'
  end.

Definition str_in (x : string) (l : list string) : bool :=
  existsb (String.eqb x) l.

Definition Z_in (x : Z) (l : list Z) : bool := existsb (Z.eqb x) l.

(** Lines 123-128: one [(weight, offset)] pair of one tag occurrence. *)
Definition emit (c : config) (dt : datetime) (t : string) (duration : R)
    (st : parse_state) (wo : option R * R) : result parse_state :=
  let (weight, offset) := wo in
  td <- timedelta_hours (offset * interval c) ;;
  dtx <- datetime_add dt td ;;
  if Z_in (weekday dtx) (skipweekdays c) then
    Ok {| stD := stD st; stV := stV st; n_excluded := n_excluded st + 1 |}
  else
    Ok {| stD := dict_append t dtx (stD st);
          stV := dict_append t (np_mul weight duration) (stV st);
          n_excluded := n_excluded st |}.

(** Lines 112-116: the tags of a line that the loop iterates over. *)
Definition surviving_tags (c : config) (tags : list string) : list string :=
  filter (fun x => negb (str_in x (skiptags c))) tags.

Definition selected_tags (c : config) (tags : list string) : list string :=
  if String.eqb (multitag c) "first"
  then firstn 1 (surviving_tags c tags)
  else surviving_tags c tags.

(** Lines 118-120 *)
Definition tag_duration (c : config) (tags : list string) : R :=
  if String.eqb (multitag c) "split"
  then (interval c / INR (List.length tags))%R
  else interval c.

(** Lines 112-128: the events of one sample [(dt, tags)]. *)
Definition process_sample (c : config) (ws : list (option R)) (os : list R)
    (dt : datetime) (tags : list string) (st : parse_state)
  : result parse_state :=
  let tags' := selected_tags c tags in
  foldM (fun st t =>
           foldM (emit c dt t (tag_duration c tags')) (combine ws os) st)
        tags' st.

(** Lines 107-110: the sample [(dt, tags)] of a line.  [re.split]
    returns at least one field, so [fields[0]] exists. *)
Definition read_sample (line : string) : result (datetime * list string) :=
  match split_fields (strip_annotation line) with
  | [] => Raise (IndexError "list index out of range")
  | f0 :: tags =>
      ts <- py_int f0 ;;
      dt <- fromtimestamp ts ;;
      Ok (dt, tags)
  end.

(** Lines 107-128: one line of the log. *)
Definition process_line (c : config) (ws : list (option R)) (os : list R)
    (st : parse_state) (line : string) : result parse_state :=
  smp <- read_sample line ;;
  process_sample c ws os (fst smp) (snd smp) st.

(** Lines 90-129: the loop over the handle. *)
Definition parse_loop (c : config) (noise : nat -> R) (lines : list string)
  : result parse_state :=
  let os := offsetlist c noise in
  ws <- weights c os ;;
  foldM (process_line c ws os) lines initial_state.

End TagTimeLog.

(** What one tag occurrence of an unsmoothed sample records. *)
Definition record_tag (dt : datetime) (v : option R) (st : parse_state)
    (t : string) : parse_state :=
  {| stD := dict_append t dt (stD st);
     stV := dict_append t v (stV st);
     n_excluded := n_excluded st |}.

Definition count_excluded (st : parse_state) (t : string) : parse_state :=
  {| stD := stD st; stV := stV st; n_excluded := n_excluded st + 1 |}.

(** What an unsmoothed sample records when the single weight is the
    number 1: lines 112-128 with the weight 1 at offset 0. *)
Definition ingest_unsmoothed (c : config) (st : parse_state)
    (smp : datetime * list string) : parse_state :=
  fold_left
    (fun st t =>
       if Z_in (weekday (fst smp)) (skipweekdays c) then count_excluded st t
       else record_tag (fst smp)
                       (Some (1 * tag_duration c (selected_tags c (snd smp)))%R)
                       st t)
    (selected_tags c (snd smp)) st.

(** The same for a single weight [w] that may be nan. *)
Definition ingest_weighted (c : config) (w : option R) (st : parse_state)
    (smp : datetime * list string) : parse_state :=
  fold_left
    (fun st t =>
       if Z_in (weekday (fst smp)) (skipweekdays c) then count_excluded st t
       else record_tag (fst smp)
                       (np_mul w (tag_duration c (selected_tags c (snd smp))))
                       st t)
    (selected_tags c (snd smp)) st.

(** [fields[0]] of a line. *)
Definition first_field (line : string) : string :=
  hd EmptyString (split_fields (strip_annotation line)).

Definition exn_class (e : exn) : string :=
  match e with
  | ValueError _ => "ValueError"
  | TypeError _ => "TypeError"
  | OverflowError _ => "OverflowError"
  | IndexError _ => "IndexError"
  | KeyError _ => "KeyError"
  end.

Definition exn_message (e : exn) : string :=
  match e with
  | ValueError m | TypeError m | OverflowError m | IndexError m
  | KeyError m => m
  end.

(** [needle in s] for strings. *)
Fixpoint starts_with (needle s : string) : bool :=
  match needle, s with
  | EmptyString, _ => true
  | String a needle', String b s' => Ascii.eqb a b && starts_with needle' s'
  | String _ _, EmptyString => false
  end.

Fixpoint occurs_in (needle s : string) : bool :=
  starts_with needle s ||
  match s with
  | EmptyString => false
  | String _ s' => occurs_in needle s'
  end.

(** Total duration recorded under tag [t], and under all tags: the sum
    of the recorded durations that are numbers. *)
Definition tag_total (st : parse_state) (t : string) : R :=
  sum_numbers (dict_get (stV st) t).

Definition dict_total (d : dict (option R)) : R :=
  Rsum (map (fun kv => sum_numbers (snd kv)) d).

(** The square of the configuration's sigma is a double that is not 0.0:
    it neither underflows nor is out of range. *)
Definition sigma_squares (c : config) : Prop :=
  (tiny < sigma c ^ 2 < huge)%R.

(** The weights for the offsets [os] are the positive numbers [ws]. *)
Definition positive_weights (c : config) (os ws : list R) : Prop :=
  weights c os = Ok (map Some ws) /\ forall w, In w ws -> (0 < w)%R.

(** No recorded duration is nan. *)
Definition no_nan (st : parse_state) : Prop :=
  forall t, ~ In None (dict_get (stV st) t).

Definition grand_total (st : parse_state) : R := dict_total (stV st).

(** The grid of the offsets: its i-th point, and the number of points
    that [np.arange] takes. *)
Definition grid_point (c : config) (i : nat) : R :=
  (-2 * sigma c + INR i * offsetinterval c)%R.

Definition grid_size (c : config) : nat :=
  Z.to_nat (Zceil ((2 * sigma c - -2 * sigma c) / offsetinterval c)).

(** [o] and [-o] occur together. *)
Definition symmetric_offsets (l : list R) : Prop :=
  forall o : R, In o l -> In (- o)%R l.

(** The draws of [np.random.uniform(-0.1, 0.1)] lie in [-0.1, 0.1). *)
Definition uniform_draws (noise : nat -> R) : Prop :=
  forall i : nat, (- (1 / 10) <= noise i < 1 / 10)%R.


(** ** Sorting

    Python's [sorted] and the pandas index union are stable; so is this
    insertion sort: an element is put before the first element it is
    [leb]-related to. *)

Fixpoint insert_by {A : Type} (leb : A -> A -> bool) (x : A) (l : list A)
  : list A :=
  match l with
  | [] => [x]
  | y :: l' => if leb x y then x :: l else y :: insert_by leb x l'
  end.

Fixpoint sort_by {A : Type} (leb : A -> A -> bool) (l : list A) : list A :=
  match l with
  | [] => []
  | x :: l' => insert_by leb x (sort_by leb l')
  end.

(** Adjacent duplicates removed. *)
Fixpoint uniq (l : list Z) : list Z :=
  match l with
  | [] => []
  | x :: l' =>
      match l' with
      | [] => [x]
      | y :: _ => if x =? y then uniq l' else x :: uniq l'
      end
  end.

(** ** Frames

    A [pd.Series] is the list of its non-NaN entries, each with its index
    label; a [pd.DataFrame] is its index (the row labels) and its columns
    in order.  A cell without an entry is NaN.  Labels are datetimes for
    the Observation Table and its resamplings, and weekday numbers after
    a [groupby]. *)

Definition series := list (Z * R).

Record frame : Type := {
  index : list Z;
  columns : list (string * series)
}.

Definition keys (F : frame) : list string := map fst (columns F).

Definition time_leb {A : Type} (a b : Z * A) : bool := fst a <=? fst b.

(** [pd.Series(V[f], index=D[f])]: the values, nan included, with their
    labels. *)
Definition Series (D : dict datetime) (V : dict (option R)) (f : string)
  : list (Z * option R) :=
  combine (dict_get D f) (dict_get V f).

(** The entries of a series of floats that are numbers. *)
Definition entries (s : list (Z * option R)) : series :=
  flat_map (fun e => match snd e with
                     | Some v => [(fst e, v)]
                     | None => []
                     end) s.

(** [pd.DataFrame(D)] for a dictionary of series: the columns are the
    sorted keys, the index the sorted union of the series' indexes (the
    label of a nan is a row as well). *)
Definition DataFrame (D : dict datetime) (V : dict (option R)) : frame :=
  let cols :=
    map (fun f => (f, sort_by time_leb (Series D V f)))
        (sort_by String.leb (dict_keys D)) in
  {| index := uniq (sort_by Z.leb (List.concat (map (fun c => map fst (snd c)) cols)));
     columns := map (fun c => (fst c, entries (snd c))) cols |}.

Definition index_min (F : frame) : option Z :=
  match index F with
  | [] => None
  | x :: l => Some (fold_left Z.min l x)
  end.

Definition index_max (F : frame) : option Z :=
  match index F with
  | [] => None
  | x :: l => Some (fold_left Z.max l x)
  end.

(** [F.ix[lo:hi]] with datetime bounds: label slicing, both ends
    included. *)
Definition in_slice (lo hi t : Z) : bool := (lo <=? t) && (t <=? hi).

Definition ix_slice (lo hi : Z) (F : frame) : frame :=
  {| index := filter (in_slice lo hi) (index F);
     columns :=
       map (fun c => (fst c, filter (fun e => in_slice lo hi (fst e)) (snd c)))
           (columns F) |}.

Fixpoint lookup_col {A : Type} (cols : list (string * A)) (k : string)
  : option A :=
  match cols with
  | [] => None
  | (k', s) :: cols' => if String.eqb k k' then Some s else lookup_col cols' k
  end.

(** [F[tags]] for a list of labels: a new frame; a label that is not a
    column raises [KeyError]. *)
Fixpoint select_cols (cols : list (string * series)) (tags : list string)
  : result (list (string * series)) :=
  match tags with
  | [] => Ok []
  | t :: tags' =>
      match lookup_col cols t with
      | Some s => rest <- select_cols cols tags' ;; Ok ((t, s) :: rest)
      | None => Raise (KeyError t)
      end
  end.

Definition select (F : frame) (tags : list string) : result frame :=
  cols <- select_cols (columns F) tags ;;
  Ok {| index := index F; columns := cols |}.

(** [F[k] = s]: the column is replaced, or added after the others. *)
Fixpoint set_col (cols : list (string * series)) (k : string) (s : series)
  : list (string * series) :=
  match cols with
  | [] => [(k, s)]
  | (k', s') :: cols' =>
      if String.eqb k k' then (k, s) :: cols'
      else (k', s') :: set_col cols' k s
  end.

Definition values_at (s : series) (t : Z) : list R :=
  map snd (filter (fun e => fst e =? t) s).

(** The cell of a series at a label. *)
Definition cell (s : series) (t : Z) : option R :=
  match values_at s t with
  | [] => None
  | v :: _ => Some v
  end.

(** The series with the entry [(x, v)] for every label [x] of [labels]
    at which [g] has a value [v]. *)
Definition tabulate (g : Z -> option R) (labels : list Z) : series :=
  flat_map (fun x => match g x with
                     | Some v => [(x, v)]
                     | None => []
                     end)
           labels.

(** The sum of the values that are not NaN; NaN without values. *)
Definition nansum (vs : list R) : option R :=
  match vs with
  | [] => None
  | _ => Some (Rsum vs)
  end.

(** [F.sum(axis=1)]: per row, the sum of the cells that are not NaN; a
    row of NaN only gives NaN. *)
Definition row_sums (F : frame) : series :=
  tabulate (fun t => nansum (flat_map (fun c => values_at (snd c) t) (columns F)))
           (index F).

(** [s.sum()] and [s.mean()], NaN skipped. *)
Definition col_sum (s : series) : R := Rsum (map snd s).

Definition col_mean (s : series) : option R :=
  match s with
  | [] => None
  | _ => Some (Rsum (map snd s) / INR (List.length s))%R
  end.

(** [F.fillna(0)] *)
Definition fillna0 (F : frame) : frame :=
  {| index := index F;
     columns :=
       map (fun c =>
              (fst c,
               tabulate (fun t => Some (match cell (snd c) t with
                                        | Some v => v
                                        | None => 0%R
                                        end))
                        (index F)))
           (columns F) |}.

(** The consecutive integers [lo, lo + 1, ..., lo + n - 1]. *)
Definition Zrange (lo : Z) (n : nat) : list Z :=
  map (fun i => lo + Z.of_nat i) (seq 0 n).

(** [F.resample(rule, how='sum', label='left')] for the rule of [k]
    days ('D' is [k = 1]): bins of [k] calendar days from the day of the
    first row to the bin of the last row, each labelled by its start; a
    cell is the sum of the column's entries in the bin, NaN without
    entries. *)
Definition bin_of (k d0 : Z) (t : Z) : Z := (d0 + k * ((day_of t - d0) / k)) * us_per_day.

Definition resample_sum (k : Z) (F : frame) : frame :=
  match index_min F, index_max F with
  | Some lo, Some hi =>
      let d0 := day_of lo in
      let bins :=
        map (fun j => (d0 + k * j) * us_per_day)
            (Zrange 0 (Z.to_nat ((day_of hi - d0) / k + 1))) in
      {| index := bins;
         columns :=
           map (fun c =>
                  (fst c,
                   tabulate
                     (fun b =>
                        nansum (map snd
                                  (filter (fun e => bin_of k d0 (fst e) =? b)
                                          (snd c))))
                     bins))
               (columns F) |}
  | _, _ => {| index := []; columns := map (fun c => (fst c, [])) (columns F) |}
  end.

(** Division of floats where the result is a number: [x / 0] is not. *)
Definition fdiv (x y : R) : option R :=
  if Req_dec_T y 0 then None else Some (x / y)%R.

(** [F / F.sum(axis=1)] on a frame with a datetime index: every row is
    divided by its sum. *)
Definition div_rows (s : series) (by_row : series) : series :=
  flat_map
    (fun e =>
       match cell by_row (fst e) with
       | Some r =>
           match fdiv (snd e) r with
           | Some q => [(fst e, q)]
           | None => []
           end
       | None => []
       end)
    s.

Definition normalize_rows (F : frame) : frame :=
  {| index := index F;
     columns := map (fun c => (fst c, div_rows (snd c) (row_sums F))) (columns F) |}.

(** [F.groupby(F.index.weekday, sort=True).mean()]: one row per weekday
    that occurs in the index, in increasing order; a cell is the mean of
    the column's entries on that weekday, NaN without entries. *)
Definition weekdays : list Z := [0; 1; 2; 3; 4; 5; 6].

Definition groupby_weekday_mean (F : frame) : frame :=
  let present :=
    filter (fun w => existsb (fun t => weekday t =? w) (index F)) weekdays in
  {| index := present;
     columns :=
       map (fun c =>
              (fst c,
               tabulate
                 (fun w => col_mean (filter (fun e => weekday (fst e) =? w) (snd c)))
                 present))
           (columns F) |}.

(** [for k in D.keys(): D[k] = D[k] * num / V] *)
Definition scale_rows (num : R) (V : series) (F : frame) : frame :=
  {| index := index F;
     columns :=
       map (fun c =>
              (fst c,
               div_rows (map (fun e => (fst e, (snd e * num)%R)) (snd c)) V))
           (columns F) |}.

(** Lines 261-266 of [day_of_the_week_sums]: daily sums, every day
    normalized to 1, the mean per weekday, rescaled to 24 hours. *)
Definition weekday_shares (F : frame) : frame :=
  let F3 := groupby_weekday_mean
              (normalize_rows (fillna0 (resample_sum 1 F))) in
  scale_rows 24 (row_sums F3) F3.

(** ** The object store

    Frames are mutable objects: [D = self.D] makes [D] a second name of
    the object that [self.D] names, whereas [self.D[tags]], [resample],
    [groupby] and [fillna] make new objects.  A [world] holds the frame
    objects, addressed by their position, and the number of labels drawn
    so far from the random source. *)

Definition ref := nat.

Record world : Type := {
  heap : list frame;
  draws : nat
}.

Definition M (A : Type) : Type := world -> result A * world.

Definition ret {A : Type} (a : A) : M A := fun w => (Ok a, w).

Definition raise {A : Type} (e : exn) : M A := fun w => (Raise e, w).

Definition lift {A : Type} (r : result A) : M A := fun w => (r, w).

Definition bindM {A B : Type} (m : M A) (k : A -> M B) : M B :=
  fun w =>
    match m w with
    | (Ok a, w') => k a w'
    | (Raise e, w') => (Raise e, w')
    end.

Notation "x <~ m ;; k" := (bindM m (fun x => k))
  (at level 61, m at next level, right associativity).

Definition empty_frame : frame := {| index := []; columns := [] |}.

Definition alloc (F : frame) : M ref :=
  fun w => (Ok (List.length (heap w)),
            {| heap := heap w ++ [F]; draws := draws w |}).

Definition load (r : ref) : M frame :=
  fun w => (Ok (nth r (heap w) empty_frame), w).

Fixpoint set_nth {A : Type} (n : nat) (x : A) (l : list A) : list A :=
  match l, n with
  | [], _ => []
  | _ :: l', O => x :: l'
  | y :: l', S n' => y :: set_nth n' x l'
  end.

(** In-place update of the object at [r]. *)
Definition store (r : ref) (F : frame) : M unit :=
  fun w => (Ok tt, {| heap := set_nth r F (heap w); draws := draws w |}).

Fixpoint forM {A : Type} (l : list A) (f : A -> M unit) : M unit :=
  match l with
  | [] => ret tt
  | x :: l' => _ <~ f x ;; forM l' f
  end.

(** [keys[:n]] *)
Definition py_take {A : Type} (n : Z) (l : list A) : list A :=
  if 0 <=? n then firstn (Z.to_nat n) l
  else firstn (List.length l - Z.to_nat (- n)) l.

Definition Rleb (x y : R) : bool := if Rle_dec x y then true else false.

(** [sorted(ks, key=key, reverse=True)] *)
Definition sorted_desc (key : string -> R) (ks : list string) : list string :=
  sort_by (fun x y => Rleb (key y) (key x)) ks.

(** The same with keys that may be NaN, which compares false with
    everything. *)
Definition sorted_desc_nan (key : string -> option R) (ks : list string)
  : list string :=
  sort_by (fun x y =>
             match key x, key y with
             | Some a, Some b => Rleb b a
             | _, _ => true
             end) ks.

(** Lines 310-313: the extra tags that are not yet present are appended. *)
Definition append_missing (ks extra : list string) : list string :=
  fold_left (fun ks x => if str_in x ks then ks else ks ++ [x]) extra ks.

Definition rename_col (k k2 : string) (F : frame) : frame :=
  {| index := index F;
     columns :=
       map (fun c => (if String.eqb (fst c) k then k2 else fst c, snd c))
           (columns F) |}.

(** Line 303: [self.D.resample('D', how='sum', label='left').sum()], the
    series of the per-day-resampled totals, and its entry [D[x]]. *)
Definition day_totals (F : frame) : list (string * R) :=
  map (fun c => (fst c, col_sum (snd c))) (columns (resample_sum 1 F)).

Definition day_total (F : frame) (x : string) : R :=
  match lookup_col (day_totals F) x with
  | Some v => v
  | None => 0%R
  end.

(** The elements of [l] that are neither in [seen] nor earlier in [l],
    in the order of [l]. *)
Fixpoint dedup (seen l : list string) : list string :=
  match l with
  | [] => []
  | x :: l' =>
      if str_in x seen then dedup seen l' else x :: dedup (x :: seen) l'
  end.

Record TagTimeLog : Type := {
  cfg : config;
  selfD : ref;         (* self.D *)
  rng : Z * Z          (* the days of the first and of the last row *)
}.

Section Views.

Variable utcoffset : Z -> Z.

(** The i-th label built from [random.choice] by [_obfuscate]. *)
Variable labels : nat -> string.

Definition draw : M string :=
  fun w => (Ok (labels (draws w)),
            {| heap := heap w; draws := S (draws w) |}).

(** Lines 89-134 without the store: the table of a log. *)
Definition parse_file (c : config) (noise : nat -> R) (lines : list string)
  : result frame :=
  st <- parse_loop utcoffset c noise lines ;;
  Ok (DataFrame (stD st) (stV st)).

(** [__init__]: [startend] holds the optional bounds, [now] is
    [datetime.datetime.now()].  Without rows [index.min()] has no value
    and the construction fails. *)
Definition init (c : config) (noise : nat -> R) (lines : list string)
    (startend : option Z * option Z) (now : datetime) : M TagTimeLog :=
  F <~ lift (parse_file c noise lines) ;;
  r0 <~ alloc F ;;
  start <~ match fst startend with
           | Some s => ret s
           | None => lift (fromtimestamp utcoffset 1)
           end ;;
  let stop := match snd startend with Some e => e | None => now end in
  F0 <~ load r0 ;;
  r <~ alloc (ix_slice start stop F0) ;;
  F1 <~ load r ;;
  match index_min F1, index_max F1 with
  | Some lo, Some hi =>
      ret {| cfg := c; selfD := r; rng := (day_of lo, day_of hi) |}
  | _, _ => raise (ValueError "no rows in the date range")
  end.

(** [top_n_tags] *)
Definition top_n_tags (self : TagTimeLog) (n : Z)
    (extra_tags : option (list string)) : M (list string) :=
  F <~ load (selfD self) ;;
  let ks := py_take n (sorted_desc (day_total F) (map fst (day_totals F))) in
  match extra_tags with
  | None => ret ks
  | Some extra => ret (append_missing ks extra)
  end.

(** Lines 141-142 (and the same lines of the other views): the injected
    column [other].  With [tags = None] the test [t not in tags] raises
    for the first key. *)
Definition add_other (self : TagTimeLog) (D : ref)
    (tags : option (list string)) : M unit :=
  F <~ load (selfD self) ;;
  rest <~ match tags with
          | Some ts => ret (filter (fun t => negb (str_in t ts)) (keys F))
          | None =>
              match keys F with
              | [] => ret []
              | _ :: _ =>
                  raise (TypeError "argument of type 'NoneType' is not iterable")
              end
          end ;;
  Fr <~ lift (select F rest) ;;
  FD <~ load D ;;
  store D {| index := index FD;
             columns := set_col (columns FD) "other" (row_sums Fr) |}.

(** [_obfuscate(D)]: the columns of the object [D] are renamed in place,
    one after the other. *)
Definition _obfuscate (self : TagTimeLog) (D : ref) : M unit :=
  if obfuscate (cfg self) then
    F <~ load D ;;
    forM (keys F)
         (fun k =>
            if String.eqb k "other" then ret tt
            else
              k2 <~ draw ;;
              F' <~ load D ;;
              store D (rename_col k k2 F'))
  else ret tt.

(** The first lines of every view: the tags, and the frame [D] that the
    view works on. *)
Definition view_tags (self : TagTimeLog) (tags : option (list string))
    (top_n : option Z) : M (option (list string)) :=
  match top_n with
  | Some n => ks <~ top_n_tags self n tags ;; ret (Some ks)
  | None => ret tags
  end.

Definition view_frame (self : TagTimeLog) (tags : option (list string))
  : M ref :=
  match tags with
  | Some ts =>
      F <~ load (selfD self) ;;
      F' <~ lift (select F ts) ;;
      alloc F'
  | None => ret (selfD self)
  end.

(** [trend], for a [resample] rule of [k] days; the result is the frame
    that is plotted. *)
Definition trend (self : TagTimeLog) (tags : option (list string))
    (top_n : option Z) (other : bool) (k : Z) : M frame :=
  tags <~ view_tags self tags top_n ;;
  D <~ view_frame self tags ;;
  _ <~ (if other then add_other self D tags else ret tt) ;;
  F <~ load D ;;
  D <~ alloc (resample_sum k F) ;;
  _ <~ _obfuscate self D ;;
  F <~ load D ;;
  D <~ alloc (fillna0 F) ;;
  load D.

(** [pie]; the result is the list of wedges (label, value) handed to
    [ax.pie], the NaN means left out. *)
Definition pie (self : TagTimeLog) (tags : option (list string))
    (top_n : option Z) (other : bool) : M (list (string * R)) :=
  tags <~ view_tags self tags top_n ;;
  D <~ view_frame self tags ;;
  _ <~ (if other then add_other self D tags else ret tt) ;;
  _ <~ _obfuscate self D ;;
  F <~ load D ;;
  let means := map (fun c => (fst c, col_mean (snd c)))
                   (columns (fillna0 (resample_sum 1 F))) in
  let key := fun x => match lookup_col means x with
                      | Some m => m
                      | None => None
                      end in
  ret (flat_map (fun x => match key x with
                          | Some v => [(x, v)]
                          | None => []
                          end)
                (sorted_desc_nan key (map fst means))).

(** [day_of_the_week_sums]; the result is the frame that is plotted.
    With [tags = None] the call [self.top_n_tags(1000)] lacks an
    argument. *)
Definition day_of_the_week_sums (self : TagTimeLog)
    (tags : option (list string)) (top_n : option Z) (other : bool)
  : M frame :=
  tags <~ view_tags self tags top_n ;;
  tags <~ match tags with
          | Some ts => ret (Some ts)
          | None =>
              raise (TypeError "top_n_tags() takes exactly 3 arguments (2 given)")
          end ;;
  D <~ view_frame self tags ;;
  _ <~ (if other then add_other self D tags else ret tt) ;;
  F <~ load D ;;
  D <~ alloc (fillna0 (resample_sum 1 F)) ;;
  F <~ load D ;;
  D <~ alloc (normalize_rows F) ;;
  F <~ load D ;;
  D <~ alloc (groupby_weekday_mean F) ;;
  F <~ load D ;;
  _ <~ store D (scale_rows 24 (row_sums F) F) ;;
  _ <~ _obfuscate self D ;;
  load D.

End Views.

(** The frame that [self.D] names in a world. *)
Definition table_of (self : TagTimeLog) (w : world) : frame :=
  nth (selfD self) (heap w) empty_frame.

Definition empty_world : world := {| heap := []; draws := 0 |}.

(** ** Notions used by the statements *)

(** The total of a column of a table (0 without the column). *)
Definition table_total (F : frame) (t : string) : R :=
  match lookup_col (columns F) t with
  | Some s => col_sum s
  | None => 0%R
  end.

(** Every entry of a column sits on a row of the index. *)
Definition well_formed (F : frame) : Prop :=
  forall c e, In c (columns F) -> In e (snd c) -> In (fst e) (index F).

(** The samples of [n] pings, one every [step] microseconds from [dt0],
    each with the single tag [tag]. *)
Definition uniform_samples (dt0 step : Z) (n : nat) (tag : string)
  : list (datetime * list string) :=
  map (fun i => (dt0 + Z.of_nat i * step, [tag])) (seq 0 n).

(** The microseconds of [timedelta(hours=o * interval)], by which the
    event at offset [o] is shifted. *)
Definition shift_us (c : config) (o : R) : Z :=
  round_half_away (o * interval c * IZR us_per_hour).

(** The events of a ping at [dt] for one tag of duration [d], without
    weekday exclusion: one per (weight, offset) pair. *)
Definition shifted_entries (c : config) (d : R) (wos : list (R * R))
    (dt : datetime) : series :=
  map (fun wo => (dt + shift_us c (snd wo), (fst wo * d)%R)) wos.

(** The state has recorded exactly the series [S], all under [tag]. *)
Definition holds (tag : string) (st : parse_state) (S : series) : Prop :=
  dict_get (stD st) tag = map fst S /\
  dict_get (stV st) tag = map (fun e => Some (snd e)) S /\
  (forall k, In k (dict_keys (stD st)) -> k = tag) /\
  (S <> [] -> In tag (dict_keys (stD st))).

(** The shift of offset [o] is a valid [timedelta], and it moves the
    pings between [first] and [last] to valid datetimes between [lo] and
    [hi]. *)
Definition shift_fits (c : config) (first last lo hi : Z) (o : R) : Prop :=
  Z.abs (shift_us c o / us_per_day) <= 999999999 /\
  in_datetime_range (first + shift_us c o) = true /\
  in_datetime_range (last + shift_us c o) = true /\
  lo <= first + shift_us c o /\
  last + shift_us c o <= hi.

(** Running [m] in the world [w] leaves the object [r] as it was, and
    removes no object. *)
Definition keeps_at {A : Type} (r : ref) (m : M A) (w : world) : Prop :=
  (r < List.length (heap w))%nat ->
  nth r (heap (snd (m w))) empty_frame = nth r (heap w) empty_frame /\
  (List.length (heap w) <= List.length (heap (snd (m w))))%nat.

(** ** Configurations and inputs of the examples *)

Definition UTC : Z -> Z := fun _ => 0.

Definition no_noise : nat -> R := fun _ => 0%R.

(** Labels as [random.choice] may build them. *)
Definition sample_labels : nat -> string :=
  fun i => match i with
           | O => "K3QZ"
           | S O => "7PLM"
           | _ => "ZZ9A"
           end.

(** 2014-06-01T00:00:00, a [now] after the examples' pings. *)
Definition now_2014 : datetime := 1401580800 * us_per_second.

(** The defaults of [__init__] with smoothing switched off
    ([--no-smooth]). *)
Definition cfg_first : config :=
  {| skipweekdays := []; skiptags := []; interval := (3 / 4)%R;
     multitag := "first"; obfuscate := false; smooth := false;
     sigma := 1%R |}.

(** The same with [--smooth-sigma 0]. *)
Definition cfg_sigma_zero : config :=
  {| skipweekdays := []; skiptags := []; interval := (3 / 4)%R;
     multitag := "first"; obfuscate := false; smooth := false;
     sigma := 0%R |}.

(** The same with a sigma of [2 ^ 512], about 1.3e154. *)
Definition cfg_sigma_huge : config :=
  {| skipweekdays := []; skiptags := []; interval := (3 / 4)%R;
     multitag := "first"; obfuscate := false; smooth := false;
     sigma := (2 ^ 512)%R |}.

(** The same with Thursdays excluded ([--exclude-weekdays 3]). *)
Definition cfg_no_thursday : config :=
  {| skipweekdays := [3]; skiptags := []; interval := (3 / 4)%R;
     multitag := "first"; obfuscate := false; smooth := false;
     sigma := 1%R |}.

(** The configuration of the three-line scenario. *)
Definition cfg_split : config :=
  {| skipweekdays := []; skiptags := []; interval := 1%R;
     multitag := "split"; obfuscate := false; smooth := false;
     sigma := 1%R |}.

(** The same with a sigma of 0. *)
Definition cfg_split_sigma_zero : config :=
  {| skipweekdays := []; skiptags := []; interval := 1%R;
     multitag := "split"; obfuscate := false; smooth := false;
     sigma := 0%R |}.

(** The same with a sigma of [2 ^ 512]. *)
Definition cfg_split_sigma_huge : config :=
  {| skipweekdays := []; skiptags := []; interval := 1%R;
     multitag := "split"; obfuscate := false; smooth := false;
     sigma := (2 ^ 512)%R |}.

(** The same with [--obfuscate]. *)
Definition cfg_obfuscate : config :=
  {| skipweekdays := []; skiptags := []; interval := 1%R;
     multitag := "split"; obfuscate := true; smooth := false;
     sigma := 1%R |}.

(** Smoothing on, [sigma = 1]. *)
Definition cfg_smooth : config :=
  {| skipweekdays := []; skiptags := []; interval := (3 / 4)%R;
     multitag := "first"; obfuscate := false; smooth := true;
     sigma := 1%R |}.

(** Smoothing on with a sigma of 0.001, and draws that are all 0.05. *)
Definition cfg_smooth_small : config :=
  {| skipweekdays := []; skiptags := []; interval := (3 / 4)%R;
     multitag := "first"; obfuscate := false; smooth := true;
     sigma := (1 / 1000)%R |}.

Definition noise_twentieth : nat -> R := fun _ => (1 / 20)%R.

(** Smoothing on with a sigma of [2 ^ 511]: the square of sigma is in
    range, the square of the first offset, [-2 ^ 512], is not. *)
Definition cfg_smooth_huge : config :=
  {| skipweekdays := []; skiptags := []; interval := (3 / 4)%R;
     multitag := "first"; obfuscate := false; smooth := true;
     sigma := (2 ^ 511)%R |}.

(** Smoothing on with a sigma of -1. *)
Definition cfg_smooth_negative : config :=
  {| skipweekdays := []; skiptags := []; interval := (3 / 4)%R;
     multitag := "first"; obfuscate := false; smooth := true;
     sigma := (-1)%R |}.

(** A log whose third line has a timestamp that is not a number. *)
Definition log_bad_third : list string :=
  ["1400000000 work"; "1400002700 mail"; "14oops000 work"].

Definition nl : string := String Regex.newline EmptyString.

(** The three-line scenario, as a text file yields its lines: each ends
    with a newline. *)
Definition log_three_lines : list string :=
  [("1400000000 tagA" ++ nl)%string;
   ("1400003600 tagB" ++ nl)%string;
   ("1400007200 tagA tagB" ++ nl)%string].

(** The same lines with the annotation that the TagTime application
    writes. *)
Definition log_three_annotated : list string :=
  [("1400000000 tagA [2014.05.13 16:53:20 TUE]" ++ nl)%string;
   ("1400003600 tagB [2014.05.13 17:53:20 TUE]" ++ nl)%string;
   ("1400007200 tagA tagB [2014.05.13 18:53:20 TUE]" ++ nl)%string].

(** The same lines without terminator, as a list of strings passed as
    handle yields them. *)
Definition log_three_bare : list string :=
  ["1400000000 tagA"; "1400003600 tagB"; "1400007200 tagA tagB"].

(** The table of the three-line scenario, and the log object and the
    world that [__init__] leaves for it: the frame built by the parser
    and the trimmed frame that [self.D] names. *)
Definition table_three : frame :=
  {| index := [1400000000000000; 1400003600000000; 1400007200000000];
     columns :=
       [("tagA", [(1400000000000000, (1 * (1 / 1))%R);
                  (1400007200000000, (1 * (1 / (1 + 1)))%R)]);
        ("tagB", [(1400003600000000, (1 * (1 / 1))%R);
                  (1400007200000000, (1 * (1 / (1 + 1)))%R)])] |}.

Definition world_three : world :=
  {| heap := [table_three; table_three]; draws := 0 |}.

Definition log_three : TagTimeLog :=
  {| cfg := cfg_split; selfD := 1%nat; rng := (16203, 16203) |}.

Definition log_three_obfuscated : TagTimeLog :=
  {| cfg := cfg_obfuscate; selfD := 1%nat; rng := (16203, 16203) |}.

(** A log of seven pings, one a day at noon from Monday 2014-05-12, all
    tagged work, and its configuration: an interval of 24 hours. *)
Definition log_week : list string :=
  ["1399896000 work"; "1399982400 work"; "1400068800 work";
   "1400155200 work"; "1400241600 work"; "1400328000 work";
   "1400414400 work"].

Definition cfg_daily : config :=
  {| skipweekdays := []; skiptags := []; interval := 24%R;
     multitag := "first"; obfuscate := false; smooth := false;
     sigma := 1%R |}.

(** The same with a sigma of 0, the table of the daily log under it (a
    column of nan) and its log object; and with a sigma of [2 ^ 512]. *)
Definition cfg_daily_sigma_zero : config :=
  {| skipweekdays := []; skiptags := []; interval := 24%R;
     multitag := "first"; obfuscate := false; smooth := false;
     sigma := 0%R |}.

Definition table_week_nan : frame :=
  {| index := [1399896000000000; 1399982400000000; 1400068800000000;
               1400155200000000; 1400241600000000; 1400328000000000;
               1400414400000000];
     columns := [("work", [])] |}.

Definition self_week_nan : TagTimeLog :=
  {| cfg := cfg_daily_sigma_zero; selfD := 1%nat; rng := (16202, 16208) |}.

Definition cfg_daily_sigma_huge : config :=
  {| skipweekdays := []; skiptags := []; interval := 24%R;
     multitag := "first"; obfuscate := false; smooth := false;
     sigma := (2 ^ 512)%R |}.

(** The daily log smoothed with [sigma = 1]: twelve offsets, eight hours
    apart, from two days before each ping. *)
Definition cfg_daily_smooth : config :=
  {| skipweekdays := []; skiptags := []; interval := 24%R;
     multitag := "first"; obfuscate := false; smooth := true;
     sigma := 1%R |}.

(** A week of two pings, 84 hours apart: Monday 2014-05-12 at 00:00 and
    Thursday at 12:00; its configuration, its table and its log
    object. *)
Definition log_sparse : list string :=
  ["1399852800 work"; "1400155200 work"].

Definition cfg_sparse : config :=
  {| skipweekdays := []; skiptags := []; interval := 84%R;
     multitag := "first"; obfuscate := false; smooth := false;
     sigma := 1%R |}.

Definition table_sparse : frame :=
  {| index := [1399852800000000; 1400155200000000];
     columns :=
       [("work", [(1399852800000000, (1 * 84)%R);
                  (1400155200000000, (1 * 84)%R)])] |}.

Definition self_sparse : TagTimeLog :=
  {| cfg := cfg_sparse; selfD := 1%nat; rng := (16202, 16205) |}.

(** Evaluation of frames up to the arithmetic of the reals. *)
Ltac eval_frames :=
  cbv -[Rplus Rmult Rdiv Rinv Rminus Ropp IZR Rle_dec Req_dec_T exp].

(** * Further parts of the script

    The functions of [pytagtime.py] beside the parser and the three
    views above: the relative dates of the command line ([reldate]), the
    hour views ([hour_sums] and [hour_of_the_week]), and the lines of
    [main] that turn the parsed arguments into a [TagTimeLog]. *)

(** ** Relative dates ([reldate])

    A [datetime.date] is its number of days since 1970-01-01, between
    [date.min] (0001-01-01) and [date.max] (9999-12-31). *)

Definition date_min : Z := - 719162.
Definition date_max : Z := 2932896.

(** [datetime.timedelta(days=n)], in days. *)
Definition timedelta_days (n : Z) : result Z :=
  if Z.abs n <=? 999999999 then Ok n
  else Raise (OverflowError "days must have magnitude <= 999999999").

(** [d - td] for a date [d]. *)
Definition date_sub (d td : Z) : result Z :=
  if (date_min <=? d - td) && (d - td <=? date_max) then Ok (d - td)
  else Raise (OverflowError "date value out of range").

(** [datetime.datetime(d.year, d.month, d.day)] *)
Definition midnight (d : Z) : datetime := d * us_per_day.

(** The exceptions of [reldate]: those of the parser, and two more. *)
Inductive reldate_exn : Type :=
| Builtin (e : exn)
| AttributeError (msg : string)
| RuntimeError (msg : string).

Inductive outcome (A : Type) : Type :=
| Returns (a : A)
| Raises (e : reldate_exn).

Arguments Returns {A} a.
Arguments Raises {A} e.

Definition outcome_of {A : Type} (r : result A) : outcome A :=
  match r with
  | Ok a => Returns a
  | Raise e => Raises (Builtin e)
  end.

(** The longest prefix of decimal digits of a string, and the rest. *)
Fixpoint leading_digits (s : string) : string * string :=
  match s with
  | EmptyString => (EmptyString, EmptyString)
  | String c s' =>
      match digit_of c with
      | Some _ => (String c (fst (leading_digits s')), snd (leading_digits s'))
      | None => (EmptyString, s)
      end
  end.

(** [re.search(r'^(\d+)([DWM])', s)]: the two groups of the match, if
    there is one.  [^] admits the start of the string only; the greedy
    [\d+] takes every leading digit, and giving digits back cannot help,
    since a digit would then stand where one of [DWM] is required. *)
Definition reldate_groups (s : string) : option (string * ascii) :=
  match leading_digits s with
  | (String d ds, String f _) =>
      if (Ascii.eqb f "D" || Ascii.eqb f "W" || Ascii.eqb f "M")%bool
      then Some (String d ds, f)
      else None
  | _ => None
  end.

(** [reldate(s)]; [today] is [datetime.date.today()]. *)
Definition reldate (today : Z) (s : string) : outcome datetime :=
  match reldate_groups s with
  | None => Raises (AttributeError "'NoneType' object has no attribute 'group'")
  | Some (ds, f) =>
      match py_int ds with
      | Raise e => Raises (Builtin e)
      | Ok n =>
          let d :=
            if Ascii.eqb f "D" then
              outcome_of (td <- timedelta_days n ;; date_sub today td)
            else if Ascii.eqb f "W" then
              outcome_of (td <- timedelta_days (7 * n) ;; date_sub today td)
            else if Ascii.eqb f "M" then
              outcome_of (td <- timedelta_days (7 * (n * 4)) ;; date_sub today td)
            else
              Raises (RuntimeError ("Unknown relative date format: " ++ s)%string)
          in
          match d with
          | Returns d => Returns (midnight d)
          | Raises e => Raises e
          end
      end
  end.

(** Every character of the string is a decimal digit. *)
Fixpoint all_digits (s : string) : bool :=
  match s with
  | EmptyString => true
  | String c s' =>
      match digit_of c with
      | Some _ => all_digits s'
      | None => false
      end
  end.

(** The number of days that one unit of a relative date stands for. *)
Definition unit_days (f : ascii) : option Z :=
  if Ascii.eqb f "D" then Some 1
  else if Ascii.eqb f "W" then Some 7
  else if Ascii.eqb f "M" then Some 28
  else None.

(** ** The hour views *)

(** [dt.hour] *)
Definition hour_of (dt : datetime) : Z := (dt mod us_per_day) / us_per_hour.

(** [resolution * (D.index.hour / resolution)] on integer arrays: the
    division rounds down, and numpy gives 0 where the divisor is 0. *)
Definition hour_bucket (resolution : Z) (t : Z) : Z :=
  resolution * (hour_of t / resolution).

(** The group [(weekday, bucket)] of [hour_of_the_week] as one label: the
    weekday counts [24 + |resolution|], which is more than any bucket, so
    that the labels are ordered as the pairs are. *)
Definition week_hour_bucket (resolution : Z) (t : Z) : Z :=
  weekday t * (24 + Z.abs resolution) + hour_bucket resolution t.

(** [F.groupby(key, sort=True).sum()] for the key [key t] of the row
    [t]: one row per key that occurs, in increasing order; a cell is the
    sum of the column's entries with that key, NaN without entries. *)
Definition groupby_sum (key : Z -> Z) (F : frame) : frame :=
  let present := uniq (sort_by Z.leb (map key (index F))) in
  {| index := present;
     columns :=
       map (fun c =>
              (fst c,
               tabulate
                 (fun g =>
                    nansum (map snd (filter (fun e => key (fst e) =? g) (snd c))))
                 present))
           (columns F) |}.

(** Lines 208-211 of [hour_sums]: the sums per bucket, every bucket
    rescaled to 60 minutes. *)
Definition hour_shares (key : Z -> Z) (F : frame) : frame :=
  scale_rows 60 (row_sums (groupby_sum key F)) (groupby_sum key F).

Section HourViews.

Variable labels : nat -> string.

(** Lines 201-207, the same in the three views that sort their tags:
    the tags and the frame that the view works on, with the column
    [other] if asked for.  With [tags = None] the call
    [self.top_n_tags(1000)] lacks an argument. *)
Definition sorted_view (self : TagTimeLog) (tags : option (list string))
    (top_n : option Z) (other : bool) : M ref :=
  tags <~ view_tags self tags top_n ;;
  tags <~ match tags with
          | Some ts => ret (Some ts)
          | None =>
              raise (TypeError "top_n_tags() takes exactly 3 arguments (2 given)")
          end ;;
  D <~ view_frame self tags ;;
  _ <~ (if other then add_other self D tags else ret tt) ;;
  ret D.

(** [hour_sums]; the result is the frame that is plotted. *)
Definition hour_sums (self : TagTimeLog) (tags : option (list string))
    (top_n : option Z) (resolution : Z) (other : bool) : M frame :=
  D <~ sorted_view self tags top_n other ;;
  F <~ load D ;;
  D <~ alloc (groupby_sum (hour_bucket resolution) F) ;;
  F <~ load D ;;
  _ <~ store D (scale_rows 60 (row_sums F) F) ;;
  _ <~ _obfuscate labels self D ;;
  if String.eqb (multitag (cfg self)) "double" then
    F <~ load D ;;
    D <~ alloc (fillna0 F) ;;
    load D
  else load D.

(** [hour_of_the_week]; the result is the frame that is plotted. *)
Definition hour_of_the_week (self : TagTimeLog) (tags : option (list string))
    (top_n : option Z) (resolution : Z) (other : bool) : M frame :=
  D <~ sorted_view self tags top_n other ;;
  F <~ load D ;;
  D <~ alloc (groupby_sum (week_hour_bucket resolution) F) ;;
  F <~ load D ;;
  _ <~ store D (scale_rows 60 (row_sums F) F) ;;
  F <~ load D ;;
  D <~ alloc (fillna0 F) ;;
  _ <~ _obfuscate labels self D ;;
  load D.

End HourViews.

(** ** From the arguments to the log object ([main], lines 385-405) *)

(** The arguments that these lines read, as [argparse] leaves them. *)
Record arguments : Type := {
  arg_exclude_weekdays : list Z;
  arg_include_weekdays : list Z;
  arg_exclude_tags : list string;
  arg_interval : R;
  arg_multitag : string;
  arg_rstart : option datetime;
  arg_rend : option datetime;
  arg_start : option datetime;
  arg_end : option datetime;
  arg_obfuscate : bool;
  arg_no_now : bool;
  arg_smooth_sigma : R;
  arg_no_smooth : bool
}.

(** The [type] of [--exclude-weekdays] and [--include-weekdays]:
    [[int(x) for x in s]]. *)
Fixpoint weekday_list (s : string) : result (list Z) :=
  match s with
  | EmptyString => Ok []
  | String x s' =>
      d <- py_int (String x EmptyString) ;;
      l <- weekday_list s' ;;
      Ok (d :: l)
  end.

(** [np.setdiff1d(a, b)]: the sorted distinct values of [a] that are not
    in [b]. *)
Definition setdiff1d (a b : list Z) : list Z :=
  filter (fun x => negb (Z_in x b)) (uniq (sort_by Z.leb a)).

(** Lines 385-386: the weekdays to skip. *)
Definition exclude_weekdays (a : arguments) : list Z :=
  if (List.length (arg_include_weekdays a) =? 7)%nat
  then arg_exclude_weekdays a
  else setdiff1d weekdays (arg_include_weekdays a).

(** Lines 388-389: [show_now]; [now] is [datetime.datetime.now()]. *)
Definition show_now (a : arguments) (now : datetime) : bool :=
  if Z_in (weekday now) (exclude_weekdays a) then false else arg_no_now a.

(** Lines 391-394: the bounds. *)
Definition startend_of (a : arguments) : option datetime * option datetime :=
  (match arg_rstart a with Some s => Some s | None => arg_start a end,
   match arg_rend a with Some e => Some e | None => arg_end a end).

(** Lines 396-405: the attributes of the log object. *)
Definition config_of (a : arguments) : config :=
  {| skipweekdays := exclude_weekdays a;
     skiptags := arg_exclude_tags a;
     interval := arg_interval a;
     multitag := arg_multitag a;
     obfuscate := arg_obfuscate a;
     smooth := arg_no_smooth a;
     sigma := arg_smooth_sigma a |}.

(** Lines 385-405; [now] is the time at which [__init__] asks for it. *)
Definition main_log (utcoffset : Z -> Z) (a : arguments) (noise : nat -> R)
    (lines : list string) (now : datetime) : M TagTimeLog :=
  init utcoffset (config_of a) noise lines (startend_of a) now.

(** Arguments of an example: every weekday but Thursday is included,
    Monday is excluded as well, smoothing is off
    ([--include-weekdays 012456 --exclude-weekdays 0 --no-smooth
    --smooth-sigma 1]). *)
Definition args_no_thursday : arguments :=
  {| arg_exclude_weekdays := [0];
     arg_include_weekdays := [0; 1; 2; 4; 5; 6];
     arg_exclude_tags := [];
     arg_interval := (3 / 4)%R;
     arg_multitag := "first";
     arg_rstart := None;
     arg_rend := None;
     arg_start := None;
     arg_end := None;
     arg_obfuscate := false;
     arg_no_now := true;
     arg_smooth_sigma := 1%R;
     arg_no_smooth := false |}.

(** ** The default bounds of [__init__]

    The default value of [startend] is one list, [[None, None]], made
    when the class is defined: every call that does not pass [startend]
    works on that list, and lines 77-80 write the bounds into it.
    [startend_after] is the list as a call leaves it: the assignments
    are reached when [_parse_file] has returned, and the first of them
    may raise. *)
Definition startend_after (utcoffset : Z -> Z) (c : config)
    (noise : nat -> R) (lines : list string)
    (startend : option Z * option Z) (now : datetime)
  : option Z * option Z :=
  match parse_file utcoffset c noise lines with
  | Raise _ => startend
  | Ok _ =>
      match (match fst startend with
             | Some s => Ok s
             | None => fromtimestamp utcoffset 1
             end) with
      | Raise _ => startend
      | Ok s =>
          (Some s, Some (match snd startend with Some e => e | None => now end))
      end
  end.

(** A call of [__init__] without [startend], at a moment when the
    default list holds [dflt]: the outcome of the call, and the default
    list after it. *)
Definition init_default (utcoffset : Z -> Z) (c : config) (noise : nat -> R)
    (lines : list string) (now : datetime) (dflt : option Z * option Z)
    (w : world) : (result TagTimeLog * world) * (option Z * option Z) :=
  (init utcoffset c noise lines dflt now w,
   startend_after utcoffset c noise lines dflt now).

(** ** More notions used by the statements *)

(** The number of entries of a dictionary of lists. *)
Definition n_recorded {A : Type} (d : dict A) : nat :=
  list_sum (map (fun kv => List.length (snd kv)) d).

(** The tag occurrences that the loop iterates over, over all samples. *)
Definition n_occurrences (c : config) (samples : list (datetime * list string))
  : nat :=
  list_sum (map (fun smp => List.length (selected_tags c (snd smp))) samples).

(** A whitespace character, and strings of them or without them. *)
Fixpoint all_space (s : string) : bool :=
  match s with
  | EmptyString => true
  | String c s' => Regex.isspace c && all_space s'
  end.

Fixpoint no_space (s : string) : bool :=
  match s with
  | EmptyString => true
  | String c s' => negb (Regex.isspace c) && no_space s'
  end.

Fixpoint has_char (a : ascii) (s : string) : bool :=
  match s with
  | EmptyString => false
  | String c s' => Ascii.eqb c a || has_char a s'
  end.

(** The string is not empty and does not end with whitespace. *)
Fixpoint ends_nonspace (s : string) : bool :=
  match s with
  | EmptyString => false
  | String c EmptyString => negb (Regex.isspace c)
  | String _ s' => ends_nonspace s'
  end.

(** A field of a line: not empty, without whitespace and without an
    opening bracket. *)
Definition is_field (s : string) : bool :=
  match s with
  | EmptyString => false
  | _ => no_space s && negb (has_char "[" s)
  end.

(** The annotation pattern after its leading [\s*], after its [.*?], and
    after its last [\s*]. *)
Definition after_spaces : string -> option string :=
  Regex.match_here (skipn 1 Regex.annotation).

Definition closing : string -> option string :=
  Regex.match_here (skipn 3 Regex.annotation).

Definition the_end : string -> option string :=
  Regex.match_here (skipn 5 Regex.annotation).

(** The fields written one after the other, a blank before each. *)
Fixpoint blank_before (fields : list string) : string :=
  match fields with
  | [] => EmptyString
  | f :: fields' => (" " ++ f ++ blank_before fields')%string
  end.

(** A line of the log: the timestamp and the tags, separated by blanks. *)
Definition join_fields (f0 : string) (tags : list string) : string :=
  (f0 ++ blank_before tags)%string.

(** All values of a frame are positive. *)
Definition positive_frame (F : frame) : Prop :=
  forall c e, In c (columns F) -> In e (snd c) -> (0 < snd e)%R.

(** The column totals of a frame, in the order of its columns. *)
Definition column_totals (F : frame) : list R :=
  map (fun c => col_sum (snd c)) (columns F).

(** * Lemmas and theorems *)

(** ** Real-number helpers *)

Section RealHelpers.

Local Open Scope R_scope.

Lemma Rsum_app (l1 l2 : list R) : Rsum (l1 ++ l2) = Rsum l1 + Rsum l2.
Proof.
  induction l1 as [|x l1 IH]; simpl.
  - lra.
  - rewrite IH. lra.
Qed.

Lemma Rsum_map_div (l : list R) (d : R) :
  Rsum (map (fun x => x / d) l) = Rsum l / d.
Proof.
  induction l as [|x l IH]; simpl.
  - unfold Rdiv. lra.
  - rewrite IH. unfold Rdiv. lra.
Qed.

Lemma Rsum_pos (l : list R) :
  l <> [] -> (forall x, In x l -> 0 < x) -> 0 < Rsum l.
Proof.
  induction l as [|x l IH]; intros Hne Hpos.
  - congruence.
  - simpl. destruct l as [|y l].
    + simpl. specialize (Hpos x (or_introl eq_refl)). lra.
    + assert (0 < Rsum (y :: l)).
      { apply IH; [discriminate | intros z Hz; apply Hpos; right; exact Hz]. }
      specialize (Hpos x (or_introl eq_refl)). lra.
Qed.

Lemma round_half_away_0 : round_half_away 0 = 0%Z.
Proof.
  unfold round_half_away. destruct (Rle_dec 0 0) as [_|H]; [|lra].
  apply Zfloor_eq. simpl. lra.
Qed.

Lemma Zceil_pos (x : R) : 0 < x -> (1 <= Zceil x)%Z.
Proof.
  intros Hx. destruct (Zceil_bound x) as [_ Hub].
  assert (H : 0 < IZR (Zceil x)) by lra.
  apply lt_IZR in H. lia.
Qed.

End RealHelpers.

(** ** Dictionaries *)

Section Dicts.

Context {A : Type}.

Lemma dict_get_append (k t : string) (x : A) (d : dict A) :
  dict_get (dict_append k x d) t =
  if String.eqb t k then dict_get d t ++ [x] else dict_get d t.
Proof.
  induction d as [|[k' l] d IH]; simpl.
  - destruct (String.eqb t k); reflexivity.
  - destruct (String.eqb k k') eqn:Ekk; simpl.
    + apply String.eqb_eq in Ekk. subst k'.
      destruct (String.eqb t k); reflexivity.
    + destruct (String.eqb t k') eqn:Etk'.
      * apply String.eqb_eq in Etk'. subst k'.
        rewrite String.eqb_sym, Ekk. reflexivity.
      * exact IH.
Qed.

Lemma dict_keys_append (k : string) (x : A) (d : dict A) :
  dict_keys (dict_append k x d) =
  if str_in k (dict_keys d) then dict_keys d else dict_keys d ++ [k].
Proof.
  unfold str_in, dict_keys.
  induction d as [|[k' l] d IH]; cbn [dict_append map fst existsb].
  - reflexivity.
  - destruct (String.eqb k k'); cbn [map fst orb].
    + reflexivity.
    + rewrite IH.
      destruct (existsb (String.eqb k) (map fst d)); reflexivity.
Qed.

End Dicts.

Lemma sum_numbers_app (l1 l2 : list (option R)) :
  (sum_numbers (l1 ++ l2) = sum_numbers l1 + sum_numbers l2)%R.
Proof.
  induction l1 as [|[x|] l1 IH]; cbn [app sum_numbers].
  - lra.
  - rewrite IH. lra.
  - exact IH.
Qed.

Lemma sum_numbers_some (l : list R) : sum_numbers (map Some l) = Rsum l.
Proof.
  induction l as [|x l IH]; cbn [map sum_numbers Rsum]; [reflexivity|].
  rewrite IH. reflexivity.
Qed.

Lemma dict_total_append (k : string) (x : option R) (d : dict (option R)) :
  (dict_total (dict_append k x d) = dict_total d + sum_numbers [x])%R.
Proof.
  unfold dict_total.
  induction d as [|[k' l] d IH]; cbn [dict_append map snd Rsum].
  - lra.
  - destruct (String.eqb k k'); cbn [map snd Rsum].
    + rewrite sum_numbers_app. lra.
    + rewrite IH. lra.
Qed.

(** ** Doubles that underflow *)

Section Underflow.

Local Open Scope R_scope.

Lemma tiny_pos : 0 < tiny.
Proof. unfold tiny. apply Rinv_0_lt_compat, pow_lt. lra. Qed.

Lemma pow2_1075_big : 10000 < 2 ^ 1075.
Proof.
  apply Rlt_le_trans with (2 ^ 14).
  - simpl. lra.
  - apply Rle_pow; [lra | lia].
Qed.

Lemma tiny_small : tiny < / 10000.
Proof.
  unfold tiny. apply Rinv_lt_contravar; [|exact pow2_1075_big].
  apply Rmult_lt_0_compat; [lra|]. apply pow_lt. lra.
Qed.

Lemma underflow_0 : underflow 0 = 0.
Proof.
  unfold underflow. destruct (Rle_dec (Rabs 0) tiny); reflexivity.
Qed.

Lemma underflow_above (x : R) : tiny < x -> underflow x = x.
Proof.
  intros H. unfold underflow. pose proof tiny_pos.
  destruct (Rle_dec (Rabs x) tiny) as [Hle|_]; [|reflexivity].
  rewrite Rabs_pos_eq in Hle by lra. lra.
Qed.

Lemma underflow_below (x : R) : 0 <= x <= tiny -> underflow x = 0.
Proof.
  intros H. unfold underflow.
  destruct (Rle_dec (Rabs x) tiny) as [_|Hn]; [reflexivity|].
  rewrite Rabs_pos_eq in Hn by lra. lra.
Qed.

Lemma underflow_cases (x : R) : underflow x = 0 \/ underflow x = x.
Proof.
  unfold underflow. destruct (Rle_dec (Rabs x) tiny); [left|right]; reflexivity.
Qed.

Lemma underflow_nonneg (x : R) : 0 <= x -> 0 <= underflow x <= x.
Proof.
  intros H. destruct (underflow_cases x) as [E|E]; rewrite E; lra.
Qed.

Lemma huge_big : 10000 < huge.
Proof.
  unfold huge. apply Rlt_le_trans with (2 ^ 14).
  - simpl. lra.
  - apply Rle_pow; [lra | lia].
Qed.

(** A sigma of 1, as in the examples, has a square that is not 0.0. *)
Lemma sigma_squares_one (c : config) : sigma c = 1 -> sigma_squares c.
Proof.
  intros E. unfold sigma_squares. rewrite E.
  pose proof tiny_small. pose proof huge_big. simpl. lra.
Qed.

Lemma py_square_fits (c : config) :
  sigma_squares c -> py_square (sigma c) = Ok (sigma c ^ 2).
Proof.
  intros [Hlo Hhi]. unfold py_square.
  destruct (Rlt_dec (sigma c ^ 2) huge) as [_|Hn]; [|contradiction].
  rewrite (underflow_above _ Hlo). reflexivity.
Qed.

Lemma py_square_underflows (x : R) : x ^ 2 <= tiny -> py_square x = Ok 0.
Proof.
  intros H. unfold py_square. pose proof tiny_small. pose proof huge_big.
  destruct (Rlt_dec (x ^ 2) huge) as [_|Hn]; [|lra].
  rewrite underflow_below; [reflexivity|].
  split; [apply pow2_ge_0 | exact H].
Qed.

Lemma py_square_overflows (x : R) :
  huge <= x ^ 2 ->
  py_square x = Raise (OverflowError "(34, 'Numerical result out of range')").
Proof.
  intros H. unfold py_square.
  destruct (Rlt_dec (x ^ 2) huge) as [Hlt|_]; [lra | reflexivity].
Qed.

End Underflow.

(** ** The unsmoothed parser *)

Section Unsmoothed.

Local Open Scope R_scope.

Lemma offsetlist_unsmoothed (c : config) (noise : nat -> R) :
  smooth c = false -> offsetlist c noise = [0].
Proof. intros H. unfold offsetlist. rewrite H. reflexivity. Qed.

Lemma pow2_0 : 0 ^ 2 = 0.
Proof. simpl. ring. Qed.

(** The weight of the offset 0 is 1 when the square of sigma is not
    0.0. *)
Lemma np_square_fits (o : R) :
  o ^ 2 < huge -> np_square o = Some (underflow (o ^ 2)).
Proof.
  intros H. unfold np_square.
  destruct (Rlt_dec (o ^ 2) huge) as [_|Hn]; [reflexivity | contradiction].
Qed.

Lemma np_square_overflows (o : R) : huge <= o ^ 2 -> np_square o = None.
Proof.
  intros H. unfold np_square.
  destruct (Rlt_dec (o ^ 2) huge) as [Hlt|_]; [lra | reflexivity].
Qed.

Lemma np_square_0 : np_square 0 = Some 0.
Proof.
  rewrite np_square_fits; rewrite pow2_0; [rewrite underflow_0; reflexivity|].
  pose proof huge_big. lra.
Qed.

Lemma raw_weight_zero_offset (s2 : R) : s2 <> 0 -> raw_weight s2 0 = Some 1.
Proof.
  intros H. unfold raw_weight, gaussian.
  destruct (Req_dec_T s2 0) as [E|_]; [contradiction|].
  rewrite np_square_0.
  replace (- 0 / s2) with 0 by (unfold Rdiv; ring).
  rewrite exp_0. f_equal. apply underflow_above.
  pose proof tiny_small. lra.
Qed.

(** It is nan when the square of sigma is 0.0. *)
Lemma raw_weight_zero_offset_nan : raw_weight 0 0 = None.
Proof.
  unfold raw_weight. rewrite np_square_0.
  destruct (Req_dec_T 0 0) as [_|E]; [|contradiction].
  destruct (Req_dec_T 0 0) as [_|E]; [reflexivity | contradiction].
Qed.

Lemma weights_zero_offset (c : config) :
  sigma_squares c -> weights c [0] = Ok [Some 1].
Proof.
  intros H. unfold weights. rewrite (py_square_fits c H). cbn [bind].
  unfold raw_weights, normalize. cbn [map np_sum].
  rewrite raw_weight_zero_offset
    by (destruct H as [H _]; pose proof tiny_pos; lra).
  destruct (Req_dec_T (1 + 0) 0) as [E|_]; [lra|].
  do 3 f_equal. field.
Qed.

Lemma weights_zero_offset_nan (c : config) :
  sigma c ^ 2 <= tiny -> weights c [0] = Ok [None].
Proof.
  intros H. unfold weights. rewrite (py_square_underflows _ H). cbn [bind].
  unfold raw_weights, normalize. cbn [map np_sum].
  rewrite raw_weight_zero_offset_nan. reflexivity.
Qed.

Lemma weights_overflow (c : config) (os : list R) :
  huge <= sigma c ^ 2 ->
  weights c os
  = Raise (OverflowError "(34, 'Numerical result out of range')").
Proof.
  intros H. unfold weights. rewrite (py_square_overflows _ H). reflexivity.
Qed.

Lemma timedelta_hours_zero (x : R) : timedelta_hours (0 * x) = Ok 0%Z.
Proof.
  unfold timedelta_hours.
  replace (0 * x * IZR us_per_hour) with 0 by ring.
  rewrite round_half_away_0. reflexivity.
Qed.

Lemma emit_zero_offset (c : config) (dt : datetime) (t : string) (d : R)
    (w : option R) (st : parse_state) :
  in_datetime_range dt = true ->
  emit c dt t d st (w, 0) =
  Ok (if Z_in (weekday dt) (skipweekdays c) then count_excluded st t
      else record_tag dt (np_mul w d) st t).
Proof.
  intros Hr. unfold emit. rewrite timedelta_hours_zero. simpl.
  unfold datetime_add. rewrite Z.add_0_r, Hr. simpl.
  destruct (Z_in (weekday dt) (skipweekdays c)); reflexivity.
Qed.

Lemma foldM_pure {X S : Type} (f : S -> X -> result S) (g : S -> X -> S)
    (l : list X) (s : S) :
  (forall s x, f s x = Ok (g s x)) ->
  foldM f l s = Ok (fold_left g l s).
Proof.
  intros Hfg. revert s. induction l as [|x l IH]; intros s; simpl.
  - reflexivity.
  - rewrite Hfg. simpl. apply IH.
Qed.

(** A sample with the single weight [w] at offset 0 records every
    selected tag occurrence once, at the time of the ping, or counts it
    as excluded. *)
Lemma process_sample_single (c : config) (w : option R) (dt : datetime)
    (tags : list string) (st : parse_state) :
  in_datetime_range dt = true ->
  process_sample c [w] [0] dt tags st
  = Ok (fold_left
          (fun st t =>
             if Z_in (weekday dt) (skipweekdays c) then count_excluded st t
             else record_tag dt
                    (np_mul w (tag_duration c (selected_tags c tags))) st t)
          (selected_tags c tags) st).
Proof.
  intros Hr. unfold process_sample. apply foldM_pure.
  intros s t. cbn [combine foldM fst snd].
  rewrite emit_zero_offset by exact Hr. cbn [bind].
  destruct (Z_in (weekday dt) (skipweekdays c)); reflexivity.
Qed.

(** An unsmoothed sample records every selected tag occurrence once, at
    the time of the ping, or counts it as excluded. *)
Lemma process_sample_unsmoothed (c : config) (dt : datetime)
    (tags : list string) (st : parse_state) :
  in_datetime_range dt = true ->
  process_sample c [Some 1] [0] dt tags st
  = Ok (ingest_unsmoothed c st (dt, tags)).
Proof.
  intros Hr. rewrite process_sample_single by exact Hr. reflexivity.
Qed.

Lemma grand_total_record (dt : datetime) (v : option R) (l : list string)
    (st : parse_state) :
  grand_total (fold_left (record_tag dt v) l st) =
  grand_total st + INR (List.length l) * sum_numbers [v].
Proof.
  revert st. induction l as [|t l IH]; intros st.
  - simpl. lra.
  - cbn [fold_left]. rewrite IH. unfold grand_total at 1. simpl stV.
    rewrite dict_total_append. fold (grand_total st).
    change (List.length (t :: l)) with (S (List.length l)).
    rewrite S_INR. lra.
Qed.

Lemma tag_total_record (dt : datetime) (v : option R) (l : list string)
    (st : parse_state) (t : string) :
  tag_total (fold_left (record_tag dt v) l st) t =
  tag_total st t + INR (count_occ string_dec l t) * sum_numbers [v].
Proof.
  revert st. induction l as [|x l IH]; intros st.
  - simpl. lra.
  - cbn [fold_left]. rewrite IH. unfold tag_total at 1. simpl stV.
    rewrite dict_get_append. fold (tag_total st t).
    simpl count_occ. destruct (string_dec x t) as [->|Hne].
    + rewrite String.eqb_refl, sum_numbers_app, S_INR.
      unfold tag_total. lra.
    + destruct (String.eqb t x) eqn:E.
      * apply String.eqb_eq in E. congruence.
      * unfold tag_total. lra.
Qed.

(** The values recorded under [t] by a sample. *)
Lemma values_record (dt : datetime) (v : option R) (l : list string)
    (st : parse_state) (t : string) :
  dict_get (stV (fold_left (record_tag dt v) l st)) t
  = dict_get (stV st) t ++ repeat v (count_occ string_dec l t).
Proof.
  revert st. induction l as [|x l IH]; intros st.
  - cbn [fold_left count_occ repeat]. rewrite app_nil_r. reflexivity.
  - cbn [fold_left]. rewrite IH. unfold record_tag. cbn [stV].
    rewrite dict_get_append. cbn [count_occ].
    destruct (string_dec x t) as [->|Hne].
    + rewrite String.eqb_refl, <- app_assoc. reflexivity.
    + destruct (String.eqb t x) eqn:E; [|reflexivity].
      apply String.eqb_eq in E. congruence.
Qed.

Lemma excluded_keeps_totals (l : list string) (st : parse_state) :
  stV (fold_left count_excluded l st) = stV st /\
  stD (fold_left count_excluded l st) = stD st /\
  n_excluded (fold_left count_excluded l st) =
  (n_excluded st + Z.of_nat (List.length l))%Z.
Proof.
  revert st. induction l as [|t l IH]; intros st.
  - simpl. repeat split. lia.
  - cbn [fold_left]. destruct (IH (count_excluded st t)) as (HV & HD & Hn).
    rewrite HV, HD, Hn. simpl. repeat split. lia.
Qed.

End Unsmoothed.


(** ** Claims about single samples *)

Section SampleClaims.

Local Open Scope R_scope.

Lemma selected_first_length (c : config) (tags : list string) :
  multitag c = "first"%string -> surviving_tags c tags <> [] ->
  List.length (selected_tags c tags) = 1%nat.
Proof.
  intros Hm Hne. unfold selected_tags. rewrite Hm. simpl.
  destruct (surviving_tags c tags); [congruence | reflexivity].
Qed.

(** A sample that records numbers leaves a state without nan as it
    is. *)
Lemma record_numbers (dt : datetime) (v : R) (l : list string)
    (st : parse_state) :
  no_nan st -> no_nan (fold_left (record_tag dt (Some v)) l st).
Proof.
  intros Hn t Hin. rewrite values_record in Hin.
  apply in_app_or in Hin. destruct Hin as [Hin|Hin].
  - exact (Hn t Hin).
  - apply repeat_spec in Hin. discriminate.
Qed.

Lemma sigma_zero_underflows (c : config) : sigma c = 0 -> sigma c ^ 2 <= tiny.
Proof. intros E. rewrite E, pow2_0. left. exact tiny_pos. Qed.

Lemma sigma_huge_overflows (c : config) :
  sigma c = 2 ^ 512 -> huge <= sigma c ^ 2.
Proof.
  intros E. rewrite E. unfold huge. rewrite <- pow_mult. apply Req_le.
  reflexivity.
Qed.

(** C1, as the code has it: with smoothing disabled, a sigma whose square
    is a double other than 0.0, and the multitag mode 'first' or 'split',
    a sample with a surviving tag whose weekday is not excluded is
    processed without error, records numbers only (no nan) and adds the
    interval to the recorded durations (in the arithmetic of the reals,
    the rounding of the doubles left out). *)
Theorem C1_sample_adds_interval (c : config) (noise : nat -> R)
    (dt : datetime) (tags : list string) (st : parse_state) :
  smooth c = false ->
  sigma_squares c ->
  multitag c = "first"%string \/ multitag c = "split"%string ->
  surviving_tags c tags <> [] ->
  in_datetime_range dt = true ->
  Z_in (weekday dt) (skipweekdays c) = false ->
  exists ws st',
    weights c (offsetlist c noise) = Ok ws /\
    process_sample c ws (offsetlist c noise) dt tags st = Ok st' /\
    (no_nan st -> no_nan st') /\
    grand_total st' = grand_total st + interval c.
Proof.
  intros Hs Hsig Hm Hne Hr Hw.
  rewrite (offsetlist_unsmoothed c noise Hs), (weights_zero_offset c Hsig).
  exists [Some 1]. rewrite process_sample_unsmoothed by exact Hr.
  unfold ingest_unsmoothed. cbn [fst snd].
  rewrite Hw. eexists. split; [reflexivity|]. split; [reflexivity|].
  split; [apply record_numbers|].
  rewrite (grand_total_record dt). cbn [sum_numbers]. destruct Hm as [Hm|Hm].
  - rewrite (selected_first_length c tags Hm Hne).
    unfold tag_duration. rewrite Hm. simpl. lra.
  - unfold selected_tags, tag_duration. rewrite Hm. simpl.
    assert (Hn : INR (List.length (surviving_tags c tags)) <> 0).
    { apply not_0_INR.
      destruct (surviving_tags c tags); [congruence | discriminate]. }
    field. exact Hn.
Qed.

Lemma C1_sample_adds_interval_witness :
  exists ws st',
    weights cfg_first (offsetlist cfg_first no_noise) = Ok ws /\
    process_sample cfg_first ws (offsetlist cfg_first no_noise)
                   1400000000000000%Z ["work"; "mail"]%string initial_state
    = Ok st' /\
    (no_nan initial_state -> no_nan st') /\
    grand_total st' = grand_total initial_state + interval cfg_first.
Proof.
  apply (C1_sample_adds_interval cfg_first no_noise 1400000000000000%Z
           ["work"; "mail"]%string initial_state).
  - reflexivity.
  - apply sigma_squares_one. reflexivity.
  - left. reflexivity.
  - discriminate.
  - reflexivity.
  - reflexivity.
Defined.

(** C1 as stated fails in three ways.  On an excluded weekday the sample
    has a surviving tag, smoothing is disabled and the mode is 'first',
    yet no duration is recorded at all.  With a sigma of 0 the single
    weight is [np.exp(-0.0 / 0.0)]: the duration that the sample records
    is nan, not the interval.  With a sigma of [2 ^ 512] the square of
    sigma is out of range: line 102 raises and no sample is processed. *)
Lemma C1_excluded_weekday_counterexample :
  (smooth cfg_no_thursday = false /\
   multitag cfg_no_thursday = "first"%string /\
   surviving_tags cfg_no_thursday ["work"%string] <> [] /\
   exists ws st',
     weights cfg_no_thursday (offsetlist cfg_no_thursday no_noise) = Ok ws /\
     process_sample cfg_no_thursday ws (offsetlist cfg_no_thursday no_noise)
                    0%Z ["work"%string] initial_state
     = Ok st' /\
     grand_total st' = 0 /\
     n_excluded st' = 1%Z /\
     grand_total st' <> grand_total initial_state + interval cfg_no_thursday) /\
  (smooth cfg_sigma_zero = false /\
   multitag cfg_sigma_zero = "first"%string /\
   surviving_tags cfg_sigma_zero ["work"%string] <> [] /\
   Z_in (weekday 1400000000000000%Z) (skipweekdays cfg_sigma_zero) = false /\
   exists st',
     weights cfg_sigma_zero (offsetlist cfg_sigma_zero no_noise) = Ok [None] /\
     process_sample cfg_sigma_zero [None] (offsetlist cfg_sigma_zero no_noise)
                    1400000000000000%Z ["work"%string] initial_state
     = Ok st' /\
     dict_get (stV st') "work" = [None] /\
     grand_total st' <> grand_total initial_state + interval cfg_sigma_zero) /\
  (smooth cfg_sigma_huge = false /\
   multitag cfg_sigma_huge = "first"%string /\
   weights cfg_sigma_huge (offsetlist cfg_sigma_huge no_noise)
   = Raise (OverflowError "(34, 'Numerical result out of range')")).
Proof.
  split; [|split].
  - split; [reflexivity|]. split; [reflexivity|]. split; [discriminate|].
    rewrite (offsetlist_unsmoothed cfg_no_thursday no_noise eq_refl).
    rewrite weights_zero_offset by (apply sigma_squares_one; reflexivity).
    do 2 eexists. split; [reflexivity|].
    rewrite process_sample_unsmoothed by reflexivity.
    split; [reflexivity|].
    unfold grand_total, dict_total. simpl. repeat split; lra.
  - split; [reflexivity|]. split; [reflexivity|]. split; [discriminate|].
    split; [reflexivity|].
    rewrite (offsetlist_unsmoothed cfg_sigma_zero no_noise eq_refl).
    rewrite weights_zero_offset_nan
      by (apply sigma_zero_underflows; reflexivity).
    rewrite process_sample_single by reflexivity.
    eexists. split; [reflexivity|]. split; [reflexivity|].
    split; [reflexivity|].
    unfold grand_total, dict_total. simpl. lra.
  - split; [reflexivity|]. split; [reflexivity|].
    apply weights_overflow, sigma_huge_overflows. reflexivity.
Qed.

(** C10: repeated tags of a line are processed per occurrence.  With
    smoothing disabled, a sigma whose square is a double other than 0.0
    and no weekday excluded, a sample records numbers only, and a tag
    that occurs k times among the n surviving tag occurrences of the
    sample gains k * (interval / n) under 'split' and k * interval under
    'double'. *)
Theorem C10_repeated_tags_count (c : config) (noise : nat -> R)
    (dt : datetime) (tags : list string) (st : parse_state) (t : string) :
  smooth c = false ->
  sigma_squares c ->
  skipweekdays c = [] ->
  in_datetime_range dt = true ->
  exists ws st',
    weights c (offsetlist c noise) = Ok ws /\
    process_sample c ws (offsetlist c noise) dt tags st = Ok st' /\
    (no_nan st -> no_nan st') /\
    (multitag c = "split"%string ->
     tag_total st' t =
     tag_total st t +
     INR (count_occ string_dec (surviving_tags c tags) t) *
     (interval c / INR (List.length (surviving_tags c tags)))) /\
    (multitag c = "double"%string ->
     tag_total st' t =
     tag_total st t +
     INR (count_occ string_dec (surviving_tags c tags) t) * interval c).
Proof.
  intros Hs Hsig Hw Hr.
  rewrite (offsetlist_unsmoothed c noise Hs), (weights_zero_offset c Hsig).
  exists [Some 1]. rewrite process_sample_unsmoothed by exact Hr.
  unfold ingest_unsmoothed. cbn [fst snd].
  rewrite Hw. eexists. split; [reflexivity|]. split; [reflexivity|].
  simpl Z_in. cbv iota. split; [apply record_numbers|].
  rewrite (tag_total_record dt). cbn [sum_numbers].
  split; intros Hm; unfold selected_tags, tag_duration; rewrite Hm; simpl;
    lra.
Qed.

Lemma C10_repeated_tags_count_witness :
  exists ws st',
    weights cfg_split (offsetlist cfg_split no_noise) = Ok ws /\
    process_sample cfg_split ws (offsetlist cfg_split no_noise)
                   1400000000000000%Z ["a"; "b"; "a"]%string initial_state
    = Ok st' /\
    (no_nan initial_state -> no_nan st') /\
    (multitag cfg_split = "split"%string ->
     tag_total st' "a" =
     tag_total initial_state "a" +
     INR (count_occ string_dec (surviving_tags cfg_split ["a"; "b"; "a"]%string) "a") *
     (interval cfg_split /
      INR (List.length (surviving_tags cfg_split ["a"; "b"; "a"]%string)))) /\
    (multitag cfg_split = "double"%string ->
     tag_total st' "a" =
     tag_total initial_state "a" +
     INR (count_occ string_dec (surviving_tags cfg_split ["a"; "b"; "a"]%string) "a") *
     interval cfg_split).
Proof.
  apply (C10_repeated_tags_count cfg_split no_noise 1400000000000000%Z
           ["a"; "b"; "a"]%string initial_state "a"%string).
  - reflexivity.
  - apply sigma_squares_one. reflexivity.
  - reflexivity.
  - reflexivity.
Defined.

(** C10 as stated fails in two ways.  With a sigma of 0 the single weight
    is [np.exp(-0.0 / 0.0)], and every occurrence of the tag records nan
    instead of its share of the interval.  With a sigma of [2 ^ 512] the
    square of sigma is out of range: line 102 raises and no sample is
    processed. *)
Lemma C10_sigma_zero_counterexample :
  (smooth cfg_split_sigma_zero = false /\
   skipweekdays cfg_split_sigma_zero = [] /\
   multitag cfg_split_sigma_zero = "split"%string /\
   exists st',
     weights cfg_split_sigma_zero (offsetlist cfg_split_sigma_zero no_noise)
     = Ok [None] /\
     process_sample cfg_split_sigma_zero [None]
       (offsetlist cfg_split_sigma_zero no_noise) 1400000000000000%Z
       ["a"; "b"; "a"]%string initial_state
     = Ok st' /\
     dict_get (stV st') "a" = [None; None] /\
     tag_total st' "a"
     <> tag_total initial_state "a" +
        INR (count_occ string_dec
               (surviving_tags cfg_split_sigma_zero ["a"; "b"; "a"]%string)
               "a") *
        (interval cfg_split_sigma_zero /
         INR (List.length
                (surviving_tags cfg_split_sigma_zero
                   ["a"; "b"; "a"]%string)))) /\
  (smooth cfg_split_sigma_huge = false /\
   skipweekdays cfg_split_sigma_huge = [] /\
   weights cfg_split_sigma_huge (offsetlist cfg_split_sigma_huge no_noise)
   = Raise (OverflowError "(34, 'Numerical result out of range')")).
Proof.
  split.
  - split; [reflexivity|]. split; [reflexivity|]. split; [reflexivity|].
    rewrite (offsetlist_unsmoothed cfg_split_sigma_zero no_noise eq_refl).
    rewrite weights_zero_offset_nan
      by (apply sigma_zero_underflows; reflexivity).
    rewrite process_sample_single by reflexivity.
    eexists. split; [reflexivity|]. split; [reflexivity|].
    split; [reflexivity|].
    unfold tag_total. simpl. lra.
  - split; [reflexivity|]. split; [reflexivity|].
    apply weights_overflow, sigma_huge_overflows. reflexivity.
Qed.

End SampleClaims.
(** ** The smoothing kernel *)

Section Smoothing.

Local Open Scope R_scope.

Lemma arange_length (a b s : R) :
  List.length (np_arange a b s) = Z.to_nat (Zceil ((b - a) / s)).
Proof. unfold np_arange. rewrite length_map, length_seq. reflexivity. Qed.

Lemma arange_In (a b s x : R) :
  In x (np_arange a b s) ->
  exists i : nat,
    (i < Z.to_nat (Zceil ((b - a) / s)))%nat /\ x = a + INR i * s.
Proof.
  unfold np_arange. intros H. apply in_map_iff in H.
  destruct H as (i & Hx & Hi). apply in_seq in Hi.
  exists i. split; [lia | symmetry; exact Hx].
Qed.

Lemma combine_seq_map {X : Type} (f : nat -> X) (n k i : nat) (x : X) :
  In (i, x) (combine (seq k n) (map f (seq k n))) -> x = f i.
Proof.
  revert k. induction n as [|n IH]; intros k H; simpl in H.
  - contradiction.
  - destruct H as [E|H].
    + inversion E. reflexivity.
    + exact (IH (S k) H).
Qed.

Lemma combine_map_self {X Y : Type} (f : X -> Y) (l : list X) :
  combine l (map f l) = map (fun i => (i, f i)) l.
Proof.
  induction l as [|x l IH]; cbn [map combine]; [reflexivity|].
  rewrite IH. reflexivity.
Qed.

(** The grid is half-open: it starts at [start] and stays below [stop]. *)
Lemma arange_bounds (a b s x : R) :
  0 < s -> In x (np_arange a b s) -> a <= x < b.
Proof.
  intros Hs H. apply arange_In in H. destruct H as (i & Hi & ->).
  assert (H0 : 0 <= INR i) by apply pos_INR.
  split; [nra|].
  destruct (Zceil_bound ((b - a) / s)) as [Hlo _].
  assert (Hi' : INR i <= IZR (Zceil ((b - a) / s)) - 1).
  { rewrite INR_IZR_INZ, <- minus_IZR. apply IZR_le. lia. }
  assert (Hq : INR i < (b - a) / s) by lra.
  apply (Rmult_lt_compat_r s) in Hq; [|exact Hs].
  unfold Rdiv in Hq. rewrite Rmult_assoc, Rinv_l, Rmult_1_r in Hq by lra.
  lra.
Qed.

Lemma offsetinterval_pos (c : config) :
  - (1 / 4) < sigma c -> 0 < offsetinterval c.
Proof. intros H. unfold offsetinterval. lra. Qed.

(** The offsets with smoothing: the points of the grid, each displaced by
    its draw. *)
Lemma offsetlist_smooth (c : config) (noise : nat -> R) :
  smooth c = true ->
  offsetlist c noise
  = map (fun i => grid_point c i + noise i) (seq 0 (grid_size c)).
Proof.
  intros Hsm. unfold offsetlist. rewrite Hsm. rewrite arange_length.
  fold (grid_size c). unfold np_arange. fold (grid_size c).
  rewrite combine_map_self, map_map. reflexivity.
Qed.

(** The grid holds the points below [2 sigma], and no other. *)
Lemma grid_size_spec (c : config) (i : nat) :
  - (1 / 4) < sigma c ->
  (i < grid_size c)%nat <-> grid_point c i < 2 * sigma c.
Proof.
  intros Hsig. pose proof (offsetinterval_pos c Hsig) as Hs.
  unfold grid_size, grid_point.
  set (q := (2 * sigma c - -2 * sigma c) / offsetinterval c).
  assert (Hq : q * offsetinterval c = 2 * sigma c - -2 * sigma c).
  { unfold q. field. lra. }
  destruct (Zceil_bound q) as [Hlo Hhi].
  split.
  - intros Hi.
    assert (Hi' : INR i <= IZR (Zceil q) - 1).
    { rewrite INR_IZR_INZ, <- minus_IZR. apply IZR_le. lia. }
    assert (Hlt : INR i < q) by lra.
    apply (Rmult_lt_compat_r (offsetinterval c)) in Hlt; [|exact Hs]. lra.
  - intros Hi.
    assert (Hlt : INR i < q).
    { apply (Rmult_lt_reg_r (offsetinterval c)); [exact Hs|]. lra. }
    assert (Hz : IZR (Z.of_nat i) < IZR (Zceil q)).
    { rewrite <- INR_IZR_INZ. lra. }
    apply lt_IZR in Hz. lia.
Qed.

Lemma grid_nonempty (c : config) : 0 < sigma c -> (1 <= grid_size c)%nat.
Proof.
  intros H.
  assert (H0 : (0 < grid_size c)%nat).
  { apply grid_size_spec; [lra|]. unfold grid_point. simpl INR. lra. }
  lia.
Qed.

Lemma offsetlist_nonempty (c : config) (noise : nat -> R) :
  0 < sigma c -> offsetlist c noise <> [].
Proof.
  intros H. unfold offsetlist. destruct (smooth c) eqn:Hsm; [|discriminate].
  pose proof (grid_nonempty c H) as Hn.
  intros E. apply (f_equal (@List.length R)) in E.
  rewrite length_map, length_combine, arange_length, length_seq, Nat.min_id
    in E.
  fold (grid_size c) in E. simpl in E. lia.
Qed.

(** With smoothing, every offset is a grid point below [2 sigma]
    displaced by its draw. *)
Lemma offsetlist_smooth_In (c : config) (noise : nat -> R) (o : R) :
  - (1 / 4) < sigma c ->
  smooth c = true ->
  In o (offsetlist c noise) ->
  exists i : nat,
    o = -2 * sigma c + INR i * ((4 * sigma c + 1) / 15) + noise i /\
    -2 * sigma c <= -2 * sigma c + INR i * ((4 * sigma c + 1) / 15)
    < 2 * sigma c.
Proof.
  intros Hsig Hsm Ho. rewrite (offsetlist_smooth c noise Hsm) in Ho.
  apply in_map_iff in Ho. destruct Ho as (i & <- & Hi).
  apply in_seq in Hi.
  assert (Hlt : grid_point c i < 2 * sigma c)
    by (apply grid_size_spec; [exact Hsig | lia]).
  pose proof (offsetinterval_pos c Hsig) as Hs.
  pose proof (pos_INR i) as H0.
  unfold grid_point, offsetinterval in *.
  exists i. split; [reflexivity|]. split; [nra | exact Hlt].
Qed.

(** Every offset is within 0.1 of the half-open range of the grid. *)
Lemma offsetlist_bounds (c : config) (noise : nat -> R) (o : R) :
  - (1 / 4) < sigma c ->
  smooth c = true ->
  uniform_draws noise ->
  In o (offsetlist c noise) ->
  -2 * sigma c - 1 / 10 <= o < 2 * sigma c + 1 / 10.
Proof.
  intros Hsig Hsm Hn Ho.
  destruct (offsetlist_smooth_In c noise o Hsig Hsm Ho) as (i & Hi & Hge & Hlt).
  specialize (Hn i). lra.
Qed.

(** With sigma = 1 no admissible displacement makes the list symmetric:
    the first offset is below -1.9, and every offset is below 1.9. *)
Lemma sigma_one_never_symmetric (c : config) (noise : nat -> R) :
  sigma c = 1 -> smooth c = true ->
  uniform_draws noise -> ~ symmetric_offsets (offsetlist c noise).
Proof.
  intros E1 Hsm Hn Hsym.
  assert (Hsig : - (1 / 4) < sigma c) by lra.
  assert (Hin : In (-2 + noise 0%nat) (offsetlist c noise)).
  { rewrite (offsetlist_smooth c noise Hsm).
    pose proof (grid_nonempty c ltac:(lra)) as Hlen.
    destruct (grid_size c) as [|n]; [lia|].
    cbn [seq map]. left. unfold grid_point. rewrite E1. simpl INR. lra. }
  apply Hsym in Hin.
  apply (offsetlist_smooth_In c noise _ Hsig Hsm) in Hin.
  destruct Hin as (i & Ho & _ & Hlt). rewrite E1 in *.
  assert (Hi : INR i < 12) by lra.
  assert (Hi' : (i < 12)%nat).
  { apply INR_lt. replace (INR 12) with 12 by (simpl; lra). exact Hi. }
  assert (Hi'' : INR i <= 11).
  { replace 11 with (INR 11) by (simpl; lra). apply le_INR. lia. }
  pose proof (Hn i) as Hni. pose proof (Hn 0%nat) as Hn0. lra.
Qed.



(** Without displacements the grid contains [-2 sigma] but not
    [2 sigma]. *)
Lemma grid_not_symmetric (c : config) :
  0 < sigma c -> smooth c = true ->
  ~ symmetric_offsets (offsetlist c no_noise).
Proof.
  intros Hsig Hsm Hsym.
  assert (Hin : In (-2 * sigma c) (offsetlist c no_noise)).
  { rewrite (offsetlist_smooth c no_noise Hsm).
    pose proof (grid_nonempty c Hsig) as Hn.
    destruct (grid_size c) as [|n]; [lia|].
    cbn [seq map]. left. unfold grid_point, no_noise. simpl INR. lra. }
  apply Hsym in Hin.
  assert (Hs : - (1 / 4) < sigma c) by lra.
  destruct (offsetlist_smooth_In c no_noise _ Hs Hsm Hin) as (i & Ho & _ & Hlt).
  unfold no_noise in Ho. lra.
Qed.


(** *** The weights *)

Lemma np_sum_some (l : list R) : np_sum (map Some l) = Some (Rsum l).
Proof.
  induction l as [|x l IH]; cbn [map np_sum Rsum]; [reflexivity|].
  rewrite IH. reflexivity.
Qed.

(** Numbers whose sum is not zero are divided by their sum. *)
Lemma normalize_some (l : list R) :
  Rsum l <> 0 ->
  normalize (map Some l) = map Some (map (fun x => x / Rsum l) l).
Proof.
  intros H. unfold normalize. rewrite np_sum_some, !map_map.
  apply map_ext. intros x.
  destruct (Req_dec_T (Rsum l) 0) as [E|_]; [contradiction | reflexivity].
Qed.

(** Numbers whose sum is zero become nan. *)
Lemma normalize_zero (l : list R) :
  Rsum l = 0 -> normalize (map Some l) = map (fun _ => None) l.
Proof.
  intros H. unfold normalize. rewrite np_sum_some, map_map.
  apply map_ext. intros x.
  destruct (Req_dec_T (Rsum l) 0) as [_|E]; [reflexivity | contradiction].
Qed.

(** There is one weight per offset. *)
Lemma weights_length (c : config) (os : list R) (ws : list (option R)) :
  weights c os = Ok ws -> List.length ws = List.length os.
Proof.
  unfold weights. destruct (py_square (sigma c)) as [s2|e]; cbn [bind];
    [|discriminate].
  intros H. inversion H. unfold normalize, raw_weights.
  rewrite !length_map. reflexivity.
Qed.

Lemma raw_weights_some (s2 : R) (os : list R) :
  s2 <> 0 -> raw_weights s2 os = map Some (map (gaussian s2) os).
Proof.
  intros H. unfold raw_weights. rewrite map_map. apply map_ext. intros o.
  unfold raw_weight.
  destruct (Req_dec_T s2 0) as [E|_]; [contradiction | reflexivity].
Qed.

Lemma gaussian_nonneg (s2 o : R) : 0 <= gaussian s2 o.
Proof.
  unfold gaussian. destruct (np_square o); [|lra].
  apply underflow_nonneg. left. apply exp_pos.
Qed.

Lemma Rsum_nonneg (l : list R) :
  (forall x, In x l -> 0 <= x) -> 0 <= Rsum l.
Proof.
  induction l as [|x l IH]; intros H; cbn [Rsum]; [lra|].
  pose proof (H x (or_introl eq_refl)).
  assert (0 <= Rsum l) by (apply IH; intros y Hy; apply H; right; exact Hy).
  lra.
Qed.

Lemma Rsum_pos_one (l : list R) (x : R) :
  (forall y, In y l -> 0 <= y) -> In x l -> 0 < x -> 0 < Rsum l.
Proof.
  induction l as [|y l IH]; intros H Hin Hx; [contradiction|].
  cbn [Rsum]. pose proof (H y (or_introl eq_refl)) as Hy.
  assert (Hl : forall z, In z l -> 0 <= z) by (intros z Hz; apply H; right; exact Hz).
  pose proof (Rsum_nonneg l Hl).
  destruct Hin as [->|Hin]; [lra|].
  pose proof (IH Hl Hin Hx). lra.
Qed.

Lemma Rsum_zero_all (l : list R) :
  (forall x, In x l -> x = 0) -> Rsum l = 0.
Proof.
  induction l as [|x l IH]; intros H; cbn [Rsum]; [reflexivity|].
  rewrite (H x (or_introl eq_refl)), IH; [lra|].
  intros y Hy. apply H. right. exact Hy.
Qed.

(** The weights are numbers that sum to 1 as soon as the square of sigma
    is a double other than 0.0 and one Gaussian does not underflow. *)
Lemma weights_numbers (c : config) (os : list R) (o : R) :
  sigma_squares c ->
  In o os -> gaussian (sigma c ^ 2) o <> 0 ->
  exists ws,
    weights c os = Ok (map Some ws) /\
    Rsum ws = 1 /\
    List.length ws = List.length os /\
    ws = map (fun x => x / Rsum (map (gaussian (sigma c ^ 2)) os))
             (map (gaussian (sigma c ^ 2)) os) /\
    0 < Rsum (map (gaussian (sigma c ^ 2)) os).
Proof.
  intros Hsig Hin Hg. set (s2 := sigma c ^ 2) in *.
  assert (Hs2 : s2 <> 0).
  { destruct Hsig as [H _]. pose proof tiny_pos. fold s2 in H. lra. }
  assert (Hpos : 0 < Rsum (map (gaussian s2) os)).
  { apply (Rsum_pos_one _ (gaussian s2 o)).
    - intros y Hy. apply in_map_iff in Hy. destruct Hy as (z & <- & _).
      apply gaussian_nonneg.
    - apply in_map. exact Hin.
    - pose proof (gaussian_nonneg s2 o). lra. }
  exists (map (fun x => x / Rsum (map (gaussian s2) os)) (map (gaussian s2) os)).
  split; [|split; [|split; [|split]]].
  - unfold weights. rewrite (py_square_fits c Hsig). cbn [bind]. fold s2.
    rewrite (raw_weights_some s2 os Hs2), normalize_some by lra. reflexivity.
  - rewrite Rsum_map_div. field. lra.
  - rewrite !length_map. reflexivity.
  - reflexivity.
  - exact Hpos.
Qed.

(** They are all nan when every Gaussian underflows. *)
Lemma weights_all_nan (c : config) (os : list R) :
  sigma_squares c ->
  (forall o, In o os -> gaussian (sigma c ^ 2) o = 0) ->
  weights c os = Ok (map (fun _ => None) os).
Proof.
  intros Hsig Hall. set (s2 := sigma c ^ 2) in *.
  assert (Hs2 : s2 <> 0).
  { destruct Hsig as [H _]. pose proof tiny_pos. fold s2 in H. lra. }
  unfold weights. rewrite (py_square_fits c Hsig). cbn [bind]. fold s2.
  rewrite (raw_weights_some s2 os Hs2), normalize_zero, map_map; [reflexivity|].
  apply Rsum_zero_all. intros x Hx. apply in_map_iff in Hx.
  destruct Hx as (o & <- & Ho). exact (Hall o Ho).
Qed.

Lemma exp_INR (n : nat) : exp (INR n) = exp 1 ^ n.
Proof.
  induction n as [|n IH].
  - simpl. apply exp_0.
  - rewrite S_INR, exp_plus, IH. simpl. ring.
Qed.

Lemma exp_le (x y : R) : x <= y -> exp x <= exp y.
Proof.
  intros [H | ->]; [left; apply exp_increasing; exact H | right; reflexivity].
Qed.

(** [exp (-144)] is far above the doubles that underflow. *)
Lemma exp_144_fits (x : R) : 0 <= x <= 144 -> tiny < exp (- x).
Proof.
  intros [H0 H1]. rewrite exp_Ropp. unfold tiny.
  apply Rinv_lt_contravar.
  - apply Rmult_lt_0_compat; [apply exp_pos | apply pow_lt; lra].
  - apply Rle_lt_trans with (exp (INR 144)).
    + apply exp_le. replace (INR 144) with 144; [exact H1|].
      rewrite INR_IZR_INZ. reflexivity.
    + rewrite exp_INR.
      apply Rle_lt_trans with (4 ^ 144).
      * apply pow_incr. pose proof exp_le_3. pose proof (exp_pos 1).
        split; lra.
      * replace 4 with (2 ^ 2) by (simpl; ring).
        rewrite <- pow_mult. apply Rlt_pow; [lra | lia].
Qed.

(** [exp (-2304)] underflows. *)
Lemma exp_2304_underflows (x : R) : 2304 <= x -> exp (- x) <= tiny.
Proof.
  intros H. rewrite exp_Ropp. unfold tiny. left.
  apply Rinv_lt_contravar.
  - apply Rmult_lt_0_compat; [apply pow_lt; lra | apply exp_pos].
  - apply Rlt_le_trans with (exp (INR 2304)).
    + rewrite exp_INR.
      apply Rlt_le_trans with (2 ^ 2304).
      * apply Rlt_pow; [lra | lia].
      * apply pow_incr. pose proof (exp_ineq1 1 ltac:(lra)). lra.
    + apply exp_le. replace (INR 2304) with 2304; [exact H|].
      rewrite INR_IZR_INZ. reflexivity.
Qed.

(** An offset of at most twelve sigmas whose square is in range has a
    Gaussian that does not underflow. *)
Lemma gaussian_fits (s o : R) :
  0 < s -> - (12 * s) <= o <= 12 * s -> o ^ 2 < huge ->
  gaussian (s ^ 2) o = exp (- underflow (o ^ 2) / s ^ 2) /\
  0 < gaussian (s ^ 2) o.
Proof.
  intros Hs Ho Hh.
  assert (Hs2 : 0 < s ^ 2) by (apply pow_lt; exact Hs).
  assert (Ho2 : 0 <= o ^ 2 <= 144 * s ^ 2).
  { split; [apply pow2_ge_0|]. simpl. nra. }
  destruct (underflow_nonneg (o ^ 2) (proj1 Ho2)) as [Hu0 Hu1].
  set (u := underflow (o ^ 2)) in *.
  assert (Hx : 0 <= u / s ^ 2 <= 144).
  { split.
    - apply Rmult_le_pos; [exact Hu0 | left; apply Rinv_0_lt_compat; exact Hs2].
    - apply (Rmult_le_reg_r (s ^ 2)); [exact Hs2|].
      unfold Rdiv. rewrite Rmult_assoc, Rinv_l, Rmult_1_r by lra. lra. }
  pose proof (exp_144_fits _ Hx) as Hfit.
  unfold gaussian. rewrite (np_square_fits o Hh). fold u.
  replace (- u / s ^ 2) with (- (u / s ^ 2)) by (unfold Rdiv; ring).
  rewrite (underflow_above _ Hfit).
  split; [reflexivity | apply exp_pos].
Qed.

(** From a sigma of 0.01, with draws from [-0.1, 0.1), every offset is
    within twelve sigmas. *)
Lemma offsets_within_twelve (c : config) (noise : nat -> R) (o : R) :
  smooth c = true ->
  1 / 100 <= sigma c -> uniform_draws noise ->
  In o (offsetlist c noise) ->
  - (12 * sigma c) <= o <= 12 * sigma c.
Proof.
  intros Hsm Hsig Hn Ho.
  pose proof (offsetlist_bounds c noise o ltac:(lra) Hsm Hn Ho). lra.
Qed.

Lemma huge_square (p : R) : p = 2 ^ 511 -> huge = (2 * p) ^ 2.
Proof.
  intros ->. unfold huge. rewrite tech_pow_Rmult, <- pow_mult.
  f_equal.
Qed.

(** Up to a sigma of [2 ^ 510] the square of every offset is in range. *)
Lemma offsets_in_range (c : config) (noise : nat -> R) (o : R) :
  smooth c = true ->
  0 < sigma c <= 2 ^ 510 -> uniform_draws noise ->
  In o (offsetlist c noise) ->
  o ^ 2 < huge.
Proof.
  intros Hsm [H0 H1] Hn Ho.
  pose proof (offsetlist_bounds c noise o ltac:(lra) Hsm Hn Ho) as [Hlo Hhi].
  rewrite (huge_square (2 * 2 ^ 510)) by (rewrite tech_pow_Rmult; reflexivity).
  assert (Hp : 1 <= 2 ^ 510) by (apply pow_R1_Rle; lra).
  set (p := 2 ^ 510) in *. clearbody p.
  assert (Ha : - (4 * p) < o < 4 * p) by lra.
  simpl. nra.
Qed.

Lemma offsetlist_some (c : config) (noise : nat -> R) :
  (smooth c = true -> 0 < sigma c) -> offsetlist c noise <> [].
Proof.
  intros H. destruct (smooth c) eqn:E.
  - apply offsetlist_nonempty. apply H. reflexivity.
  - rewrite (offsetlist_unsmoothed c noise E). discriminate.
Qed.

(** Hence the weights are positive numbers that sum to 1: without
    smoothing for every sigma whose square is a double other than 0.0,
    with smoothing for the sigmas from 0.01 to [2 ^ 510]. *)
Lemma weights_regular (c : config) (noise : nat -> R) :
  sigma_squares c ->
  (smooth c = true -> 1 / 100 <= sigma c <= 2 ^ 510) ->
  uniform_draws noise ->
  exists ws,
    positive_weights c (offsetlist c noise) ws /\
    Rsum ws = 1 /\
    List.length ws = List.length (offsetlist c noise).
Proof.
  intros Hsq Hsig Hn. destruct (smooth c) eqn:Hsm.
  - destruct (Hsig eq_refl) as [Hsmall Hbig]. clear Hsig.
    rename Hsmall into Hsig.
    assert (Hfit : forall o, In o (offsetlist c noise) ->
                             0 < gaussian (sigma c ^ 2) o).
    { intros o Ho. apply gaussian_fits; [lra| |].
      - exact (offsets_within_twelve c noise o Hsm Hsig Hn Ho).
      - apply (offsets_in_range c noise o Hsm); [lra | exact Hn | exact Ho]. }
    destruct (offsetlist c noise) as [|o os] eqn:Eos.
    { exfalso. apply (offsetlist_nonempty c noise); [lra | exact Eos]. }
    destruct (weights_numbers c (o :: os) o Hsq (or_introl eq_refl))
      as (ws & Hw & Hsum & Hlen & Hws & Htot).
    { pose proof (Hfit o (or_introl eq_refl)). lra. }
    exists ws. split; [split; [exact Hw|]|split; [exact Hsum | exact Hlen]].
    intros w Hin. rewrite Hws in Hin. apply in_map_iff in Hin.
    destruct Hin as (x & <- & Hx). apply in_map_iff in Hx.
    destruct Hx as (o' & <- & Ho').
    apply Rdiv_lt_0_compat; [exact (Hfit o' Ho') | exact Htot].
  - rewrite (offsetlist_unsmoothed c noise Hsm).
    exists [1]. split; [split|split].
    + exact (weights_zero_offset c Hsq).
    + intros w [<-|[]]. lra.
    + simpl. lra.
    + reflexivity.
Qed.


Lemma uniform_no_noise : uniform_draws no_noise.
Proof. intros i. unfold no_noise. lra. Qed.

(** A sigma of 1, as in the examples, is between 0.01 and [2 ^ 510]. *)
Lemma sigma_one_moderate (c : config) :
  sigma c = 1 -> 1 / 100 <= sigma c <= 2 ^ 510.
Proof.
  intros ->. split; [lra|]. apply pow_R1_Rle. lra.
Qed.


(** With smoothing and a sigma of [2 ^ 511] the first offset is
    [-2 ^ 512], its square is infinite and its weight is 0.0. *)
Lemma weights_smooth_huge :
  sigma_squares cfg_smooth_huge /\
  exists o os ws,
    offsetlist cfg_smooth_huge no_noise = o :: os /\
    huge <= o ^ 2 /\
    weights cfg_smooth_huge (offsetlist cfg_smooth_huge no_noise)
    = Ok (Some 0 :: map Some ws).
Proof.
  set (c := cfg_smooth_huge).
  assert (Hp : 1 <= sigma c) by (cbn [sigma c cfg_smooth_huge]; apply pow_R1_Rle; lra).
  assert (Hh : huge = (2 * sigma c) ^ 2) by (apply huge_square; reflexivity).
  assert (Hsq : sigma_squares c).
  { unfold sigma_squares. rewrite Hh. pose proof tiny_small.
    generalize dependent (sigma c). intros s Hs _. simpl. split; nra. }
  split; [exact Hsq|].
  assert (Hn : (8 < grid_size c)%nat).
  { apply grid_size_spec; [lra|]. unfold grid_point, offsetinterval.
    simpl INR. lra. }
  pose proof (offsetlist_smooth c no_noise eq_refl) as Hos.
  assert (Hmid : In (grid_point c 8 + no_noise 8) (offsetlist c no_noise)).
  { rewrite Hos.
    apply (in_map (fun i => grid_point c i + no_noise i)), in_seq. lia. }
  assert (Hg : 0 < gaussian (sigma c ^ 2) (grid_point c 8 + no_noise 8)).
  { assert (Hb : 0 <= grid_point c 8 + no_noise 8 <= sigma c).
    { unfold grid_point, offsetinterval, no_noise. simpl INR. lra. }
    apply gaussian_fits; [lra | lra |]. rewrite Hh.
    generalize dependent (grid_point c 8 + no_noise 8).
    generalize dependent (sigma c). intros. simpl. nra. }
  destruct (weights_numbers c _ _ Hsq Hmid) as (ws & Hw & _ & _ & Hws & Htot);
    [lra|].
  destruct (grid_size c) as [|k]; [lia|].
  cbn [seq map] in Hos. rewrite Hos in Hws, Hw |- *.
  assert (Ho : huge <= (grid_point c 0 + no_noise 0) ^ 2).
  { rewrite Hh. unfold grid_point, no_noise. simpl INR. right.
    generalize (sigma c), (offsetinterval c). intros. simpl. ring. }
  cbn [map] in Hws.
  assert (Hz : gaussian (sigma c ^ 2) (grid_point c 0 + no_noise 0) = 0).
  { unfold gaussian. rewrite (np_square_overflows _ Ho). reflexivity. }
  rewrite Hz in Hws.
  replace (0 / _) with 0 in Hws by (unfold Rdiv; ring).
  eexists _, _, _. split; [reflexivity|]. split; [exact Ho|].
  rewrite Hw, Hws. reflexivity.
Qed.


End Smoothing.

(** ** The loop over the lines *)

Section Loop.

Variable utcoffset : Z -> Z.

Lemma foldM_app {X S : Type} (f : S -> X -> result S) (l1 l2 : list X) (s : S) :
  foldM f (l1 ++ l2) s = (s' <- foldM f l1 s ;; foldM f l2 s').
Proof.
  revert s. induction l1 as [|x l1 IH]; intros s; simpl.
  - reflexivity.
  - destruct (f s x) as [s'|e]; simpl; [apply IH | reflexivity].
Qed.

Lemma foldM_raises {X S : Type} (f : S -> X -> result S) (l1 l2 : list X)
    (x : X) (s : S) :
  (forall s', exists e, f s' x = Raise e) ->
  exists e, foldM f (l1 ++ x :: l2) s = Raise e.
Proof.
  intros Hx. rewrite foldM_app.
  destruct (foldM f l1 s) as [s'|e]; simpl.
  - destruct (Hx s') as [e He]. rewrite He. simpl. exists e. reflexivity.
  - exists e. reflexivity.
Qed.

Lemma split_never_empty (r : Regex.regex) (skip : nat) (cur s : string) :
  Regex.split r skip cur s <> [].
Proof.
  revert skip cur. induction s as [|ch s IH]; intros skip cur; simpl.
  - discriminate.
  - destruct skip as [|n]; [|apply IH].
    destruct (Regex.match_len r (String ch s)) as [[|n]|];
      [apply IH | discriminate | apply IH].
Qed.

Lemma fields_of_line (line : string) :
  exists tags, split_fields (strip_annotation line) = first_field line :: tags.
Proof.
  unfold first_field.
  destruct (split_fields (strip_annotation line)) as [|f0 tags] eqn:E.
  - exfalso. exact (split_never_empty _ _ _ _ E).
  - exists tags. reflexivity.
Qed.

Lemma read_sample_bad_timestamp (line : string) :
  int_literal (first_field line) = None ->
  read_sample utcoffset line =
  Raise (ValueError ("invalid literal for int() with base 10: '"
                     ++ first_field line ++ "'")%string).
Proof.
  intros H. unfold read_sample.
  destruct (fields_of_line line) as [tags ->].
  unfold py_int. rewrite H. reflexivity.
Qed.

Lemma read_sample_in_range (line : string) (dt : datetime) (tags : list string) :
  read_sample utcoffset line = Ok (dt, tags) -> in_datetime_range dt = true.
Proof.
  unfold read_sample.
  destruct (split_fields (strip_annotation line)) as [|f0 fs]; [discriminate|].
  destruct (py_int f0) as [ts|e]; simpl; [|discriminate].
  unfold fromtimestamp.
  destruct (in_datetime_range ((ts + utcoffset ts) * us_per_second)) eqn:E;
    simpl; [|discriminate].
  intros H. inversion H. subst. exact E.
Qed.

(** Without smoothing the loop is a plain fold over the samples read. *)
Lemma foldM_unsmoothed (c : config) (lines : list string)
    (samples : list (datetime * list string)) (st : parse_state) :
  map (read_sample utcoffset) lines = map Ok samples ->
  foldM (process_line utcoffset c [Some 1%R] [0%R]) lines st =
  Ok (fold_left (ingest_unsmoothed c) samples st).
Proof.
  revert samples st. induction lines as [|line lines IH];
    intros [|[dt tags] samples] st H; simpl in H; try discriminate.
  - reflexivity.
  - inversion H as [[Hl Hrest]]. cbn [foldM]. unfold process_line at 1.
    rewrite Hl. cbn [bind fst snd].
    rewrite process_sample_unsmoothed
      by (eapply read_sample_in_range; exact Hl).
    cbn [bind fold_left]. apply IH. exact Hrest.
Qed.

Lemma parse_loop_unsmoothed (c : config) (noise : nat -> R)
    (lines : list string) (samples : list (datetime * list string)) :
  smooth c = false ->
  sigma_squares c ->
  map (read_sample utcoffset) lines = map Ok samples ->
  parse_loop utcoffset c noise lines =
  Ok (fold_left (ingest_unsmoothed c) samples initial_state).
Proof.
  intros Hs Hsig H. unfold parse_loop.
  rewrite (offsetlist_unsmoothed c noise Hs), (weights_zero_offset c Hsig).
  cbn [bind]. apply foldM_unsmoothed. exact H.
Qed.

(** The same loop for a single weight that may be nan. *)
Lemma foldM_single (c : config) (w : option R) (lines : list string)
    (samples : list (datetime * list string)) (st : parse_state) :
  map (read_sample utcoffset) lines = map Ok samples ->
  foldM (process_line utcoffset c [w] [0%R]) lines st =
  Ok (fold_left (ingest_weighted c w) samples st).
Proof.
  revert samples st. induction lines as [|line lines IH];
    intros [|[dt tags] samples] st H; simpl in H; try discriminate.
  - reflexivity.
  - inversion H as [[Hl Hrest]]. cbn [foldM]. unfold process_line at 1.
    rewrite Hl. cbn [bind fst snd].
    rewrite process_sample_single
      by (eapply read_sample_in_range; exact Hl).
    cbn [bind fold_left]. apply IH. exact Hrest.
Qed.

(** Without smoothing and with a sigma whose square is 0.0, the single
    weight is nan. *)
Lemma parse_loop_sigma_zero (c : config) (noise : nat -> R)
    (lines : list string) (samples : list (datetime * list string)) :
  smooth c = false ->
  (sigma c ^ 2 <= tiny)%R ->
  map (read_sample utcoffset) lines = map Ok samples ->
  parse_loop utcoffset c noise lines =
  Ok (fold_left (ingest_weighted c None) samples initial_state).
Proof.
  intros Hs Hsig H. unfold parse_loop.
  rewrite (offsetlist_unsmoothed c noise Hs), (weights_zero_offset_nan c Hsig).
  cbn [bind]. apply foldM_single. exact H.
Qed.

(** With a sigma whose square is out of range, line 102 raises before the
    first line is read. *)
Lemma parse_loop_sigma_huge (c : config) (noise : nat -> R)
    (lines : list string) :
  (huge <= sigma c ^ 2)%R ->
  parse_loop utcoffset c noise lines
  = Raise (OverflowError "(34, 'Numerical result out of range')").
Proof.
  intros H. unfold parse_loop. rewrite (weights_overflow c _ H). reflexivity.
Qed.

(** A parse that returns has computed its weights. *)
Lemma parse_loop_inv (c : config) (noise : nat -> R) (lines : list string)
    (st : parse_state) :
  parse_loop utcoffset c noise lines = Ok st ->
  exists ws,
    weights c (offsetlist c noise) = Ok ws /\
    foldM (process_line utcoffset c ws (offsetlist c noise)) lines
          initial_state = Ok st.
Proof.
  unfold parse_loop. intros H.
  destruct (weights c (offsetlist c noise)) as [ws|e]; [|discriminate].
  exists ws. split; [reflexivity | exact H].
Qed.

Lemma parse_loop_bad_line (c : config) (noise : nat -> R)
    (before after : list string) (line : string) (st : parse_state) :
  int_literal (first_field line) = None ->
  parse_loop utcoffset c noise before = Ok st ->
  parse_loop utcoffset c noise (before ++ line :: after) =
  Raise (ValueError ("invalid literal for int() with base 10: '"
                     ++ first_field line ++ "'")%string).
Proof.
  intros H Hst. destruct (parse_loop_inv c noise before st Hst) as (ws & Hw & Hf).
  unfold parse_loop. rewrite Hw. cbn [bind]. rewrite foldM_app, Hf.
  cbn [bind foldM]. unfold process_line at 1.
  rewrite (read_sample_bad_timestamp line H). reflexivity.
Qed.

(** C8, as the code has it: a line whose first field is not an integer
    literal (an empty field included) always aborts the parse, under every
    configuration; when the lines before it were processed, the exception
    is the [ValueError] of [int], whose message quotes the field. *)
Theorem C8_bad_timestamp_aborts (c : config) (noise : nat -> R)
    (before after : list string) (line : string) :
  int_literal (first_field line) = None ->
  (exists e,
      parse_loop utcoffset c noise (before ++ line :: after) = Raise e) /\
  (forall st,
      parse_loop utcoffset c noise before = Ok st ->
      parse_loop utcoffset c noise (before ++ line :: after) =
      Raise (ValueError ("invalid literal for int() with base 10: '"
                         ++ first_field line ++ "'")%string)).
Proof.
  intros H. split.
  - unfold parse_loop.
    destruct (weights c (offsetlist c noise)) as [ws|e];
      [|exists e; reflexivity].
    cbn [bind]. apply foldM_raises. intros st.
    unfold process_line. rewrite (read_sample_bad_timestamp line H).
    eexists. reflexivity.
  - intros st Hst. apply parse_loop_bad_line with (st := st); assumption.
Qed.

End Loop.

(** The side conditions of [parse_loop_unsmoothed] for the examples. *)
Ltac unsmoothed_side :=
  first [reflexivity | apply sigma_squares_one; reflexivity].

Lemma C8_bad_timestamp_aborts_witness :
  (exists e,
      parse_loop UTC cfg_first no_noise
        (["1400000000 work"; "1400002700 mail"] ++ "14oops000 work" :: [])
      = Raise e) /\
  (forall st,
      parse_loop UTC cfg_first no_noise ["1400000000 work"; "1400002700 mail"]
      = Ok st ->
      parse_loop UTC cfg_first no_noise
        (["1400000000 work"; "1400002700 mail"] ++ "14oops000 work" :: [])
      = Raise (ValueError ("invalid literal for int() with base 10: '"
                           ++ first_field "14oops000 work" ++ "'")%string)).
Proof.
  apply (C8_bad_timestamp_aborts UTC cfg_first no_noise
           ["1400000000 work"; "1400002700 mail"] [] "14oops000 work").
  reflexivity.
Defined.

(** C8 as stated fails: the third line of this log has a malformed
    timestamp; the parse raises the [ValueError] of [int], not a
    [MalformedLineError], and its message does not name line 3. *)
Lemma C8_no_line_number_counterexample :
  exists e,
    parse_loop UTC cfg_first no_noise log_bad_third = Raise e /\
    e = ValueError "invalid literal for int() with base 10: '14oops000'" /\
    exn_class e <> "MalformedLineError" /\
    occurs_in "3" (exn_message e) = false.
Proof.
  eexists. split.
  - change log_bad_third
      with (["1400000000 work"; "1400002700 mail"] ++ "14oops000 work" :: []).
    apply (parse_loop_bad_line UTC cfg_first no_noise) with
      (st := fold_left (ingest_unsmoothed cfg_first)
               [(1400000000000000, ["work"]);
                (1400002700000000, ["mail"])] initial_state).
    + reflexivity.
    + apply parse_loop_unsmoothed;
        [reflexivity | apply sigma_squares_one; reflexivity | reflexivity].
  - split; [reflexivity|]. split; [discriminate | reflexivity].
Qed.

(** ** Sorting and the index *)

Section SortFacts.

Context {A : Type}.

Lemma insert_by_perm (leb : A -> A -> bool) (x : A) (l : list A) :
  Permutation (insert_by leb x l) (x :: l).
Proof.
  induction l as [|y l IH]; simpl.
  - apply Permutation_refl.
  - destruct (leb x y).
    + apply Permutation_refl.
    + eapply Permutation_trans; [apply perm_skip; exact IH | apply perm_swap].
Qed.

Lemma sort_by_perm (leb : A -> A -> bool) (l : list A) :
  Permutation (sort_by leb l) l.
Proof.
  induction l as [|x l IH]; simpl.
  - apply Permutation_refl.
  - eapply Permutation_trans; [apply insert_by_perm | apply perm_skip; exact IH].
Qed.

Lemma sort_by_In (leb : A -> A -> bool) (l : list A) (x : A) :
  In x (sort_by leb l) <-> In x l.
Proof.
  split; apply Permutation_in;
    [apply sort_by_perm | apply Permutation_sym, sort_by_perm].
Qed.

Lemma filter_all (p : A -> bool) (l : list A) :
  (forall x, In x l -> p x = true) -> filter p l = l.
Proof.
  induction l as [|x l IH]; intros H; simpl.
  - reflexivity.
  - rewrite (H x (or_introl eq_refl)). f_equal. apply IH.
    intros y Hy. apply H. right. exact Hy.
Qed.

End SortFacts.

Lemma uniq_In (l : list Z) (x : Z) : In x (uniq l) <-> In x l.
Proof.
  induction l as [|y l IH]; [reflexivity|].
  cbn [uniq]. destruct l as [|z l].
  - reflexivity.
  - destruct (Z.eqb_spec y z) as [->|Hne].
    + rewrite IH. simpl. tauto.
    + cbn [In] in *. rewrite IH. tauto.
Qed.

Lemma fold_min_le (l : list Z) (x y : Z) :
  In y (x :: l) -> fold_left Z.min l x <= y.
Proof.
  revert x. induction l as [|z l IH]; intros x H; simpl in *.
  - destruct H as [->|[]]. lia.
  - assert (Hle : forall a, fold_left Z.min l a <= a).
    { clear. induction l as [|b l IH]; intros a; simpl; [lia|].
      specialize (IH (Z.min a b)). lia. }
    destruct H as [->|[->|H]].
    + specialize (Hle (Z.min y z)). lia.
    + specialize (Hle (Z.min x y)). lia.
    + apply IH. right. exact H.
Qed.

Lemma fold_max_ge (l : list Z) (x y : Z) :
  In y (x :: l) -> y <= fold_left Z.max l x.
Proof.
  revert x. induction l as [|z l IH]; intros x H; simpl in *.
  - destruct H as [->|[]]. lia.
  - assert (Hle : forall a, a <= fold_left Z.max l a).
    { clear. induction l as [|b l IH]; intros a; simpl; [lia|].
      specialize (IH (Z.max a b)). lia. }
    destruct H as [->|[->|H]].
    + specialize (Hle (Z.max y z)). lia.
    + specialize (Hle (Z.max x y)). lia.
    + apply IH. right. exact H.
Qed.

Lemma index_within_bounds (F : frame) (lo hi t : Z) :
  index_min F = Some lo -> index_max F = Some hi -> In t (index F) ->
  in_slice lo hi t = true.
Proof.
  unfold index_min, index_max, in_slice. intros Hlo Hhi Ht.
  destruct (index F) as [|x l]; [discriminate|].
  inversion Hlo. inversion Hhi. subst.
  apply andb_true_intro. split; apply Z.leb_le.
  - apply fold_min_le. exact Ht.
  - apply fold_max_ge. exact Ht.
Qed.

(** The entries of a series of floats are its values that are numbers. *)
Lemma entries_In (s : list (Z * option R)) (e : Z * R) :
  In e (entries s) <-> In (fst e, Some (snd e)) s.
Proof.
  unfold entries. rewrite in_flat_map. split.
  - intros ([t [v|]] & Hin & He); cbn [fst snd] in He; [|contradiction].
    destruct He as [<-|[]]. exact Hin.
  - intros Hin. exists (fst e, Some (snd e)). split; [exact Hin|].
    cbn [fst snd]. left. destruct e; reflexivity.
Qed.

Lemma entries_some (s : series) :
  entries (map (fun e => (fst e, Some (snd e))) s) = s.
Proof.
  induction s as [|[t v] s IH]; [reflexivity|].
  cbn [map entries flat_map fst snd app] in *. f_equal. exact IH.
Qed.

Lemma DataFrame_well_formed (D : dict datetime) (V : dict (option R)) :
  well_formed (DataFrame D V).
Proof.
  intros c e Hc He. unfold DataFrame in *. cbn [index columns] in *.
  apply in_map_iff in Hc. destruct Hc as (c0 & <- & Hc0). cbn [snd] in He.
  apply entries_In in He.
  apply uniq_In, sort_by_In, in_concat.
  exists (map fst (snd c0)). split.
  - apply in_map_iff. exists c0. split; [reflexivity | exact Hc0].
  - apply in_map_iff. exists (fst e, Some (snd e)). split; [reflexivity|].
    exact He.
Qed.

(** ** The three-line scenario *)

Section Scenario.

Local Open Scope R_scope.

Lemma Rsum_perm (l l' : list R) : Permutation l l' -> Rsum l = Rsum l'.
Proof.
  induction 1; simpl; lra.
Qed.

Lemma col_sum_sort (leb : Z * R -> Z * R -> bool) (s : series) :
  col_sum (sort_by leb s) = col_sum s.
Proof.
  unfold col_sum. apply Rsum_perm, Permutation_map, sort_by_perm.
Qed.

Lemma map_snd_combine {X Y : Type} (l1 : list X) (l2 : list Y) :
  List.length l1 = List.length l2 -> map snd (combine l1 l2) = l2.
Proof.
  revert l2. induction l1 as [|x l1 IH]; intros [|y l2] H; simpl in *;
    try discriminate; try reflexivity.
  f_equal. apply IH. lia.
Qed.

Lemma lookup_col_map_key {X : Type} (g : string -> X) (ks : list string)
    (t : string) :
  In t ks -> lookup_col (map (fun f => (f, g f)) ks) t = Some (g t).
Proof.
  induction ks as [|k ks IH]; intros H; simpl in *.
  - contradiction.
  - destruct (String.eqb_spec t k) as [->|Hne]; [reflexivity|].
    destruct H as [->|H]; [congruence | exact (IH H)].
Qed.

(** The columns of the table: the numbers of each series, by time. *)
Lemma DataFrame_columns (D : dict datetime) (V : dict (option R)) :
  columns (DataFrame D V)
  = map (fun f => (f, entries (sort_by time_leb (Series D V f))))
        (sort_by String.leb (dict_keys D)).
Proof. unfold DataFrame. cbn [columns]. rewrite map_map. reflexivity. Qed.

Lemma sum_numbers_perm (l l' : list (option R)) :
  Permutation l l' -> sum_numbers l = sum_numbers l'.
Proof.
  induction 1 as [|[x|] l l' _ IH|[x|] [y|] l|l l' l'' _ IH1 _ IH2];
    cbn [sum_numbers]; lra.
Qed.

Lemma col_sum_entries (s : list (Z * option R)) :
  col_sum (entries s) = sum_numbers (map snd s).
Proof.
  unfold col_sum.
  induction s as [|[t [v|]] s IH]; cbn [entries flat_map map snd fst app sum_numbers Rsum] in *.
  - reflexivity.
  - fold (entries s). rewrite IH. reflexivity.
  - fold (entries s). exact IH.
Qed.

(** The total of a column of the table is the sum of the durations
    recorded under the tag that are numbers. *)
Lemma table_total_DataFrame (D : dict datetime) (V : dict (option R))
    (t : string) :
  In t (dict_keys D) ->
  List.length (dict_get D t) = List.length (dict_get V t) ->
  table_total (DataFrame D V) t = sum_numbers (dict_get V t).
Proof.
  intros Hin Hlen. unfold table_total. rewrite DataFrame_columns.
  rewrite (lookup_col_map_key
             (fun f => entries (sort_by time_leb (Series D V f))))
    by (apply sort_by_In; exact Hin).
  rewrite col_sum_entries.
  rewrite (sum_numbers_perm _ (map snd (Series D V t)))
    by (apply Permutation_map, sort_by_perm).
  unfold Series. rewrite map_snd_combine by exact Hlen. reflexivity.
Qed.

(** C2, as the code has it: three lines that read as a ping with tagA, a
    ping with tagB and a ping with both, parsed with interval 1.0,
    multitag 'split', smoothing disabled, a sigma whose square is a
    double other than 0.0 and nothing excluded, give a table in which
    tagA and tagB have two numbers each and total 1.5 each: tagB has 1.0
    from its own line and 0.5 from the shared one. *)
Theorem C2_three_lines_totals (utcoffset : Z -> Z) (c : config)
    (noise : nat -> R) (lines : list string) (dt0 dt1 dt2 : datetime) :
  smooth c = false ->
  sigma_squares c ->
  multitag c = "split"%string ->
  interval c = 1 ->
  skipweekdays c = [] ->
  skiptags c = [] ->
  map (read_sample utcoffset) lines =
  map Ok [(dt0, ["tagA"]%string); (dt1, ["tagB"]%string);
          (dt2, ["tagA"; "tagB"]%string)] ->
  exists F sA sB,
    parse_file utcoffset c noise lines = Ok F /\
    keys F = ["tagA"; "tagB"]%string /\
    columns F = [("tagA"%string, sA); ("tagB"%string, sB)] /\
    List.length sA = 2%nat /\
    List.length sB = 2%nat /\
    table_total F "tagA" = 3 / 2 /\
    table_total F "tagB" = 3 / 2.
Proof.
  intros Hs Hsig Hm Hi Hw Ht Hlines. unfold parse_file.
  rewrite (parse_loop_unsmoothed utcoffset c noise lines _ Hs Hsig Hlines).
  clear Hsig.
  destruct c as [wd st iv mt ob sm sg]. cbn in Hs, Hm, Hi, Hw, Ht. subst.
  cbn [bind]. eexists.
  exists (entries (sort_by time_leb
            [(dt0, Some (1 * (1 / INR 1))); (dt2, Some (1 * (1 / INR 2)))])).
  exists (entries (sort_by time_leb
            [(dt1, Some (1 * (1 / INR 1))); (dt2, Some (1 * (1 / INR 2)))])).
  split; [reflexivity|].
  split; [reflexivity|].
  split; [rewrite DataFrame_columns; reflexivity|].
  split; [cbn; destruct (time_leb _ _); reflexivity|].
  split; [cbn; destruct (time_leb _ _); reflexivity|].
  split; rewrite table_total_DataFrame;
    try (cbn; tauto); try reflexivity; cbn; lra.
Qed.

Lemma C2_three_lines_totals_witness :
  exists F sA sB,
    parse_file UTC cfg_split no_noise log_three_annotated = Ok F /\
    keys F = ["tagA"; "tagB"]%string /\
    columns F = [("tagA"%string, sA); ("tagB"%string, sB)] /\
    List.length sA = 2%nat /\
    List.length sB = 2%nat /\
    table_total F "tagA" = 3 / 2 /\
    table_total F "tagB" = 3 / 2.
Proof.
  apply (C2_three_lines_totals UTC cfg_split no_noise log_three_annotated
           1400000000000000%Z 1400003600000000%Z 1400007200000000%Z);
    unsmoothed_side.
Defined.

(** C2 as stated fails in three ways.  For the three lines of the
    scenario the table that [__init__] leaves has a total of 1.5 for
    tagB, not 1.0.  With a sigma of 0 every duration of the table is nan:
    its two columns have no number at all.  With a sigma of [2 ^ 512]
    the parse raises the [OverflowError] of line 102. *)
Lemma C2_tagB_total_counterexample :
  (exists self w,
      init UTC cfg_split no_noise log_three_bare (None, None) now_2014
           empty_world = (Ok self, w) /\
      keys (table_of self w) = ["tagA"; "tagB"]%string /\
      table_total (table_of self w) "tagA" = 3 / 2 /\
      table_total (table_of self w) "tagB" = 3 / 2 /\
      table_total (table_of self w) "tagB" <> 1) /\
  (exists st,
      parse_loop UTC cfg_split_sigma_zero no_noise log_three_bare = Ok st /\
      stV st = [("tagA"%string, [None; None]); ("tagB"%string, [None; None])] /\
      parse_file UTC cfg_split_sigma_zero no_noise log_three_bare
      = Ok {| index := [1400000000000000; 1400003600000000;
                        1400007200000000]%Z;
              columns := [("tagA"%string, []); ("tagB"%string, [])] |}) /\
  parse_file UTC cfg_split_sigma_huge no_noise log_three_bare
  = Raise (OverflowError "(34, 'Numerical result out of range')").
Proof.
  split; [|split].
  - unfold init, parse_file.
    rewrite (parse_loop_unsmoothed UTC cfg_split no_noise log_three_bare
               [(1400000000000000%Z, ["tagA"]%string);
                (1400003600000000%Z, ["tagB"]%string);
                (1400007200000000%Z, ["tagA"; "tagB"]%string)])
      by unsmoothed_side.
    eval_frames. do 2 eexists. split; [reflexivity|].
    eval_frames. split; [reflexivity|]. repeat split; lra.
  - unfold parse_file.
    rewrite (parse_loop_sigma_zero UTC cfg_split_sigma_zero no_noise
               log_three_bare
               [(1400000000000000%Z, ["tagA"]%string);
                (1400003600000000%Z, ["tagB"]%string);
                (1400007200000000%Z, ["tagA"; "tagB"]%string)])
      by (first [reflexivity | apply sigma_zero_underflows; reflexivity]).
    eexists. split; [reflexivity|]. split; reflexivity.
  - unfold parse_file.
    rewrite (parse_loop_sigma_huge UTC cfg_split_sigma_huge no_noise
               log_three_bare)
      by (apply sigma_huge_overflows; reflexivity).
    reflexivity.
Qed.

(** A line read from a text file ends with a newline; without annotation
    [re.split] then yields an empty last field, and the empty string takes
    part in the split as a tag of its own. *)
Lemma newline_gives_empty_tag :
  map (read_sample UTC) log_three_lines =
  map Ok [(1400000000000000%Z, ["tagA"; ""]%string);
          (1400003600000000%Z, ["tagB"; ""]%string);
          (1400007200000000%Z, ["tagA"; "tagB"; ""]%string)].
Proof. reflexivity. Qed.

Lemma newline_lines_totals :
  exists self w,
    init UTC cfg_split no_noise log_three_lines (None, None) now_2014 empty_world
    = (Ok self, w) /\
    keys (table_of self w) = [""; "tagA"; "tagB"]%string /\
    table_total (table_of self w) "tagA" = 5 / 6 /\
    table_total (table_of self w) "tagB" = 5 / 6 /\
    table_total (table_of self w) "" = 4 / 3.
Proof.
  unfold init, parse_file.
  rewrite (parse_loop_unsmoothed UTC cfg_split no_noise log_three_lines _
             eq_refl (sigma_squares_one cfg_split eq_refl)
             newline_gives_empty_tag).
  eval_frames. do 2 eexists. split; [reflexivity|].
  eval_frames. split; [reflexivity|]. repeat split; lra.
Qed.

End Scenario.

(** Slicing a well-formed frame by bounds that enclose its index changes
    nothing. *)
Lemma ix_slice_within (F : frame) (lo hi : Z) :
  well_formed F ->
  (forall t, In t (index F) -> lo <= t <= hi) ->
  ix_slice lo hi F = F.
Proof.
  intros Hwf Hall.
  assert (Hs : forall t, In t (index F) -> in_slice lo hi t = true).
  { intros t Ht. specialize (Hall t Ht). unfold in_slice.
    apply andb_true_intro. split; apply Z.leb_le; lia. }
  destruct F as [idx cols]. unfold ix_slice. cbn [index columns] in *. f_equal.
  - apply filter_all. exact Hs.
  - rewrite <- (map_id cols) at 2. apply map_ext_in. intros [k s] Hc.
    cbn [fst snd]. f_equal. apply filter_all. intros e He.
    apply Hs. exact (Hwf (k, s) e Hc He).
Qed.

(** So do the bounds of the index itself. *)
Lemma ix_slice_own_bounds (F : frame) (lo hi : Z) :
  well_formed F ->
  index_min F = Some lo -> index_max F = Some hi ->
  ix_slice lo hi F = F.
Proof.
  intros Hwf Hlo Hhi. apply ix_slice_within; [exact Hwf|].
  intros t Ht. pose proof (index_within_bounds F lo hi t Hlo Hhi Ht) as Hb.
  unfold in_slice in Hb. apply andb_prop in Hb. destruct Hb as [H1 H2].
  apply Z.leb_le in H1, H2. lia.
Qed.



(** ** Tag ranking *)

Section Ranking.

Local Open Scope R_scope.

Lemma str_in_In (x : string) (l : list string) : str_in x l = true <-> In x l.
Proof.
  unfold str_in. rewrite existsb_exists. split.
  - intros (y & Hy & E). apply String.eqb_eq in E. subst. exact Hy.
  - intros H. exists x. split; [exact H | apply String.eqb_refl].
Qed.

Lemma str_in_false (x : string) (l : list string) :
  str_in x l = false <-> ~ In x l.
Proof.
  rewrite <- str_in_In. destruct (str_in x l); split; congruence.
Qed.

Lemma dedup_ext (s1 s2 l : list string) :
  (forall y, In y s1 <-> In y s2) -> dedup s1 l = dedup s2 l.
Proof.
  revert s1 s2. induction l as [|x l IH]; intros s1 s2 H; simpl.
  - reflexivity.
  - assert (E : str_in x s1 = str_in x s2).
    { destruct (str_in x s1) eqn:E1; symmetry.
      - apply str_in_In, H, str_in_In. exact E1.
      - apply str_in_false. intros Hx. apply H in Hx.
        apply str_in_false in E1. contradiction. }
    rewrite E. destruct (str_in x s2).
    + apply IH. exact H.
    + f_equal. apply IH. intros y. simpl. rewrite H. reflexivity.
Qed.

(** Lines 310-313 append exactly the extras that are new. *)
Lemma append_missing_dedup (ks extra : list string) :
  append_missing ks extra = ks ++ dedup ks extra.
Proof.
  unfold append_missing. revert ks.
  induction extra as [|x extra IH]; intros ks; simpl.
  - rewrite app_nil_r. reflexivity.
  - destruct (str_in x ks).
    + apply IH.
    + rewrite IH, <- app_assoc. simpl. do 2 f_equal.
      apply dedup_ext. intros y. rewrite in_app_iff. simpl. tauto.
Qed.

Lemma dedup_In (seen l : list string) (x : string) :
  In x (dedup seen l) <-> In x l /\ ~ In x seen.
Proof.
  revert seen. induction l as [|y l IH]; intros seen; simpl.
  - tauto.
  - destruct (str_in y seen) eqn:E.
    + apply str_in_In in E. rewrite IH. split.
      * tauto.
      * intros [[->|H] Hn]; [contradiction | tauto].
    + apply str_in_false in E. simpl. rewrite IH. simpl. split.
      * intros [->|[H Hn]]; [tauto|]. tauto.
      * intros [[->|H] Hn]; [tauto|].
        destruct (string_dec y x) as [->|Hne]; [tauto|]. right. tauto.
Qed.

Lemma dedup_NoDup (seen l : list string) : NoDup (dedup seen l).
Proof.
  revert seen. induction l as [|y l IH]; intros seen; simpl.
  - constructor.
  - destruct (str_in y seen); [apply IH|].
    constructor; [|apply IH].
    rewrite dedup_In. simpl. tauto.
Qed.

Lemma dedup_length (seen l : list string) :
  (List.length (dedup seen l) <= List.length l)%nat.
Proof.
  revert seen. induction l as [|y l IH]; intros seen; simpl.
  - lia.
  - destruct (str_in y seen); simpl.
    + specialize (IH seen). lia.
    + specialize (IH (y :: seen)). lia.
Qed.

(** Insertion into a list sorted for a total, transitive order. *)
Section Sorted.

Context {A : Type} (leb : A -> A -> bool).
Hypothesis leb_total : forall x y, leb x y = false -> leb y x = true.
Hypothesis leb_trans : forall x y z, leb x y = true -> leb y z = true -> leb x z = true.

Lemma insert_by_sorted (x : A) (l : list A) :
  StronglySorted (fun a b => leb a b = true) l ->
  StronglySorted (fun a b => leb a b = true) (insert_by leb x l).
Proof.
  induction 1 as [|y l Hs IH Hy]; simpl.
  - constructor; constructor.
  - destruct (leb x y) eqn:E.
    + constructor; [constructor; assumption|].
      constructor; [exact E|].
      rewrite Forall_forall in *. intros z Hz.
      apply leb_trans with y; [exact E | apply Hy; exact Hz].
    + constructor; [exact IH|].
      rewrite Forall_forall in *. intros z Hz.
      apply (Permutation_in _ (insert_by_perm leb x l)) in Hz.
      destruct Hz as [<-|Hz]; [apply leb_total; exact E | apply Hy; exact Hz].
Qed.

Lemma sort_by_sorted (l : list A) :
  StronglySorted (fun a b => leb a b = true) (sort_by leb l).
Proof.
  induction l as [|x l IH]; simpl.
  - constructor.
  - apply insert_by_sorted. exact IH.
Qed.

End Sorted.

Lemma Rleb_true (x y : R) : Rleb x y = true <-> x <= y.
Proof. unfold Rleb. destruct (Rle_dec x y); split; intros; congruence. Qed.

(** [sorted(..., reverse=True)] yields a list that descends in the key. *)
Lemma sorted_desc_sorted (key : string -> R) (ks : list string) :
  StronglySorted (fun x y => key y <= key x) (sorted_desc key ks).
Proof.
  unfold sorted_desc.
  assert (H : StronglySorted (fun x y => Rleb (key y) (key x) = true)
                (sort_by (fun x y => Rleb (key y) (key x)) ks)).
  { apply sort_by_sorted.
    - intros x y E. apply Rleb_true. unfold Rleb in E.
      destruct (Rle_dec (key y) (key x)); [discriminate | lra].
    - intros x y z H1 H2. apply Rleb_true in H1, H2. apply Rleb_true. lra. }
  induction H as [|a l _ IH Ha]; constructor; [exact IH|].
  rewrite Forall_forall in *. intros z Hz. apply Rleb_true, Ha, Hz.
Qed.

Lemma StronglySorted_firstn {X : Type} (Rel : X -> X -> Prop) (n : nat)
    (l : list X) :
  StronglySorted Rel l -> StronglySorted Rel (firstn n l).
Proof.
  intros H. revert n. induction H as [|x l Hs IH Hx]; intros [|n]; simpl;
    try constructor.
  - apply IH.
  - rewrite Forall_forall in *. intros z Hz. apply Hx.
    rewrite <- (firstn_skipn n l). apply in_or_app. left. exact Hz.
Qed.

Lemma StronglySorted_app_cross {X : Type} (Rel : X -> X -> Prop)
    (l1 l2 : list X) (a b : X) :
  StronglySorted Rel (l1 ++ l2) -> In a l1 -> In b l2 -> Rel a b.
Proof.
  induction l1 as [|x l1 IH]; intros Hs Ha Hb; simpl in *.
  - contradiction.
  - inversion Hs as [|? ? Hs' Hx]; subst. destruct Ha as [->|Ha].
    + rewrite Forall_forall in Hx. apply Hx, in_or_app. right. exact Hb.
    + apply IH; assumption.
Qed.

Lemma keys_resample_sum (k : Z) (F : frame) : keys (resample_sum k F) = keys F.
Proof.
  unfold resample_sum, keys.
  destruct (index_min F), (index_max F); cbn [columns];
    rewrite map_map; reflexivity.
Qed.

Lemma day_totals_keys (F : frame) : map fst (day_totals F) = keys F.
Proof.
  unfold day_totals. rewrite map_map. cbn [fst].
  exact (keys_resample_sum 1 F).
Qed.


Lemma init_three_lines :
  init UTC cfg_split no_noise log_three_bare (None, None) now_2014 empty_world
  = (Ok log_three, world_three).
Proof.
  unfold init, parse_file.
  rewrite (parse_loop_unsmoothed UTC cfg_split no_noise log_three_bare
             [(1400000000000000%Z, ["tagA"]%string);
              (1400003600000000%Z, ["tagB"]%string);
              (1400007200000000%Z, ["tagA"; "tagB"]%string)])
    by unsmoothed_side.
  reflexivity.
Qed.


End Ranking.

(** ** The columns of a parsed table have distinct labels *)

Section DistinctLabels.

Lemma foldM_invariant {X S : Type} (P : S -> Prop) (f : S -> X -> result S)
    (l : list X) (s s' : S) :
  (forall s x s', P s -> f s x = Ok s' -> P s') ->
  P s -> foldM f l s = Ok s' -> P s'.
Proof.
  intros Hf. revert s. induction l as [|x l IH]; intros s Hs H; simpl in H.
  - inversion H. subst. exact Hs.
  - destruct (f s x) as [s1|e] eqn:E; simpl in H; [|discriminate].
    apply (IH s1); [exact (Hf s x s1 Hs E) | exact H].
Qed.

Lemma dict_append_NoDup {A : Type} (k : string) (x : A) (d : dict A) :
  NoDup (dict_keys d) -> NoDup (dict_keys (dict_append k x d)).
Proof.
  intros H. rewrite dict_keys_append.
  destruct (str_in k (dict_keys d)) eqn:E; [exact H|].
  apply str_in_false in E.
  apply NoDup_app; [exact H | repeat constructor; simpl; tauto |].
  intros y Hy [<-|[]]. contradiction.
Qed.

Lemma emit_keeps_distinct (c : config) (dt : datetime) (t : string) (d : R)
    (st st' : parse_state) (wo : option R * R) :
  NoDup (dict_keys (stD st)) -> emit c dt t d st wo = Ok st' ->
  NoDup (dict_keys (stD st')).
Proof.
  intros H. unfold emit. destruct wo as [w o].
  destruct (timedelta_hours (o * interval c)) as [td|e]; simpl; [|discriminate].
  destruct (datetime_add dt td) as [dtx|e]; simpl; [|discriminate].
  destruct (Z_in (weekday dtx) (skipweekdays c)); intros E; inversion E; simpl.
  - exact H.
  - apply dict_append_NoDup. exact H.
Qed.

Lemma parse_loop_distinct (utcoffset : Z -> Z) (c : config) (noise : nat -> R)
    (lines : list string) (st : parse_state) :
  parse_loop utcoffset c noise lines = Ok st -> NoDup (dict_keys (stD st)).
Proof.
  intros H. destruct (parse_loop_inv _ _ _ _ _ H) as (ws & _ & Hf).
  revert Hf.
  apply (foldM_invariant (fun st => NoDup (dict_keys (stD st)))); [|constructor].
  intros s line s' Hs. unfold process_line.
  destruct (read_sample utcoffset line) as [[dt tags]|e]; simpl; [|discriminate].
  unfold process_sample.
  apply (foldM_invariant (fun st => NoDup (dict_keys (stD st)))); [|exact Hs].
  intros s1 t s2 Hs1.
  apply (foldM_invariant (fun st => NoDup (dict_keys (stD st)))); [|exact Hs1].
  intros s3 wo s4. apply emit_keeps_distinct.
Qed.

Lemma parse_file_distinct (utcoffset : Z -> Z) (c : config) (noise : nat -> R)
    (lines : list string) (F : frame) :
  parse_file utcoffset c noise lines = Ok F -> NoDup (keys F).
Proof.
  unfold parse_file.
  destruct (parse_loop utcoffset c noise lines) as [st|e] eqn:E; simpl;
    [|discriminate].
  intros H. inversion H. unfold keys. rewrite DataFrame_columns.
  rewrite map_map. cbn [fst]. rewrite map_id.
  apply (Permutation_NoDup (Permutation_sym (sort_by_perm _ _))).
  exact (parse_loop_distinct _ _ _ _ _ E).
Qed.

Lemma keys_ix_slice (lo hi : Z) (F : frame) : keys (ix_slice lo hi F) = keys F.
Proof. unfold keys, ix_slice. cbn [columns]. rewrite map_map. reflexivity. Qed.

(** The table that [__init__] leaves has distinct column labels. *)
Lemma init_distinct (utcoffset : Z -> Z) (c : config) (noise : nat -> R)
    (lines : list string) (startend : option Z * option Z) (now : datetime)
    (w0 w : world) (self : TagTimeLog) :
  init utcoffset c noise lines startend now w0 = (Ok self, w) ->
  NoDup (keys (table_of self w)).
Proof.
  unfold init, bindM, lift, alloc, load, ret, raise.
  destruct (parse_file utcoffset c noise lines) as [F|e] eqn:EF; [|discriminate].
  cbn [heap draws].
  assert (Hn : forall start stop,
             nth (List.length (heap w0 ++ [F])) ((heap w0 ++ [F]) ++ [ix_slice start stop
               (nth (List.length (heap w0)) (heap w0 ++ [F]) empty_frame)]) empty_frame
             = ix_slice start stop F).
  { intros start stop. rewrite app_nth2 by lia. rewrite Nat.sub_diag. cbn [nth].
    rewrite app_nth2 by lia. rewrite Nat.sub_diag. reflexivity. }
  pose proof (parse_file_distinct _ _ _ _ _ EF) as Hd.
  destruct (fst startend) as [s|];
    [|destruct (fromtimestamp utcoffset 1) as [s|e]; [|discriminate]];
    rewrite Hn;
    (match goal with
     | |- context [index_min ?G] =>
         destruct (index_min G); [|discriminate];
         destruct (index_max G); [|discriminate]
     end);
    intros H; inversion H; subst;
    unfold table_of; cbn [selfD heap]; rewrite Hn, keys_ix_slice; exact Hd.
Qed.

Lemma uniq_nil (l : list Z) : uniq l = [] -> l = [].
Proof.
  destruct l as [|x l]; [reflexivity|]. intros H. exfalso.
  assert (Hin : In x (uniq (x :: l))) by (apply uniq_In; left; reflexivity).
  rewrite H in Hin. contradiction.
Qed.

(** The table that [__init__] leaves is an object of the store and has
    at least one column, since it has at least one row. *)
Lemma init_has_columns (utcoffset : Z -> Z) (c : config) (noise : nat -> R)
    (lines : list string) (startend : option Z * option Z) (now : datetime)
    (w0 w : world) (self : TagTimeLog) :
  init utcoffset c noise lines startend now w0 = (Ok self, w) ->
  (selfD self < List.length (heap w))%nat /\ keys (table_of self w) <> [].
Proof.
  unfold init, bindM, lift, alloc, load, ret, raise.
  destruct (parse_file utcoffset c noise lines) as [F|e] eqn:EF; [|discriminate].
  cbn [heap draws].
  assert (Hn : forall start stop,
             nth (List.length (heap w0 ++ [F])) ((heap w0 ++ [F]) ++ [ix_slice start stop
               (nth (List.length (heap w0)) (heap w0 ++ [F]) empty_frame)]) empty_frame
             = ix_slice start stop F).
  { intros start stop. rewrite app_nth2 by lia. rewrite Nat.sub_diag. cbn [nth].
    rewrite app_nth2 by lia. rewrite Nat.sub_diag. reflexivity. }
  assert (Hcols : forall start stop,
             index_min (ix_slice start stop F) <> None ->
             keys (ix_slice start stop F) <> []).
  { intros start stop Hmin Hk. apply Hmin. rewrite keys_ix_slice in Hk.
    unfold parse_file in EF.
    destruct (parse_loop utcoffset c noise lines) as [st|e]; [|discriminate].
    cbn [bind] in EF. inversion EF as [HF]. clear EF. subst F.
    unfold keys, DataFrame in Hk. cbn [columns] in Hk.
    do 2 apply map_eq_nil in Hk.
    unfold index_min, ix_slice, DataFrame. cbn [index]. rewrite Hk.
    reflexivity. }
  destruct (fst startend) as [s|];
    [|destruct (fromtimestamp utcoffset 1) as [s|e]; [|discriminate]];
    rewrite Hn;
    (match goal with
     | |- context [index_min ?G] =>
         pose proof (Hcols s (match snd startend with Some e => e | None => now end))
           as Hc;
         destruct (index_min G); [|discriminate];
         destruct (index_max G); [|discriminate]
     end);
    intros H; inversion H; subst;
    unfold table_of; cbn [selfD heap]; rewrite Hn;
    (split; [rewrite !length_app; cbn [List.length]; lia
            | apply Hc; discriminate]).
Qed.

End DistinctLabels.

(** ** Views and the source table *)

Section ViewEffects.

Lemma init_three_obfuscated :
  init UTC cfg_obfuscate no_noise log_three_bare (None, None) now_2014
       empty_world = (Ok log_three_obfuscated, world_three).
Proof.
  unfold init, parse_file.
  rewrite (parse_loop_unsmoothed UTC cfg_obfuscate no_noise log_three_bare
             [(1400000000000000, ["tagA"]);
              (1400003600000000, ["tagB"]);
              (1400007200000000, ["tagA"; "tagB"])])
    by unsmoothed_side.
  reflexivity.
Qed.

(** C7 at [pie(None, None, False)] with obfuscation on: [D] is [self.D]
    itself, [_obfuscate] is called on it before the resampling, and the
    columns of the source table are renamed in place.  The values stay,
    the labels do not. *)
Theorem C7_pie_renames_source_columns :
  init UTC cfg_obfuscate no_noise log_three_bare (None, None) now_2014
       empty_world = (Ok log_three_obfuscated, world_three) /\
  keys (table_of log_three_obfuscated world_three) = ["tagA"; "tagB"] /\
  is_ok (fst (pie sample_labels log_three_obfuscated None None false world_three))
  = true /\
  keys (table_of log_three_obfuscated
          (snd (pie sample_labels log_three_obfuscated None None false world_three)))
  = ["K3QZ"; "7PLM"] /\
  map snd (columns (table_of log_three_obfuscated
          (snd (pie sample_labels log_three_obfuscated None None false world_three))))
  = map snd (columns (table_of log_three_obfuscated world_three)).
Proof.
  split; [exact init_three_obfuscated|].
  split; [reflexivity|]. split; [reflexivity|]. split; reflexivity.
Qed.

(** Without obfuscation the same call leaves the source table as it
    was. *)
Lemma pie_plain_keeps_source_example :
  table_of log_three
    (snd (pie sample_labels log_three None None false world_three))
  = table_of log_three world_three.
Proof. reflexivity. Qed.

(** With explicit tags [pie] obfuscates a copy. *)
Lemma pie_tags_keeps_source_example :
  table_of log_three_obfuscated
    (snd (pie sample_labels log_three_obfuscated (Some ["tagA"]) None false
              world_three))
  = table_of log_three_obfuscated world_three.
Proof. reflexivity. Qed.

(** [trend] and [day_of_the_week_sums] obfuscate the resampled frame, a
    new object, and leave the source table as it was. *)
Lemma trend_keeps_source_example :
  table_of log_three_obfuscated
    (snd (trend sample_labels log_three_obfuscated None None false 1 world_three))
  = table_of log_three_obfuscated world_three.
Proof. reflexivity. Qed.

Lemma day_of_the_week_keeps_source_example :
  table_of log_three_obfuscated
    (snd (day_of_the_week_sums sample_labels log_three_obfuscated
            (Some ["tagA"; "tagB"]) None false world_three))
  = table_of log_three_obfuscated world_three.
Proof. reflexivity. Qed.

End ViewEffects.

(** ** Tabulated series *)

Section Tabulate.

Local Open Scope R_scope.

Lemma Z_in_In (x : Z) (l : list Z) : Z_in x l = true <-> In x l.
Proof.
  unfold Z_in. rewrite existsb_exists. split.
  - intros (y & Hy & E). apply Z.eqb_eq in E. subst. exact Hy.
  - intros H. exists x. split; [exact H | apply Z.eqb_refl].
Qed.

Lemma tabulate_cons (g : Z -> option R) (x : Z) (l : list Z) :
  tabulate g (x :: l) =
  match g x with Some v => [(x, v)] | None => [] end ++ tabulate g l.
Proof. reflexivity. Qed.

Lemma values_at_app (s1 s2 : series) (t : Z) :
  values_at (s1 ++ s2) t = values_at s1 t ++ values_at s2 t.
Proof. unfold values_at. rewrite filter_app, map_app. reflexivity. Qed.

Lemma tabulate_In (g : Z -> option R) (l : list Z) (e : Z * R) :
  In e (tabulate g l) <-> In (fst e) l /\ g (fst e) = Some (snd e).
Proof.
  unfold tabulate. rewrite in_flat_map. split.
  - intros (x & Hx & He). destruct (g x) as [v|] eqn:E; [|contradiction].
    destruct He as [<-|[]]. simpl. auto.
  - intros [Hin Hg]. exists (fst e). split; [exact Hin|].
    rewrite Hg. left. destruct e; reflexivity.
Qed.

Lemma values_at_tabulate_out (g : Z -> option R) (l : list Z) (t : Z) :
  ~ In t l -> values_at (tabulate g l) t = [].
Proof.
  intros H. unfold values_at.
  destruct (filter (fun e => fst e =? t)%Z (tabulate g l)) as [|e r] eqn:E;
    [reflexivity|].
  assert (He : In e (filter (fun e => fst e =? t)%Z (tabulate g l)))
    by (rewrite E; left; reflexivity).
  apply filter_In in He. destruct He as [He Ht].
  apply tabulate_In in He. apply Z.eqb_eq in Ht. rewrite Ht in He. tauto.
Qed.

(** On distinct labels a tabulated series has one value per label. *)
Lemma values_at_tabulate (g : Z -> option R) (l : list Z) (t : Z) :
  NoDup l -> In t l ->
  values_at (tabulate g l) t = match g t with Some v => [v] | None => [] end.
Proof.
  induction 1 as [|x l Hx Hnd IH]; intros Hin; [contradiction|].
  rewrite tabulate_cons, values_at_app.
  destruct (Z.eq_dec x t) as [->|Hne].
  - rewrite (values_at_tabulate_out g l t Hx), app_nil_r.
    destruct (g t); [|reflexivity].
    unfold values_at. simpl. rewrite Z.eqb_refl. reflexivity.
  - destruct Hin as [E|Hin]; [contradiction|].
    rewrite (IH Hin).
    destruct (g x); [|reflexivity]. unfold values_at at 1. simpl.
    destruct (Z.eqb_spec x t); [contradiction | reflexivity].
Qed.

Lemma cell_tabulate (g : Z -> option R) (l : list Z) (t : Z) :
  NoDup l -> In t l -> cell (tabulate g l) t = g t.
Proof.
  intros Hnd Hin. unfold cell. rewrite (values_at_tabulate g l t Hnd Hin).
  destruct (g t); reflexivity.
Qed.

Lemma tabulate_ext_in (g g' : Z -> option R) (l : list Z) :
  (forall x, In x l -> g x = g' x) -> tabulate g l = tabulate g' l.
Proof.
  intros H. induction l as [|x l IH]; [reflexivity|].
  rewrite !tabulate_cons, (H x (or_introl eq_refl)). f_equal.
  apply IH. intros y Hy. apply H. right. exact Hy.
Qed.

Lemma div_rows_tabulate (g : Z -> option R) (l : list Z) (V : series) :
  div_rows (tabulate g l) V =
  tabulate (fun x => match g x with
                     | Some v => match cell V x with
                                 | Some r => fdiv v r
                                 | None => None
                                 end
                     | None => None
                     end) l.
Proof.
  unfold div_rows. induction l as [|x l IH]; [reflexivity|].
  rewrite !tabulate_cons, flat_map_app, IH. f_equal.
  destruct (g x) as [v|]; [|reflexivity]. simpl.
  destruct (cell V x) as [r|]; [|reflexivity].
  destruct (fdiv v r); reflexivity.
Qed.

Lemma map_scale_tabulate (num : R) (g : Z -> option R) (l : list Z) :
  map (fun e => (fst e, snd e * num)) (tabulate g l) =
  tabulate (fun x => option_map (fun v => v * num) (g x)) l.
Proof.
  induction l as [|x l IH]; [reflexivity|].
  rewrite !tabulate_cons, map_app, IH. f_equal.
  destruct (g x); reflexivity.
Qed.

Lemma fdiv_nonzero (x y : R) : y <> 0 -> fdiv x y = Some (x / y).
Proof. intros H. unfold fdiv. destruct (Req_dec_T y 0); [contradiction | reflexivity]. Qed.

Lemma fdiv_zero (x y : R) : y = 0 -> fdiv x y = None.
Proof. intros H. unfold fdiv. destruct (Req_dec_T y 0); [reflexivity | contradiction]. Qed.

(** The mean of a non-empty list of ones is one. *)
Lemma col_mean_ones (s : series) :
  s <> [] -> (forall e, In e s -> snd e = 1) ->
  exists m, col_mean s = Some m /\ m = 1.
Proof.
  intros Hne Hall. unfold col_mean. destruct s as [|e s]; [congruence|].
  eexists. split; [reflexivity|].
  assert (Hsum : forall l : series, (forall e, In e l -> snd e = 1) ->
                                    Rsum (map snd l) = INR (List.length l)).
  { induction l as [|a l IH]; intros H.
    - reflexivity.
    - cbn [map Rsum]. change (List.length (a :: l)) with (S (List.length l)).
      rewrite S_INR, IH, (H a) by (try left; try (intros; apply H; right); auto).
      lra. }
  rewrite (Hsum _ Hall). field. apply not_0_INR. discriminate.
Qed.

End Tabulate.

(** ** Calendar days and bins *)

Section Days.

Lemma us_per_day_pos : 0 < us_per_day.
Proof. reflexivity. Qed.

Lemma day_of_mono (a b : Z) : a <= b -> day_of a <= day_of b.
Proof. intros H. apply Z.div_le_mono; [exact us_per_day_pos | exact H]. Qed.

Lemma day_of_start (d : Z) : day_of (d * us_per_day) = d.
Proof. unfold day_of. apply Z.div_mul. discriminate. Qed.

Lemma weekday_start (d : Z) : weekday (d * us_per_day) = (d + 3) mod 7.
Proof. unfold weekday. rewrite day_of_start. reflexivity. Qed.

Lemma weekday_of_day (t : Z) : weekday (day_of t * us_per_day) = weekday t.
Proof. rewrite weekday_start. reflexivity. Qed.

Lemma bin_of_day (d0 t : Z) : bin_of 1 d0 t = day_of t * us_per_day.
Proof. unfold bin_of. rewrite Z.div_1_r. f_equal. lia. Qed.

Lemma Zrange_In (lo : Z) (n : nat) (x : Z) :
  In x (Zrange lo n) <-> lo <= x < lo + Z.of_nat n.
Proof.
  unfold Zrange. rewrite in_map_iff. split.
  - intros (i & <- & Hi). apply in_seq in Hi. lia.
  - intros H. exists (Z.to_nat (x - lo)). split; [lia|]. apply in_seq. lia.
Qed.

Lemma Zrange_NoDup (lo : Z) (n : nat) : NoDup (Zrange lo n).
Proof.
  unfold Zrange. apply Finite.Injective_map_NoDup; [|apply seq_NoDup].
  intros i j H. lia.
Qed.

(** The bins of a daily resampling between the days [d0] and [d1]. *)
Lemma day_bins_In (d0 d1 b : Z) :
  d0 <= d1 ->
  (In b (map (fun j => (d0 + 1 * j) * us_per_day)
             (Zrange 0 (Z.to_nat ((d1 - d0) / 1 + 1))))
   <-> exists d, d0 <= d <= d1 /\ b = d * us_per_day).
Proof.
  intros H. rewrite Z.div_1_r, in_map_iff. split.
  - intros (j & <- & Hj). apply Zrange_In in Hj.
    exists (d0 + 1 * j). split; [lia | reflexivity].
  - intros (d & Hd & ->). exists (d - d0). split; [f_equal; lia|].
    apply Zrange_In. lia.
Qed.

Lemma day_bins_NoDup (d0 d1 : Z) :
  NoDup (map (fun j => (d0 + 1 * j) * us_per_day)
             (Zrange 0 (Z.to_nat ((d1 - d0) / 1 + 1)))).
Proof.
  apply Finite.Injective_map_NoDup; [|apply Zrange_NoDup].
  intros i j H. pose proof us_per_day_pos. nia.
Qed.

Lemma weekdays_In (w : Z) : In w weekdays <-> 0 <= w < 7.
Proof. unfold weekdays. simpl. lia. Qed.

Lemma weekday_range (t : Z) : 0 <= weekday t < 7.
Proof. unfold weekday. apply Z.mod_pos_bound. lia. Qed.

End Days.

(** ** The weekday shares of a single column *)

Section SingleColumn.

Local Open Scope R_scope.

Variables (tag : string) (idx : list Z) (s : series).

Hypothesis positive : forall e, In e s -> 0 < snd e.
Hypothesis on_index : forall e, In e s -> In (fst e) idx.

Lemma nansum_positive (vs : list R) :
  vs <> [] -> (forall v, In v vs -> 0 < v) ->
  exists x, nansum vs = Some x /\ 0 < x.
Proof.
  intros Hne Hall. destruct vs as [|v vs]; [congruence|].
  eexists. split; [reflexivity|]. apply Rsum_pos; [discriminate | exact Hall].
Qed.

(** In a table with the single column [s] of positive durations, every
    weekday on which the column has an entry gets a bucket, and the
    rescaled total of the bucket is 24. *)
Lemma single_column_share (e0 : Z * R) :
  In e0 s ->
  In (weekday (fst e0))
     (index (weekday_shares {| index := idx; columns := [(tag, s)] |})) /\
  exists v,
    cell (row_sums (weekday_shares {| index := idx; columns := [(tag, s)] |}))
         (weekday (fst e0)) = Some v /\ v = 24.
Proof.
  intros He0.
  destruct (index_min {| index := idx; columns := [(tag, s)] |}) as [lo|] eqn:Hlo;
    [|unfold index_min in Hlo; cbn [index] in Hlo;
      destruct idx; [exact (False_ind _ (on_index e0 He0)) | discriminate]].
  destruct (index_max {| index := idx; columns := [(tag, s)] |}) as [hi|] eqn:Hhi;
    [|unfold index_max in Hhi; cbn [index] in Hhi;
      destruct idx; [exact (False_ind _ (on_index e0 He0)) | discriminate]].
  assert (Hrange : forall t, In t idx -> (lo <= t <= hi)%Z).
  { intros t Ht.
    pose proof (index_within_bounds _ lo hi t Hlo Hhi Ht) as Hb.
    unfold in_slice in Hb. apply andb_prop in Hb. destruct Hb as [H1 H2].
    apply Z.leb_le in H1, H2. lia. }
  unfold weekday_shares, resample_sum. rewrite Hlo, Hhi.
  unfold scale_rows, groupby_weekday_mean, normalize_rows, fillna0, row_sums.
  cbn [index columns map fst snd flat_map app].
  set (bins := map (fun j => ((day_of lo + 1 * j) * us_per_day)%Z)
                   (Zrange 0 (Z.to_nat ((day_of hi - day_of lo) / 1 + 1)))).
  set (c1 := tabulate (fun b => nansum (map snd
               (filter (fun e => (bin_of 1 (day_of lo) (fst e) =? b)%Z) s))) bins).
  set (x := fun t => match cell c1 t with Some v => v | None => 0 end).
  set (c2 := tabulate (fun t => Some (x t)) bins).
  set (rs1 := tabulate (fun t => nansum (values_at c2 t ++ [])) bins).
  set (c3 := div_rows c2 rs1).
  set (present := filter (fun w => existsb (fun t => (weekday t =? w)%Z) bins) weekdays).
  set (c4 := tabulate (fun w => col_mean
               (filter (fun e => (weekday (fst e) =? w)%Z) c3)) present).
  set (V := tabulate (fun t => nansum (values_at c4 t ++ [])) present).
  set (c5 := div_rows (map (fun e => (fst e, snd e * 24)) c4) V).
  set (w := weekday (fst e0)).
  set (b0 := (day_of (fst e0) * us_per_day)%Z).
  change (In w present /\
          exists v,
            cell (tabulate (fun t => nansum (values_at c5 t ++ [])) present) w
            = Some v /\ v = 24).
  (* the bins *)
  assert (Hnd : NoDup bins) by apply day_bins_NoDup.
  assert (Hd : (day_of lo <= day_of hi)%Z).
  { pose proof (Hrange _ (on_index e0 He0)). apply day_of_mono. lia. }
  assert (Hb0 : In b0 bins).
  { apply day_bins_In; [exact Hd|]. exists (day_of (fst e0)).
    pose proof (Hrange _ (on_index e0 He0)) as [H1 H2].
    split; [split; apply day_of_mono; assumption | reflexivity]. }
  assert (Hwb0 : weekday b0 = w) by apply weekday_of_day.
  (* the daily sums *)
  assert (Hx0 : 0 < x b0).
  { unfold x, c1. rewrite cell_tabulate by assumption.
    destruct (nansum_positive
                (map snd (filter (fun e => (bin_of 1 (day_of lo) (fst e) =? b0)%Z) s)))
      as (v & -> & Hv); [| |exact Hv].
    - intros E. apply map_eq_nil in E.
      assert (Hin : In e0 (filter (fun e => (bin_of 1 (day_of lo) (fst e) =? b0)%Z) s)).
      { apply filter_In. split; [exact He0|]. rewrite bin_of_day. apply Z.eqb_refl. }
      rewrite E in Hin. contradiction.
    - intros v Hv. apply in_map_iff in Hv. destruct Hv as (e & <- & He).
      apply filter_In in He. apply positive. tauto. }
  (* the normalized days *)
  assert (Hrs1 : forall b, In b bins -> cell rs1 b = Some (x b + 0)).
  { intros b Hb. unfold rs1. rewrite cell_tabulate by assumption.
    unfold c2. rewrite values_at_tabulate by assumption. reflexivity. }
  assert (Hc3 : c3 = tabulate (fun b => fdiv (x b) (x b + 0)) bins).
  { unfold c3, c2. rewrite div_rows_tabulate. apply tabulate_ext_in.
    intros b Hb. rewrite (Hrs1 b Hb). reflexivity. }
  assert (Hones : forall e, In e c3 -> snd e = 1).
  { intros e He. rewrite Hc3 in He. apply tabulate_In in He.
    destruct He as [_ He]. unfold fdiv in He.
    destruct (Req_dec_T (x (fst e) + 0) 0) as [|Hne]; [discriminate|].
    inversion He. field. lra. }
  assert (Hin3 : In (b0, x b0 / (x b0 + 0)) c3).
  { rewrite Hc3. apply tabulate_In. cbn [fst snd]. split; [exact Hb0|].
    apply fdiv_nonzero. lra. }
  (* the weekday means *)
  destruct (col_mean_ones (filter (fun e => (weekday (fst e) =? w)%Z) c3))
    as (m & Hm & Hm1).
  { intros E.
    assert (Hin : In (b0, x b0 / (x b0 + 0))
                     (filter (fun e => (weekday (fst e) =? w)%Z) c3)).
    { apply filter_In. split; [exact Hin3|]. cbn [fst]. rewrite Hwb0.
      apply Z.eqb_refl. }
    rewrite E in Hin. contradiction. }
  { intros e He. apply filter_In in He. apply Hones. tauto. }
  assert (Hpnd : NoDup present).
  { apply NoDup_filter. unfold weekdays.
    repeat constructor; simpl; intuition discriminate. }
  assert (Hw : In w present).
  { apply filter_In. split; [apply weekdays_In, weekday_range|].
    apply existsb_exists. exists b0. split; [exact Hb0|].
    rewrite Hwb0. apply Z.eqb_refl. }
  assert (HV : cell V w = Some (m + 0)).
  { unfold V. rewrite cell_tabulate by assumption.
    unfold c4. rewrite values_at_tabulate by assumption. rewrite Hm. reflexivity. }
  (* the rescaled shares *)
  assert (Hc5 : values_at c5 w = [m * 24 / (m + 0)]).
  { unfold c5, c4. rewrite map_scale_tabulate, div_rows_tabulate.
    rewrite values_at_tabulate by assumption.
    rewrite Hm. cbn [option_map]. rewrite HV, fdiv_nonzero by lra. reflexivity. }
  split; [exact Hw|].
  rewrite cell_tabulate by assumption. cbv beta. rewrite Hc5.
  eexists. split; [reflexivity|]. subst m. simpl. field.
Qed.

(** A weekday without any entry has a bucket without a total: its days
    sum to 0, their normalization 0/0 is NaN, and so are the mean and the
    rescaled share. *)
Lemma single_column_empty_weekday (w : Z) :
  (forall e, In e s -> weekday (fst e) <> w) ->
  cell (row_sums (weekday_shares {| index := idx; columns := [(tag, s)] |})) w
  = None.
Proof.
  intros Hnone.
  unfold weekday_shares, resample_sum.
  destruct (index_min {| index := idx; columns := [(tag, s)] |}) as [lo|];
    [|reflexivity].
  destruct (index_max {| index := idx; columns := [(tag, s)] |}) as [hi|];
    [|reflexivity].
  unfold scale_rows, groupby_weekday_mean, normalize_rows, fillna0, row_sums.
  cbn [index columns map fst snd flat_map app].
  set (bins := map (fun j => ((day_of lo + 1 * j) * us_per_day)%Z)
                   (Zrange 0 (Z.to_nat ((day_of hi - day_of lo) / 1 + 1)))).
  set (c1 := tabulate (fun b => nansum (map snd
               (filter (fun e => (bin_of 1 (day_of lo) (fst e) =? b)%Z) s))) bins).
  set (x := fun t => match cell c1 t with Some v => v | None => 0 end).
  set (c2 := tabulate (fun t => Some (x t)) bins).
  set (rs1 := tabulate (fun t => nansum (values_at c2 t ++ [])) bins).
  set (c3 := div_rows c2 rs1).
  set (present := filter (fun w => existsb (fun t => (weekday t =? w)%Z) bins) weekdays).
  set (c4 := tabulate (fun w => col_mean
               (filter (fun e => (weekday (fst e) =? w)%Z) c3)) present).
  set (V := tabulate (fun t => nansum (values_at c4 t ++ [])) present).
  set (c5 := div_rows (map (fun e => (fst e, snd e * 24)) c4) V).
  change (cell (tabulate (fun t => nansum (values_at c5 t ++ [])) present) w
          = None).
  assert (Hnd : NoDup bins) by apply day_bins_NoDup.
  assert (Hpnd : NoDup present).
  { apply NoDup_filter. unfold weekdays.
    repeat constructor; simpl; intuition discriminate. }
  assert (Hrs1 : forall b, In b bins -> cell rs1 b = Some (x b + 0)).
  { intros b Hb. unfold rs1. rewrite cell_tabulate by assumption.
    unfold c2. rewrite values_at_tabulate by assumption. reflexivity. }
  assert (Hc3 : c3 = tabulate (fun b => fdiv (x b) (x b + 0)) bins).
  { unfold c3, c2. rewrite div_rows_tabulate. apply tabulate_ext_in.
    intros b Hb. rewrite (Hrs1 b Hb). reflexivity. }
  assert (Hempty : filter (fun e => (weekday (fst e) =? w)%Z) c3 = []).
  { destruct (filter (fun e => (weekday (fst e) =? w)%Z) c3) as [|e l] eqn:E;
      [reflexivity|]. exfalso.
    assert (He : In e (filter (fun e => (weekday (fst e) =? w)%Z) c3))
      by (rewrite E; left; reflexivity).
    apply filter_In in He. destruct He as [He Hw]. apply Z.eqb_eq in Hw.
    rewrite Hc3 in He. apply tabulate_In in He. destruct He as [Hb Hq].
    unfold fdiv in Hq.
    destruct (Req_dec_T (x (@fst Z R e) + 0) 0) as [|Hx]; [discriminate Hq|].
    unfold x, c1 in Hx. rewrite cell_tabulate in Hx by assumption.
    destruct (filter (fun e' => (bin_of 1 (day_of lo) (fst e') =? @fst Z R e)%Z) s)
      as [|e' l'] eqn:E'; [cbn in Hx; lra|].
    assert (He' : In e' (filter (fun e' => (bin_of 1 (day_of lo) (fst e')
                                            =? @fst Z R e)%Z) s))
      by (rewrite E'; left; reflexivity).
    apply filter_In in He'. destruct He' as [He' Hbin].
    apply Z.eqb_eq in Hbin. rewrite bin_of_day in Hbin.
    pose proof (weekday_of_day (fst e')) as Hwd. rewrite Hbin in Hwd.
    exact (Hnone e' He' (eq_trans (eq_sym Hwd) Hw)). }
  destruct (in_dec Z.eq_dec w present) as [Hin|Hout].
  - rewrite cell_tabulate by assumption.
    assert (Hc4 : values_at c4 w = []).
    { unfold c4. rewrite values_at_tabulate by assumption.
      rewrite Hempty. reflexivity. }
    assert (Hc5 : values_at c5 w = []).
    { unfold c5, c4. rewrite map_scale_tabulate, div_rows_tabulate.
      rewrite values_at_tabulate by assumption. rewrite Hempty. reflexivity. }
    rewrite Hc5. reflexivity.
  - unfold cell. rewrite values_at_tabulate_out by exact Hout. reflexivity.
Qed.

End SingleColumn.

(** ** A week of uniform pings meets every weekday *)

Section WeekCover.

(** A sequence of integers that never climbs by more than one takes
    every value between its first and a later one. *)
Lemma slow_climb_hits (f : nat -> Z) (m : nat) (y : Z) :
  (forall k, (k < m)%nat -> f (S k) <= f k + 1) ->
  f 0%nat <= y <= f m ->
  exists k, (k <= m)%nat /\ f k = y.
Proof.
  induction m as [|m IH]; intros Hstep Hy.
  - exists 0%nat. split; [lia | lia].
  - destruct (Z_le_gt_dec y (f m)) as [Hle|Hgt].
    + destruct IH as (k & Hk & E); [intros k Hk; apply Hstep; lia | lia |].
      exists k. split; [lia | exact E].
    + exists (S m). split; [lia|]. specialize (Hstep m). lia.
Qed.

Lemma day_of_step (x step : Z) :
  0 <= step <= us_per_day -> day_of (x + step) <= day_of x + 1.
Proof.
  intros H. unfold day_of.
  replace (x / us_per_day + 1) with ((x + 1 * us_per_day) / us_per_day)
    by (rewrite Z.div_add by discriminate; reflexivity).
  apply Z.div_le_mono; [exact us_per_day_pos | lia].
Qed.

Lemma day_of_add_days (x k : Z) : day_of (x + k * us_per_day) = day_of x + k.
Proof. unfold day_of. apply Z.div_add. discriminate. Qed.

Lemma weekday_cover (base step : Z) (n : nat) (w : Z) :
  0 < step <= us_per_day ->
  step * Z.of_nat n = 7 * us_per_day ->
  0 <= w < 7 ->
  exists i, (i < n)%nat /\ weekday (base + Z.of_nat i * step) = w.
Proof.
  intros Hstep Hweek Hw.
  assert (Hn : (0 < n)%nat).
  { destruct n; [|lia]. pose proof us_per_day_pos. simpl in Hweek. lia. }
  set (f := fun i : nat => day_of (base + Z.of_nat i * step)).
  set (y := f 0%nat + (w - (f 0%nat + 3)) mod 7).
  assert (Hmod : 0 <= (w - (f 0%nat + 3)) mod 7 < 7)
    by (apply Z.mod_pos_bound; lia).
  destruct (slow_climb_hits f (n - 1) y) as (k & Hk & E).
  - intros k Hk. unfold f.
    replace (base + Z.of_nat (S k) * step)
      with (base + Z.of_nat k * step + step) by lia.
    apply day_of_step. lia.
  - split; [unfold y; lia|].
    assert (Hlast : base + Z.of_nat 0 * step + 6 * us_per_day
                    <= base + Z.of_nat (n - 1) * step) by nia.
    apply day_of_mono in Hlast. rewrite day_of_add_days in Hlast.
    change (f 0%nat + 6 <= f (n - 1)%nat) in Hlast. unfold y. lia.
  - exists k. split; [lia|]. unfold weekday. fold (f k). rewrite E. unfold y.
    rewrite <- Z.add_assoc, (Z.add_comm _ 3), Z.add_assoc.
    rewrite Zplus_mod_idemp_r.
    replace (f 0%nat + 3 + (w - (f 0%nat + 3))) with w by lia.
    apply Z.mod_small. exact Hw.
Qed.

End WeekCover.

(** ** The events of single-tag pings, smoothed or not *)

Section SingleTagLog.

Variable utcoffset : Z -> Z.
Variable c : config.
Variable tag : string.

Hypothesis no_weekday_excluded : skipweekdays c = [].
Hypothesis no_tag_excluded : skiptags c = [].

Lemma timedelta_hours_shift (o : R) :
  (Z.abs (shift_us c o / us_per_day) <= 999999999)%Z ->
  timedelta_hours (o * interval c)%R = Ok (shift_us c o).
Proof.
  intros H. unfold timedelta_hours. fold (shift_us c o).
  apply Z.leb_le in H. rewrite H. reflexivity.
Qed.

Lemma in_datetime_range_between (a b x : Z) :
  in_datetime_range a = true -> in_datetime_range b = true ->
  (a <= x <= b)%Z -> in_datetime_range x = true.
Proof.
  unfold in_datetime_range. intros Ha Hb Hx.
  apply andb_prop in Ha, Hb. destruct Ha as [Ha1 Ha2], Hb as [Hb1 Hb2].
  apply Z.leb_le in Ha1, Hb1. apply Z.ltb_lt in Ha2, Hb2.
  apply andb_true_intro. split; [apply Z.leb_le | apply Z.ltb_lt]; lia.
Qed.

Lemma emit_shifted (dt : datetime) (d : R) (w : option R) (o : R)
    (st : parse_state) :
  (Z.abs (shift_us c o / us_per_day) <= 999999999)%Z ->
  in_datetime_range (dt + shift_us c o) = true ->
  emit c dt tag d st (w, o)
  = Ok (record_tag (dt + shift_us c o) (np_mul w d) st tag).
Proof.
  intros Hs Hr. unfold emit. rewrite timedelta_hours_shift by exact Hs.
  cbn [bind]. unfold datetime_add. rewrite Hr. cbn [bind].
  rewrite no_weekday_excluded. reflexivity.
Qed.

Lemma holds_initial : holds tag initial_state [].
Proof.
  unfold holds. simpl. split; [reflexivity|]. split; [reflexivity|].
  split; [intros k []|congruence].
Qed.

Lemma holds_record (st : parse_state) (S : series) (dt : datetime) (v : R) :
  holds tag st S -> holds tag (record_tag dt (Some v) st tag) (S ++ [(dt, v)]).
Proof.
  intros (HD & HV & Hk & Hin). unfold holds, record_tag. cbn [stD stV].
  rewrite !dict_get_append, String.eqb_refl, HD, HV, !map_app.
  repeat split.
  - intros k. rewrite dict_keys_append.
    destruct (str_in tag (dict_keys (stD st))); [apply Hk|].
    rewrite in_app_iff. intros [H|[<-|[]]]; [apply Hk; exact H | reflexivity].
  - intros _. rewrite dict_keys_append.
    destruct (str_in tag (dict_keys (stD st))) eqn:E.
    + apply str_in_In. exact E.
    + apply in_or_app. right. left. reflexivity.
Qed.

Lemma combine_some (ws os : list R) :
  combine (map Some ws) os
  = map (fun wo => (Some (fst wo), snd wo)) (combine ws os).
Proof.
  revert os. induction ws as [|w ws IH]; intros [|o os]; try reflexivity.
  cbn [map combine fst snd]. rewrite IH. reflexivity.
Qed.

Lemma foldM_emit_holds (dt : datetime) (d : R) (wos : list (R * R))
    (st : parse_state) (S : series) :
  (forall wo, In wo wos ->
              (Z.abs (shift_us c (snd wo) / us_per_day) <= 999999999)%Z /\
              in_datetime_range (dt + shift_us c (snd wo)) = true) ->
  holds tag st S ->
  exists st',
    foldM (emit c dt tag d) (map (fun wo => (Some (fst wo), snd wo)) wos) st
    = Ok st' /\
    holds tag st' (S ++ shifted_entries c d wos dt).
Proof.
  revert st S. induction wos as [|[w o] wos IH]; intros st S Hfit Hst.
  - exists st. split; [reflexivity|]. simpl. rewrite app_nil_r. exact Hst.
  - destruct (Hfit (w, o) (or_introl eq_refl)) as [H1 H2]. cbn [snd] in *.
    cbn [map foldM fst snd]. rewrite emit_shifted by assumption.
    cbn [bind np_mul].
    destruct (IH (record_tag (dt + shift_us c o) (Some (w * d)%R) st tag)
                 (S ++ [(dt + shift_us c o, (w * d)%R)])) as (st' & Hst' & Hh).
    + intros wo Hwo. apply Hfit. right. exact Hwo.
    + apply holds_record. exact Hst.
    + exists st'. split; [exact Hst'|].
      rewrite <- app_assoc in Hh. exact Hh.
Qed.

Lemma selected_single : selected_tags c [tag] = [tag].
Proof.
  unfold selected_tags, surviving_tags. rewrite no_tag_excluded. simpl.
  destruct (String.eqb (multitag c) "first"); reflexivity.
Qed.

(** The pings [dts], each with the single tag, leave the events of every
    ping under every (weight, offset) pair. *)
Lemma single_tag_loop (ws os : list R) (lines : list string)
    (dts : list datetime) (st : parse_state) (S : series) :
  map (read_sample utcoffset) lines = map (fun dt => Ok (dt, [tag])) dts ->
  (forall dt wo, In dt dts -> In wo (combine ws os) ->
                 (Z.abs (shift_us c (snd wo) / us_per_day) <= 999999999)%Z /\
                 in_datetime_range (dt + shift_us c (snd wo)) = true) ->
  holds tag st S ->
  exists st',
    foldM (process_line utcoffset c (map Some ws) os) lines st = Ok st' /\
    holds tag st'
      (S ++ flat_map (shifted_entries c (tag_duration c [tag]) (combine ws os)) dts).
Proof.
  revert dts st S. induction lines as [|line lines IH];
    intros [|dt dts] st S Hread Hfit Hst; simpl in Hread; try discriminate.
  - exists st. split; [reflexivity|]. simpl. rewrite app_nil_r. exact Hst.
  - inversion Hread as [[Hl Hrest]]. cbn [foldM]. unfold process_line at 1.
    rewrite Hl. cbn [bind fst snd]. unfold process_sample.
    rewrite selected_single. cbn [foldM]. rewrite combine_some.
    destruct (foldM_emit_holds dt (tag_duration c [tag]) (combine ws os) st S)
      as (st1 & Hst1 & Hh1).
    + intros wo Hwo. apply Hfit; [left; reflexivity | exact Hwo].
    + exact Hst.
    + rewrite Hst1. cbn [bind].
      destruct (IH dts st1
                  (S ++ shifted_entries c (tag_duration c [tag]) (combine ws os) dt)
                  Hrest) as (st' & Hst' & Hh'); [|exact Hh1|].
      * intros dt' wo Hdt Hwo. apply Hfit; [right; exact Hdt | exact Hwo].
      * exists st'. split; [exact Hst'|].
        cbn [flat_map]. rewrite app_assoc. exact Hh'.
Qed.

End SingleTagLog.

(** ** From the events of one tag to the weekday buckets *)

Section WeekBuckets.

Lemma combine_fst_snd {X Y : Type} (l : list (X * Y)) :
  combine (map fst l) (map snd l) = l.
Proof.
  induction l as [|[x y] l IH]; simpl; [reflexivity | rewrite IH; reflexivity].
Qed.

Lemma only_key (tag : string) (ks : list string) :
  NoDup ks -> (forall k, In k ks -> k = tag) -> In tag ks -> ks = [tag].
Proof.
  intros Hnd Hall Hin. destruct ks as [|k ks]; [contradiction|].
  assert (k = tag) by (apply Hall; left; reflexivity). subst k.
  destruct ks as [|k' ks]; [reflexivity|].
  assert (k' = tag) by (apply Hall; right; left; reflexivity). subst k'.
  inversion Hnd as [|? ? Hn _]. exfalso. apply Hn. left. reflexivity.
Qed.

(** The table of a state that holds a single series. *)
Lemma combine_fst_some (l : series) :
  combine (map fst l) (map (fun e => Some (snd e)) l)
  = map (fun e => (fst e, Some (snd e))) l.
Proof.
  induction l as [|[x y] l IH]; simpl; [reflexivity | rewrite IH; reflexivity].
Qed.

Lemma insert_by_map {X Y : Type} (f : X -> Y) (leb : X -> X -> bool)
    (leb' : Y -> Y -> bool) (x : X) (l : list X) :
  (forall a b, leb' (f a) (f b) = leb a b) ->
  insert_by leb' (f x) (map f l) = map f (insert_by leb x l).
Proof.
  intros H. induction l as [|y l IH]; [reflexivity|].
  cbn [map insert_by]. rewrite H. destruct (leb x y); [reflexivity|].
  cbn [map]. rewrite IH. reflexivity.
Qed.

Lemma sort_by_map {X Y : Type} (f : X -> Y) (leb : X -> X -> bool)
    (leb' : Y -> Y -> bool) (l : list X) :
  (forall a b, leb' (f a) (f b) = leb a b) ->
  sort_by leb' (map f l) = map f (sort_by leb l).
Proof.
  intros H. induction l as [|x l IH]; [reflexivity|].
  cbn [map sort_by]. rewrite IH. apply insert_by_map. exact H.
Qed.

(** The table of a state that holds a single series. *)
Lemma holds_DataFrame (tag : string) (st : parse_state) (S : series) :
  holds tag st S -> S <> [] -> NoDup (dict_keys (stD st)) ->
  DataFrame (stD st) (stV st) =
  {| index := uniq (sort_by Z.leb (map fst (sort_by time_leb S) ++ []));
     columns := [(tag, sort_by time_leb S)] |}.
Proof.
  intros (HD & HV & Hk & Hin) Hne Hnd. unfold DataFrame.
  rewrite (only_key tag (dict_keys (stD st)) Hnd Hk (Hin Hne)).
  cbn [sort_by insert_by map List.concat fst snd].
  unfold Series. rewrite HD, HV.
  rewrite combine_fst_some.
  rewrite (sort_by_map (fun e : Z * R => (fst e, Some (snd e)))
             time_leb time_leb S) by reflexivity.
  rewrite entries_some, map_map. cbn [fst]. reflexivity.
Qed.

Lemma row_sums_rename (k k2 : string) (F : frame) :
  row_sums (rename_col k k2 F) = row_sums F.
Proof.
  unfold row_sums, rename_col. cbn [index columns].
  apply tabulate_ext_in. intros t _. f_equal.
  induction (columns F) as [|c cols IH]; [reflexivity|].
  cbn [map flat_map snd]. rewrite IH. reflexivity.
Qed.

Variables (tag : string) (idx : list Z) (s : series).

Hypothesis positive : forall e, In e s -> (0 < snd e)%R.
Hypothesis on_index : forall e, In e s -> In (fst e) idx.
Hypothesis every_weekday :
  forall w, 0 <= w < 7 -> exists e, In e s /\ weekday (fst e) = w.

(** With an entry on every weekday, the single column has the seven
    buckets, and each totals 24 hours. *)
Lemma week_buckets :
  index (weekday_shares {| index := idx; columns := [(tag, s)] |}) = weekdays /\
  forall wd,
    In wd weekdays ->
    exists v,
      cell (row_sums (weekday_shares {| index := idx; columns := [(tag, s)] |})) wd
      = Some v /\ v = 24%R.
Proof.
  assert (Hall : forall wd, In wd weekdays ->
            In wd (index (weekday_shares {| index := idx; columns := [(tag, s)] |})) /\
            exists v,
              cell (row_sums (weekday_shares {| index := idx; columns := [(tag, s)] |})) wd
              = Some v /\ v = 24%R).
  { intros wd Hwd. apply weekdays_In in Hwd.
    destruct (every_weekday wd Hwd) as (e0 & He0 & <-).
    exact (single_column_share tag idx s positive on_index e0 He0). }
  split.
  - assert (Hidx : forall wd, In wd weekdays ->
              In wd (index (weekday_shares {| index := idx; columns := [(tag, s)] |})))
      by (intros wd Hwd; apply (Hall wd Hwd)).
    revert Hidx. unfold weekday_shares, scale_rows, groupby_weekday_mean.
    cbn [index]. intros Hidx. apply filter_all. intros wd Hwd.
    apply Hidx in Hwd. apply filter_In in Hwd. tauto.
  - intros wd Hwd. apply (Hall wd Hwd).
Qed.

End WeekBuckets.

(** ** Obfuscation keeps the rows *)

Section Obfuscation.

Variable labels : nat -> string.

Lemma nth_set_nth {X : Type} (n : nat) (x d : X) (l : list X) :
  nth n (set_nth n x l) d = if (n <? List.length l)%nat then x else d.
Proof.
  revert n. induction l as [|y l IH]; intros [|n]; simpl; try reflexivity.
  apply IH.
Qed.

Lemma index_rename (k k2 : string) (F : frame) :
  index (rename_col k k2 F) = index F.
Proof. reflexivity. Qed.

(** Renaming the columns of the object [D] one by one changes neither
    its index nor its row sums. *)
Lemma rename_loop_rows (D : ref) (ks : list string) (w : world) :
  exists w',
    forM ks (fun k =>
               if String.eqb k "other" then ret tt
               else k2 <~ draw labels ;; F' <~ load D ;;
                    store D (rename_col k k2 F')) w = (Ok tt, w') /\
    index (nth D (heap w') empty_frame) = index (nth D (heap w) empty_frame) /\
    row_sums (nth D (heap w') empty_frame)
    = row_sums (nth D (heap w) empty_frame).
Proof.
  revert w. induction ks as [|k ks IH]; intros w.
  - exists w. repeat split.
  - cbn [forM]. unfold bindM at 1. destruct (String.eqb k "other").
    + unfold ret at 1. apply IH.
    + unfold bindM, draw, load, store. cbn [heap draws].
      destruct (IH {| heap := set_nth D (rename_col k (labels (draws w))
                                           (nth D (heap w) empty_frame)) (heap w);
                      draws := S (draws w) |}) as (w' & Hrun & Hi & Hr).
      exists w'. split; [exact Hrun|].
      cbn [heap] in Hi, Hr. rewrite nth_set_nth in Hi, Hr.
      destruct (D <? List.length (heap w))%nat eqn:E.
      * rewrite Hi, Hr, row_sums_rename. split; reflexivity.
      * apply Nat.ltb_ge in E. rewrite (nth_overflow _ _ E) in *.
        rewrite Hi, Hr. split; reflexivity.
Qed.

Lemma obfuscate_rows (self : TagTimeLog) (D : ref) (w : world) :
  exists w',
    _obfuscate labels self D w = (Ok tt, w') /\
    index (nth D (heap w') empty_frame) = index (nth D (heap w) empty_frame) /\
    row_sums (nth D (heap w') empty_frame)
    = row_sums (nth D (heap w) empty_frame).
Proof.
  unfold _obfuscate. destruct (obfuscate (cfg self)).
  - unfold bindM at 1, load at 1. apply rename_loop_rows.
  - exists w. repeat split.
Qed.

Lemma select_single (F : frame) (tag : string) (s : series) :
  columns F = [(tag, s)] -> select F [tag] = Ok F.
Proof.
  intros H. unfold select. rewrite H. simpl. rewrite String.eqb_refl. simpl.
  destruct F as [idx cols]. simpl in H. subst. reflexivity.
Qed.

(** The day-of-week view of a single-column table: its rows are those of
    [weekday_shares]. *)
Lemma day_of_the_week_single (self : TagTimeLog) (F0 F : frame) (tag : string)
    (s : series) (n : nat) :
  selfD self = 1%nat ->
  columns F = [(tag, s)] ->
  exists res w',
    day_of_the_week_sums labels self (Some [tag]) None false
                         {| heap := [F0; F]; draws := n |} = (Ok res, w') /\
    index res = index (weekday_shares F) /\
    row_sums res = row_sums (weekday_shares F).
Proof.
  intros Hself Hcols.
  unfold day_of_the_week_sums, view_tags, view_frame.
  unfold bindM, ret, load, lift, alloc, store. rewrite Hself.
  cbn [heap draws nth]. rewrite (select_single F tag s Hcols).
  cbn [heap draws nth List.length app set_nth].
  destruct (obfuscate_rows self 5%nat
              {| heap := [F0; F; F; fillna0 (resample_sum 1 F);
                          normalize_rows (fillna0 (resample_sum 1 F));
                          scale_rows 24
                            (row_sums (groupby_weekday_mean
                               (normalize_rows (fillna0 (resample_sum 1 F)))))
                            (groupby_weekday_mean
                               (normalize_rows (fillna0 (resample_sum 1 F))))];
                 draws := n |}) as (w' & Hrun & Hi & Hr).
  rewrite Hrun. cbn [heap nth] in Hi, Hr.
  eexists. eexists. split; [reflexivity|]. split; assumption.
Qed.

End Obfuscation.

(** ** One week of uniform pings *)

Section UniformWeek.

Lemma tag_duration_single_pos (c : config) (tag : string) :
  (0 < interval c)%R -> (0 < tag_duration c [tag])%R.
Proof.
  intros H. unfold tag_duration. destruct (String.eqb (multitag c) "split").
  - simpl. lra.
  - exact H.
Qed.

Lemma shifted_entries_In (c : config) (d : R) (wos : list (R * R))
    (dts : list datetime) (e : Z * R) :
  In e (flat_map (shifted_entries c d wos) dts) <->
  exists dt wo, In dt dts /\ In wo wos /\
                e = (dt + shift_us c (snd wo), (fst wo * d)%R).
Proof.
  rewrite in_flat_map. unfold shifted_entries. split.
  - intros (dt & Hdt & He). apply in_map_iff in He.
    destruct He as (wo & <- & Hwo). exists dt, wo. auto.
  - intros (dt & wo & Hdt & Hwo & ->). exists dt. split; [exact Hdt|].
    apply in_map_iff. exists wo. auto.
Qed.

(** A log of single-tag pings, one every [step] microseconds for exactly
    one week (at least one a day), kept whole by the date range: the
    day-of-week view of the tag has the seven buckets, each with the total
    24. *)
Lemma uniform_week_buckets (utcoffset : Z -> Z) (labels : nat -> string)
    (c : config) (noise : nat -> R) (lines : list string) (dt0 step : Z)
    (n : nat) (tag : string) (lo hi now : Z) :
  (0 < interval c)%R ->
  sigma_squares c ->
  (smooth c = true -> (1 / 100 <= sigma c <= 2 ^ 510)%R) ->
  uniform_draws noise ->
  skipweekdays c = [] ->
  skiptags c = [] ->
  0 < step <= us_per_day ->
  step * Z.of_nat n = 7 * us_per_day ->
  map (read_sample utcoffset) lines = map Ok (uniform_samples dt0 step n tag) ->
  (forall o, In o (offsetlist c noise) ->
             shift_fits c dt0 (dt0 + (Z.of_nat n - 1) * step) lo hi o) ->
  exists self w res w',
    init utcoffset c noise lines (Some lo, Some hi) now empty_world
    = (Ok self, w) /\
    day_of_the_week_sums labels self (Some [tag]) None false w = (Ok res, w') /\
    index res = weekdays /\
    forall wd, In wd weekdays ->
               exists v, cell (row_sums res) wd = Some v /\ v = 24%R.
Proof.
  intros Hint Hsig Hhuge Hnoise Hwd Htg Hstep Hweek Hread Hfit.
  destruct (weights_regular c noise Hsig Hhuge Hnoise)
    as (ws & [Hws Hpos] & _ & Hlen).
  set (os := offsetlist c noise) in *.
  set (d := tag_duration c [tag]).
  set (dts := map (fun i => dt0 + Z.of_nat i * step) (seq 0 n)).
  set (last := dt0 + (Z.of_nat n - 1) * step) in *.
  assert (Hn : (0 < n)%nat).
  { destruct n; [|lia]. pose proof us_per_day_pos. simpl in Hweek. lia. }
  assert (Hos : os <> []).
  { apply offsetlist_some. intros Hsm. destruct (Hhuge Hsm). lra. }
  assert (Hdts : forall dt, In dt dts -> dt0 <= dt <= last).
  { intros dt Hdt. unfold dts in Hdt. apply in_map_iff in Hdt.
    destruct Hdt as (i & <- & Hi). apply in_seq in Hi. unfold last. nia. }
  assert (Hwos : forall wo, In wo (combine ws os) ->
                            (0 < fst wo)%R /\ In (snd wo) os).
  { intros [w o] Hwo. split.
    - apply Hpos. exact (in_combine_l _ _ _ _ Hwo).
    - exact (in_combine_r _ _ _ _ Hwo). }
  assert (Hread' : map (read_sample utcoffset) lines
                   = map (fun dt => Ok (dt, [tag])) dts).
  { rewrite Hread. unfold uniform_samples, dts. rewrite !map_map. reflexivity. }
  destruct (single_tag_loop utcoffset c tag Hwd Htg ws os lines dts
              initial_state [] Hread') as (st & Hst & Hh).
  { intros dt wo Hdt Hwo. destruct (Hwos wo Hwo) as [_ Ho].
    destruct (Hfit _ Ho) as (H1 & H2 & H3 & _). split; [exact H1|].
    apply (in_datetime_range_between _ _ _ H2 H3).
    specialize (Hdts dt Hdt). lia. }
  { apply holds_initial. }
  cbn [app] in Hh. fold d in Hh.
  set (S := flat_map (shifted_entries c d (combine ws os)) dts) in *.
  (* the first (weight, offset) pair and the first ping *)
  destruct (combine ws os) as [|wo0 wos] eqn:Ewos.
  { exfalso. apply (f_equal (@List.length (R * R))) in Ewos.
    rewrite length_combine, Hlen, Nat.min_id in Ewos.
    destruct os; [congruence | discriminate]. }
  assert (HS : forall e, In e S <->
             exists dt wo, In dt dts /\ In wo (wo0 :: wos) /\
                           e = (dt + shift_us c (snd wo), (fst wo * d)%R))
    by (intros e; apply shifted_entries_In).
  assert (Hdt0 : In dt0 dts).
  { unfold dts. apply in_map_iff. exists 0%nat. split; [lia|].
    apply in_seq. lia. }
  assert (HSne : S <> []).
  { intros E.
    assert (Hin : In (dt0 + shift_us c (snd wo0), (fst wo0 * d)%R) S).
    { apply HS. exists dt0, wo0. split; [exact Hdt0|]. split; [left|]; reflexivity. }
    rewrite E in Hin. contradiction. }
  (* the table *)
  assert (Hparse : parse_loop utcoffset c noise lines = Ok st).
  { unfold parse_loop. fold os. rewrite Hws. cbn [bind]. exact Hst. }
  pose proof (holds_DataFrame tag st S Hh HSne
                (parse_loop_distinct _ _ _ _ _ Hparse)) as HF.
  pose proof (DataFrame_well_formed (stD st) (stV st)) as Hwf.
  set (F := DataFrame (stD st) (stV st)) in *.
  assert (Hcols : columns F = [(tag, sort_by time_leb S)])
    by (rewrite HF; reflexivity).
  assert (Hentry : forall e, In e (sort_by time_leb S) ->
             exists dt wo, In dt dts /\ In wo (wo0 :: wos) /\
                           e = (dt + shift_us c (snd wo), (fst wo * d)%R)).
  { intros e He. apply HS, sort_by_In with (leb := time_leb). exact He. }
  assert (Hidx : forall t, In t (index F) ->
                           exists e, In e (sort_by time_leb S) /\ fst e = t).
  { intros t Ht. rewrite HF in Ht. cbn [index] in Ht.
    apply uniq_In, sort_by_In in Ht. rewrite app_nil_r in Ht.
    apply in_map_iff in Ht. destruct Ht as (e & <- & He). exists e. auto. }
  assert (Hbounds : forall t, In t (index F) -> lo <= t <= hi).
  { intros t Ht. destruct (Hidx t Ht) as (e & He & <-).
    destruct (Hentry e He) as (dt & wo & Hdt & Hwo & ->). cbn [fst].
    destruct (Hwos wo Hwo) as [_ Ho].
    destruct (Hfit _ Ho) as (_ & _ & _ & H4 & H5).
    specialize (Hdts dt Hdt). lia. }
  assert (Hon : forall e, In e (sort_by time_leb S) -> In (fst e) (index F)).
  { intros e He. apply (Hwf (tag, sort_by time_leb S) e); [|exact He].
    rewrite Hcols. left. reflexivity. }
  assert (Hidxne : index F <> []).
  { intros E.
    assert (Hin : In (dt0 + shift_us c (snd wo0)) (index F)).
    { apply (Hon (dt0 + shift_us c (snd wo0), (fst wo0 * d)%R)).
      apply sort_by_In, HS. exists dt0, wo0.
      split; [exact Hdt0|]. split; [left|]; reflexivity. }
    rewrite E in Hin. contradiction. }
  (* __init__ *)
  assert (Hinit : exists r,
             init utcoffset c noise lines (Some lo, Some hi) now empty_world
             = (Ok {| cfg := c; selfD := 1%nat; rng := r |},
                {| heap := [F; F]; draws := 0 |})).
  { unfold init, parse_file. rewrite Hparse. fold F.
    unfold bindM, lift, alloc, load, ret, raise. cbn [bind fst snd heap draws
      empty_world List.length app nth].
    fold F. rewrite (ix_slice_within F lo hi Hwf Hbounds).
    unfold index_min, index_max. destruct (index F); [congruence|].
    eexists. reflexivity. }
  destruct Hinit as (r & Hinit).
  (* the view *)
  destruct (day_of_the_week_single labels
              {| cfg := c; selfD := 1%nat; rng := r |} F F tag
              (sort_by time_leb S) 0 eq_refl Hcols)
    as (res & w' & Hview & Hri & Hrr).
  exists {| cfg := c; selfD := 1%nat; rng := r |},
         {| heap := [F; F]; draws := 0 |}, res, w'.
  split; [exact Hinit|]. split; [exact Hview|].
  rewrite Hri, Hrr.
  assert (HFeq : F = {| index := index F; columns := [(tag, sort_by time_leb S)] |}).
  { destruct F as [i cs]. cbn [columns index] in *. rewrite Hcols. reflexivity. }
  rewrite HFeq. apply week_buckets.
  - intros e He. destruct (Hentry e He) as (dt & wo & _ & Hwo & ->). cbn [snd].
    apply Rmult_lt_0_compat; [apply (Hwos wo Hwo)|].
    apply tag_duration_single_pos. exact Hint.
  - exact Hon.
  - intros w Hw.
    destruct (weekday_cover (dt0 + shift_us c (snd wo0)) step n w Hstep Hweek Hw)
      as (i & Hi & E).
    exists (dt0 + Z.of_nat i * step + shift_us c (snd wo0), (fst wo0 * d)%R).
    split.
    + apply sort_by_In, HS. exists (dt0 + Z.of_nat i * step), wo0.
      split; [|split; [left; reflexivity | reflexivity]].
      unfold dts. apply in_map_iff. exists i. split; [reflexivity|].
      apply in_seq. lia.
    + cbn [fst]. rewrite <- E. f_equal. lia.
Qed.


Lemma init_sparse :
  init UTC cfg_sparse no_noise log_sparse (Some 0, Some now_2014) now_2014
       empty_world
  = (Ok self_sparse, {| heap := [table_sparse; table_sparse]; draws := 0 |}).
Proof.
  unfold init, parse_file.
  rewrite (parse_loop_unsmoothed UTC cfg_sparse no_noise log_sparse
             [(1399852800000000, ["work"]); (1400155200000000, ["work"])])
    by unsmoothed_side.
  reflexivity.
Qed.

Lemma init_week_nan :
  init UTC cfg_daily_sigma_zero no_noise log_week (Some 0, Some now_2014)
       now_2014 empty_world
  = (Ok self_week_nan,
     {| heap := [table_week_nan; table_week_nan]; draws := 0 |}).
Proof.
  unfold init, parse_file.
  rewrite (parse_loop_sigma_zero UTC cfg_daily_sigma_zero no_noise log_week
             (uniform_samples 1399896000000000 us_per_day 7 "work"))
    by (first [reflexivity | apply sigma_zero_underflows; reflexivity]).
  reflexivity.
Qed.


Lemma shift_us_zero (c : config) : shift_us c 0 = 0.
Proof.
  unfold shift_us.
  replace (0 * interval c * IZR us_per_hour)%R with 0%R by ring.
  apply round_half_away_0.
Qed.


Lemma round_half_away_IZR (z : Z) : round_half_away (IZR z) = z.
Proof.
  unfold round_half_away. destruct (Rle_dec 0 (IZR z)).
  - apply Zfloor_eq. lra.
  - apply Zceil_eq. lra.
Qed.

(** The shifts of the smoothed daily log are whole multiples of eight
    hours. *)
Lemma daily_smooth_shift (o : R) :
  In o (offsetlist cfg_daily_smooth no_noise) ->
  exists i : nat,
    (i < 12)%nat /\
    shift_us cfg_daily_smooth o = (8 * Z.of_nat i - 48) * us_per_hour.
Proof.
  intros Ho.
  assert (Hsig : (- (1 / 4) < sigma cfg_daily_smooth)%R) by (simpl; lra).
  destruct (offsetlist_smooth_In cfg_daily_smooth no_noise o Hsig eq_refl Ho)
    as (i & Hi & _ & Hlt).
  simpl sigma in *. unfold no_noise in Hi.
  assert (Hi12 : (i < 12)%nat).
  { apply INR_lt. replace (INR 12) with 12%R by (simpl; lra). lra. }
  exists i. split; [exact Hi12|].
  unfold shift_us. simpl interval.
  replace (o * 24 * IZR us_per_hour)%R
    with (IZR ((8 * Z.of_nat i - 48) * us_per_hour)).
  - apply round_half_away_IZR.
  - rewrite mult_IZR, minus_IZR, mult_IZR, <- INR_IZR_INZ, Hi. lra.
Qed.

(** The hypotheses of the week of uniform pings are also met with
    smoothing on. *)
Lemma uniform_week_smoothed_example :
  exists self w res w',
    init UTC cfg_daily_smooth no_noise log_week (Some 0, Some now_2014)
         now_2014 empty_world = (Ok self, w) /\
    day_of_the_week_sums sample_labels self (Some ["work"]) None false w
    = (Ok res, w') /\
    index res = weekdays /\
    forall wd, In wd weekdays ->
               exists v, cell (row_sums res) wd = Some v /\ v = 24%R.
Proof.
  apply uniform_week_buckets with (dt0 := 1399896000000000)
                                  (step := us_per_day) (n := 7%nat).
  - simpl. lra.
  - apply sigma_squares_one. reflexivity.
  - intros _. apply sigma_one_moderate. reflexivity.
  - exact uniform_no_noise.
  - reflexivity.
  - reflexivity.
  - split; [reflexivity | discriminate].
  - reflexivity.
  - reflexivity.
  - intros o Ho. destruct (daily_smooth_shift o Ho) as (i & Hi & Hs).
    unfold shift_fits. rewrite Hs.
    do 12 (destruct i as [|i]; [repeat split; discriminate|]). lia.
Qed.

End UniformWeek.

(** ** Which view calls leave the source table alone *)

Section SourceKept.

Variable labels : nat -> string.
Variable r : ref.

Lemma keeps_same {A : Type} (m : M A) (w : world) :
  snd (m w) = w -> keeps_at r m w.
Proof.
  intros E _. rewrite E. split; [reflexivity | apply Nat.le_refl].
Qed.

Lemma keeps_bind {A B : Type} (m : M A) (k : A -> M B) (w : world) :
  keeps_at r m w ->
  (forall a, fst (m w) = Ok a -> keeps_at r (k a) (snd (m w))) ->
  keeps_at r (bindM m k) w.
Proof.
  intros Hm Hk Hr. destruct (Hm Hr) as [Hm1 Hm2]. unfold bindM.
  destruct (m w) as [[a|e] w'] eqn:E; cbn [fst snd] in *.
  - destruct (Hk a eq_refl) as [Hk1 Hk2]; [lia|]. split; [congruence | lia].
  - split; assumption.
Qed.

Lemma keeps_alloc_bind {B : Type} (F : frame) (k : ref -> M B) (w : world) :
  ((r < List.length (heap w))%nat ->
   forall w', keeps_at r (k (List.length (heap w))) w') ->
  keeps_at r (bindM (alloc F) k) w.
Proof.
  intros Hk Hr. unfold bindM, alloc.
  destruct (Hk Hr {| heap := heap w ++ [F]; draws := draws w |}) as [H1 H2].
  - cbn [heap]. rewrite length_app. lia.
  - cbn [heap] in H1, H2. rewrite length_app in H2. cbn [List.length] in H2.
    rewrite app_nth1 in H1 by exact Hr. split; [exact H1 | lia].
Qed.

Lemma nth_set_nth_other {X : Type} (n m : nat) (x d : X) (l : list X) :
  n <> m -> nth m (set_nth n x l) d = nth m l d.
Proof.
  revert n m. induction l as [|y l IH]; intros [|n] [|m] H; simpl;
    try reflexivity; try congruence.
  apply IH. congruence.
Qed.

Lemma length_set_nth {X : Type} (n : nat) (x : X) (l : list X) :
  List.length (set_nth n x l) = List.length l.
Proof.
  revert n. induction l as [|y l IH]; intros [|n]; simpl; try reflexivity.
  rewrite IH. reflexivity.
Qed.

Lemma keeps_store (D : ref) (F : frame) (w : world) :
  D <> r -> keeps_at r (store D F) w.
Proof.
  intros H _. unfold store. cbn [snd heap].
  rewrite nth_set_nth_other by exact H. rewrite length_set_nth.
  split; [reflexivity | apply Nat.le_refl].
Qed.

Lemma keeps_forM {X : Type} (f : X -> M unit) (l : list X) (w : world) :
  (forall x w', keeps_at r (f x) w') -> keeps_at r (forM l f) w.
Proof.
  intros Hf. revert w. induction l as [|x l IH]; intros w; cbn [forM].
  - apply keeps_same. reflexivity.
  - apply keeps_bind; [apply Hf | intros _ _; apply IH].
Qed.

Lemma keeps_obfuscate (self : TagTimeLog) (D : ref) (w : world) :
  D <> r -> keeps_at r (_obfuscate labels self D) w.
Proof.
  intros H. unfold _obfuscate.
  destruct (obfuscate (cfg self)); [|apply keeps_same; reflexivity].
  apply keeps_bind; [apply keeps_same; reflexivity|]. intros F _.
  apply keeps_forM. intros k w'.
  destruct (String.eqb k "other"); [apply keeps_same; reflexivity|].
  apply keeps_bind.
  - intros _. split; [reflexivity | apply Nat.le_refl].
  - intros k2 _. apply keeps_bind; [apply keeps_same; reflexivity|].
    intros F' _. apply keeps_store. exact H.
Qed.

Lemma keeps_add_other (self : TagTimeLog) (D : ref)
    (tags : option (list string)) (w : world) :
  D <> r -> keeps_at r (add_other self D tags) w.
Proof.
  intros H. unfold add_other.
  apply keeps_bind; [apply keeps_same; reflexivity|]. intros F _.
  apply keeps_bind.
  - destruct tags; [apply keeps_same; reflexivity|].
    destruct (keys F); apply keeps_same; reflexivity.
  - intros rest _. apply keeps_bind; [apply keeps_same; reflexivity|].
    intros Fr _. apply keeps_bind; [apply keeps_same; reflexivity|].
    intros FD _. apply keeps_store. exact H.
Qed.

Lemma keeps_view_tags (self : TagTimeLog) (tags : option (list string))
    (top_n : option Z) (w : world) :
  keeps_at r (view_tags self tags top_n) w.
Proof.
  apply keeps_same. unfold view_tags, top_n_tags, bindM, load, ret.
  destruct top_n; [destruct tags|]; reflexivity.
Qed.

(** With tags the view works on a new object. *)
Lemma keeps_copy {B : Type} (self : TagTimeLog) (ts : list string)
    (k : ref -> M B) (w : world) :
  ((r < List.length (heap w))%nat ->
   forall w', keeps_at r (k (List.length (heap w))) w') ->
  keeps_at r (D <~ view_frame self (Some ts) ;; k D) w.
Proof.
  intros Hk Hr. unfold view_frame, bindM, load, lift. cbn beta.
  destruct (select (nth (selfD self) (heap w) empty_frame) ts) as [F'|e].
  - exact (keeps_alloc_bind F' k w Hk Hr).
  - split; [reflexivity | apply Nat.le_refl].
Qed.

End SourceKept.

Section ViewsKeepSource.

Variable labels : nat -> string.
Variable self : TagTimeLog.

Lemma view_tags_run (tags : option (list string)) (top_n : option Z)
    (w : world) :
  exists tags',
    view_tags self tags top_n w = (Ok tags', w) /\
    (tags' = None -> tags = None /\ top_n = None).
Proof.
  unfold view_tags, top_n_tags, bindM, load, ret.
  destruct top_n as [n|].
  - destruct tags; eexists; (split; [reflexivity | discriminate]).
  - exists tags. split; [reflexivity | auto].
Qed.

Lemma keeps_trend_tail (D : ref) (k : Z) (w : world) :
  keeps_at (selfD self)
    (F <~ load D ;;
     D <~ alloc (resample_sum k F) ;;
     _ <~ _obfuscate labels self D ;;
     F <~ load D ;;
     D <~ alloc (fillna0 F) ;;
     load D) w.
Proof.
  apply keeps_bind; [apply keeps_same; reflexivity|]. intros F _.
  cbn [snd load]. apply keeps_alloc_bind. intros Hr w1.
  apply keeps_bind; [apply keeps_obfuscate; lia|]. intros _ _.
  apply keeps_bind; [apply keeps_same; reflexivity|]. intros F2 _.
  cbn [snd load]. apply keeps_alloc_bind. intros _ w2.
  apply keeps_same. reflexivity.
Qed.

Lemma keeps_other_alias (w : world) :
  keys (table_of self w) <> [] ->
  forall B (k : unit -> M B),
    keeps_at (selfD self)
      (x <~ add_other self (selfD self) None ;; k x) w.
Proof.
  intros Hk B k. apply keeps_same.
  unfold add_other, bindM, load, raise. cbn [heap].
  fold (table_of self w). destruct (keys (table_of self w)); [congruence|].
  reflexivity.
Qed.

(** [trend] never changes the source table: it obfuscates the resampled
    frame, and with [tags = None] the column [other] is not computed. *)
Lemma trend_keeps_source (tags : option (list string)) (top_n : option Z)
    (other : bool) (k : Z) (w : world) :
  (selfD self < List.length (heap w))%nat ->
  keys (table_of self w) <> [] ->
  table_of self (snd (trend labels self tags top_n other k w)) = table_of self w.
Proof.
  intros Hr Hkeys.
  enough (H : keeps_at (selfD self) (trend labels self tags top_n other k) w)
    by (apply H; exact Hr).
  destruct (view_tags_run tags top_n w) as (tags' & Hrun & _).
  unfold trend. apply keeps_bind; [apply keeps_view_tags|].
  rewrite Hrun. cbn [fst snd]. intros a Ha. inversion Ha. subst a.
  destruct tags' as [ts|].
  - apply keeps_copy. intros Hr' w1. apply keeps_bind.
    + destruct other; [apply keeps_add_other; lia | apply keeps_same; reflexivity].
    + intros _ _. apply keeps_trend_tail.
  - unfold view_frame. unfold bindM at 1, ret at 1. destruct other.
    + apply keeps_other_alias. exact Hkeys.
    + apply keeps_bind; [apply keeps_same; reflexivity|]. intros _ _.
      apply keeps_trend_tail.
Qed.

(** [day_of_the_week_sums] works on a selection of the columns, a new
    object, or raises before it touches anything. *)
Lemma day_of_the_week_keeps_source (tags : option (list string))
    (top_n : option Z) (other : bool) (w : world) :
  (selfD self < List.length (heap w))%nat ->
  table_of self (snd (day_of_the_week_sums labels self tags top_n other w))
  = table_of self w.
Proof.
  intros Hr.
  enough (H : keeps_at (selfD self)
                (day_of_the_week_sums labels self tags top_n other) w)
    by (apply H; exact Hr).
  destruct (view_tags_run tags top_n w) as (tags' & Hrun & _).
  unfold day_of_the_week_sums. apply keeps_bind; [apply keeps_view_tags|].
  rewrite Hrun. cbn [fst snd]. intros a Ha. inversion Ha. subst a.
  destruct tags' as [ts|]; [|apply keeps_same; reflexivity].
  unfold bindM at 1, ret at 1.
  apply keeps_copy. intros Hr' w1. apply keeps_bind.
  { destruct other; [apply keeps_add_other; lia | apply keeps_same; reflexivity]. }
  intros _ _. apply keeps_bind; [apply keeps_same; reflexivity|]. intros F1 _.
  cbn [snd load]. apply keeps_alloc_bind. intros _ w2.
  apply keeps_bind; [apply keeps_same; reflexivity|]. intros F2 _.
  cbn [snd load]. apply keeps_alloc_bind. intros _ w3.
  apply keeps_bind; [apply keeps_same; reflexivity|]. intros F3 _.
  cbn [snd load]. apply keeps_alloc_bind. intros Hr3 w4.
  apply keeps_bind; [apply keeps_same; reflexivity|]. intros F4 _.
  cbn [snd load].
  apply keeps_bind.
  - apply keeps_store. lia.
  - intros _ _. apply keeps_bind; [apply keeps_obfuscate; lia|].
    intros _ _. apply keeps_same. reflexivity.
Qed.

(** [pie] leaves the source table alone when it works on a selection
    (tags or top_n given) or does not obfuscate. *)
Lemma pie_keeps_source (tags : option (list string)) (top_n : option Z)
    (other : bool) (w : world) :
  (selfD self < List.length (heap w))%nat ->
  keys (table_of self w) <> [] ->
  obfuscate (cfg self) = false \/ tags <> None \/ top_n <> None ->
  table_of self (snd (pie labels self tags top_n other w)) = table_of self w.
Proof.
  intros Hr Hkeys Hcase.
  enough (H : keeps_at (selfD self) (pie labels self tags top_n other) w)
    by (apply H; exact Hr).
  destruct (view_tags_run tags top_n w) as (tags' & Hrun & Hnone).
  unfold pie. apply keeps_bind; [apply keeps_view_tags|].
  rewrite Hrun. cbn [fst snd]. intros a Ha. inversion Ha. subst a.
  destruct tags' as [ts|].
  - apply keeps_copy. intros Hr' w1. apply keeps_bind.
    + destruct other; [apply keeps_add_other; lia | apply keeps_same; reflexivity].
    + intros _ _. apply keeps_bind; [apply keeps_obfuscate; lia|].
      intros _ _. apply keeps_same. reflexivity.
  - destruct (Hnone eq_refl) as [-> ->].
    destruct Hcase as [Hobf|[H|H]]; try congruence.
    unfold view_frame. unfold bindM at 1, ret at 1. destruct other.
    + apply keeps_other_alias. exact Hkeys.
    + apply keeps_bind; [apply keeps_same; reflexivity|]. intros _ _.
      apply keeps_bind.
      * apply keeps_same. unfold _obfuscate. rewrite Hobf. reflexivity.
      * intros _ _. apply keeps_same. reflexivity.
Qed.

End ViewsKeepSource.

(** * Further properties *)

(** ** What the parsing loop records *)

Section ParserInvariants.

Variable utcoffset : Z -> Z.
Variable c : config.

(** What an [emit] that returns has done. *)
Lemma emit_inv (dt : datetime) (t : string) (d : R) (st st' : parse_state)
    (wo : option R * R) :
  emit c dt t d st wo = Ok st' ->
  Z.abs (shift_us c (snd wo) / us_per_day) <= 999999999 /\
  in_datetime_range (dt + shift_us c (snd wo)) = true /\
  st' = if Z_in (weekday (dt + shift_us c (snd wo))) (skipweekdays c)
        then count_excluded st t
        else record_tag (dt + shift_us c (snd wo)) (np_mul (fst wo) d) st t.
Proof.
  unfold emit. destruct wo as [w o]. cbn [fst snd].
  unfold timedelta_hours. fold (shift_us c o).
  destruct (Z.leb_spec (Z.abs (shift_us c o / us_per_day)) 999999999) as [Hle|Hgt];
    cbn [bind]; [|discriminate].
  unfold datetime_add.
  destruct (in_datetime_range (dt + shift_us c o)) eqn:Hr; cbn [bind];
    [|discriminate].
  destruct (Z_in (weekday (dt + shift_us c o)) (skipweekdays c));
    intros H; inversion H; repeat split; assumption || reflexivity.
Qed.

Lemma foldM_invariant_In {X S : Type} (P : S -> Prop) (f : S -> X -> result S)
    (l : list X) (s s' : S) :
  (forall s x s', In x l -> P s -> f s x = Ok s' -> P s') ->
  P s -> foldM f l s = Ok s' -> P s'.
Proof.
  revert s. induction l as [|x l IH]; intros s Hf Hs H; simpl in H.
  - inversion H. subst. exact Hs.
  - destruct (f s x) as [s1|e] eqn:E; simpl in H; [|discriminate].
    apply (IH s1).
    + intros s2 y s3 Hy. apply Hf. right. exact Hy.
    + exact (Hf s x s1 (or_introl eq_refl) Hs E).
    + exact H.
Qed.

Lemma selected_survive (tags : list string) (t : string) :
  In t (selected_tags c tags) -> In t (surviving_tags c tags).
Proof.
  unfold selected_tags. destruct (String.eqb (multitag c) "first"); [|auto].
  intros H. rewrite <- (firstn_skipn 1 (surviving_tags c tags)).
  apply in_or_app. left. exact H.
Qed.

Lemma selected_not_skipped (tags : list string) (t : string) :
  In t (selected_tags c tags) -> str_in t (skiptags c) = false.
Proof.
  intros H. apply selected_survive in H. unfold surviving_tags in H.
  apply filter_In in H. destruct H as [_ H].
  destruct (str_in t (skiptags c)); [discriminate | reflexivity].
Qed.

(** A property of the state that holds at the start and that every
    recorded event and every excluded event keeps, holds after the
    loop. *)
Lemma parse_loop_invariant (P : parse_state -> Prop) (noise : nat -> R)
    (lines : list string) (st : parse_state) :
  P initial_state ->
  (forall st t w dtx tags,
      P st -> In t (selected_tags c tags) ->
      (exists ws, weights c (offsetlist c noise) = Ok ws /\ In w ws) ->
      in_datetime_range dtx = true ->
      Z_in (weekday dtx) (skipweekdays c) = false ->
      P (record_tag dtx (np_mul w (tag_duration c (selected_tags c tags)))
                    st t)) ->
  (forall st t, P st -> P (count_excluded st t)) ->
  parse_loop utcoffset c noise lines = Ok st -> P st.
Proof.
  intros H0 Hrec Hexc H.
  destruct (parse_loop_inv utcoffset c noise lines st H) as (ws & Hws & Hf).
  revert Hf.
  apply (foldM_invariant P); [|exact H0].
  intros s line s' Hs. unfold process_line.
  destruct (read_sample utcoffset line) as [[dt tags]|e]; cbn [bind fst snd];
    [|discriminate].
  unfold process_sample.
  apply (foldM_invariant_In P); [|exact Hs].
  intros s1 t s2 Ht Hs1.
  apply (foldM_invariant_In P); [|exact Hs1].
  intros s3 [w o] s4 Hwo Hs3 E.
  apply emit_inv in E. destruct E as (_ & Hr & ->). cbn [fst snd] in *.
  destruct (Z_in (weekday (dt + shift_us c o)) (skipweekdays c)) eqn:Hw.
  - apply Hexc. exact Hs3.
  - apply Hrec; try assumption. exists ws. split; [exact Hws|].
    eapply in_combine_l. exact Hwo.
Qed.

Lemma dict_get_notin {A : Type} (d : dict A) (t : string) :
  ~ In t (dict_keys d) -> dict_get d t = [].
Proof.
  induction d as [|[k l] d IH]; intros H; simpl in *.
  - reflexivity.
  - destruct (String.eqb_spec t k) as [->|Hne].
    + exfalso. apply H. left. reflexivity.
    + apply IH. intros Hin. apply H. right. exact Hin.
Qed.

Lemma lookup_col_notin {A : Type} (cols : list (string * A)) (t : string) :
  ~ In t (map fst cols) -> lookup_col cols t = None.
Proof.
  induction cols as [|[k s] cols IH]; intros H; simpl in *.
  - reflexivity.
  - destruct (String.eqb_spec t k) as [->|Hne].
    + exfalso. apply H. left. reflexivity.
    + apply IH. intros Hin. apply H. right. exact Hin.
Qed.

(** The two dictionaries of the loop grow together. *)
Lemma parse_loop_aligned (noise : nat -> R) (lines : list string)
    (st : parse_state) :
  parse_loop utcoffset c noise lines = Ok st ->
  dict_keys (stD st) = dict_keys (stV st) /\
  forall t, List.length (dict_get (stD st) t) = List.length (dict_get (stV st) t).
Proof.
  apply (parse_loop_invariant
           (fun st => dict_keys (stD st) = dict_keys (stV st) /\
                      forall t, List.length (dict_get (stD st) t)
                                = List.length (dict_get (stV st) t))).
  - split; reflexivity.
  - intros s t w dtx tags [Hk Hl] _ _ _ _. unfold record_tag. cbn [stD stV].
    split.
    + rewrite !dict_keys_append, Hk. reflexivity.
    + intros t'. rewrite !dict_get_append.
      destruct (String.eqb t' t); [|apply Hl].
      rewrite !length_app, Hl. reflexivity.
  - intros s t H. exact H.
Qed.

(** X1: in every parse that returns, the dictionaries [D] and [V] have
    the same keys and, under each key, lists of the same length, so that
    [pd.Series(V[f], index=D[f])] pairs every duration with its time; and
    every column of the table totals exactly the durations recorded under
    its tag (0 for a tag that was never recorded; a duration that is nan
    is no entry of the column and counts in neither total). *)
Theorem X1_table_holds_what_was_recorded (noise : nat -> R)
    (lines : list string) (st : parse_state) :
  parse_loop utcoffset c noise lines = Ok st ->
  dict_keys (stD st) = dict_keys (stV st) /\
  (forall t, List.length (dict_get (stD st) t)
             = List.length (dict_get (stV st) t)) /\
  (forall t, map snd (Series (stD st) (stV st) t) = dict_get (stV st) t) /\
  (forall t, table_total (DataFrame (stD st) (stV st)) t = tag_total st t).
Proof.
  intros H. destruct (parse_loop_aligned noise lines st H) as [Hk Hl].
  split; [exact Hk|]. split; [exact Hl|]. split.
  - intros t. unfold Series. apply map_snd_combine. apply Hl.
  - intros t. unfold tag_total.
    destruct (in_dec string_dec t (dict_keys (stD st))) as [Hin|Hout].
    + apply table_total_DataFrame; [exact Hin | apply Hl].
    + rewrite (dict_get_notin (stV st) t) by (rewrite <- Hk; exact Hout).
      unfold table_total. rewrite DataFrame_columns.
      rewrite lookup_col_notin; [reflexivity|].
      rewrite map_map. cbn [fst]. rewrite map_id.
      intros Hin. apply Hout. apply sort_by_In in Hin. exact Hin.
Qed.

End ParserInvariants.

Lemma X1_table_holds_what_was_recorded_witness :
  exists st,
    parse_loop UTC cfg_split no_noise log_three_bare = Ok st /\
    dict_keys (stD st) = dict_keys (stV st) /\
    (forall t, List.length (dict_get (stD st) t)
               = List.length (dict_get (stV st) t)) /\
    (forall t, map snd (Series (stD st) (stV st) t) = dict_get (stV st) t) /\
    (forall t, table_total (DataFrame (stD st) (stV st)) t = tag_total st t).
Proof.
  assert (H : exists st, parse_loop UTC cfg_split no_noise log_three_bare = Ok st).
  { rewrite (parse_loop_unsmoothed UTC cfg_split no_noise log_three_bare
               [(1400000000000000, ["tagA"]);
                (1400003600000000, ["tagB"]);
                (1400007200000000, ["tagA"; "tagB"])])
      by unsmoothed_side.
    eexists. reflexivity. }
  destruct H as [st H]. exists st. split; [exact H|].
  exact (X1_table_holds_what_was_recorded UTC cfg_split no_noise
           log_three_bare st H).
Defined.

(** ** Every event is recorded or counted *)

Section EventCount.

Variable utcoffset : Z -> Z.
Variable c : config.

Lemma n_recorded_append {A : Type} (k : string) (x : A) (d : dict A) :
  n_recorded (dict_append k x d) = S (n_recorded d).
Proof.
  unfold n_recorded. induction d as [|[k' l] d IH]; cbn [dict_append].
  - reflexivity.
  - destruct (String.eqb k k'); simpl.
    + rewrite length_app. simpl. lia.
    + simpl in IH. rewrite IH. lia.
Qed.

Lemma foldM_measure {X St : Type} (mu : St -> Z) (f : St -> X -> result St)
    (k : Z) (l : list X) (s s' : St) :
  (forall s x s', f s x = Ok s' -> mu s' = mu s + k) ->
  foldM f l s = Ok s' -> mu s' = mu s + Z.of_nat (List.length l) * k.
Proof.
  intros Hf. revert s. induction l as [|x l IH]; intros s H; simpl in H.
  - inversion H. subst. simpl. lia.
  - destruct (f s x) as [s1|e] eqn:E; simpl in H; [|discriminate].
    rewrite (IH s1 H), (Hf s x s1 E).
    change (List.length (x :: l)) with (S (List.length l)). lia.
Qed.

Lemma emit_counts (dt : datetime) (t : string) (d : R) (st st' : parse_state)
    (wo : option R * R) :
  emit c dt t d st wo = Ok st' ->
  Z.of_nat (n_recorded (stD st')) + n_excluded st'
  = Z.of_nat (n_recorded (stD st)) + n_excluded st + 1 /\
  n_excluded st <= n_excluded st'.
Proof.
  intros E. apply emit_inv in E. destruct E as (_ & _ & ->).
  destruct (Z_in (weekday (dt + shift_us c (snd wo))) (skipweekdays c));
    unfold count_excluded, record_tag; cbn [stD n_excluded].
  - lia.
  - rewrite n_recorded_append. lia.
Qed.

Lemma process_sample_counts (ws : list (option R)) (os : list R)
    (dt : datetime)
    (tags : list string) (st st' : parse_state) :
  process_sample c ws os dt tags st = Ok st' ->
  Z.of_nat (n_recorded (stD st')) + n_excluded st'
  = Z.of_nat (n_recorded (stD st)) + n_excluded st
    + Z.of_nat (List.length (selected_tags c tags))
      * Z.of_nat (List.length (combine ws os)).
Proof.
  unfold process_sample. intros H.
  set (mu := fun st : parse_state => Z.of_nat (n_recorded (stD st)) + n_excluded st).
  assert (Hstep : forall (s : parse_state) (t : string) (s1 : parse_state),
             foldM (emit c dt t (tag_duration c (selected_tags c tags)))
                   (combine ws os) s = Ok s1 ->
             mu s1 = mu s + Z.of_nat (List.length (combine ws os))).
  { intros s t s1 H1.
    rewrite (foldM_measure mu _ 1 _ _ _
               (fun s2 wo s3 E => proj1 (emit_counts dt t _ s2 s3 wo E)) H1).
    lia. }
  exact (foldM_measure mu _ _ _ _ _ Hstep H).
Qed.

Lemma process_sample_excluded_mono (ws : list (option R)) (os : list R)
    (dt : datetime)
    (tags : list string) (st st' : parse_state) :
  process_sample c ws os dt tags st = Ok st' ->
  n_excluded st <= n_excluded st'.
Proof.
  unfold process_sample.
  apply (foldM_invariant (fun s => n_excluded st <= n_excluded s)); [|lia].
  intros s t s1 Hs.
  apply (foldM_invariant (fun s => n_excluded st <= n_excluded s)); [|exact Hs].
  intros s2 wo s3 Hs2 E. apply emit_counts in E. lia.
Qed.

Lemma loop_counts (ws : list (option R)) (os : list R) (lines : list string)
    (st st' : parse_state) :
  foldM (process_line utcoffset c ws os) lines st = Ok st' ->
  exists samples,
    map (read_sample utcoffset) lines = map Ok samples /\
    Z.of_nat (n_recorded (stD st')) + n_excluded st'
    = Z.of_nat (n_recorded (stD st)) + n_excluded st
      + Z.of_nat (List.length (combine ws os) * n_occurrences c samples) /\
    n_excluded st <= n_excluded st'.
Proof.
  revert st. induction lines as [|line lines IH]; intros st H; simpl in H.
  - inversion H. subst. exists []. split; [reflexivity|].
    unfold n_occurrences. cbn [map list_sum fold_right].
    rewrite Nat.mul_0_r. simpl. lia.
  - unfold process_line at 1 in H.
    destruct (read_sample utcoffset line) as [smp|e] eqn:E; cbn [bind] in H;
      [|discriminate].
    destruct (process_sample c ws os (fst smp) (snd smp) st) as [s1|e] eqn:E1;
      cbn [bind] in H; [|discriminate].
    destruct (IH s1 H) as (samples & Hread & Hcount & Hmono).
    exists (smp :: samples). split; [simpl; rewrite E, Hread; reflexivity|].
    pose proof (process_sample_counts _ _ _ _ _ _ E1) as H1.
    pose proof (process_sample_excluded_mono _ _ _ _ _ _ E1) as H2.
    unfold n_occurrences, list_sum in *. cbn [map fold_right] in *.
    rewrite ?Nat2Z.inj_mul, ?Nat2Z.inj_add in *. split; [nia | lia].
Qed.

(** X2: in every parse that returns, each pair of a selected tag
    occurrence and an offset is either recorded as one entry or counted
    once in [n_excluded]: the entries of [D] and the counter add up to
    the number of offsets times the number of tag occurrences that the
    lines select, and the counter never goes below zero. *)
Theorem X2_every_event_recorded_or_counted (noise : nat -> R)
    (lines : list string) (st : parse_state) :
  parse_loop utcoffset c noise lines = Ok st ->
  exists samples,
    map (read_sample utcoffset) lines = map Ok samples /\
    Z.of_nat (n_recorded (stD st)) + n_excluded st
    = Z.of_nat (List.length (offsetlist c noise) * n_occurrences c samples) /\
    0 <= n_excluded st.
Proof.
  intros H.
  destruct (parse_loop_inv utcoffset c noise lines st H) as (ws & Hws & Hf).
  destruct (loop_counts _ _ _ _ _ Hf) as (samples & Hread & Hcount & Hmono).
  exists samples. split; [exact Hread|].
  rewrite length_combine, (weights_length _ _ _ Hws), Nat.min_id in Hcount.
  change (n_recorded (stD initial_state)) with 0%nat in Hcount.
  change (n_excluded initial_state) with 0 in Hcount, Hmono.
  split; [lia | exact Hmono].
Qed.

End EventCount.

Lemma X2_every_event_recorded_or_counted_witness :
  exists st samples,
    parse_loop UTC cfg_no_thursday no_noise
               ["1400000000 work"; "1400112000 work mail"] = Ok st /\
    map (read_sample UTC) ["1400000000 work"; "1400112000 work mail"]
    = map Ok samples /\
    Z.of_nat (n_recorded (stD st)) + n_excluded st
    = Z.of_nat (List.length (offsetlist cfg_no_thursday no_noise)
                * n_occurrences cfg_no_thursday samples) /\
    0 <= n_excluded st.
Proof.
  assert (H : exists st,
             parse_loop UTC cfg_no_thursday no_noise
                        ["1400000000 work"; "1400112000 work mail"] = Ok st).
  { rewrite (parse_loop_unsmoothed UTC cfg_no_thursday no_noise
               ["1400000000 work"; "1400112000 work mail"]
               [(1400000000000000, ["work"]);
                (1400112000000000, ["work"; "mail"])])
      by unsmoothed_side.
    eexists. reflexivity. }
  destruct H as [st H].
  destruct (X2_every_event_recorded_or_counted UTC cfg_no_thursday no_noise
              ["1400000000 work"; "1400112000 work mail"] st H)
    as (samples & H1 & H2 & H3).
  exists st, samples. repeat split; assumption.
Defined.

(** ** What [__init__] leaves *)

Section InitFacts.

Variable utcoffset : Z -> Z.

(** The run of an [__init__] that returns. *)
Lemma init_inv (c : config) (noise : nat -> R) (lines : list string)
    (startend : option Z * option Z) (now : datetime) (w0 w : world)
    (self : TagTimeLog) :
  init utcoffset c noise lines startend now w0 = (Ok self, w) ->
  exists st start lo hi,
    parse_loop utcoffset c noise lines = Ok st /\
    match fst startend with
    | Some s => start = s
    | None => fromtimestamp utcoffset 1 = Ok start
    end /\
    table_of self w
    = ix_slice start (match snd startend with Some e => e | None => now end)
               (DataFrame (stD st) (stV st)) /\
    w = {| heap := heap w0 ++ [DataFrame (stD st) (stV st)] ++ [table_of self w];
           draws := draws w0 |} /\
    self = {| cfg := c; selfD := S (List.length (heap w0));
              rng := (day_of lo, day_of hi) |} /\
    index_min (table_of self w) = Some lo /\
    index_max (table_of self w) = Some hi.
Proof.
  unfold init, parse_file, bindM, lift, alloc, load, ret, raise.
  destruct (parse_loop utcoffset c noise lines) as [st|e] eqn:EF;
    cbn [bind]; [|discriminate].
  cbn [heap draws].
  set (F := DataFrame (stD st) (stV st)).
  assert (Hn : forall G,
             nth (List.length (heap w0 ++ [F])) ((heap w0 ++ [F]) ++ [G])
                 empty_frame = G).
  { intros G. rewrite app_nth2 by lia. rewrite Nat.sub_diag. reflexivity. }
  assert (Hn0 : nth (List.length (heap w0)) (heap w0 ++ [F]) empty_frame = F).
  { rewrite app_nth2 by lia. rewrite Nat.sub_diag. reflexivity. }
  assert (Hlen : List.length (heap w0 ++ [F]) = S (List.length (heap w0))).
  { rewrite length_app. cbn [List.length]. lia. }
  destruct (fst startend) as [s|] eqn:Es;
    [|destruct (fromtimestamp utcoffset 1) as [s|e] eqn:Ets; [|discriminate]];
    cbn [heap draws]; rewrite Hn, Hn0;
    (destruct (index_min (ix_slice s _ F)) as [lo|] eqn:Elo; [|discriminate]);
    (destruct (index_max (ix_slice s _ F)) as [hi|] eqn:Ehi; [|discriminate]);
    intros H; inversion H; subst self w; clear H;
    exists st, s, lo, hi;
    unfold table_of; cbn [selfD heap]; rewrite Hn;
    rewrite Hlen, <- app_assoc;
    repeat split; assumption || reflexivity.
Qed.

Lemma DataFrame_index_In (D : dict datetime) (V : dict (option R)) (t : Z) :
  In t (index (DataFrame D V)) ->
  exists k, In k (dict_keys D) /\ In t (dict_get D k).
Proof.
  unfold DataFrame. cbn [index]. intros H.
  apply uniq_In, sort_by_In, in_concat in H. destruct H as (l & Hl & Ht).
  apply in_map_iff in Hl. destruct Hl as (col & <- & Hc).
  apply in_map_iff in Hc. destruct Hc as (k & <- & Hk). cbn [snd] in Ht.
  apply sort_by_In in Hk. exists k. split; [exact Hk|].
  apply in_map_iff in Ht. destruct Ht as ([t' v] & <- & He).
  apply sort_by_In in He. unfold Series in He.
  eapply in_combine_l. exact He.
Qed.

Lemma DataFrame_entry_In (D : dict datetime) (V : dict (option R))
    (k : string) (s : series) (e : Z * R) :
  In (k, s) (columns (DataFrame D V)) -> In e s ->
  In k (dict_keys D) /\ In (fst e) (dict_get D k) /\
  In (Some (snd e)) (dict_get V k).
Proof.
  rewrite DataFrame_columns. intros Hc He.
  apply in_map_iff in Hc. destruct Hc as (k' & E & Hk). inversion E. subst k' s.
  apply sort_by_In in Hk. apply entries_In, sort_by_In in He.
  unfold Series in He.
  split; [exact Hk|]. split; [eapply in_combine_l | eapply in_combine_r]; exact He.
Qed.

Lemma ix_slice_entry_In (lo hi : Z) (F : frame) (k : string) (s : series)
    (e : Z * R) :
  In (k, s) (columns (ix_slice lo hi F)) -> In e s ->
  in_slice lo hi (fst e) = true /\
  exists s0, In (k, s0) (columns F) /\ In e s0.
Proof.
  unfold ix_slice. cbn [columns]. intros Hc He.
  apply in_map_iff in Hc. destruct Hc as ([k0 s0] & E & Hc0).
  cbn [fst snd] in E. inversion E. subst k s.
  apply filter_In in He. destruct He as [He Hs].
  split; [exact Hs|]. exists s0. split; assumption.
Qed.

(** The times and the tags that the loop has recorded: no excluded
    weekday, no excluded tag. *)
Lemma parse_loop_nothing_excluded (c : config) (noise : nat -> R)
    (lines : list string) (st : parse_state) :
  parse_loop utcoffset c noise lines = Ok st ->
  (forall k dt, In dt (dict_get (stD st) k) ->
                Z_in (weekday dt) (skipweekdays c) = false /\
                in_datetime_range dt = true) /\
  (forall k, In k (dict_keys (stD st)) -> str_in k (skiptags c) = false).
Proof.
  apply (parse_loop_invariant utcoffset c
           (fun st =>
              (forall k dt, In dt (dict_get (stD st) k) ->
                            Z_in (weekday dt) (skipweekdays c) = false /\
                            in_datetime_range dt = true) /\
              (forall k, In k (dict_keys (stD st)) ->
                         str_in k (skiptags c) = false))).
  - split; [intros k dt [] | intros k []].
  - intros s t w dtx tags [H1 H2] Ht _ Hr Hw. unfold record_tag. cbn [stD].
    split.
    + intros k dt. rewrite dict_get_append.
      destruct (String.eqb k t); [|apply H1].
      rewrite in_app_iff. intros [H|[<-|[]]]; [exact (H1 k dt H) | auto].
    + intros k. rewrite dict_keys_append.
      destruct (str_in t (dict_keys (stD s))); [apply H2|].
      rewrite in_app_iff. intros [H|[<-|[]]]; [exact (H2 k H)|].
      exact (selected_not_skipped c tags t Ht).
  - intros s t H. exact H.
Qed.


End InitFacts.

Lemma init_no_thursday :
  exists self w,
    init UTC cfg_no_thursday no_noise
         ["1400000000 work"; "1400112000 work mail"] (None, None) now_2014
         empty_world = (Ok self, w).
Proof.
  unfold init, parse_file.
  rewrite (parse_loop_unsmoothed UTC cfg_no_thursday no_noise
             ["1400000000 work"; "1400112000 work mail"]
             [(1400000000000000, ["work"]);
              (1400112000000000, ["work"; "mail"])])
    by unsmoothed_side.
  do 2 eexists. reflexivity.
Qed.


(** ** The total of a smoothed sample *)

Section SmoothedSample.

Variable c : config.

Lemma no_nan_record (dt : datetime) (v : R) (st : parse_state) (t : string) :
  no_nan st -> no_nan (record_tag dt (Some v) st t).
Proof.
  intros Hn k Hin. unfold record_tag in Hin. cbn [stV] in Hin.
  rewrite dict_get_append in Hin.
  destruct (String.eqb k t); [|exact (Hn k Hin)].
  apply in_app_or in Hin. destruct Hin as [Hin|[E|[]]];
    [exact (Hn k Hin) | discriminate].
Qed.

Lemma map_fst_combine {X Y : Type} (l1 : list X) (l2 : list Y) :
  List.length l1 = List.length l2 -> map fst (combine l1 l2) = l1.
Proof.
  revert l2. induction l1 as [|x l1 IH]; intros [|y l2] H; simpl in *;
    try discriminate; try reflexivity.
  f_equal. apply IH. lia.
Qed.

Lemma emit_records (dt : datetime) (t : string) (d w o : R)
    (st : parse_state) :
  Z.abs (shift_us c o / us_per_day) <= 999999999 ->
  in_datetime_range (dt + shift_us c o) = true ->
  Z_in (weekday (dt + shift_us c o)) (skipweekdays c) = false ->
  emit c dt t d st (Some w, o)
  = Ok (record_tag (dt + shift_us c o) (Some (w * d)%R) st t).
Proof.
  intros Hs Hr Hw. unfold emit. rewrite timedelta_hours_shift by exact Hs.
  cbn [bind]. unfold datetime_add. rewrite Hr. cbn [bind]. rewrite Hw.
  reflexivity.
Qed.

(** The offsets under which the ping at [dt] is recorded: the shift is
    a valid [timedelta] and leads to a valid datetime on a weekday that
    is not excluded. *)
Lemma foldM_emit_total (dt : datetime) (t : string) (d : R)
    (wos : list (R * R)) (st : parse_state) :
  (forall wo, In wo wos ->
      Z.abs (shift_us c (snd wo) / us_per_day) <= 999999999 /\
      in_datetime_range (dt + shift_us c (snd wo)) = true /\
      Z_in (weekday (dt + shift_us c (snd wo))) (skipweekdays c) = false) ->
  exists st',
    foldM (emit c dt t d) (map (fun wo => (Some (fst wo), snd wo)) wos) st
    = Ok st' /\
    (no_nan st -> no_nan st') /\
    grand_total st' = (grand_total st + d * Rsum (map fst wos))%R /\
    n_excluded st' = n_excluded st.
Proof.
  revert st. induction wos as [|[w o] wos IH]; intros st Hfit.
  - exists st. split; [reflexivity|]. simpl. split; [auto|].
    split; [lra | reflexivity].
  - destruct (Hfit (w, o) (or_introl eq_refl)) as (H1 & H2 & H3).
    cbn [snd] in *. cbn [map foldM fst snd].
    rewrite emit_records by assumption. cbn [bind].
    destruct (IH (record_tag (dt + shift_us c o) (Some (w * d)%R) st t))
      as (st' & Hrun & Hnan & Htot & Hexc).
    { intros wo Hwo. apply Hfit. right. exact Hwo. }
    exists st'. split; [exact Hrun|].
    split; [intros Hn; apply Hnan, no_nan_record; exact Hn|].
    rewrite Htot, Hexc.
    unfold grand_total, record_tag. cbn [stV n_excluded map fst Rsum].
    rewrite dict_total_append. cbn [sum_numbers]. split; [lra | reflexivity].
Qed.

Lemma foldM_tags_total (dt : datetime) (d : R) (wos : list (R * R))
    (tags : list string) (st : parse_state) :
  (forall wo, In wo wos ->
      Z.abs (shift_us c (snd wo) / us_per_day) <= 999999999 /\
      in_datetime_range (dt + shift_us c (snd wo)) = true /\
      Z_in (weekday (dt + shift_us c (snd wo))) (skipweekdays c) = false) ->
  exists st',
    foldM (fun st t =>
             foldM (emit c dt t d)
                   (map (fun wo => (Some (fst wo), snd wo)) wos) st)
          tags st = Ok st' /\
    (no_nan st -> no_nan st') /\
    grand_total st'
    = (grand_total st + INR (List.length tags) * (d * Rsum (map fst wos)))%R /\
    n_excluded st' = n_excluded st.
Proof.
  intros Hfit. revert st. induction tags as [|t tags IH]; intros st.
  - exists st. split; [reflexivity|]. simpl. split; [auto|].
    split; [lra | reflexivity].
  - cbn [foldM].
    destruct (foldM_emit_total dt t d wos st Hfit) as (s1 & H1 & N1 & T1 & E1).
    rewrite H1. cbn [bind].
    destruct (IH s1) as (st' & Hrun & Hnan & Htot & Hexc).
    exists st'. split; [exact Hrun|]. split; [auto|].
    rewrite Htot, T1, Hexc, E1.
    change (List.length (t :: tags)) with (S (List.length tags)).
    rewrite S_INR. split; [lra | reflexivity].
Qed.


End SmoothedSample.


(** ** The fields of a line *)

Section LineFields.

Local Open Scope string_scope.

Lemma string_app_assoc (a b c : string) : (a ++ b) ++ c = a ++ b ++ c.
Proof.
  induction a as [|x a IH]; simpl; [reflexivity | rewrite IH; reflexivity].
Qed.

Lemma string_app_nil_r (a : string) : a ++ "" = a.
Proof.
  induction a as [|x a IH]; simpl; [reflexivity | rewrite IH; reflexivity].
Qed.

Lemma string_length_app (a b : string) :
  String.length (a ++ b) = (String.length a + String.length b)%nat.
Proof.
  induction a as [|x a IH]; simpl; [reflexivity | rewrite IH; reflexivity].
Qed.

Lemma rev_string_twice (a b s : string) :
  Regex.rev_string a (Regex.rev_string b s) = Regex.rev_string (s ++ a) b.
Proof.
  revert a b. induction s as [|x s IH]; intros a b; simpl.
  - reflexivity.
  - rewrite IH. reflexivity.
Qed.

Lemma rev_string_involutive (s : string) :
  Regex.rev_string "" (Regex.rev_string "" s) = s.
Proof. rewrite rev_string_twice. simpl. apply string_app_nil_r. Qed.

(** *** [re.split(r'\s+', line)] *)

(** The rest of a string after its leading whitespace. *)
Lemma spaces_run (ws s : string) :
  all_space ws = true ->
  match s with String x _ => Regex.isspace x = false | EmptyString => True end ->
  Regex.star_greedy Regex.Space (Regex.match_here []) (ws ++ s) = Some s.
Proof.
  intros Hws Hs. induction ws as [|x ws IH]; simpl in *.
  - destruct s as [|y s]; [reflexivity|]. simpl. rewrite Hs. reflexivity.
  - apply andb_prop in Hws. destruct Hws as [Hx Hws]. rewrite Hx.
    rewrite (IH Hws). reflexivity.
Qed.

Lemma spaces_match_len (x : ascii) (ws s : string) :
  Regex.isspace x = true ->
  all_space ws = true ->
  match s with String y _ => Regex.isspace y = false | EmptyString => True end ->
  Regex.match_len Regex.spaces (String x (ws ++ s)) = Some (S (String.length ws)).
Proof.
  intros Hx Hws Hs. unfold Regex.match_len.
  change (Regex.match_here Regex.spaces (String x (ws ++ s)))
    with (if Regex.isspace x
          then Regex.star_greedy Regex.Space (Regex.match_here []) (ws ++ s)
          else None).
  rewrite Hx, (spaces_run ws s Hws Hs). f_equal.
  cbn [String.length]. rewrite string_length_app. lia.
Qed.

Lemma split_skip_eq (r : Regex.regex) (cur u s : string) :
  Regex.split r (String.length u) cur (u ++ s) = Regex.split r 0 cur s.
Proof.
  induction u as [|x u IH]; simpl; [reflexivity | exact IH].
Qed.

(** Reading a field moves it to the piece being read. *)
Lemma split_field (cur f s : string) :
  no_space f = true ->
  Regex.split Regex.spaces 0 cur (f ++ s)
  = Regex.split Regex.spaces 0 (Regex.rev_string cur f) s.
Proof.
  revert cur. induction f as [|x f IH]; intros cur Hf; simpl in *.
  - reflexivity.
  - apply andb_prop in Hf. destruct Hf as [Hx Hf].
    unfold Regex.match_len, Regex.spaces. cbn [Regex.match_here Regex.accepts].
    destruct (Regex.isspace x); [discriminate|]. apply IH. exact Hf.
Qed.

(** A run of whitespace ends the piece being read. *)
Lemma split_separator (cur ws s : string) :
  ws <> "" -> all_space ws = true ->
  match s with String y _ => Regex.isspace y = false | EmptyString => True end ->
  Regex.split Regex.spaces 0 cur (ws ++ s)
  = Regex.rev_string "" cur :: Regex.split Regex.spaces 0 "" s.
Proof.
  intros Hne Hws Hs. destruct ws as [|x ws]; [congruence|].
  simpl in Hws. apply andb_prop in Hws. destruct Hws as [Hx Hws].
  change (String x ws ++ s) with (String x (ws ++ s)).
  cbn [Regex.split]. rewrite (spaces_match_len x ws s Hx Hws Hs).
  rewrite split_skip_eq. reflexivity.
Qed.

Lemma field_starts (f s : string) :
  is_field f = true ->
  match f ++ s with
  | String y _ => Regex.isspace y = false
  | EmptyString => True
  end.
Proof.
  destruct f as [|x f]; [discriminate|]. simpl. intros H.
  apply andb_prop in H. destruct H as [H _].
  apply andb_prop in H. destruct H as [H _].
  destruct (Regex.isspace x); [discriminate | reflexivity].
Qed.

Lemma is_field_no_space (f : string) : is_field f = true -> no_space f = true.
Proof.
  destruct f as [|x f]; [discriminate|]. unfold is_field. intros H.
  apply andb_prop in H. tauto.
Qed.

Lemma is_field_no_bracket (f : string) :
  is_field f = true -> has_char "[" f = false.
Proof.
  destruct f as [|x f]; [discriminate|]. unfold is_field. intros H.
  apply andb_prop in H. destruct H as [_ H].
  destruct (has_char "[" (String x f)); [discriminate | reflexivity].
Qed.

(** The pieces of the tags of a line, with whatever whitespace follows
    the last tag. *)
Lemma split_blank_before (tags : list string) (cur ws : string) :
  forallb is_field tags = true ->
  all_space ws = true ->
  Regex.split Regex.spaces 0 cur (blank_before tags ++ ws)
  = (Regex.rev_string "" cur :: tags
     ++ match ws with EmptyString => [] | _ => [""] end)%list.
Proof.
  intros Htags Hws. revert cur. induction tags as [|t tags IH]; intros cur.
  - cbn [blank_before List.app]. change ("" ++ ws) with ws.
    destruct ws as [|x ws]; [reflexivity|].
    rewrite <- (string_app_nil_r (String x ws)).
    rewrite split_separator by (discriminate || exact Hws || exact I).
    reflexivity.
  - cbn [forallb] in Htags. apply andb_prop in Htags.
    destruct Htags as [Ht Htags].
    cbn [blank_before]. rewrite !string_app_assoc.
    rewrite (split_separator cur " " (t ++ blank_before tags ++ ws));
      [|discriminate | reflexivity | apply field_starts; exact Ht].
    rewrite split_field by (apply is_field_no_space; exact Ht).
    rewrite (IH Htags). rewrite rev_string_involutive. reflexivity.
Qed.

Lemma split_join_fields (f0 : string) (tags : list string) (ws : string) :
  is_field f0 = true ->
  forallb is_field tags = true ->
  all_space ws = true ->
  split_fields (join_fields f0 tags ++ ws)
  = (f0 :: tags ++ match ws with EmptyString => [] | _ => [""] end)%list.
Proof.
  intros H0 Htags Hws. unfold split_fields, join_fields.
  rewrite string_app_assoc.
  rewrite split_field by (apply is_field_no_space; exact H0).
  rewrite split_blank_before by assumption.
  rewrite rev_string_involutive. reflexivity.
Qed.

(** *** [re.sub(r'\s*\[.*?\]\s*$', '', line)] *)

Lemma annotation_unfold (s : string) :
  Regex.match_here Regex.annotation s
  = Regex.star_greedy Regex.Space after_spaces s.
Proof. reflexivity. Qed.

Lemma after_spaces_cons (x : ascii) (s : string) :
  after_spaces (String x s)
  = if Ascii.eqb x "[" then Regex.star_lazy Regex.Dot closing s else None.
Proof. reflexivity. Qed.

Lemma closing_cons (x : ascii) (s : string) :
  closing (String x s)
  = if Ascii.eqb x "]" then Regex.star_greedy Regex.Space the_end s else None.
Proof. reflexivity. Qed.

Lemma the_end_eq (s : string) :
  the_end s = if Regex.at_end s then Some s else None.
Proof. reflexivity. Qed.

Lemma star_greedy_cons (a : Regex.cls) (k : string -> option string)
    (x : ascii) (s : string) :
  Regex.star_greedy a k (String x s)
  = if Regex.accepts a x
    then match Regex.star_greedy a k s with
         | Some rest => Some rest
         | None => k (String x s)
         end
    else k (String x s).
Proof. reflexivity. Qed.

Lemma star_lazy_eq (a : Regex.cls) (k : string -> option string) (s : string) :
  Regex.star_lazy a k s
  = match k s with
    | Some rest => Some rest
    | None =>
        match s with
        | String x s' => if Regex.accepts a x then Regex.star_lazy a k s' else None
        | EmptyString => None
        end
    end.
Proof. destruct s; reflexivity. Qed.

Lemma all_space_app (a b : string) :
  all_space (a ++ b) = all_space a && all_space b.
Proof.
  induction a as [|x a IH]; simpl; [reflexivity|].
  rewrite IH, andb_assoc. reflexivity.
Qed.

Lemma has_char_app (c : ascii) (a b : string) :
  has_char c (a ++ b) = has_char c a || has_char c b.
Proof.
  induction a as [|x a IH]; simpl; [reflexivity|].
  rewrite IH, orb_assoc. reflexivity.
Qed.

Lemma trailing_spaces (ws : string) :
  all_space ws = true ->
  Regex.star_greedy Regex.Space the_end ws = Some "".
Proof.
  induction ws as [|x ws IH]; intros H.
  - reflexivity.
  - simpl in H. apply andb_prop in H. destruct H as [Hx H].
    rewrite star_greedy_cons. cbn [Regex.accepts]. rewrite Hx, (IH H).
    reflexivity.
Qed.

Lemma isspace_newline : Regex.isspace Regex.newline = true.
Proof. reflexivity. Qed.

Lemma the_end_nonspace (x : ascii) (s : string) :
  Regex.isspace x = false -> the_end (String x s) = None.
Proof.
  intros Hx. rewrite the_end_eq. destruct s as [|y s]; [|reflexivity].
  cbn [Regex.at_end].
  destruct (Ascii.eqb_spec x Regex.newline) as [->|Hne]; [|reflexivity].
  rewrite isspace_newline in Hx. discriminate.
Qed.

Lemma not_trailing_spaces (s : string) :
  all_space s = false ->
  Regex.star_greedy Regex.Space the_end s = None.
Proof.
  induction s as [|x s IH]; intros H.
  - discriminate.
  - rewrite star_greedy_cons. cbn [Regex.accepts]. simpl in H.
    destruct (Regex.isspace x) eqn:Hx; simpl in H.
    + rewrite (IH H). rewrite the_end_eq.
      destruct s as [|y s]; [discriminate | reflexivity].
    + apply the_end_nonspace. exact Hx.
Qed.

Lemma closing_inner (x : ascii) (rest ws : string) :
  closing (String x (rest ++ "]" ++ ws)) = None.
Proof.
  rewrite closing_cons.
  destruct (Ascii.eqb x "]"); [|reflexivity].
  apply not_trailing_spaces. rewrite all_space_app. simpl.
  apply andb_false_r.
Qed.

Lemma lazy_body (ann ws : string) :
  has_char Regex.newline ann = false ->
  all_space ws = true ->
  Regex.star_lazy Regex.Dot closing (ann ++ "]" ++ ws) = Some "".
Proof.
  intros Hann Hws. induction ann as [|x ann IH].
  - change ("" ++ "]" ++ ws) with (String "]" ws).
    rewrite star_lazy_eq, closing_cons.
    change (Ascii.eqb "]" "]") with true. cbv iota.
    rewrite (trailing_spaces ws Hws). reflexivity.
  - change (String x ann ++ "]" ++ ws) with (String x (ann ++ "]" ++ ws)).
    rewrite star_lazy_eq, closing_inner.
    simpl in Hann. apply orb_false_elim in Hann. destruct Hann as [Hx Hann].
    cbn [Regex.accepts]. rewrite Hx. cbn [negb]. apply IH. exact Hann.
Qed.

Lemma annotation_tail (ws ann ws' : string) :
  all_space ws = true ->
  has_char Regex.newline ann = false ->
  all_space ws' = true ->
  Regex.match_here Regex.annotation (ws ++ "[" ++ ann ++ "]" ++ ws') = Some "".
Proof.
  intros Hws Hann Hws'. rewrite annotation_unfold.
  induction ws as [|x ws IH].
  - change ("" ++ "[" ++ ann ++ "]" ++ ws') with (String "[" (ann ++ "]" ++ ws')).
    rewrite star_greedy_cons. cbn [Regex.accepts].
    change (Regex.isspace "[") with false. cbv iota.
    rewrite after_spaces_cons.
    change (Ascii.eqb "[" "[") with true. cbv iota.
    apply lazy_body; assumption.
  - simpl in Hws. apply andb_prop in Hws. destruct Hws as [Hx Hws].
    change (String x ws ++ "[" ++ ann ++ "]" ++ ws')
      with (String x (ws ++ "[" ++ ann ++ "]" ++ ws')).
    rewrite star_greedy_cons. cbn [Regex.accepts]. rewrite Hx, (IH Hws).
    reflexivity.
Qed.

Lemma annotation_fails (u s : string) :
  has_char "[" u = false ->
  ends_nonspace u = true ->
  Regex.match_here Regex.annotation (u ++ s) = None.
Proof.
  rewrite annotation_unfold.
  induction u as [|x u IH]; intros Hb He.
  - discriminate.
  - simpl in Hb. apply orb_false_elim in Hb. destruct Hb as [Hx Hb].
    change (String x u ++ s) with (String x (u ++ s)).
    rewrite star_greedy_cons, after_spaces_cons, Hx. cbn [Regex.accepts].
    destruct (Regex.isspace x) eqn:Hsp; [|reflexivity].
    destruct u as [|y u].
    + simpl in He. rewrite Hsp in He. discriminate.
    + rewrite (IH Hb He). reflexivity.
Qed.

Lemma annotation_no_bracket (s : string) :
  has_char "[" s = false -> Regex.match_here Regex.annotation s = None.
Proof.
  rewrite annotation_unfold.
  induction s as [|x s IH]; intros Hb.
  - reflexivity.
  - simpl in Hb. apply orb_false_elim in Hb. destruct Hb as [Hx Hb].
    rewrite star_greedy_cons, (IH Hb), after_spaces_cons, Hx.
    destruct (Regex.accepts Regex.Space x); reflexivity.
Qed.

Lemma sub_no_bracket (s : string) :
  has_char "[" s = false -> Regex.sub_empty Regex.annotation 0 s = s.
Proof.
  induction s as [|x s IH]; intros Hb; [reflexivity|].
  cbn [Regex.sub_empty]. unfold Regex.match_len.
  rewrite (annotation_no_bracket _ Hb).
  simpl in Hb. apply orb_false_elim in Hb. destruct Hb as [_ Hb].
  rewrite (IH Hb). reflexivity.
Qed.

Lemma sub_body (u s : string) :
  has_char "[" u = false ->
  u = "" \/ ends_nonspace u = true ->
  Regex.sub_empty Regex.annotation 0 (u ++ s)
  = u ++ Regex.sub_empty Regex.annotation 0 s.
Proof.
  induction u as [|x u IH]; intros Hb He; [reflexivity|].
  destruct He as [He|He]; [discriminate|].
  change (String x u ++ s) with (String x (u ++ s)).
  cbn [Regex.sub_empty]. unfold Regex.match_len.
  change (String x (u ++ s)) with (String x u ++ s) at 1.
  rewrite (annotation_fails _ s Hb He).
  simpl in Hb. apply orb_false_elim in Hb. destruct Hb as [_ Hb].
  rewrite IH; [reflexivity | exact Hb |].
  destruct u as [|y u]; [left; reflexivity | right; exact He].
Qed.

Lemma sub_skip_all (r : Regex.regex) (s : string) (n : nat) :
  (String.length s <= n)%nat -> Regex.sub_empty r n s = "".
Proof.
  revert n. induction s as [|x s IH]; intros n H; [reflexivity|].
  simpl in H. destruct n as [|n]; [lia|]. simpl. apply IH. lia.
Qed.

Lemma sub_tail (ws ann ws' : string) :
  all_space ws = true ->
  has_char Regex.newline ann = false ->
  all_space ws' = true ->
  Regex.sub_empty Regex.annotation 0 (ws ++ "[" ++ ann ++ "]" ++ ws') = "".
Proof.
  intros Hws Hann Hws'.
  pose proof (annotation_tail ws ann ws' Hws Hann Hws') as Hm.
  destruct (ws ++ "[" ++ ann ++ "]" ++ ws') as [|x rest] eqn:E.
  - reflexivity.
  - cbn [Regex.sub_empty]. unfold Regex.match_len. rewrite Hm.
    cbn [String.length]. rewrite Nat.sub_0_r.
    apply sub_skip_all. lia.
Qed.

Lemma field_ends_nonspace (f : string) :
  is_field f = true -> ends_nonspace f = true.
Proof.
  intros H. pose proof (is_field_no_space f H) as Hn.
  destruct f as [|x f]; [discriminate|]. clear H.
  revert x Hn. induction f as [|y f IH]; intros x Hn.
  - simpl in *. rewrite andb_true_r in Hn. exact Hn.
  - simpl in Hn. apply andb_prop in Hn. destruct Hn as [_ Hn].
    change (ends_nonspace (String x (String y f)))
      with (ends_nonspace (String y f)).
    apply IH. exact Hn.
Qed.

Lemma ends_nonspace_app (a b : string) :
  ends_nonspace (a ++ b)
  = match b with EmptyString => ends_nonspace a | _ => ends_nonspace b end.
Proof.
  induction a as [|x a IH].
  - destruct b; reflexivity.
  - change (String x a ++ b) with (String x (a ++ b)).
    destruct (a ++ b) as [|z r] eqn:E.
    + destruct a; [|discriminate]. simpl in E. subst b. reflexivity.
    + change (ends_nonspace (String x (String z r)))
        with (ends_nonspace (String z r)).
      rewrite IH. destruct b as [|y b]; [|reflexivity].
      destruct a as [|w a]; [discriminate | reflexivity].
Qed.

Lemma blank_before_shape (tags : list string) :
  forallb is_field tags = true ->
  has_char "[" (blank_before tags) = false /\
  (blank_before tags = "" \/ ends_nonspace (blank_before tags) = true).
Proof.
  induction tags as [|t tags IH]; intros H.
  - split; [reflexivity | left; reflexivity].
  - cbn [forallb] in H. apply andb_prop in H. destruct H as [Ht H].
    destruct (IH H) as [Hb He]. cbn [blank_before]. split.
    + rewrite !has_char_app, Hb, (is_field_no_bracket t Ht). reflexivity.
    + right. change (" " ++ t ++ blank_before tags)
               with (String " " (t ++ blank_before tags)).
      pose proof (field_ends_nonspace t Ht) as Het.
      assert (Hte : ends_nonspace (t ++ blank_before tags) = true).
      { rewrite ends_nonspace_app.
        destruct He as [->|He]; [exact Het|].
        destruct (blank_before tags); [discriminate | exact He]. }
      destruct (t ++ blank_before tags) as [|y r]; [discriminate|].
      exact Hte.
Qed.

Lemma join_fields_shape (f0 : string) (tags : list string) :
  is_field f0 = true ->
  forallb is_field tags = true ->
  has_char "[" (join_fields f0 tags) = false /\
  ends_nonspace (join_fields f0 tags) = true.
Proof.
  intros H0 Htags. destruct (blank_before_shape tags Htags) as [Hb He].
  unfold join_fields. split.
  - rewrite has_char_app, Hb, (is_field_no_bracket f0 H0). reflexivity.
  - rewrite ends_nonspace_app.
    destruct He as [->|He]; [apply field_ends_nonspace; exact H0|].
    destruct (blank_before tags); [discriminate | exact He].
Qed.

Lemma all_space_no_bracket (ws : string) :
  all_space ws = true -> has_char "[" ws = false.
Proof.
  induction ws as [|x ws IH]; intros H; [reflexivity|].
  simpl in *. apply andb_prop in H. destruct H as [Hx H].
  rewrite (IH H), orb_false_r.
  destruct (Ascii.eqb_spec x "[") as [->|Hne]; [discriminate | reflexivity].
Qed.

(** X5: a line made of a timestamp field and tag fields, separated by
    single blanks and followed by a bracketed annotation without line
    break in it (with any whitespace before and after it, a final
    newline included), is read as exactly the timestamp and the tags:
    the annotation and the line end leave no field behind. *)
Theorem X5_annotated_line_fields (f0 : string) (tags : list string)
    (ws ann ws' : string) :
  is_field f0 = true ->
  forallb is_field tags = true ->
  all_space ws = true ->
  has_char Regex.newline ann = false ->
  all_space ws' = true ->
  split_fields
    (strip_annotation (join_fields f0 tags ++ ws ++ "[" ++ ann ++ "]" ++ ws'))
  = (f0 :: tags)%list.
Proof.
  intros H0 Htags Hws Hann Hws'.
  destruct (join_fields_shape f0 tags H0 Htags) as [Hb He].
  unfold strip_annotation.
  rewrite sub_body by (exact Hb || (right; exact He)).
  rewrite sub_tail by assumption.
  rewrite (split_join_fields f0 tags "" H0 Htags eq_refl).
  rewrite app_nil_r. reflexivity.
Qed.

(** X6: the same line without annotation keeps its line end: when
    whitespace follows the last field (the newline of a line read from
    a file), [re.split] yields one more field, the empty string, which
    the loop treats as a tag; without trailing whitespace the fields are
    the timestamp and the tags. *)
Theorem X6_bare_line_fields (f0 : string) (tags : list string) (ws : string) :
  is_field f0 = true ->
  forallb is_field tags = true ->
  all_space ws = true ->
  split_fields (strip_annotation (join_fields f0 tags ++ ws))
  = (f0 :: tags ++ match ws with EmptyString => [] | _ => [""] end)%list.
Proof.
  intros H0 Htags Hws.
  destruct (join_fields_shape f0 tags H0 Htags) as [Hb _].
  unfold strip_annotation. rewrite sub_no_bracket.
  - apply split_join_fields; assumption.
  - rewrite has_char_app, Hb, (all_space_no_bracket ws Hws). reflexivity.
Qed.

End LineFields.

Lemma X5_annotated_line_fields_witness :
  split_fields
    (strip_annotation
       (join_fields "1400007200" ["tagA"; "tagB"] ++ " " ++ "["
        ++ "2014.05.13 18:53:20 TUE" ++ "]" ++ nl)%string)
  = ["1400007200"; "tagA"; "tagB"].
Proof.
  apply (X5_annotated_line_fields "1400007200" ["tagA"; "tagB"] " "
           "2014.05.13 18:53:20 TUE" nl); reflexivity.
Defined.

Lemma X6_bare_line_fields_witness :
  split_fields (strip_annotation (join_fields "1400007200" ["tagA"; "tagB"] ++ nl)%string)
  = ["1400007200"; "tagA"; "tagB"; ""].
Proof.
  apply (X6_bare_line_fields "1400007200" ["tagA"; "tagB"] nl); reflexivity.
Defined.

(** ** When a view returns and when it raises *)

Section Columns.

Lemma lookup_col_In {A : Type} (cols : list (string * A)) (t : string) :
  In t (map fst cols) -> exists s, lookup_col cols t = Some s /\ In (t, s) cols.
Proof.
  induction cols as [|[k s] cols IH]; intros H; simpl in *.
  - contradiction.
  - destruct (String.eqb_spec t k) as [->|Hne].
    + exists s. split; [reflexivity | left; reflexivity].
    + destruct H as [H|H]; [congruence|].
      destruct (IH H) as (s' & E & Hin). exists s'. split; [exact E | right; exact Hin].
Qed.

Lemma select_cols_known (cols : list (string * series)) (ts : list string) :
  (forall t, In t ts -> In t (map fst cols)) ->
  exists cs, select_cols cols ts = Ok cs /\ map fst cs = ts /\
             forall c, In c cs -> In c cols.
Proof.
  induction ts as [|t ts IH]; intros H.
  - exists []. repeat split. intros c [].
  - destruct (lookup_col_In cols t (H t (or_introl eq_refl))) as (s & E & Hin).
    destruct IH as (cs & Hcs & Hk & Hsub).
    { intros t' Ht'. apply H. right. exact Ht'. }
    exists ((t, s) :: cs). cbn [select_cols]. rewrite E, Hcs. cbn [bind].
    repeat split.
    + cbn [map fst]. rewrite Hk. reflexivity.
    + intros c [<-|Hc]; [exact Hin | apply Hsub; exact Hc].
Qed.

Lemma select_cols_unknown (cols : list (string * series)) (ts : list string) :
  (exists t, In t ts /\ ~ In t (map fst cols)) ->
  exists t, In t ts /\ ~ In t (map fst cols) /\
            select_cols cols ts = Raise (KeyError t).
Proof.
  induction ts as [|t ts IH]; intros (u & Hu & Hout).
  - contradiction.
  - cbn [select_cols]. destruct (lookup_col cols t) as [s|] eqn:E.
    + destruct Hu as [<-|Hu].
      * exfalso. apply Hout. clear -E.
        induction cols as [|[k s'] cols IH]; simpl in *; [discriminate|].
        destruct (String.eqb_spec t k) as [->|Hne]; [left; reflexivity|].
        right. apply IH. exact E.
      * destruct IH as (t' & Ht' & Hout' & Hsel); [exists u; auto|].
        exists t'. split; [right; exact Ht'|]. split; [exact Hout'|].
        rewrite Hsel. reflexivity.
    + exists t. split; [left; reflexivity|]. split; [|reflexivity].
      intros Hin. destruct (lookup_col_In cols t Hin) as (s & E' & _).
      congruence.
Qed.

End Columns.

Section ViewOutcomes.

Variable labels : nat -> string.
Variable self : TagTimeLog.

Lemma py_take_incl {A : Type} (n : Z) (l : list A) (x : A) :
  In x (py_take n l) -> In x l.
Proof.
  unfold py_take. destruct (0 <=? n); intros H.
  - rewrite <- (firstn_skipn (Z.to_nat n) l). apply in_or_app. left. exact H.
  - rewrite <- (firstn_skipn (List.length l - Z.to_nat (- n)) l).
    apply in_or_app. left. exact H.
Qed.

(** The tags that a view works with. *)
Lemma view_tags_resolved (tags : option (list string)) (top_n : option Z)
    (w : world) :
  exists tags',
    view_tags self tags top_n w = (Ok tags', w) /\
    match tags' with
    | None => tags = None /\ top_n = None
    | Some ts' =>
        (forall t, In t ts' ->
                   In t (keys (table_of self w)) \/
                   exists ts, tags = Some ts /\ In t ts) /\
        (forall ts t, tags = Some ts -> In t ts -> In t ts')
    end.
Proof.
  unfold view_tags, top_n_tags, bindM, load, ret. fold (table_of self w).
  set (F := table_of self w).
  assert (Hrank : forall n t,
             In t (py_take n (sorted_desc (day_total F) (map fst (day_totals F)))) ->
             In t (keys F)).
  { intros n t Ht. apply py_take_incl in Ht. unfold sorted_desc in Ht.
    apply sort_by_In in Ht. rewrite day_totals_keys in Ht. exact Ht. }
  destruct top_n as [n|].
  - destruct tags as [extra|].
    + eexists. split; [reflexivity|]. rewrite append_missing_dedup. split.
      * intros t Ht. apply in_app_or in Ht. destruct Ht as [Ht|Ht].
        -- left. exact (Hrank n t Ht).
        -- right. exists extra. split; [reflexivity|].
           apply dedup_In in Ht. tauto.
      * intros ts t E Ht. inversion E. subst ts.
        destruct (in_dec string_dec t
                    (py_take n (sorted_desc (day_total F) (map fst (day_totals F)))))
          as [Hin|Hout].
        -- apply in_or_app. left. exact Hin.
        -- apply in_or_app. right. apply dedup_In. split; assumption.
    + eexists. split; [reflexivity|]. split.
      * intros t Ht. left. exact (Hrank n t Ht).
      * intros ts t E. discriminate.
  - destruct tags as [ts|].
    + exists (Some ts). split; [reflexivity|]. split.
      * intros t Ht. right. exists ts. auto.
      * intros ts' t E Ht. inversion E. subst. exact Ht.
    + exists None. split; [reflexivity | auto].
Qed.

Lemma view_frame_known (ts : list string) (w : world) :
  (forall t, In t ts -> In t (keys (table_of self w))) ->
  exists F',
    select (table_of self w) ts = Ok F' /\
    view_frame self (Some ts) w
    = (Ok (List.length (heap w)),
       {| heap := heap w ++ [F']; draws := draws w |}).
Proof.
  intros H. destruct (select_cols_known (columns (table_of self w)) ts H)
    as (cs & E & _).
  exists {| index := index (table_of self w); columns := cs |}.
  unfold view_frame, bindM, load, lift, alloc, select.
  fold (table_of self w). rewrite E. cbn [bind]. split; reflexivity.
Qed.

Lemma view_frame_unknown (ts : list string) (w : world) :
  (exists t, In t ts /\ ~ In t (keys (table_of self w))) ->
  exists t, In t ts /\ ~ In t (keys (table_of self w)) /\
            view_frame self (Some ts) w = (Raise (KeyError t), w).
Proof.
  intros H. destruct (select_cols_unknown (columns (table_of self w)) ts H)
    as (t & Ht & Hout & E).
  exists t. split; [exact Ht|]. split; [exact Hout|].
  unfold view_frame, bindM, load, lift, select.
  fold (table_of self w). rewrite E. reflexivity.
Qed.

(** The start of a view with a tag that is not a column. *)
Lemma views_start_unknown (ts : list string) (top_n : option Z) (w : world) :
  (exists t, In t ts /\ ~ In t (keys (table_of self w))) ->
  exists ts' t,
    view_tags self (Some ts) top_n w = (Ok (Some ts'), w) /\
    In t ts /\ ~ In t (keys (table_of self w)) /\
    view_frame self (Some ts') w = (Raise (KeyError t), w).
Proof.
  intros (u & Hu & Hout).
  destruct (view_tags_resolved (Some ts) top_n w) as ([ts'|] & Hrun & Hres).
  - destruct Hres as [Hfrom Hinto].
    destruct (view_frame_unknown ts' w) as (t & Ht & Hout' & E).
    { exists u. split; [exact (Hinto ts u eq_refl Hu) | exact Hout]. }
    exists ts', t. split; [exact Hrun|]. split; [|split; [exact Hout' | exact E]].
    destruct (Hfrom t Ht) as [Hk|(ts0 & E0 & Hin)]; [contradiction|].
    inversion E0. subst. exact Hin.
  - destruct Hres as [Hres _]. discriminate.
Qed.

(** X7: a view that is asked for a tag that is not a column of the
    table raises [KeyError] for such a tag, with or without [top_n], and
    leaves the store as it was: nothing is allocated, renamed or drawn.
    This holds for the five views. *)
Theorem X7_unknown_tag_raises_KeyError (ts : list string) (top_n : option Z)
    (other : bool) (k resolution : Z) (w : world) :
  (exists t, In t ts /\ ~ In t (keys (table_of self w))) ->
  (exists t, In t ts /\ ~ In t (keys (table_of self w)) /\
             pie labels self (Some ts) top_n other w = (Raise (KeyError t), w)) /\
  (exists t, In t ts /\ ~ In t (keys (table_of self w)) /\
             trend labels self (Some ts) top_n other k w
             = (Raise (KeyError t), w)) /\
  (exists t, In t ts /\ ~ In t (keys (table_of self w)) /\
             day_of_the_week_sums labels self (Some ts) top_n other w
             = (Raise (KeyError t), w)) /\
  (exists t, In t ts /\ ~ In t (keys (table_of self w)) /\
             hour_sums labels self (Some ts) top_n resolution other w
             = (Raise (KeyError t), w)) /\
  (exists t, In t ts /\ ~ In t (keys (table_of self w)) /\
             hour_of_the_week labels self (Some ts) top_n resolution other w
             = (Raise (KeyError t), w)).
Proof.
  intros H.
  destruct (views_start_unknown ts top_n w H) as (ts' & t & Hrun & Ht & Hout & E).
  repeat split; exists t; (split; [exact Ht|]); (split; [exact Hout|]).
  - unfold pie. unfold bindM at 1. rewrite Hrun.
    unfold bindM at 1. rewrite E. reflexivity.
  - unfold trend. unfold bindM at 1. rewrite Hrun.
    unfold bindM at 1. rewrite E. reflexivity.
  - unfold day_of_the_week_sums. unfold bindM at 1. rewrite Hrun.
    unfold bindM at 1, ret at 1. unfold bindM at 1. rewrite E. reflexivity.
  - unfold hour_sums, sorted_view. unfold bindM at 1. unfold bindM at 1.
    rewrite Hrun. unfold bindM at 1, ret at 1. unfold bindM at 1.
    rewrite E. reflexivity.
  - unfold hour_of_the_week, sorted_view. unfold bindM at 1. unfold bindM at 1.
    rewrite Hrun. unfold bindM at 1, ret at 1. unfold bindM at 1.
    rewrite E. reflexivity.
Qed.

(** The frame that a view works on when its tags are columns: a new
    object. *)
Lemma views_start_known (tags : option (list string)) (top_n : option Z)
    (w : world) :
  tags <> None \/ top_n <> None ->
  (forall ts t, tags = Some ts -> In t ts -> In t (keys (table_of self w))) ->
  exists ts' F',
    view_tags self tags top_n w = (Ok (Some ts'), w) /\
    select (table_of self w) ts' = Ok F' /\
    view_frame self (Some ts') w
    = (Ok (List.length (heap w)),
       {| heap := heap w ++ [F']; draws := draws w |}).
Proof.
  intros Hgiven Hknown.
  destruct (view_tags_resolved tags top_n w) as ([ts'|] & Hrun & Hres).
  - destruct Hres as [Hfrom _].
    destruct (view_frame_known ts' w) as (F' & Hsel & E).
    { intros t Ht. destruct (Hfrom t Ht) as [Hk|(ts0 & E0 & Hin)];
        [exact Hk | exact (Hknown ts0 t E0 Hin)]. }
    exists ts', F'. auto.
  - destruct Hres as [-> ->]. destruct Hgiven; congruence.
Qed.

End ViewOutcomes.

Lemma X7_unknown_tag_raises_KeyError_witness :
  (exists t, In t ["tagA"; "sleep"] /\
             ~ In t (keys (table_of log_three world_three)) /\
             pie sample_labels log_three (Some ["tagA"; "sleep"]) (Some 1) true
                 world_three = (Raise (KeyError t), world_three)) /\
  (exists t, In t ["tagA"; "sleep"] /\
             ~ In t (keys (table_of log_three world_three)) /\
             trend sample_labels log_three (Some ["tagA"; "sleep"]) (Some 1) true
                   7 world_three = (Raise (KeyError t), world_three)) /\
  (exists t, In t ["tagA"; "sleep"] /\
             ~ In t (keys (table_of log_three world_three)) /\
             day_of_the_week_sums sample_labels log_three
               (Some ["tagA"; "sleep"]) (Some 1) true world_three
             = (Raise (KeyError t), world_three)) /\
  (exists t, In t ["tagA"; "sleep"] /\
             ~ In t (keys (table_of log_three world_three)) /\
             hour_sums sample_labels log_three (Some ["tagA"; "sleep"]) (Some 1)
                       2 true world_three = (Raise (KeyError t), world_three)) /\
  (exists t, In t ["tagA"; "sleep"] /\
             ~ In t (keys (table_of log_three world_three)) /\
             hour_of_the_week sample_labels log_three (Some ["tagA"; "sleep"])
                              (Some 1) 2 true world_three
             = (Raise (KeyError t), world_three)).
Proof.
  apply (X7_unknown_tag_raises_KeyError sample_labels log_three
           ["tagA"; "sleep"] (Some 1) true 7 2 world_three).
  exists "sleep". split; [right; left; reflexivity|].
  simpl. intros [H|[H|[]]]; discriminate.
Defined.

(** ** No view but a whole-table [pie] changes the table *)

Section HourViewsKeepSource.

Variable labels : nat -> string.
Variable self : TagTimeLog.

(** The frame that the sorting views work on is a new object. *)
Lemma sorted_view_fresh (tags : option (list string)) (top_n : option Z)
    (other : bool) (w w' : world) (D : ref) :
  sorted_view self tags top_n other w = (Ok D, w') ->
  D = List.length (heap w).
Proof.
  unfold sorted_view.
  destruct (view_tags_run self tags top_n w) as (tags' & Hrun & _).
  unfold bindM at 1. rewrite Hrun.
  destruct tags' as [ts|]; [|discriminate].
  unfold bindM at 1, ret at 1. unfold bindM at 1.
  unfold view_frame, bindM at 1, load at 1, bindM at 1, lift at 1.
  destruct (select (nth (selfD self) (heap w) empty_frame) ts) as [F'|e];
    [|discriminate].
  unfold alloc at 1. unfold bindM.
  destruct ((if other
             then add_other self (List.length (heap w)) (Some ts)
             else ret tt)
              {| heap := heap w ++ [F']; draws := draws w |}) as [[u|e] w2];
    [|discriminate].
  unfold ret. intros H. inversion H. reflexivity.
Qed.

Lemma keeps_sorted_view (tags : option (list string)) (top_n : option Z)
    (other : bool) (w : world) :
  keeps_at (selfD self) (sorted_view self tags top_n other) w.
Proof.
  destruct (view_tags_run self tags top_n w) as (tags' & Hrun & _).
  unfold sorted_view. apply keeps_bind; [apply keeps_view_tags|].
  rewrite Hrun. cbn [fst snd]. intros a Ha. inversion Ha. subst a.
  destruct tags' as [ts|]; [|apply keeps_same; reflexivity].
  unfold bindM at 1, ret at 1.
  apply keeps_copy. intros Hr' w1. apply keeps_bind.
  - destruct other; [apply keeps_add_other; lia | apply keeps_same; reflexivity].
  - intros _ _. apply keeps_same. reflexivity.
Qed.

Lemma keeps_after_sorted_view {B : Type} (tags : option (list string))
    (top_n : option Z) (other : bool) (k : ref -> M B) (w : world) :
  (forall D w', D <> selfD self -> keeps_at (selfD self) (k D) w') ->
  keeps_at (selfD self) (D <~ sorted_view self tags top_n other ;; k D) w.
Proof.
  intros Hk Hr.
  assert (HK : keeps_at (selfD self)
                 (D <~ sorted_view self tags top_n other ;; k D) w).
  { apply keeps_bind; [apply keeps_sorted_view|].
    intros D HD. apply Hk.
    destruct (sorted_view self tags top_n other w) as [r w'] eqn:E.
    cbn [fst] in HD. subst r. apply sorted_view_fresh in E. lia. }
  exact (HK Hr).
Qed.

Lemma hour_sums_keeps_source (tags : option (list string)) (top_n : option Z)
    (resolution : Z) (other : bool) (w : world) :
  (selfD self < List.length (heap w))%nat ->
  table_of self (snd (hour_sums labels self tags top_n resolution other w))
  = table_of self w.
Proof.
  intros Hr.
  enough (H : keeps_at (selfD self)
                (hour_sums labels self tags top_n resolution other) w)
    by (apply H; exact Hr).
  unfold hour_sums. apply keeps_after_sorted_view. intros D w1 HD.
  apply keeps_bind; [apply keeps_same; reflexivity|]. intros F1 _.
  cbn [snd load]. apply keeps_alloc_bind. intros Hr2 w2.
  apply keeps_bind; [apply keeps_same; reflexivity|]. intros F2 _.
  cbn [snd load]. apply keeps_bind; [apply keeps_store; lia|]. intros _ _.
  apply keeps_bind; [apply keeps_obfuscate; lia|]. intros _ _.
  destruct (String.eqb (multitag (cfg self)) "double").
  - apply keeps_bind; [apply keeps_same; reflexivity|]. intros F3 _.
    cbn [snd load]. apply keeps_alloc_bind. intros _ w3.
    apply keeps_same. reflexivity.
  - apply keeps_same. reflexivity.
Qed.

Lemma hour_of_the_week_keeps_source (tags : option (list string))
    (top_n : option Z) (resolution : Z) (other : bool) (w : world) :
  (selfD self < List.length (heap w))%nat ->
  table_of self
    (snd (hour_of_the_week labels self tags top_n resolution other w))
  = table_of self w.
Proof.
  intros Hr.
  enough (H : keeps_at (selfD self)
                (hour_of_the_week labels self tags top_n resolution other) w)
    by (apply H; exact Hr).
  unfold hour_of_the_week. apply keeps_after_sorted_view. intros D w1 HD.
  apply keeps_bind; [apply keeps_same; reflexivity|]. intros F1 _.
  cbn [snd load]. apply keeps_alloc_bind. intros Hr2 w2.
  apply keeps_bind; [apply keeps_same; reflexivity|]. intros F2 _.
  cbn [snd load]. apply keeps_bind; [apply keeps_store; lia|]. intros _ _.
  apply keeps_bind; [apply keeps_same; reflexivity|]. intros F3 _.
  cbn [snd load]. apply keeps_alloc_bind. intros Hr3 w3.
  apply keeps_bind; [apply keeps_obfuscate; lia|]. intros _ _.
  apply keeps_same. reflexivity.
Qed.

(** X10: on a table with a column, [trend], [day_of_the_week_sums],
    [hour_sums] and [hour_of_the_week] leave the table of the log as it
    was, whatever their arguments and whether they return or raise; so
    does [pie] unless it obfuscates the whole table (no tags, no
    [top_n]). *)
Theorem X10_views_keep_the_table (tags : option (list string))
    (top_n : option Z) (other : bool) (k resolution : Z) (w : world) :
  (selfD self < List.length (heap w))%nat ->
  keys (table_of self w) <> [] ->
  table_of self (snd (trend labels self tags top_n other k w))
  = table_of self w /\
  table_of self (snd (day_of_the_week_sums labels self tags top_n other w))
  = table_of self w /\
  table_of self (snd (hour_sums labels self tags top_n resolution other w))
  = table_of self w /\
  table_of self
    (snd (hour_of_the_week labels self tags top_n resolution other w))
  = table_of self w /\
  (obfuscate (cfg self) = false \/ tags <> None \/ top_n <> None ->
   table_of self (snd (pie labels self tags top_n other w)) = table_of self w).
Proof.
  intros Hr Hk. split; [apply trend_keeps_source; assumption|].
  split; [apply day_of_the_week_keeps_source; assumption|].
  split; [apply hour_sums_keeps_source; assumption|].
  split; [apply hour_of_the_week_keeps_source; assumption|].
  intros Hcase. apply pie_keeps_source; assumption.
Qed.

End HourViewsKeepSource.

Lemma X10_views_keep_the_table_witness :
  table_of log_three_obfuscated
    (snd (trend sample_labels log_three_obfuscated None None false 1 world_three))
  = table_of log_three_obfuscated world_three /\
  table_of log_three_obfuscated
    (snd (day_of_the_week_sums sample_labels log_three_obfuscated None None
            false world_three))
  = table_of log_three_obfuscated world_three /\
  table_of log_three_obfuscated
    (snd (hour_sums sample_labels log_three_obfuscated None None 2 false
            world_three))
  = table_of log_three_obfuscated world_three /\
  table_of log_three_obfuscated
    (snd (hour_of_the_week sample_labels log_three_obfuscated None None 2 false
            world_three))
  = table_of log_three_obfuscated world_three /\
  (obfuscate (cfg log_three_obfuscated) = false \/
   @None (list string) <> None \/ @None Z <> None ->
   table_of log_three_obfuscated
     (snd (pie sample_labels log_three_obfuscated None None false world_three))
   = table_of log_three_obfuscated world_three).
Proof.
  apply (X10_views_keep_the_table sample_labels log_three_obfuscated None None
           false 1 2 world_three).
  - simpl. lia.
  - discriminate.
Defined.

(** ** Resampling keeps the totals *)

Section ResampleTotals.

Lemma col_sum_tabulate (g : Z -> option R) (l : list Z) :
  col_sum (tabulate g l)
  = Rsum (map (fun x => match g x with Some v => v | None => 0%R end) l).
Proof.
  unfold col_sum. induction l as [|x l IH]; [reflexivity|].
  rewrite tabulate_cons, map_app, Rsum_app, IH. cbn [map Rsum].
  destruct (g x); simpl; lra.
Qed.

Lemma nansum_or_zero (vs : list R) :
  match nansum vs with Some v => v | None => 0%R end = Rsum vs.
Proof. destruct vs; reflexivity. Qed.

Lemma Rsum_map_add {X : Type} (f g : X -> R) (l : list X) :
  Rsum (map (fun x => (f x + g x)%R) l) = (Rsum (map f l) + Rsum (map g l))%R.
Proof.
  induction l as [|x l IH]; simpl; [lra | rewrite IH; lra].
Qed.

Lemma Rsum_indicator_out (a : Z) (v : R) (l : list Z) :
  ~ In a l -> Rsum (map (fun b => if a =? b then v else 0%R) l) = 0%R.
Proof.
  induction l as [|b l IH]; intros H; simpl; [reflexivity|].
  destruct (Z.eqb_spec a b) as [->|Hne].
  - exfalso. apply H. left. reflexivity.
  - rewrite IH; [lra|]. intros Hin. apply H. right. exact Hin.
Qed.

Lemma Rsum_indicator (a : Z) (v : R) (l : list Z) :
  NoDup l -> In a l -> Rsum (map (fun b => if a =? b then v else 0%R) l) = v.
Proof.
  induction 1 as [|b l Hb Hnd IH]; intros Hin; [contradiction|]. simpl.
  destruct (Z.eqb_spec a b) as [->|Hne].
  - rewrite Rsum_indicator_out by exact Hb. lra.
  - destruct Hin as [E|Hin]; [congruence|]. rewrite (IH Hin). lra.
Qed.

(** Entries grouped by a key into distinct bins that cover the keys:
    the sums of the bins add up to the sum of the entries. *)
Lemma Rsum_grouped (key : Z -> Z) (bins : list Z) (s : series) :
  NoDup bins ->
  (forall e, In e s -> In (key (fst e)) bins) ->
  Rsum (map (fun b => Rsum (map snd (filter (fun e => key (fst e) =? b) s))) bins)
  = Rsum (map snd s).
Proof.
  intros Hnd. induction s as [|e s IH]; intros Hcov.
  - simpl. clear Hnd Hcov.
    induction bins as [|b bins IHb]; simpl; [reflexivity|].
    rewrite IHb. lra.
  - rewrite (map_ext
               (fun b => Rsum (map snd (filter (fun e0 => key (fst e0) =? b) (e :: s))))
               (fun b => ((if key (fst e) =? b then snd e else 0)
                          + Rsum (map snd (filter (fun e0 => key (fst e0) =? b) s)))%R)).
    + rewrite Rsum_map_add, IH by (intros e0 He0; apply Hcov; right; exact He0).
      rewrite Rsum_indicator; [reflexivity | exact Hnd |].
      apply Hcov. left. reflexivity.
    + intros b. cbn [filter]. destruct (key (fst e) =? b); simpl; lra.
Qed.

Lemma col_sum_grouped (key : Z -> Z) (bins : list Z) (s : series) :
  NoDup bins ->
  (forall e, In e s -> In (key (fst e)) bins) ->
  col_sum (tabulate
             (fun b => nansum (map snd (filter (fun e => key (fst e) =? b) s)))
             bins)
  = col_sum s.
Proof.
  intros Hnd Hcov. rewrite col_sum_tabulate.
  rewrite (map_ext _ (fun b => Rsum (map snd (filter (fun e => key (fst e) =? b) s))))
    by (intros b; apply nansum_or_zero).
  apply Rsum_grouped; assumption.
Qed.

Lemma bins_NoDup (k d0 : Z) (n : nat) :
  0 < k -> NoDup (map (fun j => (d0 + k * j) * us_per_day) (Zrange 0 n)).
Proof.
  intros Hk. apply Finite.Injective_map_NoDup; [|apply Zrange_NoDup].
  intros i j H. apply Z.mul_reg_r in H; [|pose proof us_per_day_pos; lia].
  assert (H0 : k * i = k * j) by lia.
  apply Z.mul_reg_l in H0; [exact H0 | lia].
Qed.

Lemma bins_cover (k d0 d1 t : Z) :
  0 < k -> d0 <= day_of t <= d1 ->
  In (bin_of k d0 t)
     (map (fun j => (d0 + k * j) * us_per_day)
          (Zrange 0 (Z.to_nat ((d1 - d0) / k + 1)))).
Proof.
  intros Hk Ht. unfold bin_of. apply in_map_iff.
  exists ((day_of t - d0) / k). split; [reflexivity|].
  apply Zrange_In.
  assert (H0 : 0 <= (day_of t - d0) / k) by (apply Z.div_pos; lia).
  assert (H1 : (day_of t - d0) / k <= (d1 - d0) / k)
    by (apply Z.div_le_mono; lia).
  lia.
Qed.

Lemma index_min_none (F : frame) : index_min F = None -> index F = [].
Proof. unfold index_min. destruct (index F); [reflexivity | discriminate]. Qed.

Lemma index_max_none (F : frame) : index_max F = None -> index F = [].
Proof. unfold index_max. destruct (index F); [reflexivity | discriminate]. Qed.

Lemma well_formed_empty (F : frame) (c : string * series) :
  well_formed F -> index F = [] -> In c (columns F) -> snd c = [].
Proof.
  intros Hwf Hi Hc. destruct (snd c) as [|e s] eqn:E; [reflexivity|].
  exfalso. assert (Hin : In (fst e) (index F)).
  { apply (Hwf c e Hc). rewrite E. left. reflexivity. }
  rewrite Hi in Hin. contradiction.
Qed.

(** The columns of a resampled frame, one by one. *)
Lemma resample_sum_columns (k : Z) (F : frame) :
  0 < k -> well_formed F ->
  exists R : series -> series,
    columns (resample_sum k F) = map (fun c => (fst c, R (snd c))) (columns F) /\
    NoDup (index (resample_sum k F)) /\
    forall c, In c (columns F) ->
              col_sum (R (snd c)) = col_sum (snd c) /\
              exists g, R (snd c) = tabulate g (index (resample_sum k F)).
Proof.
  intros Hk Hwf. unfold resample_sum.
  destruct (index_min F) as [lo|] eqn:Elo; [destruct (index_max F) as [hi|] eqn:Ehi|].
  - eexists (fun s =>
               tabulate
                 (fun b => nansum (map snd (filter (fun e => bin_of k (day_of lo) (fst e) =? b) s)))
                 _).
    cbn [index columns]. split; [reflexivity|]. split; [apply bins_NoDup; exact Hk|].
    intros c Hc. split; [|eexists; reflexivity].
    apply col_sum_grouped; [apply bins_NoDup; exact Hk|].
    intros e He. apply bins_cover; [exact Hk|].
    pose proof (index_within_bounds F lo hi (fst e) Elo Ehi (Hwf c e Hc He)) as Hb.
    unfold in_slice in Hb. apply andb_prop in Hb. destruct Hb as [H1 H2].
    apply Z.leb_le in H1, H2. split; apply day_of_mono; assumption.
  - exists (fun _ => []). cbn [index columns].
    split; [reflexivity|]. split; [constructor|].
    intros c Hc. rewrite (well_formed_empty F c Hwf (index_max_none F Ehi) Hc).
    split; [reflexivity | exists (fun _ => None); reflexivity].
  - exists (fun _ => []). cbn [index columns].
    split; [reflexivity|]. split; [constructor|].
    intros c Hc. rewrite (well_formed_empty F c Hwf (index_min_none F Elo) Hc).
    split; [reflexivity | exists (fun _ => None); reflexivity].
Qed.

Lemma resample_sum_totals (k : Z) (F : frame) :
  0 < k -> well_formed F ->
  column_totals (resample_sum k F) = column_totals F.
Proof.
  intros Hk Hwf.
  destruct (resample_sum_columns k F Hk Hwf) as (R & Hcols & _ & HR).
  unfold column_totals. rewrite Hcols, map_map. cbn [snd].
  apply map_ext_in. intros c Hc. apply HR. exact Hc.
Qed.

Lemma lookup_col_map {X Y : Type} (f : X -> Y) (cols : list (string * X))
    (x : string) :
  lookup_col (map (fun c => (fst c, f (snd c))) cols) x
  = option_map f (lookup_col cols x).
Proof.
  induction cols as [|[k s] cols IH]; simpl; [reflexivity|].
  destruct (String.eqb x k); [reflexivity | exact IH].
Qed.

Lemma lookup_col_Some_In {X : Type} (cols : list (string * X)) (x : string)
    (s : X) :
  lookup_col cols x = Some s -> In (x, s) cols.
Proof.
  induction cols as [|[k s'] cols IH]; simpl; [discriminate|].
  destruct (String.eqb_spec x k) as [->|Hne].
  - intros H. inversion H. left. reflexivity.
  - intros H. right. exact (IH H).
Qed.

(** The total that [top_n_tags] ranks by is the total of the column. *)
Lemma day_total_table_total (F : frame) (x : string) :
  well_formed F -> day_total F x = table_total F x.
Proof.
  intros Hwf. unfold day_total, day_totals, table_total.
  destruct (resample_sum_columns 1 F eq_refl Hwf) as (R & Hcols & _ & HR).
  rewrite Hcols, map_map. cbn [fst snd].
  rewrite (lookup_col_map (fun s => col_sum (R s))).
  destruct (lookup_col (columns F) x) as [s|] eqn:E; [|reflexivity].
  cbn [option_map]. apply (HR (x, s)). exact (lookup_col_Some_In _ _ _ E).
Qed.

Lemma insert_by_ext_in {X : Type} (leb leb' : X -> X -> bool) (x : X)
    (l : list X) :
  (forall y, In y l -> leb x y = leb' x y) ->
  insert_by leb x l = insert_by leb' x l.
Proof.
  induction l as [|y l IH]; intros H; simpl; [reflexivity|].
  rewrite (H y (or_introl eq_refl)). destruct (leb' x y); [reflexivity|].
  f_equal. apply IH. intros z Hz. apply H. right. exact Hz.
Qed.

Lemma sort_by_ext_in {X : Type} (leb leb' : X -> X -> bool) (l : list X) :
  (forall x y, In x l -> In y l -> leb x y = leb' x y) ->
  sort_by leb l = sort_by leb' l.
Proof.
  induction l as [|x l IH]; intros H; simpl; [reflexivity|].
  rewrite IH by (intros a b Ha Hb; apply H; right; assumption).
  apply insert_by_ext_in. intros y Hy. apply H.
  - left. reflexivity.
  - right. apply sort_by_In in Hy. exact Hy.
Qed.

Lemma well_formed_ix_slice (lo hi : Z) (F : frame) :
  well_formed F -> well_formed (ix_slice lo hi F).
Proof.
  intros Hwf [k s] e Hc He.
  destruct (ix_slice_entry_In lo hi F k s e Hc He) as (Hs & s0 & Hc0 & He0).
  unfold ix_slice. cbn [index]. apply filter_In. split; [|exact Hs].
  exact (Hwf (k, s0) e Hc0 He0).
Qed.

Lemma init_well_formed (utcoffset : Z -> Z) (c : config) (noise : nat -> R)
    (lines : list string) (startend : option Z * option Z) (now : datetime)
    (w0 w : world) (self : TagTimeLog) :
  init utcoffset c noise lines startend now w0 = (Ok self, w) ->
  well_formed (table_of self w).
Proof.
  intros H. destruct (init_inv _ _ _ _ _ _ _ _ _ H)
    as (st & start & lo & hi & _ & _ & Htab & _).
  rewrite Htab. apply well_formed_ix_slice, DataFrame_well_formed.
Qed.


End ResampleTotals.


(** ** What obfuscation changes *)

Section ObfuscateSpec.

Variable labels : nat -> string.

Lemma keys_rename_col (k k2 : string) (F : frame) :
  keys (rename_col k k2 F)
  = map (fun x => if String.eqb x k then k2 else x) (keys F).
Proof. unfold keys, rename_col. cbn [columns]. rewrite !map_map. reflexivity. Qed.

Lemma values_rename_col (k k2 : string) (F : frame) :
  map snd (columns (rename_col k k2 F)) = map snd (columns F).
Proof. unfold rename_col. cbn [columns]. rewrite map_map. reflexivity. Qed.

Lemma Forall2_map_r_impl {X Y : Type} (P Q : X -> Y -> Prop) (f : Y -> Y)
    (l : list X) (l' : list Y) :
  (forall x y, P x y -> Q x (f y)) ->
  Forall2 P l l' -> Forall2 Q l (map f l').
Proof.
  intros H. induction 1; cbn [map]; constructor; auto.
Qed.

Lemma Forall2_diag_In {X : Type} (P : X -> X -> Prop) (l : list X) :
  (forall x, In x l -> P x x) -> Forall2 P l l.
Proof.
  induction l as [|x l IH]; intros H; constructor.
  - apply H. left. reflexivity.
  - apply IH. intros y Hy. apply H. right. exact Hy.
Qed.

(** The renaming loop over the keys [ks] that are still to come:
    [orig] are the labels that the columns had at first. *)
Lemma rename_loop_spec (D : ref) (ks orig : list string) (lo : nat) (w : world) :
  (D < List.length (heap w))%nat ->
  (lo <= draws w)%nat ->
  Forall2 (fun o cur =>
             (o = "other" /\ cur = "other") \/
             (o <> "other" /\
              ((cur = o /\ In o ks) \/
               exists j, (lo <= j < draws w)%nat /\ cur = labels j)))
          orig (keys (nth D (heap w) empty_frame)) ->
  exists w',
    forM ks (fun k =>
               if String.eqb k "other" then ret tt
               else k2 <~ draw labels ;; F' <~ load D ;;
                    store D (rename_col k k2 F')) w = (Ok tt, w') /\
    index (nth D (heap w') empty_frame) = index (nth D (heap w) empty_frame) /\
    map snd (columns (nth D (heap w') empty_frame))
    = map snd (columns (nth D (heap w) empty_frame)) /\
    List.length (heap w') = List.length (heap w) /\
    (forall r, r <> D ->
               nth r (heap w') empty_frame = nth r (heap w) empty_frame) /\
    (draws w <= draws w' <= draws w + List.length ks)%nat /\
    Forall2 (fun o cur =>
               (o = "other" /\ cur = "other") \/
               (o <> "other" /\
                exists j, (lo <= j < draws w')%nat /\ cur = labels j))
            orig (keys (nth D (heap w') empty_frame)).
Proof.
  revert w. induction ks as [|k ks IH]; intros w HD Hlo Hrel.
  - exists w. cbn [forM List.length]. split; [reflexivity|].
    repeat split; try lia.
    revert Hrel. apply Forall2_impl. intros o cur [H|[Ho [[_ []]|H]]]; auto.
  - cbn [forM]. unfold bindM at 1.
    destruct (String.eqb_spec k "other") as [->|Hk].
    + unfold ret at 1.
      destruct (IH w HD Hlo) as (w' & Hrun & Hi & Hv & Hl & Hr & Hd & Hrel').
      { revert Hrel. apply Forall2_impl.
        intros o cur [H|[Ho [[E Hin]|H]]].
        - left. exact H.
        - right. split; [exact Ho|]. left. split; [exact E|].
          destruct Hin as [Hin|Hin]; [congruence | exact Hin].
        - right. split; [exact Ho|]. right. exact H. }
      exists w'. repeat split; try assumption; try lia.
      * cbn [List.length]. lia.
    + unfold bindM, draw, load, store. cbn [heap draws].
      set (w1 := {| heap := set_nth D (rename_col k (labels (draws w))
                                         (nth D (heap w) empty_frame)) (heap w);
                    draws := S (draws w) |}).
      assert (Hn : nth D (heap w1) empty_frame
                   = rename_col k (labels (draws w)) (nth D (heap w) empty_frame)).
      { unfold w1. cbn [heap]. rewrite nth_set_nth.
        apply Nat.ltb_lt in HD. rewrite HD. reflexivity. }
      destruct (IH w1) as (w' & Hrun & Hi & Hv & Hl & Hr & Hd & Hrel').
      { unfold w1. cbn [heap]. rewrite length_set_nth. exact HD. }
      { unfold w1. cbn [draws]. lia. }
      { rewrite Hn, keys_rename_col. revert Hrel.
        apply Forall2_map_r_impl. unfold w1. cbn [draws].
        intros o cur [[Ho Hc]|[Ho [[E Hin]|(j & Hj & E)]]].
        - left. subst. split; [reflexivity|].
          destruct (String.eqb_spec "other" k); [congruence | reflexivity].
        - right. split; [exact Ho|]. subst cur.
          destruct (String.eqb_spec o k) as [->|Hne].
          + right. exists (draws w). split; [lia | reflexivity].
          + left. split; [reflexivity|]. destruct Hin as [Hin|Hin]; [congruence | exact Hin].
        - right. split; [exact Ho|]. right.
          destruct (String.eqb cur k).
          + exists (draws w). split; [lia | reflexivity].
          + exists j. split; [lia | exact E]. }
      exists w'. split; [exact Hrun|].
      rewrite Hn in Hi, Hv. rewrite values_rename_col in Hv.
      unfold w1 in Hl, Hr, Hd. cbn [heap draws] in Hl, Hr, Hd.
      rewrite length_set_nth in Hl.
      repeat split; try assumption; try (cbn [List.length]; lia).
      intros r Hne. rewrite (Hr r Hne). apply nth_set_nth_other. congruence.
Qed.

(** What [_obfuscate] leaves of the object [D]. *)
Lemma obfuscate_spec (self : TagTimeLog) (D : ref) (w : world) :
  (D < List.length (heap w))%nat ->
  exists w',
    _obfuscate labels self D w = (Ok tt, w') /\
    index (nth D (heap w') empty_frame) = index (nth D (heap w) empty_frame) /\
    map snd (columns (nth D (heap w') empty_frame))
    = map snd (columns (nth D (heap w) empty_frame)) /\
    List.length (heap w') = List.length (heap w) /\
    (forall r, r <> D ->
               nth r (heap w') empty_frame = nth r (heap w) empty_frame) /\
    (obfuscate (cfg self) = false -> w' = w).
Proof.
  intros HD. unfold _obfuscate. destruct (obfuscate (cfg self)).
  - unfold bindM at 1, load at 1.
    destruct (rename_loop_spec D (keys (nth D (heap w) empty_frame))
                (keys (nth D (heap w) empty_frame)) (draws w) w HD (le_n _))
      as (w' & Hrun & Hi & Hv & Hl & Hr & _ & _).
    { apply Forall2_diag_In. intros x Hx.
      destruct (String.eqb_spec x "other") as [->|Hne]; [left; auto|].
      right. split; [exact Hne|]. left. auto. }
    exists w'. repeat split; try assumption. discriminate.
  - exists w. repeat split.
Qed.

(** X12: with obfuscation on, [_obfuscate] returns and leaves the index
    and the values of the frame as they were, column by column, and
    every other object of the store untouched; a column labelled
    'other' keeps its label, and every other column ends up with a label
    drawn during this call.  At most one label is drawn per column. *)
Theorem X12_obfuscate_hides_all_but_other (self : TagTimeLog) (D : ref)
    (w : world) :
  obfuscate (cfg self) = true ->
  (D < List.length (heap w))%nat ->
  exists w',
    _obfuscate labels self D w = (Ok tt, w') /\
    index (nth D (heap w') empty_frame) = index (nth D (heap w) empty_frame) /\
    map snd (columns (nth D (heap w') empty_frame))
    = map snd (columns (nth D (heap w) empty_frame)) /\
    (forall r, r <> D ->
               nth r (heap w') empty_frame = nth r (heap w) empty_frame) /\
    (draws w <= draws w'
     <= draws w + List.length (keys (nth D (heap w) empty_frame)))%nat /\
    Forall2 (fun o cur =>
               if String.eqb o "other" then cur = "other"
               else exists j, (draws w <= j < draws w')%nat /\ cur = labels j)
            (keys (nth D (heap w) empty_frame))
            (keys (nth D (heap w') empty_frame)).
Proof.
  intros Hobf HD. unfold _obfuscate. rewrite Hobf.
  unfold bindM at 1, load at 1.
  destruct (rename_loop_spec D (keys (nth D (heap w) empty_frame))
              (keys (nth D (heap w) empty_frame)) (draws w) w HD (le_n _))
    as (w' & Hrun & Hi & Hv & Hl & Hr & Hd & Hrel).
  { apply Forall2_diag_In. intros x Hx.
    destruct (String.eqb_spec x "other") as [->|Hne]; [left; auto|].
    right. split; [exact Hne|]. left. auto. }
  exists w'. repeat split; try assumption; try lia.
  revert Hrel. apply Forall2_impl. intros o cur [[-> ->]|[Ho H]].
  - reflexivity.
  - destruct (String.eqb_spec o "other"); [contradiction | exact H].
Qed.

End ObfuscateSpec.

Lemma X12_obfuscate_hides_all_but_other_witness :
  exists w',
    _obfuscate sample_labels log_three_obfuscated 1%nat world_three = (Ok tt, w') /\
    index (nth 1 (heap w') empty_frame) = index (nth 1 (heap world_three) empty_frame) /\
    map snd (columns (nth 1 (heap w') empty_frame))
    = map snd (columns (nth 1 (heap world_three) empty_frame)) /\
    (forall r, r <> 1%nat ->
               nth r (heap w') empty_frame = nth r (heap world_three) empty_frame) /\
    (draws world_three <= draws w'
     <= draws world_three
        + List.length (keys (nth 1 (heap world_three) empty_frame)))%nat /\
    Forall2 (fun o cur =>
               if String.eqb o "other" then cur = "other"
               else exists j, (draws world_three <= j < draws w')%nat /\
                              cur = sample_labels j)
            (keys (nth 1 (heap world_three) empty_frame))
            (keys (nth 1 (heap w') empty_frame)).
Proof.
  apply (X12_obfuscate_hides_all_but_other sample_labels log_three_obfuscated
           1%nat world_three).
  - reflexivity.
  - simpl. lia.
Defined.

(** ** The totals of a trend *)

Section TrendTotals.

Variable labels : nat -> string.
Variable self : TagTimeLog.

Lemma column_totals_values (F : frame) :
  column_totals F = map col_sum (map snd (columns F)).
Proof. unfold column_totals. rewrite map_map. reflexivity. Qed.

Lemma keys_fillna0 (F : frame) : keys (fillna0 F) = keys F.
Proof. unfold keys, fillna0. cbn [columns]. rewrite map_map. reflexivity. Qed.

(** Filling the gaps of tabulated columns with zeros keeps their
    totals. *)
Lemma fillna0_totals (G : frame) :
  NoDup (index G) ->
  (forall s, In s (map snd (columns G)) -> exists g, s = tabulate g (index G)) ->
  column_totals (fillna0 G) = column_totals G.
Proof.
  intros Hnd Hshape. unfold column_totals, fillna0. cbn [columns].
  rewrite map_map. cbn [snd]. apply map_ext_in. intros c Hc.
  destruct (Hshape (snd c)) as (g & E); [apply in_map; exact Hc|].
  rewrite E, !col_sum_tabulate. apply f_equal, map_ext_in. intros x Hx.
  rewrite (cell_tabulate g (index G) x Hnd Hx). reflexivity.
Qed.

Lemma select_inv (F F' : frame) (ts : list string) :
  select F ts = Ok F' ->
  index F' = index F /\
  keys F' = ts /\
  (forall c, In c (columns F') -> In c (columns F)) /\
  column_totals F' = map (table_total F) ts.
Proof.
  unfold select.
  destruct (select_cols (columns F) ts) as [cs|e] eqn:E; cbn [bind];
    [|discriminate].
  intros H. inversion H. subst F'. clear H. cbn [index columns].
  unfold keys, column_totals, table_total. cbn [columns].
  split; [reflexivity|].
  revert cs E. induction ts as [|t ts IH]; intros cs E; cbn [select_cols] in E.
  - inversion E. subst. repeat split. intros c [].
  - destruct (lookup_col (columns F) t) as [s|] eqn:El; [|discriminate].
    destruct (select_cols (columns F) ts) as [cs'|e] eqn:E'; cbn [bind] in E;
      [|discriminate].
    inversion E. subst cs. destruct (IH cs' eq_refl) as (Hk & Hsub & Htot).
    cbn [map fst snd]. rewrite Hk, Htot, El. repeat split.
    intros c [<-|Hc]; [exact (lookup_col_Some_In _ _ _ El) | exact (Hsub c Hc)].
Qed.

Lemma select_well_formed (F F' : frame) (ts : list string) :
  select F ts = Ok F' -> well_formed F -> well_formed F'.
Proof.
  intros H Hwf c e Hc He. destruct (select_inv F F' ts H) as (Hi & _ & Hsub & _).
  rewrite Hi. exact (Hwf c e (Hsub c Hc) He).
Qed.

(** The end of [trend], from the frame [D] that it works on. *)
Lemma trend_tail_totals (D : ref) (k : Z) (w : world) :
  0 < k ->
  well_formed (nth D (heap w) empty_frame) ->
  exists res w',
    (F <~ load D ;;
     D <~ alloc (resample_sum k F) ;;
     _ <~ _obfuscate labels self D ;;
     F <~ load D ;;
     D <~ alloc (fillna0 F) ;;
     load D) w = (Ok res, w') /\
    column_totals res = column_totals (nth D (heap w) empty_frame) /\
    index res = index (resample_sum k (nth D (heap w) empty_frame)) /\
    (obfuscate (cfg self) = false ->
     keys res = keys (nth D (heap w) empty_frame)).
Proof.
  intros Hk Hwf. set (F := nth D (heap w) empty_frame) in *.
  set (w1 := {| heap := heap w ++ [resample_sum k F]; draws := draws w |}).
  assert (Hn1 : nth (List.length (heap w)) (heap w1) empty_frame = resample_sum k F).
  { unfold w1. cbn [heap]. rewrite app_nth2 by lia. rewrite Nat.sub_diag. reflexivity. }
  destruct (obfuscate_spec labels self (List.length (heap w)) w1)
    as (w2 & Hrun & Hi & Hv & Hl & _ & Hoff).
  { unfold w1. cbn [heap]. rewrite length_app. cbn [List.length]. lia. }
  rewrite Hn1 in Hi, Hv.
  set (F2 := nth (List.length (heap w)) (heap w2) empty_frame) in *.
  exists (fillna0 F2),
         {| heap := heap w2 ++ [fillna0 F2]; draws := draws w2 |}.
  split.
  - unfold bindM at 1, load at 1. fold F.
    unfold bindM at 1, alloc at 1. fold w1.
    unfold bindM at 1. rewrite Hrun.
    unfold bindM at 1, load at 1. fold F2.
    unfold bindM, alloc, load. cbn [heap draws].
    rewrite app_nth2 by lia. rewrite Nat.sub_diag. reflexivity.
  - destruct (resample_sum_columns k F Hk Hwf) as (R & Hcols & Hnd & HR).
    split; [|split].
    + rewrite fillna0_totals.
      * rewrite column_totals_values, Hv, <- column_totals_values.
        apply resample_sum_totals; assumption.
      * rewrite Hi. exact Hnd.
      * rewrite Hv, Hi. intros s Hs. rewrite Hcols, map_map in Hs.
        cbn [snd] in Hs. apply in_map_iff in Hs. destruct Hs as (c & <- & Hc).
        apply (HR c Hc).
    + cbn [fillna0 index]. exact Hi.
    + intros Hobf. rewrite keys_fillna0. unfold F2.
      rewrite (Hoff Hobf), Hn1. apply keys_resample_sum.
Qed.

(** X13: a trend of the rule 'k days' ([k > 0]) over a table whose
    entries sit on its rows returns, and the values of each of its
    columns add up to the total of the tag's column in the table: the
    bins of the resampling lose nothing and the zeros that fill the gaps
    add nothing.  Without obfuscation the columns keep their labels. *)
Theorem X13_trend_keeps_totals (tags : option (list string)) (k : Z)
    (w : world) :
  0 < k ->
  well_formed (table_of self w) ->
  (forall ts t, tags = Some ts -> In t ts -> In t (keys (table_of self w))) ->
  exists res w',
    trend labels self tags None false k w = (Ok res, w') /\
    column_totals res
    = match tags with
      | None => column_totals (table_of self w)
      | Some ts => map (table_total (table_of self w)) ts
      end /\
    (obfuscate (cfg self) = false ->
     keys res = match tags with
                | None => keys (table_of self w)
                | Some ts => ts
                end).
Proof.
  intros Hk Hwf Hknown. unfold trend, view_tags.
  unfold bindM at 1, ret at 1. destruct tags as [ts|].
  - destruct (view_frame_known self ts w) as (F' & Hsel & E).
    { intros t Ht. exact (Hknown ts t eq_refl Ht). }
    unfold bindM at 1. rewrite E. unfold bindM at 1, ret at 1.
    set (w1 := {| heap := heap w ++ [F']; draws := draws w |}).
    assert (Hn : nth (List.length (heap w)) (heap w1) empty_frame = F').
    { unfold w1. cbn [heap]. rewrite app_nth2 by lia.
      rewrite Nat.sub_diag. reflexivity. }
    destruct (trend_tail_totals (List.length (heap w)) k w1 Hk)
      as (res & w' & Hrun & Htot & _ & Hkeys).
    { rewrite Hn. exact (select_well_formed _ _ _ Hsel Hwf). }
    exists res, w'. split; [exact Hrun|]. rewrite Hn in Htot, Hkeys.
    destruct (select_inv _ _ _ Hsel) as (_ & Hk' & _ & Ht').
    rewrite Htot, Ht'. split; [reflexivity|].
    intros Hobf. rewrite (Hkeys Hobf). exact Hk'.
  - unfold view_frame. unfold bindM at 1, ret at 1. unfold bindM at 1, ret at 1.
    destruct (trend_tail_totals (selfD self) k w Hk Hwf)
      as (res & w' & Hrun & Htot & _ & Hkeys).
    exists res, w'. split; [exact Hrun|]. split; [exact Htot | exact Hkeys].
Qed.

End TrendTotals.

Lemma X13_trend_keeps_totals_witness :
  exists res w',
    trend sample_labels log_three_obfuscated (Some ["tagB"; "tagA"]) None false 7
          world_three = (Ok res, w') /\
    column_totals res
    = map (table_total (table_of log_three_obfuscated world_three))
          ["tagB"; "tagA"] /\
    (obfuscate (cfg log_three_obfuscated) = false -> keys res = ["tagB"; "tagA"]).
Proof.
  apply (X13_trend_keeps_totals sample_labels log_three_obfuscated
           (Some ["tagB"; "tagA"]) 7 world_three).
  - reflexivity.
  - exact (init_well_formed UTC cfg_split no_noise log_three_bare (None, None)
             now_2014 empty_world world_three log_three init_three_lines).
  - intros ts t E Ht. inversion E. subst ts. simpl.
    destruct Ht as [<-|[<-|[]]]; auto.
Defined.

(** ** The rows of a table are distinct *)

Section DistinctRows.

Lemma uniq_sorted_NoDup (l : list Z) :
  StronglySorted (fun a b => Z.leb a b = true) l -> NoDup (uniq l).
Proof.
  induction 1 as [|x l Hs IH Hx]; [constructor|].
  cbn [uniq]. destruct l as [|y l]; [repeat constructor; intros []|].
  destruct (Z.eqb_spec x y) as [->|Hne]; [exact IH|].
  constructor; [|exact IH].
  intros Hin. apply (proj1 (uniq_In (y :: l) x)) in Hin.
  rewrite Forall_forall in Hx.
  destruct Hin as [E|Hin]; [congruence|].
  inversion Hs as [|? ? _ Hy]. subst.
  rewrite Forall_forall in Hy.
  pose proof (Hx y (or_introl eq_refl)) as H1.
  pose proof (Hy x Hin) as H2.
  apply Z.leb_le in H1, H2. lia.
Qed.

Lemma uniq_sort_NoDup (l : list Z) : NoDup (uniq (sort_by Z.leb l)).
Proof.
  apply uniq_sorted_NoDup. apply sort_by_sorted.
  - intros x y E. apply Z.leb_le. apply Z.leb_gt in E. lia.
  - intros x y z H1 H2. apply Z.leb_le in H1, H2. apply Z.leb_le. lia.
Qed.

Lemma DataFrame_index_NoDup (D : dict datetime) (V : dict (option R)) :
  NoDup (index (DataFrame D V)).
Proof. unfold DataFrame. cbn [index]. apply uniq_sort_NoDup. Qed.

Lemma groupby_sum_index_NoDup (key : Z -> Z) (F : frame) :
  NoDup (index (groupby_sum key F)).
Proof. unfold groupby_sum. cbn [index]. apply uniq_sort_NoDup. Qed.

Lemma init_index_NoDup (utcoffset : Z -> Z) (c : config) (noise : nat -> R)
    (lines : list string) (startend : option Z * option Z) (now : datetime)
    (w0 w : world) (self : TagTimeLog) :
  init utcoffset c noise lines startend now w0 = (Ok self, w) ->
  NoDup (index (table_of self w)).
Proof.
  intros H. destruct (init_inv _ _ _ _ _ _ _ _ _ H)
    as (st & start & lo & hi & _ & _ & Htab & _).
  rewrite Htab. unfold ix_slice. cbn [index].
  apply NoDup_filter, DataFrame_index_NoDup.
Qed.

End DistinctRows.

(** ** The column [other] *)

Section OtherColumn.

Lemma set_col_new (cols : list (string * series)) (k : string) (s : series) :
  ~ In k (map fst cols) -> set_col cols k s = cols ++ [(k, s)].
Proof.
  induction cols as [|[k' s'] cols IH]; intros H; simpl in *; [reflexivity|].
  destruct (String.eqb_spec k k') as [->|Hne].
  - exfalso. apply H. left. reflexivity.
  - rewrite IH; [reflexivity|]. intros Hin. apply H. right. exact Hin.
Qed.

Lemma NoDup_keys_filter (p : string * series -> bool)
    (cols : list (string * series)) :
  NoDup (map fst cols) -> NoDup (map fst (filter p cols)).
Proof.
  induction cols as [|c cols IH]; intros H; simpl; [constructor|].
  inversion H as [|? ? Hc Hnd]. subst. destruct (p c); [|exact (IH Hnd)].
  cbn [map]. constructor; [|exact (IH Hnd)].
  intros Hin. apply Hc. apply in_map_iff in Hin.
  destruct Hin as (c' & E & Hc'). apply filter_In in Hc'.
  apply in_map_iff. exists c'. tauto.
Qed.

(** One column taken out of columns with distinct labels. *)
Lemma perm_extract (cols : list (string * series)) (t : string) (s : series) :
  NoDup (map fst cols) -> In (t, s) cols ->
  Permutation cols
    ((t, s) :: filter (fun c => negb (String.eqb (fst c) t)) cols).
Proof.
  induction cols as [|[k s'] cols IH]; intros Hnd Hin; [contradiction|].
  inversion Hnd as [|? ? Hk Hnd']. subst. cbn [filter fst].
  destruct Hin as [E|Hin].
  - inversion E. subst k s'. rewrite String.eqb_refl. cbn [negb].
    apply perm_skip. rewrite filter_all; [apply Permutation_refl|].
    intros [k' s''] Hc. cbn [fst].
    destruct (String.eqb_spec k' t) as [->|Hne]; [|reflexivity].
    exfalso. apply Hk. apply in_map_iff. exists (t, s''). auto.
  - destruct (String.eqb_spec k t) as [->|Hne].
    + exfalso. apply Hk. apply in_map_iff. exists (t, s). auto.
    + cbn [negb]. eapply Permutation_trans;
        [apply perm_skip; exact (IH Hnd' Hin) | apply perm_swap].
Qed.

Lemma filter_filter {X : Type} (p q : X -> bool) (l : list X) :
  filter p (filter q l) = filter (fun x => q x && p x) l.
Proof.
  induction l as [|x l IH]; simpl; [reflexivity|].
  destruct (q x); simpl; [destruct (p x); rewrite IH; reflexivity | exact IH].
Qed.

(** The selected columns and the columns that are left make up the
    columns. *)
Lemma select_cols_split (cols cs : list (string * series)) (ts : list string) :
  NoDup (map fst cols) -> NoDup ts ->
  select_cols cols ts = Ok cs ->
  Permutation cols
    (cs ++ filter (fun c => negb (str_in (fst c) ts)) cols).
Proof.
  intros Hnd. revert cs. induction ts as [|t ts IH]; intros cs Hts E;
    cbn [select_cols] in E.
  - inversion E. subst. cbn [app]. rewrite filter_all; [apply Permutation_refl|].
    intros c _. reflexivity.
  - destruct (lookup_col cols t) as [s|] eqn:El; [|discriminate].
    destruct (select_cols cols ts) as [cs'|e] eqn:E'; cbn [bind] in E;
      [|discriminate].
    inversion E. subst cs. inversion Hts as [|? ? Ht Hts']. subst.
    eapply Permutation_trans; [exact (IH cs' Hts' eq_refl)|].
    cbn [app].
    eapply Permutation_trans;
      [|apply Permutation_sym, Permutation_middle].
    apply Permutation_app_head.
    assert (Hin : In (t, s) (filter (fun c => negb (str_in (fst c) ts)) cols)).
    { apply filter_In. split; [exact (lookup_col_Some_In _ _ _ El)|].
      cbn [fst]. destruct (str_in t ts) eqn:Es; [|reflexivity].
      apply str_in_In in Es. contradiction. }
    eapply Permutation_trans;
      [exact (perm_extract _ t s (NoDup_keys_filter _ cols Hnd) Hin)|].
    apply perm_skip. rewrite filter_filter.
    erewrite filter_ext; [apply Permutation_refl|].
    intros [k s0]. cbn [fst str_in existsb]. fold (str_in k ts).
    rewrite (String.eqb_sym k t). destruct (String.eqb t k), (str_in k ts); reflexivity.
Qed.

Lemma select_cols_filter (cols : list (string * series)) (p : string -> bool) :
  NoDup (map fst cols) ->
  select_cols cols (filter p (map fst cols))
  = Ok (filter (fun c => p (fst c)) cols).
Proof.
  intros Hnd.
  assert (H : forall sub,
             (forall c, In c sub -> In c cols) ->
             select_cols cols (filter p (map fst sub))
             = Ok (filter (fun c => p (fst c)) sub)).
  { induction sub as [|[k s] sub IH]; intros Hsub; [reflexivity|].
    cbn [map filter fst]. destruct (p k).
    - cbn [select_cols].
      assert (El : lookup_col cols k = Some s).
      { assert (Hin : In (k, s) cols) by (apply Hsub; left; reflexivity).
        clear -Hnd Hin. induction cols as [|[k' s'] cols IH]; [contradiction|].
        inversion Hnd as [|? ? Hk Hnd']. subst. simpl.
        destruct Hin as [E|Hin].
        - inversion E. subst. rewrite String.eqb_refl. reflexivity.
        - destruct (String.eqb_spec k k') as [->|Hne]; [|exact (IH Hnd' Hin)].
          exfalso. apply Hk. apply in_map_iff. exists (k', s). auto. }
      rewrite El, IH by (intros c Hc; apply Hsub; right; exact Hc).
      reflexivity.
    - apply IH. intros c Hc. apply Hsub. right. exact Hc. }
  apply H. auto.
Qed.

Lemma nansum_perm (l l' : list R) : Permutation l l' -> nansum l = nansum l'.
Proof.
  intros H. unfold nansum. destruct l as [|x l], l' as [|y l'].
  - reflexivity.
  - apply Permutation_nil in H. discriminate.
  - apply Permutation_sym, Permutation_nil in H. discriminate.
  - f_equal. apply Rsum_perm. exact H.
Qed.

Lemma nansum_with_sum (A B : list R) :
  nansum (A ++ match nansum B with Some v => [v] | None => [] end)
  = nansum (A ++ B).
Proof.
  destruct B as [|b B]; [reflexivity|]. cbn [nansum].
  destruct A as [|a A]; cbn [app nansum]; f_equal.
  - simpl. lra.
  - cbn [Rsum]. rewrite !Rsum_app. simpl. lra.
Qed.

Variable self : TagTimeLog.

(** X14: the lines that select the tags of a view and add the column
    'other' (with tags that are distinct columns of the table, none of
    them 'other') give a frame with the selected columns followed by
    'other', on the rows of the table, in which every row sums to what
    the row sums to in the whole table: 'other' is exactly the time of
    the tags that are not shown. *)
Theorem X14_other_completes_the_rows (ts : list string) (w : world) :
  (selfD self < List.length (heap w))%nat ->
  NoDup (index (table_of self w)) ->
  NoDup (keys (table_of self w)) ->
  NoDup ts ->
  (forall t, In t ts -> In t (keys (table_of self w))) ->
  ~ In "other" ts ->
  exists D w',
    sorted_view self (Some ts) None true w = (Ok D, w') /\
    keys (nth D (heap w') empty_frame) = ts ++ ["other"] /\
    index (nth D (heap w') empty_frame) = index (table_of self w) /\
    row_sums (nth D (heap w') empty_frame) = row_sums (table_of self w).
Proof.
  intros HselfD Hidx Hkeys Hts Hknown Hother.
  set (F := table_of self w) in *.
  destruct (view_frame_known self ts w Hknown) as (F' & Hsel & E).
  destruct (select_inv F F' ts Hsel) as (Hi' & Hk' & _ & _).
  set (rest := filter (fun c => negb (str_in (fst c) ts)) (columns F)).
  set (w1 := {| heap := heap w ++ [F']; draws := draws w |}) in *.
  assert (Hn0 : nth (selfD self) (heap w1) empty_frame = F).
  { unfold w1. cbn [heap]. rewrite app_nth1 by exact HselfD. reflexivity. }
  assert (Hn1 : nth (List.length (heap w)) (heap w1) empty_frame = F').
  { unfold w1. cbn [heap]. rewrite app_nth2 by lia.
    rewrite Nat.sub_diag. reflexivity. }
  assert (Hrest : select F (filter (fun t => negb (str_in t ts)) (keys F))
                  = Ok {| index := index F; columns := rest |}).
  { unfold select, keys.
    rewrite (select_cols_filter (columns F) (fun t => negb (str_in t ts)) Hkeys).
    reflexivity. }
  exists (List.length (heap w)).
  eexists. split.
  - unfold sorted_view, view_tags.
    unfold bindM at 1, ret at 1. unfold bindM at 1, ret at 1.
    unfold bindM at 1. rewrite E. fold w1.
    unfold add_other. unfold bindM at 1.
    unfold bindM at 1, load at 1. rewrite Hn0.
    unfold bindM at 1, ret at 1. unfold bindM at 1, lift at 1.
    rewrite Hrest. unfold bindM at 1, load at 1. rewrite Hn1.
    unfold store, ret. reflexivity.
  - cbn [heap]. unfold w1. cbn [heap]. rewrite nth_set_nth.
    assert (Hlt : (List.length (heap w) <? List.length (heap w ++ [F']))%nat = true).
    { apply Nat.ltb_lt. rewrite length_app. cbn [List.length]. lia. }
    rewrite Hlt.
    assert (Hset : set_col (columns F') "other"
                     (row_sums {| index := index F; columns := rest |})
                   = columns F'
                     ++ [("other", row_sums {| index := index F; columns := rest |})]).
    { apply set_col_new. fold (keys F'). rewrite Hk'. exact Hother. }
    unfold keys at 1. cbn [index columns]. rewrite Hset.
    split; [|split].
    + rewrite map_app. fold (keys F'). rewrite Hk'. reflexivity.
    + exact Hi'.
    + unfold row_sums at 1. cbn [index columns]. rewrite Hi'.
      unfold row_sums at 2. apply tabulate_ext_in. intros t Ht.
      rewrite flat_map_app. cbn [flat_map snd]. rewrite app_nil_r.
      unfold row_sums. cbn [index columns].
      rewrite (values_at_tabulate _ (index F) t Hidx Ht).
      rewrite nansum_with_sum, <- flat_map_app.
      apply nansum_perm, Permutation_sym, Permutation_flat_map.
      change (table_of self w) with F in Hsel. unfold select in Hsel.
      destruct (select_cols (columns F) ts) as [cs|e] eqn:Ecs; cbn [bind] in Hsel;
        [|discriminate].
      injection Hsel as HF'. rewrite <- HF'. cbn [columns].
      exact (select_cols_split (columns F) cs ts Hkeys Hts Ecs).
Qed.

End OtherColumn.

Lemma X14_other_completes_the_rows_witness :
  exists D w',
    sorted_view log_three (Some ["tagA"]) None true world_three = (Ok D, w') /\
    keys (nth D (heap w') empty_frame) = ["tagA"] ++ ["other"] /\
    index (nth D (heap w') empty_frame) = index (table_of log_three world_three) /\
    row_sums (nth D (heap w') empty_frame)
    = row_sums (table_of log_three world_three).
Proof.
  apply (X14_other_completes_the_rows log_three ["tagA"] world_three).
  - simpl. lia.
  - exact (init_index_NoDup UTC cfg_split no_noise log_three_bare (None, None)
             now_2014 empty_world world_three log_three init_three_lines).
  - exact (init_distinct UTC cfg_split no_noise log_three_bare (None, None)
             now_2014 empty_world world_three log_three init_three_lines).
  - repeat constructor. intros [].
  - intros t [<-|[]]. simpl. left. reflexivity.
  - intros [H|[]]. discriminate.
Defined.

(** ** The buckets of the hour views *)

Section HourShares.

Lemma values_at_map_scale (num : R) (s : series) (t : Z) :
  values_at (map (fun e => (fst e, (snd e * num)%R)) s) t
  = map (fun v => (v * num)%R) (values_at s t).
Proof.
  unfold values_at. induction s as [|e s IH]; [reflexivity|].
  cbn [map filter fst]. destruct (fst e =? t); cbn [map snd]; rewrite IH; reflexivity.
Qed.

Lemma values_at_cons (e : Z * R) (s : series) (t : Z) :
  values_at (e :: s) t
  = (if fst e =? t then [snd e] else []) ++ values_at s t.
Proof. unfold values_at. cbn [filter]. destruct (fst e =? t); reflexivity. Qed.

Lemma values_at_one_other (x t : Z) (q : R) :
  x <> t -> values_at [(x, q)] t = [].
Proof.
  intros H. rewrite values_at_cons. cbn [fst snd].
  destruct (Z.eqb_spec x t); [contradiction | reflexivity].
Qed.

Lemma values_at_div_rows (s V : series) (t : Z) (r : R) :
  cell V t = Some r -> r <> 0%R ->
  values_at (div_rows s V) t = map (fun v => (v / r)%R) (values_at s t).
Proof.
  intros Hc Hr. unfold div_rows. induction s as [|e s IH]; [reflexivity|].
  cbn [flat_map]. rewrite values_at_app, IH, values_at_cons, map_app.
  f_equal. destruct (Z.eqb_spec (fst e) t) as [E|Hne].
  - rewrite E, Hc, (fdiv_nonzero (snd e) r Hr), values_at_cons.
    cbn [fst snd]. rewrite Z.eqb_refl. reflexivity.
  - destruct (cell V (fst e)) as [r'|]; [|reflexivity].
    destruct (fdiv (snd e) r'); [|reflexivity].
    rewrite values_at_one_other by exact Hne. reflexivity.
Qed.

Lemma values_at_div_rows_none (s V : series) (t : Z) :
  cell V t = None -> values_at (div_rows s V) t = [].
Proof.
  intros Hc. unfold div_rows. induction s as [|e s IH]; [reflexivity|].
  cbn [flat_map]. rewrite values_at_app, IH, app_nil_r.
  destruct (Z.eqb_spec (fst e) t) as [E|Hne].
  - rewrite E, Hc. reflexivity.
  - destruct (cell V (fst e)) as [r'|]; [|reflexivity].
    destruct (fdiv (snd e) r'); [|reflexivity].
    apply values_at_one_other. exact Hne.
Qed.

Lemma values_at_div_rows_zero (s V : series) (t : Z) (r : R) :
  cell V t = Some r -> r = 0%R -> values_at (div_rows s V) t = [].
Proof.
  intros Hc Hz. unfold div_rows. induction s as [|e s IH]; [reflexivity|].
  cbn [flat_map]. rewrite values_at_app, IH, app_nil_r.
  destruct (Z.eqb_spec (fst e) t) as [E|Hne].
  - rewrite E, Hc, (fdiv_zero (snd e) r Hz). reflexivity.
  - destruct (cell V (fst e)) as [r'|]; [|reflexivity].
    destruct (fdiv (snd e) r'); [|reflexivity].
    apply values_at_one_other. exact Hne.
Qed.

Lemma flat_map_map_values {X : Type} (f : R -> R) (g : X -> list R)
    (l : list X) :
  flat_map (fun c => map f (g c)) l = map f (flat_map g l).
Proof.
  induction l as [|c l IH]; [reflexivity|].
  cbn [flat_map]. rewrite IH, map_app. reflexivity.
Qed.

Lemma Rsum_map_scale (a : R) (l : list R) :
  Rsum (map (fun v => (v * a)%R) l) = (Rsum l * a)%R.
Proof. induction l as [|x l IH]; simpl; [lra | rewrite IH; lra]. Qed.

Lemma cell_row_sums (G : frame) (t : Z) :
  NoDup (index G) -> In t (index G) ->
  cell (row_sums G) t
  = nansum (flat_map (fun c => values_at (snd c) t) (columns G)).
Proof. intros Hnd Hin. unfold row_sums. apply cell_tabulate; assumption. Qed.

Lemma cell_row_sums_out (G : frame) (t : Z) :
  ~ In t (index G) -> cell (row_sums G) t = None.
Proof.
  intros H. unfold cell, row_sums. rewrite values_at_tabulate_out by exact H.
  reflexivity.
Qed.

(** The values of a row after [D[k] = D[k] * num / V]. *)
Lemma scaled_row_values (num : R) (G : frame) (t : Z) :
  flat_map (fun c => values_at (snd c) t)
           (columns (scale_rows num (row_sums G) G))
  = match cell (row_sums G) t with
    | Some r =>
        if Req_dec_T r 0 then []
        else map (fun v => (v * num / r)%R)
                 (flat_map (fun c => values_at (snd c) t) (columns G))
    | None => []
    end.
Proof.
  unfold scale_rows. cbn [columns]. rewrite flat_map_concat_map, map_map.
  cbn [snd]. rewrite <- flat_map_concat_map.
  destruct (cell (row_sums G) t) as [r|] eqn:Hc.
  - destruct (Req_dec_T r 0) as [Hz|Hnz].
    + induction (columns G) as [|c cols IH]; [reflexivity|].
      cbn [flat_map]. rewrite IH, app_nil_r. clear IH.
      apply (values_at_div_rows_zero _ _ t r Hc Hz).
    + rewrite <- (flat_map_map_values (fun v => (v * num / r)%R)).
      apply flat_map_ext. intros c.
      rewrite (values_at_div_rows _ _ t r Hc Hnz), values_at_map_scale, map_map.
      reflexivity.
  - induction (columns G) as [|c cols IH]; [reflexivity|].
    cbn [flat_map]. rewrite IH, app_nil_r.
    apply values_at_div_rows_none. exact Hc.
Qed.

(** After the rescaling a row has no value or sums to [num]. *)
Lemma scaled_row_total (num : R) (G : frame) (t : Z) (v : R) :
  NoDup (index G) ->
  cell (row_sums (scale_rows num (row_sums G) G)) t = Some v -> v = num.
Proof.
  intros Hnd Hv.
  destruct (in_dec Z.eq_dec t (index G)) as [Hin|Hout];
    [|rewrite cell_row_sums_out in Hv by exact Hout; discriminate].
  rewrite cell_row_sums in Hv by assumption.
  rewrite scaled_row_values in Hv.
  pose proof (cell_row_sums G t Hnd Hin) as Hr.
  destruct (cell (row_sums G) t) as [r|]; [|discriminate].
  destruct (Req_dec_T r 0) as [Hz|Hnz]; [discriminate|].
  destruct (flat_map (fun c => values_at (snd c) t) (columns G)) as [|x vs] eqn:E;
    [discriminate|].
  cbn [nansum] in Hr. inversion Hr as [Hr']. cbn [map nansum] in Hv.
  inversion Hv as [Hv']. clear Hv Hv' Hr.
  rewrite (map_ext (fun v0 => (v0 * num / r)%R) (fun v0 => (v0 * (num / r))%R))
    by (intros a; unfold Rdiv; ring).
  rewrite Rsum_map_scale.
  transitivity ((x + Rsum vs) * (num / r))%R; [unfold Rdiv; ring|].
  rewrite <- Hr'. field. exact Hnz.
Qed.

Lemma scaled_row_exists (num : R) (G : frame) (t : Z) (r : R) :
  NoDup (index G) -> In t (index G) ->
  cell (row_sums G) t = Some r -> r <> 0%R ->
  exists v, cell (row_sums (scale_rows num (row_sums G) G)) t = Some v /\ v = num.
Proof.
  intros Hnd Hin Hr Hnz.
  assert (Hex : exists v, cell (row_sums (scale_rows num (row_sums G) G)) t = Some v).
  { rewrite (cell_row_sums (scale_rows num (row_sums G) G) t Hnd Hin).
    rewrite scaled_row_values, Hr.
    destruct (Req_dec_T r 0) as [Hz|_]; [contradiction|].
    rewrite cell_row_sums in Hr by assumption.
    destruct (flat_map (fun c => values_at (snd c) t) (columns G)); [discriminate|].
    eexists. reflexivity. }
  destruct Hex as [v Hv]. exists v. split; [exact Hv|].
  exact (scaled_row_total num G t v Hnd Hv).
Qed.

Lemma nansum_pos (vs : list R) (v : R) :
  (forall x, In x vs -> (0 < x)%R) -> nansum vs = Some v -> (0 < v)%R.
Proof.
  intros Hpos H. destruct vs as [|x vs]; [discriminate|].
  inversion H. change (0 < Rsum (x :: vs))%R.
  apply Rsum_pos; [discriminate | exact Hpos].
Qed.

Lemma values_at_In (s : series) (t : Z) (x : R) :
  In x (values_at s t) -> In (t, x) s.
Proof.
  unfold values_at. intros H. apply in_map_iff in H.
  destruct H as ([t' x'] & E & He). cbn [snd] in E. subst x'.
  apply filter_In in He. destruct He as [He Ht]. cbn [fst] in Ht.
  apply Z.eqb_eq in Ht. subst. exact He.
Qed.

Lemma row_sums_positive (G : frame) (e : Z * R) :
  positive_frame G -> In e (row_sums G) -> (0 < snd e)%R.
Proof.
  intros Hpos He. unfold row_sums in He. apply tabulate_In in He.
  destruct He as [_ He]. apply (nansum_pos _ _) in He; [exact He|].
  intros x Hx. apply in_flat_map in Hx. destruct Hx as (c & Hc & Hx).
  apply values_at_In in Hx. exact (Hpos c _ Hc Hx).
Qed.

Lemma groupby_sum_positive (key : Z -> Z) (F : frame) :
  positive_frame F -> positive_frame (groupby_sum key F).
Proof.
  intros Hpos c e Hc He. unfold groupby_sum in Hc. cbn [columns] in Hc.
  apply in_map_iff in Hc. destruct Hc as (c0 & <- & Hc0). cbn [snd] in He.
  apply tabulate_In in He. destruct He as [_ He].
  apply (nansum_pos _ _) in He; [exact He|].
  intros x Hx. apply in_map_iff in Hx. destruct Hx as (e0 & <- & He0).
  apply filter_In in He0. exact (Hpos c0 e0 Hc0 (proj1 He0)).
Qed.

Lemma cell_In (s : series) (t : Z) (r : R) : cell s t = Some r -> In (t, r) s.
Proof.
  unfold cell. destruct (values_at s t) as [|x vs] eqn:E; [discriminate|].
  intros H. inversion H. subst. apply values_at_In. rewrite E. left. reflexivity.
Qed.

(** The rescaled sums per bucket of a table with positive values:
    every row that has a value sums to 60, and the bucket of every
    entry is such a row. *)
Lemma hour_shares_rows (key : Z -> Z) (F : frame) :
  positive_frame F ->
  (forall t v, cell (row_sums (hour_shares key F)) t = Some v -> v = 60%R) /\
  (forall c e, In c (columns F) -> In e (snd c) -> In (fst e) (index F) ->
               exists v, cell (row_sums (hour_shares key F)) (key (fst e)) = Some v
                         /\ v = 60%R).
Proof.
  intros Hpos. unfold hour_shares. split.
  - intros t v. apply scaled_row_total, groupby_sum_index_NoDup.
  - intros c e Hc He Hin.
    set (G := groupby_sum key F).
    assert (HinG : In (key (fst e)) (index G)).
    { unfold G, groupby_sum. cbn [index].
      apply uniq_In, sort_by_In, in_map. exact Hin. }
    pose proof (groupby_sum_index_NoDup key F) as HndG. fold G in HndG.
    assert (Hrow : exists r, cell (row_sums G) (key (fst e)) = Some r).
    { rewrite cell_row_sums by assumption.
      assert (Hval : exists x,
                 In x (flat_map (fun c0 => values_at (snd c0) (key (fst e)))
                                (columns G))).
      { unfold G, groupby_sum. cbn [columns].
        exists (Rsum (map snd (filter (fun e0 => key (fst e0) =? key (fst e))
                                      (snd c)))).
        apply in_flat_map.
        exists (fst c,
                tabulate
                  (fun g => nansum (map snd (filter (fun e0 => key (fst e0) =? g) (snd c))))
                  (uniq (sort_by Z.leb (map key (index F))))).
        split; [apply in_map_iff; exists c; split; [reflexivity | exact Hc]|].
        cbn [snd]. rewrite values_at_tabulate by assumption.
        assert (Hne : filter (fun e0 => key (fst e0) =? key (fst e)) (snd c) <> []).
        { intros E. assert (Hf : In e (filter (fun e0 => key (fst e0) =? key (fst e)) (snd c)))
            by (apply filter_In; split; [exact He | apply Z.eqb_refl]).
          rewrite E in Hf. contradiction. }
        destruct (filter (fun e0 => key (fst e0) =? key (fst e)) (snd c));
          [congruence|].
        cbn [map nansum]. left. reflexivity. }
      destruct Hval as [x Hx].
      destruct (flat_map (fun c0 => values_at (snd c0) (key (fst e))) (columns G));
        [contradiction|].
      eexists. reflexivity. }
    destruct Hrow as [r Hr].
    apply (scaled_row_exists 60 G (key (fst e)) r HndG HinG Hr).
    apply Rgt_not_eq, Rlt_gt.
    exact (row_sums_positive G (key (fst e), r)
             (groupby_sum_positive key F Hpos) (cell_In _ _ _ Hr)).
Qed.

End HourShares.

(** ** Rows after [fillna(0)] *)

Section FilledRows.

Lemma flat_map_values_snd (cols : list (string * series)) (t : Z) :
  flat_map (fun c => values_at (snd c) t) cols
  = flat_map (fun s => values_at s t) (map snd cols).
Proof.
  induction cols as [|c cols IH]; [reflexivity|].
  cbn [flat_map map]. rewrite IH. reflexivity.
Qed.

(** The row sums of a frame depend on the rows and on the values of the
    columns only, not on the labels of the columns. *)
Lemma row_sums_same_values (A B : frame) :
  index A = index B -> map snd (columns A) = map snd (columns B) ->
  row_sums A = row_sums B.
Proof.
  intros Hi Hv. unfold row_sums. rewrite Hi. apply tabulate_ext_in. intros t _.
  rewrite !flat_map_values_snd, Hv. reflexivity.
Qed.

Lemma Rsum_filled (cols : list (string * series)) (t : Z) :
  (forall c, In c cols -> (List.length (values_at (snd c) t) <= 1)%nat) ->
  Rsum (map (fun c => match cell (snd c) t with
                      | Some v => v
                      | None => 0%R
                      end) cols)
  = Rsum (flat_map (fun c => values_at (snd c) t) cols).
Proof.
  induction cols as [|c cols IH]; intros H; [reflexivity|].
  cbn [map flat_map]. rewrite Rsum_app. cbn [Rsum].
  rewrite IH by (intros c' Hc'; apply H; right; exact Hc').
  pose proof (H c (or_introl eq_refl)) as Hc. unfold cell.
  destruct (values_at (snd c) t) as [|x [|y l]]; cbn [Rsum List.length] in *;
    [lra | lra | lia].
Qed.

Lemma fillna0_row_values (A : frame) (t : Z) :
  NoDup (index A) -> In t (index A) ->
  flat_map (fun c => values_at (snd c) t) (columns (fillna0 A))
  = map (fun c => match cell (snd c) t with
                  | Some v => v
                  | None => 0%R
                  end) (columns A).
Proof.
  intros Hnd Hin. unfold fillna0. cbn [columns].
  induction (columns A) as [|c cols IH]; [reflexivity|].
  cbn [map flat_map snd]. rewrite IH, values_at_tabulate by assumption.
  reflexivity.
Qed.

(** Where every column has at most one value per row, a row that sums
    to [v] still sums to [v] after the gaps are filled with zeros. *)
Lemma fillna0_row_keeps (A : frame) (t : Z) (v : R) :
  NoDup (index A) ->
  (forall c, In c (columns A) -> (List.length (values_at (snd c) t) <= 1)%nat) ->
  cell (row_sums A) t = Some v -> cell (row_sums (fillna0 A)) t = Some v.
Proof.
  intros Hnd Hone Hv.
  destruct (in_dec Z.eq_dec t (index A)) as [Hin|Hout];
    [|rewrite cell_row_sums_out in Hv by exact Hout; discriminate].
  rewrite cell_row_sums in Hv by assumption.
  rewrite (cell_row_sums (fillna0 A) t Hnd Hin), fillna0_row_values
    by assumption.
  pose proof (Rsum_filled (columns A) t Hone) as HR.
  destruct (columns A) as [|c cols]; [discriminate|].
  destruct (flat_map (fun c0 => values_at (snd c0) t) (c :: cols)) as [|x l];
    [discriminate|].
  cbn [nansum] in Hv. inversion Hv as [Hv'].
  cbn [map nansum]. cbn [map] in HR. rewrite HR. reflexivity.
Qed.

(** And a row of the filled frame sums to what it summed to, or to 0
    where it had no value. *)
Lemma fillna0_row_total (A : frame) (t : Z) (v : R) :
  NoDup (index A) ->
  (forall c, In c (columns A) -> (List.length (values_at (snd c) t) <= 1)%nat) ->
  cell (row_sums (fillna0 A)) t = Some v ->
  v = 0%R \/ cell (row_sums A) t = Some v.
Proof.
  intros Hnd Hone Hv.
  destruct (in_dec Z.eq_dec t (index A)) as [Hin|Hout];
    [|rewrite (cell_row_sums_out (fillna0 A)) in Hv by exact Hout; discriminate].
  rewrite (cell_row_sums (fillna0 A) t Hnd Hin), fillna0_row_values in Hv
    by assumption.
  rewrite cell_row_sums by assumption.
  pose proof (Rsum_filled (columns A) t Hone) as HR.
  destruct (columns A) as [|c cols]; [discriminate|].
  cbn [map nansum] in Hv. cbn [map] in HR. rewrite HR in Hv.
  destruct (flat_map (fun c0 => values_at (snd c0) t) (c :: cols)) as [|x l];
    inversion Hv as [Hv'].
  - left. reflexivity.
  - right. reflexivity.
Qed.

(** A column of the rescaled sums per bucket has at most one value per
    row. *)
Lemma hour_shares_single (key : Z -> Z) (F : frame) (c : string * series)
    (t : Z) :
  In c (columns (hour_shares key F)) ->
  (List.length (values_at (snd c) t) <= 1)%nat.
Proof.
  unfold hour_shares, scale_rows. cbn [columns]. intros Hc.
  apply in_map_iff in Hc. destruct Hc as (c0 & <- & Hc0). cbn [snd].
  set (V := row_sums (groupby_sum key F)).
  unfold groupby_sum in Hc0. cbn [columns] in Hc0.
  apply in_map_iff in Hc0. destruct Hc0 as (c1 & <- & _). cbn [snd].
  destruct (cell V t) as [r|] eqn:Hr.
  - destruct (Req_dec_T r 0) as [Hz|Hnz].
    + rewrite (values_at_div_rows_zero _ _ t r Hr Hz). cbn [List.length]. lia.
    + rewrite (values_at_div_rows _ _ t r Hr Hnz), values_at_map_scale,
        !length_map.
      destruct (in_dec Z.eq_dec t (uniq (sort_by Z.leb (map key (index F)))))
        as [Hin|Hout].
      * rewrite values_at_tabulate by (try apply uniq_sort_NoDup; assumption).
        destruct (nansum _); cbn [List.length]; lia.
      * rewrite values_at_tabulate_out by exact Hout. cbn [List.length]. lia.
  - rewrite (values_at_div_rows_none _ _ t Hr). cbn [List.length]. lia.
Qed.

End FilledRows.

(** ** The rows of the hour views *)

Section HourViewRows.

Variable labels : nat -> string.
Variable self : TagTimeLog.

Lemma nth_app_last {X : Type} (l : list X) (x d : X) :
  nth (List.length l) (l ++ [x]) d = x.
Proof. rewrite app_nth2 by lia. rewrite Nat.sub_diag. reflexivity. Qed.

Lemma set_nth_app_last {X : Type} (l : list X) (x y : X) :
  set_nth (List.length l) x (l ++ [y]) = l ++ [x].
Proof.
  induction l as [|z l IH]; [reflexivity|].
  cbn [List.length app set_nth]. rewrite IH. reflexivity.
Qed.

Lemma set_col_In (cols : list (string * series)) (k : string) (s : series)
    (c : string * series) :
  In c (set_col cols k s) -> In c cols \/ c = (k, s).
Proof.
  induction cols as [|[k' s'] cols IH]; cbn [set_col].
  - intros [<-|[]]. right. reflexivity.
  - destruct (String.eqb k k').
    + intros [<-|H]; [right; reflexivity | left; right; exact H].
    + intros [<-|H]; [left; left; reflexivity|].
      destruct (IH H) as [H'|H']; [left; right; exact H' | right; exact H'].
Qed.

Lemma set_col_keeps (cols : list (string * series)) (k : string) (s : series)
    (c : string * series) :
  In c cols -> fst c <> k -> In c (set_col cols k s).
Proof.
  induction cols as [|[k' s'] cols IH]; cbn [set_col]; [intros []|].
  intros [<-|H] Hne.
  - cbn [fst] in Hne. destruct (String.eqb_spec k k') as [->|_];
      [congruence | left; reflexivity].
  - destruct (String.eqb k k'); right; [exact H | exact (IH H Hne)].
Qed.

Lemma select_keeps_col (F F' : frame) (ts : list string) (t : string)
    (s : series) :
  select F ts = Ok F' -> In t ts -> lookup_col (columns F) t = Some s ->
  In (t, s) (columns F').
Proof.
  unfold select.
  destruct (select_cols (columns F) ts) as [cs|e] eqn:E; cbn [bind];
    [|discriminate].
  intros H. inversion H. subst F'. clear H. cbn [columns].
  revert cs E. induction ts as [|u ts IH]; intros cs E Hin Hl; [contradiction|].
  cbn [select_cols] in E.
  destruct (lookup_col (columns F) u) as [su|] eqn:Eu; [|discriminate].
  destruct (select_cols (columns F) ts) as [cs'|e] eqn:E'; cbn [bind] in E;
    [|discriminate].
  inversion E. subst cs. destruct Hin as [->|Hin].
  - left. congruence.
  - right. exact (IH cs' eq_refl Hin Hl).
Qed.

(** The frame that the views with sorted tags work on: a new object
    with the rows of the table, whose columns are columns of the table
    and, if asked for, the column 'other'. *)
Lemma sorted_view_spec (tags : option (list string)) (top_n : option Z)
    (other : bool) (w : world) :
  (selfD self < List.length (heap w))%nat ->
  tags <> None \/ top_n <> None ->
  (forall ts t, tags = Some ts -> In t ts -> In t (keys (table_of self w))) ->
  exists Fv,
    sorted_view self tags top_n other w
    = (Ok (List.length (heap w)),
       {| heap := heap w ++ [Fv]; draws := draws w |}) /\
    index Fv = index (table_of self w) /\
    (well_formed (table_of self w) -> well_formed Fv) /\
    (positive_frame (table_of self w) -> positive_frame Fv) /\
    (forall ts t s, tags = Some ts -> In t ts -> t <> "other" ->
       lookup_col (columns (table_of self w)) t = Some s ->
       In (t, s) (columns Fv)).
Proof.
  intros HD Hgiven Hknown. set (F := table_of self w) in *.
  destruct (views_start_known self tags top_n w Hgiven Hknown)
    as (ts' & F' & Htags & Hsel & Hframe).
  fold F in Hsel.
  assert (Hsub : forall ts t, tags = Some ts -> In t ts -> In t ts').
  { destruct (view_tags_resolved self tags top_n w) as (tags2 & Hrun & Hres).
    rewrite Htags in Hrun. inversion Hrun. subst tags2. apply Hres. }
  destruct (select_inv F F' ts' Hsel) as (Hi' & _ & Hcols & _).
  destruct other.
  - set (rest := filter (fun t => negb (str_in t ts')) (keys F)).
    destruct (select_cols_known (columns F) rest) as (cs & Ecs & _ & Hcs).
    { intros t Ht. apply filter_In in Ht. apply Ht. }
    set (Fr := {| index := index F; columns := cs |}).
    exists {| index := index F';
              columns := set_col (columns F') "other" (row_sums Fr) |}.
    split; [|split; [|split; [|split]]].
    + unfold sorted_view. unfold bindM at 1. rewrite Htags.
      unfold bindM at 1, ret at 1. unfold bindM at 1. rewrite Hframe.
      unfold add_other. unfold bindM at 1.
      unfold bindM at 1, load at 1. cbn [heap].
      rewrite app_nth1 by exact HD. fold (table_of self w). fold F.
      unfold bindM at 1, ret at 1. fold rest.
      unfold bindM at 1, lift at 1. unfold select. rewrite Ecs. cbn [bind].
      fold Fr. unfold bindM at 1, load at 1. cbn [heap].
      rewrite nth_app_last. unfold store, ret. cbn [heap draws].
      rewrite set_nth_app_last. reflexivity.
    + exact Hi'.
    + intros Hwf c e Hc He. cbn [index columns] in *. rewrite Hi'.
      apply set_col_In in Hc. destruct Hc as [Hc| ->].
      * exact (Hwf c e (Hcols c Hc) He).
      * cbn [snd] in He. unfold row_sums in He. apply tabulate_In in He.
        exact (proj1 He).
    + intros Hpos c e Hc He. cbn [columns] in Hc.
      apply set_col_In in Hc. destruct Hc as [Hc| ->].
      * exact (Hpos c e (Hcols c Hc) He).
      * cbn [snd] in He. apply (row_sums_positive Fr); [|exact He].
        intros c' e' Hc' He'. exact (Hpos c' e' (Hcs c' Hc') He').
    + intros ts t s E Ht Hne Hl. cbn [columns].
      apply set_col_keeps; [|exact Hne].
      exact (select_keeps_col F F' ts' t s Hsel (Hsub ts t E Ht) Hl).
  - exists F'. split; [|split; [|split; [|split]]].
    + unfold sorted_view. unfold bindM at 1. rewrite Htags.
      unfold bindM at 1, ret at 1. unfold bindM at 1. rewrite Hframe.
      unfold bindM, ret. reflexivity.
    + exact Hi'.
    + intros Hwf. exact (select_well_formed F F' ts' Hsel Hwf).
    + intros Hpos c e Hc He. exact (Hpos c e (Hcols c Hc) He).
    + intros ts t s E Ht _ Hl.
      exact (select_keeps_col F F' ts' t s Hsel (Hsub ts t E Ht) Hl).
Qed.

(** Lines 208-211: the sums per bucket, rescaled, in a new object. *)
Lemma buckets_run {B : Type} (key : Z -> Z) (D : ref) (k : ref -> M B)
    (w : world) :
  (F <~ load D ;;
   D' <~ alloc (groupby_sum key F) ;;
   F' <~ load D' ;;
   _ <~ store D' (scale_rows 60 (row_sums F') F') ;;
   k D') w
  = k (List.length (heap w))
      {| heap := heap w ++ [hour_shares key (nth D (heap w) empty_frame)];
         draws := draws w |}.
Proof.
  unfold bindM, load, alloc, store. cbn [heap draws].
  rewrite nth_app_last, set_nth_app_last. reflexivity.
Qed.

(** The rows of a frame with the rows and values of the rescaled sums. *)
Lemma shares_rows_plain (key : Z -> Z) (Fv res : frame) :
  positive_frame Fv ->
  index res = index (hour_shares key Fv) ->
  map snd (columns res) = map snd (columns (hour_shares key Fv)) ->
  (forall t v, cell (row_sums res) t = Some v -> v = 60%R) /\
  (forall c e, In c (columns Fv) -> In e (snd c) -> In (fst e) (index Fv) ->
               cell (row_sums res) (key (fst e)) = Some 60%R).
Proof.
  intros Hpos Hi Hv. rewrite (row_sums_same_values _ _ Hi Hv).
  destruct (hour_shares_rows key Fv Hpos) as [Ha Hc]. split; [exact Ha|].
  intros c e Hin He Hrow. destruct (Hc c e Hin He Hrow) as (v & E & ->).
  exact E.
Qed.

(** The same after the gaps were filled with zeros. *)
Lemma shares_rows_filled (key : Z -> Z) (Fv A res : frame) :
  positive_frame Fv ->
  index A = index (hour_shares key Fv) ->
  map snd (columns A) = map snd (columns (hour_shares key Fv)) ->
  index res = index (fillna0 A) ->
  map snd (columns res) = map snd (columns (fillna0 A)) ->
  (forall t v, cell (row_sums res) t = Some v -> v = 60%R \/ v = 0%R) /\
  (forall c e, In c (columns Fv) -> In e (snd c) -> In (fst e) (index Fv) ->
               cell (row_sums res) (key (fst e)) = Some 60%R).
Proof.
  intros Hpos HiA HvA Hi Hv. rewrite (row_sums_same_values _ _ Hi Hv).
  destruct (shares_rows_plain key Fv A Hpos HiA HvA) as [Ha Hc].
  assert (Hnd : NoDup (index A)).
  { rewrite HiA. unfold hour_shares, scale_rows. cbn [index].
    apply groupby_sum_index_NoDup. }
  assert (Hone : forall t c, In c (columns A) ->
                             (List.length (values_at (snd c) t) <= 1)%nat).
  { intros t c Hin. apply (in_map snd) in Hin. rewrite HvA in Hin.
    apply in_map_iff in Hin. destruct Hin as (c' & E & Hc').
    rewrite <- E. exact (hour_shares_single key Fv c' t Hc'). }
  split.
  - intros t v H.
    destruct (fillna0_row_total A t v Hnd (Hone t) H) as [Hz|H'];
      [right; exact Hz | left; exact (Ha t v H')].
  - intros c e Hin He Hrow.
    exact (fillna0_row_keeps A _ _ Hnd (Hone _) (Hc c e Hin He Hrow)).
Qed.

(** The end of [hour_sums], from the rescaled sums in the object [D]. *)
Lemma hour_sums_tail (D : ref) (w : world) :
  (D < List.length (heap w))%nat ->
  exists A w',
    (_ <~ _obfuscate labels self D ;;
     if String.eqb (multitag (cfg self)) "double" then
       F <~ load D ;;
       D' <~ alloc (fillna0 F) ;;
       load D'
     else load D) w
    = (Ok (if String.eqb (multitag (cfg self)) "double" then fillna0 A else A),
       w') /\
    index A = index (nth D (heap w) empty_frame) /\
    map snd (columns A) = map snd (columns (nth D (heap w) empty_frame)).
Proof.
  intros HD.
  destruct (obfuscate_spec labels self D w HD) as (w2 & Hrun & Hi & Hv & _).
  exists (nth D (heap w2) empty_frame).
  unfold bindM at 1. rewrite Hrun.
  destruct (String.eqb (multitag (cfg self)) "double").
  - eexists. split; [|split; [exact Hi | exact Hv]].
    unfold bindM, load, alloc. cbn [heap draws]. rewrite nth_app_last.
    reflexivity.
  - exists w2. split; [reflexivity|]. split; [exact Hi | exact Hv].
Qed.

(** The end of [hour_of_the_week]. *)
Lemma hour_of_the_week_tail (D : ref) (w : world) :
  exists res w',
    (F <~ load D ;;
     D' <~ alloc (fillna0 F) ;;
     _ <~ _obfuscate labels self D' ;;
     load D') w
    = (Ok res, w') /\
    index res = index (fillna0 (nth D (heap w) empty_frame)) /\
    map snd (columns res)
    = map snd (columns (fillna0 (nth D (heap w) empty_frame))).
Proof.
  set (F := nth D (heap w) empty_frame).
  set (w1 := {| heap := heap w ++ [fillna0 F]; draws := draws w |}).
  destruct (obfuscate_spec labels self (List.length (heap w)) w1)
    as (w2 & Hrun & Hi & Hv & _).
  { unfold w1. cbn [heap]. rewrite length_app. cbn [List.length]. lia. }
  assert (Hn : nth (List.length (heap w)) (heap w1) empty_frame = fillna0 F)
    by (unfold w1; cbn [heap]; apply nth_app_last).
  rewrite Hn in Hi, Hv.
  exists (nth (List.length (heap w)) (heap w2) empty_frame), w2.
  split; [|split; [exact Hi | exact Hv]].
  unfold bindM at 1, load at 1. fold F. unfold bindM at 1, alloc at 1.
  fold w1. unfold bindM at 1. rewrite Hrun. reflexivity.
Qed.

End HourViewRows.

(** ** What the hour views return *)

Section HourViewResults.

Variable labels : nat -> string.
Variable self : TagTimeLog.

Lemma hour_shares_index (key : Z -> Z) (F : frame) :
  index (hour_shares key F) = uniq (sort_by Z.leb (map key (index F))).
Proof. reflexivity. Qed.

(** [hour_sums] with tags that are columns of the table: the frame [Fv]
    that it works on, and the frame [A] with the rescaled sums that it
    returns, filled with zeros under multitag 'double'. *)
Lemma hour_sums_run (tags : option (list string)) (top_n : option Z)
    (resolution : Z) (other : bool) (w : world) :
  (selfD self < List.length (heap w))%nat ->
  tags <> None \/ top_n <> None ->
  (forall ts t, tags = Some ts -> In t ts -> In t (keys (table_of self w))) ->
  exists Fv A w',
    hour_sums labels self tags top_n resolution other w
    = (Ok (if String.eqb (multitag (cfg self)) "double" then fillna0 A else A),
       w') /\
    index A = index (hour_shares (hour_bucket resolution) Fv) /\
    map snd (columns A)
    = map snd (columns (hour_shares (hour_bucket resolution) Fv)) /\
    index Fv = index (table_of self w) /\
    (well_formed (table_of self w) -> well_formed Fv) /\
    (positive_frame (table_of self w) -> positive_frame Fv) /\
    (forall ts t s, tags = Some ts -> In t ts -> t <> "other" ->
       lookup_col (columns (table_of self w)) t = Some s ->
       In (t, s) (columns Fv)).
Proof.
  intros HD Hgiven Hknown.
  destruct (sorted_view_spec self tags top_n other w HD Hgiven Hknown)
    as (Fv & Hsv & Hrest).
  set (key := hour_bucket resolution).
  set (w1 := {| heap := heap w ++ [Fv]; draws := draws w |}) in *.
  set (w2 := {| heap := heap w1
                        ++ [hour_shares key
                              (nth (List.length (heap w)) (heap w1) empty_frame)];
                draws := draws w1 |}).
  destruct (hour_sums_tail labels self (List.length (heap w1)) w2)
    as (A & w' & Hrun & HiA & HvA).
  { unfold w2. cbn [heap]. rewrite length_app. cbn [List.length]. lia. }
  assert (Hn : nth (List.length (heap w1)) (heap w2) empty_frame
               = hour_shares key Fv).
  { unfold w2. cbn [heap]. rewrite nth_app_last. unfold w1. cbn [heap].
    rewrite nth_app_last. reflexivity. }
  rewrite Hn in HiA, HvA.
  exists Fv, A, w'. split; [|split; [exact HiA | split; [exact HvA | exact Hrest]]].
  unfold hour_sums. unfold bindM at 1. rewrite Hsv. fold w1. fold key.
  rewrite (buckets_run key (List.length (heap w))
             (fun D =>
                _ <~ _obfuscate labels self D ;;
                if String.eqb (multitag (cfg self)) "double" then
                  F <~ load D ;; D' <~ alloc (fillna0 F) ;; load D'
                else load D) w1).
  fold w2. exact Hrun.
Qed.

(** [hour_of_the_week] under the same conditions. *)
Lemma hour_of_the_week_run (tags : option (list string)) (top_n : option Z)
    (resolution : Z) (other : bool) (w : world) :
  (selfD self < List.length (heap w))%nat ->
  tags <> None \/ top_n <> None ->
  (forall ts t, tags = Some ts -> In t ts -> In t (keys (table_of self w))) ->
  exists Fv res w',
    hour_of_the_week labels self tags top_n resolution other w = (Ok res, w') /\
    index res = index (hour_shares (week_hour_bucket resolution) Fv) /\
    map snd (columns res)
    = map snd (columns (fillna0 (hour_shares (week_hour_bucket resolution) Fv))) /\
    index Fv = index (table_of self w) /\
    (well_formed (table_of self w) -> well_formed Fv) /\
    (positive_frame (table_of self w) -> positive_frame Fv) /\
    (forall ts t s, tags = Some ts -> In t ts -> t <> "other" ->
       lookup_col (columns (table_of self w)) t = Some s ->
       In (t, s) (columns Fv)).
Proof.
  intros HD Hgiven Hknown.
  destruct (sorted_view_spec self tags top_n other w HD Hgiven Hknown)
    as (Fv & Hsv & Hrest).
  set (key := week_hour_bucket resolution).
  set (w1 := {| heap := heap w ++ [Fv]; draws := draws w |}) in *.
  set (w2 := {| heap := heap w1
                        ++ [hour_shares key
                              (nth (List.length (heap w)) (heap w1) empty_frame)];
                draws := draws w1 |}).
  destruct (hour_of_the_week_tail labels self (List.length (heap w1)) w2)
    as (res & w' & Hrun & Hi & Hv).
  assert (Hn : nth (List.length (heap w1)) (heap w2) empty_frame
               = hour_shares key Fv).
  { unfold w2. cbn [heap]. rewrite nth_app_last. unfold w1. cbn [heap].
    rewrite nth_app_last. reflexivity. }
  rewrite Hn in Hi, Hv.
  exists Fv, res, w'. split; [|split; [exact Hi | split; [exact Hv | exact Hrest]]].
  unfold hour_of_the_week. unfold bindM at 1. rewrite Hsv. fold w1. fold key.
  rewrite (buckets_run key (List.length (heap w))
             (fun D =>
                F <~ load D ;; D' <~ alloc (fillna0 F) ;;
                _ <~ _obfuscate labels self D' ;; load D') w1).
  fold w2. exact Hrun.
Qed.

(** X15: [hour_sums] over a table with positive entries that sit on its
    rows, with tags that are columns of the table, returns a frame in
    which every row that has a total has the total 60 - the minutes of
    an hour - or, under multitag 'double' only, the total 0 of a bucket
    in which none of the shown tags occurs.  The bucket of every entry
    of a shown tag is a row with the total 60. *)
Theorem X15_hour_sums_rows_total_60 (tags : option (list string))
    (top_n : option Z) (resolution : Z) (other : bool) (w : world) :
  (selfD self < List.length (heap w))%nat ->
  tags <> None \/ top_n <> None ->
  (forall ts t, tags = Some ts -> In t ts -> In t (keys (table_of self w))) ->
  well_formed (table_of self w) ->
  positive_frame (table_of self w) ->
  exists res w',
    hour_sums labels self tags top_n resolution other w = (Ok res, w') /\
    (forall t v, cell (row_sums res) t = Some v ->
       v = 60%R \/ (v = 0%R /\ multitag (cfg self) = "double")) /\
    (forall ts t s e, tags = Some ts -> In t ts -> t <> "other" ->
       lookup_col (columns (table_of self w)) t = Some s -> In e s ->
       cell (row_sums res) (hour_bucket resolution (fst e)) = Some 60%R).
Proof.
  intros HD Hgiven Hknown Hwf Hpos.
  destruct (hour_sums_run tags top_n resolution other w HD Hgiven Hknown)
    as (Fv & A & w' & Hrun & HiA & HvA & _ & Hwfv & Hposv & Hkeep).
  specialize (Hwfv Hwf). specialize (Hposv Hpos).
  eexists. exists w'. split; [exact Hrun|].
  destruct (String.eqb_spec (multitag (cfg self)) "double") as [Ed|_].
  - destruct (shares_rows_filled (hour_bucket resolution) Fv A (fillna0 A)
                Hposv HiA HvA eq_refl eq_refl) as [Ha Hc].
    split.
    + intros t v H. destruct (Ha t v H) as [Hv60|Hv0]; [left|right]; auto.
    + intros ts t s e E Ht Hne Hl He.
      pose proof (Hkeep ts t s E Ht Hne Hl) as Hin.
      exact (Hc (t, s) e Hin He (Hwfv (t, s) e Hin He)).
  - destruct (shares_rows_plain (hour_bucket resolution) Fv A Hposv HiA HvA)
      as [Ha Hc].
    split.
    + intros t v H. left. exact (Ha t v H).
    + intros ts t s e E Ht Hne Hl He.
      pose proof (Hkeep ts t s E Ht Hne Hl) as Hin.
      exact (Hc (t, s) e Hin He (Hwfv (t, s) e Hin He)).
Qed.

(** X16: [hour_of_the_week] under the same conditions returns a frame in
    which every row has the total 60 or, where none of the shown tags
    occurs in the bucket, the total 0 (the gaps are filled with zeros
    whatever multitag is).  The bucket of every entry of a shown tag is
    a row with the total 60. *)
Theorem X16_hour_of_the_week_rows_total_60 (tags : option (list string))
    (top_n : option Z) (resolution : Z) (other : bool) (w : world) :
  (selfD self < List.length (heap w))%nat ->
  tags <> None \/ top_n <> None ->
  (forall ts t, tags = Some ts -> In t ts -> In t (keys (table_of self w))) ->
  well_formed (table_of self w) ->
  positive_frame (table_of self w) ->
  exists res w',
    hour_of_the_week labels self tags top_n resolution other w = (Ok res, w') /\
    (forall t v, cell (row_sums res) t = Some v -> v = 60%R \/ v = 0%R) /\
    (forall ts t s e, tags = Some ts -> In t ts -> t <> "other" ->
       lookup_col (columns (table_of self w)) t = Some s -> In e s ->
       cell (row_sums res) (week_hour_bucket resolution (fst e)) = Some 60%R).
Proof.
  intros HD Hgiven Hknown Hwf Hpos.
  destruct (hour_of_the_week_run tags top_n resolution other w HD Hgiven Hknown)
    as (Fv & res & w' & Hrun & Hi & Hv & _ & Hwfv & Hposv & Hkeep).
  specialize (Hwfv Hwf). specialize (Hposv Hpos).
  destruct (shares_rows_filled (week_hour_bucket resolution) Fv
              (hour_shares (week_hour_bucket resolution) Fv) res Hposv
              eq_refl eq_refl Hi Hv) as [Ha Hc].
  exists res, w'. split; [exact Hrun|]. split; [exact Ha|].
  intros ts t s e E Ht Hne Hl He.
  pose proof (Hkeep ts t s E Ht Hne Hl) as Hin.
  exact (Hc (t, s) e Hin He (Hwfv (t, s) e Hin He)).
Qed.

End HourViewResults.

Lemma table_three_positive : positive_frame (table_of log_three world_three).
Proof.
  intros c e Hc He. change (table_of log_three world_three) with table_three in Hc.
  cbn [table_three columns] in Hc.
  destruct Hc as [<-|[<-|[]]]; cbn [snd] in He;
    destruct He as [<-|[<-|[]]]; cbn [snd]; lra.
Qed.

Lemma X15_hour_sums_rows_total_60_witness :
  exists res w',
    hour_sums sample_labels log_three (Some ["tagA"]) None 2 true world_three
    = (Ok res, w') /\
    (forall t v, cell (row_sums res) t = Some v ->
       v = 60%R \/ (v = 0%R /\ multitag (cfg log_three) = "double")) /\
    (forall ts t s e, Some ["tagA"] = Some ts -> In t ts -> t <> "other" ->
       lookup_col (columns (table_of log_three world_three)) t = Some s ->
       In e s ->
       cell (row_sums res) (hour_bucket 2 (fst e)) = Some 60%R).
Proof.
  apply (X15_hour_sums_rows_total_60 sample_labels log_three (Some ["tagA"])
           None 2 true world_three).
  - simpl. lia.
  - left. discriminate.
  - intros ts t E Ht. inversion E. subst ts. destruct Ht as [<-|[]].
    simpl. left. reflexivity.
  - exact (init_well_formed UTC cfg_split no_noise log_three_bare (None, None)
             now_2014 empty_world world_three log_three init_three_lines).
  - exact table_three_positive.
Defined.

Lemma X16_hour_of_the_week_rows_total_60_witness :
  exists res w',
    hour_of_the_week sample_labels log_three_obfuscated (Some ["tagB"]) (Some 1)
                     3 false world_three
    = (Ok res, w') /\
    (forall t v, cell (row_sums res) t = Some v -> v = 60%R \/ v = 0%R) /\
    (forall ts t s e, Some ["tagB"] = Some ts -> In t ts -> t <> "other" ->
       lookup_col (columns (table_of log_three_obfuscated world_three)) t
       = Some s ->
       In e s ->
       cell (row_sums res) (week_hour_bucket 3 (fst e)) = Some 60%R).
Proof.
  apply (X16_hour_of_the_week_rows_total_60 sample_labels log_three_obfuscated
           (Some ["tagB"]) (Some 1) 3 false world_three).
  - simpl. lia.
  - left. discriminate.
  - intros ts t E Ht. inversion E. subst ts. destruct Ht as [<-|[]].
    simpl. right. left. reflexivity.
  - exact (init_well_formed UTC cfg_split no_noise log_three_bare (None, None)
             now_2014 empty_world world_three log_three init_three_lines).
  - exact table_three_positive.
Defined.

(** ** The row labels of the hour views *)

Section HourLabels.

Variable labels : nat -> string.
Variable self : TagTimeLog.

Lemma uniq_sorted_lt (l : list Z) :
  StronglySorted (fun a b => Z.leb a b = true) l ->
  StronglySorted Z.lt (uniq l).
Proof.
  induction 1 as [|x l Hs IH Hx]; [constructor|].
  cbn [uniq]. destruct l as [|y l]; [repeat constructor|].
  destruct (Z.eqb_spec x y) as [->|Hne]; [exact IH|].
  constructor; [exact IH|].
  rewrite Forall_forall in *. intros z Hz.
  apply (proj1 (uniq_In (y :: l) z)) in Hz.
  pose proof (Hx y (or_introl eq_refl)) as H1. apply Z.leb_le in H1.
  destruct Hz as [<-|Hz]; [lia|].
  inversion Hs as [|? ? _ Hy]. subst. rewrite Forall_forall in Hy.
  pose proof (Hy z Hz) as H2. apply Z.leb_le in H2. lia.
Qed.

Lemma uniq_sort_lt (l : list Z) :
  StronglySorted Z.lt (uniq (sort_by Z.leb l)).
Proof.
  apply uniq_sorted_lt. apply sort_by_sorted.
  - intros x y E. apply Z.leb_le. apply Z.leb_gt in E. lia.
  - intros x y z H1 H2. apply Z.leb_le in H1, H2. apply Z.leb_le. lia.
Qed.

Lemma bucket_rows (key : Z -> Z) (l : list Z) (b : Z) :
  In b (uniq (sort_by Z.leb (map key l))) <-> exists x, In x l /\ b = key x.
Proof.
  rewrite uniq_In, sort_by_In, in_map_iff. split.
  - intros (x & E & Hx). exists x. auto.
  - intros (x & Hx & E). exists x. auto.
Qed.

Lemma hour_of_range (t : Z) : 0 <= hour_of t <= 23.
Proof.
  unfold hour_of.
  assert (E : us_per_day = 24 * us_per_hour) by reflexivity.
  assert (Hh : 0 < us_per_hour) by reflexivity.
  pose proof (Z.mod_pos_bound t us_per_day eq_refl) as Hm.
  split.
  - apply Z.div_pos; lia.
  - enough (t mod us_per_day / us_per_hour < 24) by lia.
    apply Z.div_lt_upper_bound; lia.
Qed.

(** A bucket of [resolution > 0] hours: the multiple of [resolution]
    at or below the hour. *)
Lemma hour_bucket_range (resolution t : Z) :
  0 < resolution ->
  0 <= hour_bucket resolution t <= 23 /\
  hour_bucket resolution t mod resolution = 0 /\
  hour_bucket resolution t <= hour_of t < hour_bucket resolution t + resolution.
Proof.
  intros Hr. unfold hour_bucket. pose proof (hour_of_range t) as Hh.
  pose proof (Z.mul_div_le (hour_of t) resolution Hr) as H1.
  pose proof (Z.mul_succ_div_gt (hour_of t) resolution Hr) as H2.
  assert (H0 : 0 <= hour_of t / resolution) by (apply Z.div_pos; lia).
  split; [nia|]. split; [|nia].
  rewrite Z.mul_comm. apply Z_mod_mult.
Qed.

(** The label of a row of [hour_of_the_week] stands for the pair of the
    weekday and the bucket, and the labels are ordered as the pairs. *)
Lemma week_hour_bucket_pair (resolution t : Z) :
  0 < resolution ->
  week_hour_bucket resolution t / (24 + resolution) = weekday t /\
  week_hour_bucket resolution t mod (24 + resolution)
  = hour_bucket resolution t.
Proof.
  intros Hr. unfold week_hour_bucket. rewrite Z.abs_eq by lia.
  destruct (hour_bucket_range resolution t Hr) as (Hb & _ & _).
  split.
  - rewrite Z.div_add_l by lia. rewrite Z.div_small by lia. lia.
  - rewrite Z.add_comm, Z.mod_add by lia. apply Z.mod_small. lia.
Qed.

Lemma week_hour_bucket_order (resolution x y : Z) :
  0 < resolution ->
  week_hour_bucket resolution x < week_hour_bucket resolution y <->
  weekday x < weekday y \/
  (weekday x = weekday y /\
   hour_bucket resolution x < hour_bucket resolution y).
Proof.
  intros Hr. unfold week_hour_bucket. rewrite Z.abs_eq by lia.
  destruct (hour_bucket_range resolution x Hr) as (Hx & _ & _).
  destruct (hour_bucket_range resolution y Hr) as (Hy & _ & _).
  split.
  - intros H. destruct (Z.lt_trichotomy (weekday x) (weekday y)) as [L|[E|G]].
    + left. exact L.
    + right. split; [exact E|]. rewrite E in H. lia.
    + exfalso. nia.
  - intros [L|[E L]]; [nia | rewrite E; lia].
Qed.

(** X17: for a resolution above 0 and tags that are columns of the
    table, the rows of what [hour_sums] returns are exactly the buckets
    of the rows of the table, each once and in increasing order; a
    bucket is a multiple of the resolution between 0 and 23, and a row
    of the table falls in the bucket that starts at or before its hour
    and ends after it. *)
Theorem X17_hour_sums_rows_are_buckets (tags : option (list string))
    (top_n : option Z) (resolution : Z) (other : bool) (w : world) :
  0 < resolution ->
  (selfD self < List.length (heap w))%nat ->
  tags <> None \/ top_n <> None ->
  (forall ts t, tags = Some ts -> In t ts -> In t (keys (table_of self w))) ->
  exists res w',
    hour_sums labels self tags top_n resolution other w = (Ok res, w') /\
    StronglySorted Z.lt (index res) /\
    (forall b, In b (index res) <->
               exists x, In x (index (table_of self w)) /\
                         b = hour_bucket resolution x) /\
    (forall b, In b (index res) -> 0 <= b <= 23 /\ b mod resolution = 0) /\
    (forall x, In x (index (table_of self w)) ->
               exists b, In b (index res) /\ b <= hour_of x < b + resolution).
Proof.
  intros Hr HD Hgiven Hknown.
  destruct (hour_sums_run labels self tags top_n resolution other w HD Hgiven
              Hknown)
    as (Fv & A & w' & Hrun & HiA & _ & Hiv & _).
  eexists. exists w'. split; [exact Hrun|].
  assert (Hidx : index (if String.eqb (multitag (cfg self)) "double"
                        then fillna0 A else A)
                 = uniq (sort_by Z.leb (map (hour_bucket resolution)
                                            (index (table_of self w))))).
  { rewrite <- Hiv, <- hour_shares_index, <- HiA.
    destruct (String.eqb (multitag (cfg self)) "double"); reflexivity. }
  rewrite Hidx. split; [apply uniq_sort_lt|].
  split; [intros b; apply bucket_rows|]. split.
  - intros b Hb. apply bucket_rows in Hb. destruct Hb as (x & _ & ->).
    destruct (hour_bucket_range resolution x Hr) as (H1 & H2 & _). auto.
  - intros x Hx. exists (hour_bucket resolution x). split.
    + apply bucket_rows. exists x. auto.
    + apply (hour_bucket_range resolution x Hr).
Qed.

(** X18: under the same conditions the rows of what [hour_of_the_week]
    returns are exactly the groups (weekday, bucket) of the rows of the
    table, each once, ordered by weekday and then by bucket; the weekday
    is between 0 and 6 and the bucket a multiple of the resolution
    between 0 and 23. *)
Theorem X18_hour_of_the_week_rows_are_groups (tags : option (list string))
    (top_n : option Z) (resolution : Z) (other : bool) (w : world) :
  0 < resolution ->
  (selfD self < List.length (heap w))%nat ->
  tags <> None \/ top_n <> None ->
  (forall ts t, tags = Some ts -> In t ts -> In t (keys (table_of self w))) ->
  exists res w',
    hour_of_the_week labels self tags top_n resolution other w = (Ok res, w') /\
    StronglySorted
      (fun a b =>
         a / (24 + resolution) < b / (24 + resolution) \/
         (a / (24 + resolution) = b / (24 + resolution) /\
          a mod (24 + resolution) < b mod (24 + resolution)))
      (index res) /\
    (forall b, In b (index res) <->
               exists x, In x (index (table_of self w)) /\
                         b / (24 + resolution) = weekday x /\
                         b mod (24 + resolution) = hour_bucket resolution x) /\
    (forall b, In b (index res) ->
               0 <= b / (24 + resolution) <= 6 /\
               0 <= b mod (24 + resolution) <= 23 /\
               (b mod (24 + resolution)) mod resolution = 0).
Proof.
  intros Hr HD Hgiven Hknown.
  destruct (hour_of_the_week_run labels self tags top_n resolution other w HD
              Hgiven Hknown)
    as (Fv & res & w' & Hrun & Hi & _ & Hiv & _).
  exists res, w'. split; [exact Hrun|].
  rewrite Hi, hour_shares_index, Hiv.
  set (l := index (table_of self w)).
  assert (Hdec : forall b, In b (uniq (sort_by Z.leb
                                         (map (week_hour_bucket resolution) l))) ->
                           exists x, In x l /\ b = week_hour_bucket resolution x).
  { intros b Hb. apply bucket_rows in Hb. exact Hb. }
  split; [|split].
  - pose proof (uniq_sort_lt (map (week_hour_bucket resolution) l)) as Hs.
    induction Hs as [|a rest Hs IH Ha]; [constructor|].
    constructor.
    + apply IH. intros b Hb. apply Hdec. right. exact Hb.
    + rewrite Forall_forall in *. intros b Hb.
      destruct (Hdec a (or_introl eq_refl)) as (x & _ & Ex).
      destruct (Hdec b (or_intror Hb)) as (y & _ & Ey).
      pose proof (Ha b Hb) as Hlt. rewrite Ex, Ey in Hlt |- *.
      destruct (week_hour_bucket_pair resolution x Hr) as [-> ->].
      destruct (week_hour_bucket_pair resolution y Hr) as [-> ->].
      apply week_hour_bucket_order; assumption.
  - intros b. rewrite bucket_rows. split.
    + intros (x & Hx & ->). exists x.
      destruct (week_hour_bucket_pair resolution x Hr) as [E1 E2]. auto.
    + intros (x & Hx & E1 & E2). exists x. split; [exact Hx|].
      rewrite (Z.div_mod b (24 + resolution)) by lia. rewrite E1, E2.
      unfold week_hour_bucket. rewrite Z.abs_eq by lia. ring.
  - intros b Hb. destruct (Hdec b Hb) as (x & _ & ->).
    destruct (week_hour_bucket_pair resolution x Hr) as [-> ->].
    destruct (hour_bucket_range resolution x Hr) as (H1 & H2 & _).
    pose proof (weekday_range x). repeat split; try assumption; lia.
Qed.

End HourLabels.

Lemma X17_hour_sums_rows_are_buckets_witness :
  exists res w',
    hour_sums sample_labels log_three (Some ["tagA"]) None 2 true world_three
    = (Ok res, w') /\
    StronglySorted Z.lt (index res) /\
    (forall b, In b (index res) <->
               exists x, In x (index (table_of log_three world_three)) /\
                         b = hour_bucket 2 x) /\
    (forall b, In b (index res) -> 0 <= b <= 23 /\ b mod 2 = 0) /\
    (forall x, In x (index (table_of log_three world_three)) ->
               exists b, In b (index res) /\ b <= hour_of x < b + 2).
Proof.
  apply (X17_hour_sums_rows_are_buckets sample_labels log_three (Some ["tagA"])
           None 2 true world_three).
  - reflexivity.
  - simpl. lia.
  - left. discriminate.
  - intros ts t E Ht. inversion E. subst ts. destruct Ht as [<-|[]].
    simpl. left. reflexivity.
Defined.

Lemma X18_hour_of_the_week_rows_are_groups_witness :
  exists res w',
    hour_of_the_week sample_labels log_three (Some ["tagB"]) None 3 false
                     world_three
    = (Ok res, w') /\
    StronglySorted
      (fun a b =>
         a / (24 + 3) < b / (24 + 3) \/
         (a / (24 + 3) = b / (24 + 3) /\ a mod (24 + 3) < b mod (24 + 3)))
      (index res) /\
    (forall b, In b (index res) <->
               exists x, In x (index (table_of log_three world_three)) /\
                         b / (24 + 3) = weekday x /\
                         b mod (24 + 3) = hour_bucket 3 x) /\
    (forall b, In b (index res) ->
               0 <= b / (24 + 3) <= 6 /\
               0 <= b mod (24 + 3) <= 23 /\
               (b mod (24 + 3)) mod 3 = 0).
Proof.
  apply (X18_hour_of_the_week_rows_are_groups sample_labels log_three
           (Some ["tagB"]) None 3 false world_three).
  - reflexivity.
  - simpl. lia.
  - left. discriminate.
  - intros ts t E Ht. inversion E. subst ts. destruct Ht as [<-|[]].
    simpl. right. left. reflexivity.
Defined.

(** ** Relative dates *)

Section RelativeDates.

Local Open Scope string_scope.

Lemma leading_digits_all (s : string) :
  all_digits (fst (leading_digits s)) = true.
Proof.
  induction s as [|c s IH]; [reflexivity|].
  cbn [leading_digits]. destruct (digit_of c) eqn:E; [|reflexivity].
  cbn [fst all_digits]. rewrite E. exact IH.
Qed.

Lemma leading_digits_app (ds rest : string) (f : ascii) :
  all_digits ds = true -> digit_of f = None ->
  leading_digits (ds ++ String f rest) = (ds, String f rest).
Proof.
  intros Hd Hf. induction ds as [|c ds IH].
  - cbn [append leading_digits]. rewrite Hf. reflexivity.
  - cbn [all_digits] in Hd. cbn [append leading_digits].
    destruct (digit_of c); [|discriminate]. rewrite (IH Hd). reflexivity.
Qed.

Lemma digit_of_range (c : ascii) (d : Z) :
  digit_of c = Some d -> (0 <= d <= 9)%Z.
Proof.
  unfold digit_of.
  destruct ((48 <=? nat_of_ascii c) && (nat_of_ascii c <=? 57))%nat eqn:E;
    [|discriminate].
  intros H. inversion H. apply andb_prop in E. destruct E as [E1 E2].
  apply Nat.leb_le in E1, E2. lia.
Qed.

Lemma digits_value_all (ds : string) (acc : Z) :
  all_digits ds = true -> (0 <= acc)%Z ->
  exists n, digits_value acc ds = Some n /\ (0 <= n)%Z.
Proof.
  revert acc. induction ds as [|c ds IH]; intros acc Hd Hacc.
  - exists acc. split; [reflexivity | exact Hacc].
  - cbn [all_digits] in Hd. cbn [digits_value].
    destruct (digit_of c) as [d|] eqn:E; [|discriminate].
    pose proof (digit_of_range c d E). apply IH; [exact Hd | lia].
Qed.

(** [int] of a string of digits returns, and the number is not
    negative. *)
Lemma py_int_digits (ds : string) :
  all_digits ds = true -> ds <> "" ->
  exists n, py_int ds = Ok n /\ (0 <= n)%Z.
Proof.
  intros Hd Hne. destruct ds as [|c ds]; [congruence|].
  destruct (digits_value_all (String c ds) 0 Hd (Z.le_refl 0)) as (n & E & Hn).
  exists n. split; [|exact Hn]. unfold py_int, int_literal.
  cbn [all_digits] in Hd.
  destruct (Ascii.eqb_spec c "+") as [->|_]; [discriminate|].
  destruct (Ascii.eqb_spec c "-") as [->|_]; [discriminate|].
  rewrite E. reflexivity.
Qed.

Lemma unit_days_cases (f : ascii) (k : Z) :
  unit_days f = Some k ->
  (f = "D"%char /\ k = 1%Z) \/ (f = "W"%char /\ k = 7%Z) \/
  (f = "M"%char /\ k = 28%Z).
Proof.
  unfold unit_days.
  destruct (Ascii.eqb_spec f "D") as [->|_];
    [intros H; inversion H; auto|].
  destruct (Ascii.eqb_spec f "W") as [->|_];
    [intros H; inversion H; auto|].
  destruct (Ascii.eqb_spec f "M") as [->|_];
    [intros H; inversion H; auto | discriminate].
Qed.

(** The groups of a match: digits, and one of the three units. *)
Lemma reldate_groups_inv (s ds : string) (f : ascii) :
  reldate_groups s = Some (ds, f) ->
  all_digits ds = true /\ ds <> "" /\ exists k, unit_days f = Some k.
Proof.
  unfold reldate_groups. pose proof (leading_digits_all s) as Hall.
  destruct (leading_digits s) as [[|d ds'] [|f' rest]]; try discriminate.
  cbn [fst] in Hall.
  destruct (Ascii.eqb f' "D" || Ascii.eqb f' "W" || Ascii.eqb f' "M")%bool eqn:E;
    [|discriminate].
  intros H. inversion H. subst. split; [exact Hall|]. split; [discriminate|].
  unfold unit_days.
  destruct (Ascii.eqb f "D"); [eexists; reflexivity|].
  destruct (Ascii.eqb f "W"); [eexists; reflexivity|].
  destruct (Ascii.eqb f "M"); [eexists; reflexivity | discriminate].
Qed.

(** [reldate] after the match, for [n] units of [k] days. *)
Lemma reldate_matched (today : Z) (s ds : string) (f : ascii) (k n : Z) :
  reldate_groups s = Some (ds, f) -> unit_days f = Some k ->
  py_int ds = Ok n ->
  reldate today s
  = match (td <- timedelta_days (k * n) ;; date_sub today td) with
    | Ok d => Returns (midnight d)
    | Raise e => Raises (Builtin e)
    end.
Proof.
  intros Hg Hk Hn. unfold reldate. rewrite Hg, Hn.
  destruct (unit_days_cases f k Hk) as [[-> ->]|[[-> ->]|[-> ->]]];
    cbn [Ascii.eqb Bool.eqb].
  - replace (1 * n)%Z with n by lia.
    destruct (td <- timedelta_days n ;; date_sub today td); reflexivity.
  - destruct (td <- timedelta_days (7 * n) ;; date_sub today td); reflexivity.
  - replace (28 * n)%Z with (7 * (n * 4))%Z by lia.
    destruct (td <- timedelta_days (7 * (n * 4)) ;; date_sub today td);
      reflexivity.
Qed.

(** X19: a relative date made of digits, one of the units D, W and M
    and any text after them is read as that many days, weeks of 7 days
    or months of 28 days before today: [reldate] returns the midnight
    of that day if it is not before [date.min], and raises
    [OverflowError] otherwise.  What follows the unit is ignored. *)
Theorem X19_reldate_counts_back (today : Z) (ds rest : string) (f : ascii)
    (k : Z) :
  all_digits ds = true -> ds <> "" -> unit_days f = Some k ->
  (date_min <= today <= date_max)%Z ->
  exists n,
    py_int ds = Ok n /\ (0 <= n)%Z /\
    ((date_min <= today - k * n)%Z ->
     reldate today (ds ++ String f rest) = Returns (midnight (today - k * n))) /\
    ((today - k * n < date_min)%Z ->
     exists msg,
       reldate today (ds ++ String f rest)
       = Raises (Builtin (OverflowError msg))).
Proof.
  intros Hd Hne Hk Htoday.
  destruct (py_int_digits ds Hd Hne) as (n & Hn & Hpos).
  exists n. split; [exact Hn|]. split; [exact Hpos|].
  assert (Hf : digit_of f = None).
  { destruct (unit_days_cases f k Hk) as [[-> _]|[[-> _]|[-> _]]]; reflexivity. }
  assert (Hg : reldate_groups (ds ++ String f rest) = Some (ds, f)).
  { unfold reldate_groups. rewrite (leading_digits_app ds rest f Hd Hf).
    destruct ds as [|d ds']; [congruence|].
    destruct (unit_days_cases f k Hk) as [[-> _]|[[-> _]|[-> _]]]; reflexivity. }
  rewrite (reldate_matched today _ ds f k n Hg Hk Hn).
  assert (Hkpos : (1 <= k <= 28)%Z).
  { destruct (unit_days_cases f k Hk) as [[_ ->]|[[_ ->]|[_ ->]]]; lia. }
  unfold timedelta_days, date_sub.
  split.
  - intros Hin.
    assert (Habs : (Z.abs (k * n) <=? 999999999)%Z = true)
      by (apply Z.leb_le; unfold date_min, date_max in *; nia).
    rewrite Habs. cbn [bind].
    assert (Hlo : (date_min <=? today - k * n)%Z = true)
      by (apply Z.leb_le; exact Hin).
    assert (Hhi : (today - k * n <=? date_max)%Z = true)
      by (apply Z.leb_le; unfold date_min, date_max in *; nia).
    rewrite Hlo, Hhi. reflexivity.
  - intros Hout. destruct (Z.abs (k * n) <=? 999999999)%Z; cbn [bind].
    + assert (Hlo : (date_min <=? today - k * n)%Z = false)
        by (apply Z.leb_gt; exact Hout).
      rewrite Hlo. cbn [andb]. eexists. reflexivity.
    + eexists. reflexivity.
Qed.

(** X20: whatever the string, [reldate] returns the midnight of a day
    that is not after today and not before [date.min], or raises
    [AttributeError] - exactly when the string does not start with
    digits followed by one of D, W and M - or [OverflowError].  It never
    raises the [RuntimeError] of its last branch, and [int] never fails
    on the digits. *)
Theorem X20_reldate_outcomes (today : Z) (s : string) :
  match reldate today s with
  | Returns dt =>
      reldate_groups s <> None /\
      exists d, dt = midnight d /\ (date_min <= d <= today)%Z
  | Raises (AttributeError _) => reldate_groups s = None
  | Raises (Builtin (OverflowError _)) => reldate_groups s <> None
  | Raises _ => False
  end.
Proof.
  destruct (reldate_groups s) as [[ds f]|] eqn:Hg.
  - destruct (reldate_groups_inv s ds f Hg) as (Hd & Hne & k & Hk).
    destruct (py_int_digits ds Hd Hne) as (n & Hn & Hpos).
    rewrite (reldate_matched today s ds f k n Hg Hk Hn).
    assert (Hkpos : (1 <= k)%Z).
    { destruct (unit_days_cases f k Hk) as [[_ ->]|[[_ ->]|[_ ->]]]; lia. }
    unfold timedelta_days, date_sub.
    destruct (Z.abs (k * n) <=? 999999999)%Z; cbn [bind]; [|discriminate].
    destruct (date_min <=? today - k * n)%Z eqn:Hlo; cbn [andb];
      [|discriminate].
    destruct (today - k * n <=? date_max)%Z; [|discriminate].
    split; [discriminate|]. exists (today - k * n)%Z.
    split; [reflexivity|]. apply Z.leb_le in Hlo. nia.
  - unfold reldate. rewrite Hg. reflexivity.
Qed.

End RelativeDates.

Lemma X19_reldate_counts_back_witness :
  exists n,
    py_int "2" = Ok n /\ 0 <= n /\
    (date_min <= 16203 - 28 * n ->
     reldate 16203 ("2" ++ String "M" " ago")
     = Returns (midnight (16203 - 28 * n))) /\
    (16203 - 28 * n < date_min ->
     exists msg,
       reldate 16203 ("2" ++ String "M" " ago")
       = Raises (Builtin (OverflowError msg))).
Proof.
  apply (X19_reldate_counts_back 16203 "2" " ago" "M" 28).
  - reflexivity.
  - discriminate.
  - reflexivity.
  - unfold date_min, date_max. lia.
Defined.

(** ** From the arguments to the table *)

Section MainLog.

Variable utcoffset : Z -> Z.

Lemma setdiff1d_In (a b : list Z) (d : Z) :
  In d (setdiff1d a b) <-> In d a /\ ~ In d b.
Proof.
  unfold setdiff1d. rewrite filter_In, uniq_In, sort_by_In, negb_true_iff.
  rewrite <- (Z_in_In d b).
  destruct (Z_in d b); split; intros [H1 H2]; split; auto; congruence.
Qed.

(** The rows of the table that [__init__] leaves. *)
Lemma init_rows (c : config) (noise : nat -> R) (lines : list string)
    (startend : option Z * option Z) (now : datetime) (w0 w : world)
    (self : TagTimeLog) :
  init utcoffset c noise lines startend now w0 = (Ok self, w) ->
  cfg self = c /\
  forall t, In t (index (table_of self w)) ->
            Z_in (weekday t) (skipweekdays c) = false /\
            match fst startend with Some s => s <= t | None => True end /\
            t <= match snd startend with Some e => e | None => now end.
Proof.
  intros H. destruct (init_inv _ _ _ _ _ _ _ _ _ H)
    as (st & start & lo & hi & Hst & Hstart & Htab & _ & Hself & _).
  split; [rewrite Hself; reflexivity|].
  destruct (parse_loop_nothing_excluded utcoffset c noise lines st Hst)
    as [Hw _].
  rewrite Htab. intros t Ht. unfold ix_slice in Ht. cbn [index] in Ht.
  apply filter_In in Ht. destruct Ht as [Ht Hs].
  unfold in_slice in Hs. apply andb_prop in Hs. destruct Hs as [Hlo Hhi].
  apply Z.leb_le in Hlo, Hhi. split; [|split].
  - apply DataFrame_index_In in Ht. destruct Ht as (k & _ & Hd).
    apply (Hw k t Hd).
  - destruct (fst startend); [subst; exact Hlo | exact I].
  - exact Hhi.
Qed.


(** X22: the list of weekdays that --exclude-weekdays and
    --include-weekdays make of a string is the list of its characters
    read as digits, one number per character; [int] raises [ValueError]
    for the first character that is not a digit (a separator such as a
    comma, or a sign), naming it: the characters before it are all
    digits. *)
Theorem X22_weekday_list_of_digits (s : string) :
  match weekday_list s with
  | Ok l =>
      all_digits s = true /\
      Forall2 (fun x d => digit_of x = Some d /\ 0 <= d <= 9)
              (list_ascii_of_string s) l
  | Raise e =>
      all_digits s = false /\
      exists pre x rest,
        s = (pre ++ String x rest)%string /\
        all_digits pre = true /\
        digit_of x = None /\
        e = ValueError
              ("invalid literal for int() with base 10: '"
               ++ String x EmptyString ++ "'")%string
  end.
Proof.
  induction s as [|x s IH]; [split; [reflexivity | constructor]|].
  cbn [weekday_list all_digits list_ascii_of_string].
  assert (Hint : py_int (String x EmptyString)
                 = match digit_of x with
                   | Some d => Ok d
                   | None =>
                       Raise (ValueError
                                ("invalid literal for int() with base 10: '"
                                 ++ String x EmptyString ++ "'")%string)
                   end).
  { unfold py_int, int_literal.
    destruct (Ascii.eqb_spec x "+") as [->|_]; [reflexivity|].
    destruct (Ascii.eqb_spec x "-") as [->|_]; [reflexivity|].
    cbn [digits_value]. destruct (digit_of x) as [d|] eqn:E; [|reflexivity].
    cbn [digits_value]. pose proof (digit_of_range x d E).
    replace (10 * 0 + d) with d by lia. reflexivity. }
  rewrite Hint. destruct (digit_of x) as [d|] eqn:E; cbn [bind].
  - destruct (weekday_list s) as [l|e]; cbn [bind].
    + destruct IH as [Hd HF]. split; [exact Hd|]. constructor; [|exact HF].
      split; [exact E | exact (digit_of_range x d E)].
    + destruct IH as (Hd & pre & y & rest & Hs & Hpre & Hny & He).
      split; [exact Hd|].
      exists (String x pre), y, rest. split; [rewrite Hs; reflexivity|].
      split; [cbn [all_digits]; rewrite E; exact Hpre|]. split; assumption.
  - split; [reflexivity|]. exists EmptyString, x, s.
    split; [reflexivity|]. split; [reflexivity|].
    split; [exact E | reflexivity].
Qed.

End MainLog.


(** ** The wedges of the pie *)

Section PieWedges.

Variable labels : nat -> string.
Variable self : TagTimeLog.

Lemma Zrange_length (lo : Z) (n : nat) : List.length (Zrange lo n) = n.
Proof. unfold Zrange. rewrite length_map, length_seq. reflexivity. Qed.

Lemma index_min_le_max (F : frame) (lo hi : Z) :
  index_min F = Some lo -> index_max F = Some hi -> lo <= hi.
Proof.
  intros Elo Ehi. pose proof (index_within_bounds F lo hi) as Hb.
  destruct (index F) as [|x l] eqn:E.
  - unfold index_min in Elo. rewrite E in Elo. discriminate.
  - specialize (Hb x Elo Ehi (or_introl eq_refl)).
    unfold in_slice in Hb. apply andb_prop in Hb. destruct Hb as [H1 H2].
    apply Z.leb_le in H1, H2. lia.
Qed.

(** The days from the first to the last row, both included. *)
Lemma resample_days_length (F : frame) (lo hi : Z) :
  index_min F = Some lo -> index_max F = Some hi ->
  List.length (index (resample_sum 1 F))
  = Z.to_nat (day_of hi - day_of lo + 1).
Proof.
  intros Elo Ehi. unfold resample_sum. rewrite Elo, Ehi. cbn [index].
  rewrite length_map, Zrange_length, Z.div_1_r. reflexivity.
Qed.

Lemma tabulate_total_length (g : Z -> R) (l : list Z) :
  List.length (tabulate (fun t => Some (g t)) l) = List.length l.
Proof.
  induction l as [|x l IH]; [reflexivity|].
  rewrite tabulate_cons. cbn [app List.length]. rewrite IH. reflexivity.
Qed.

(** The mean of a tabulated column whose gaps are filled with zeros:
    its total over the number of rows. *)
Lemma col_mean_filled (g : Z -> option R) (idx : list Z) :
  NoDup idx -> idx <> [] ->
  col_mean (tabulate (fun t => Some (match cell (tabulate g idx) t with
                                     | Some v => v
                                     | None => 0%R
                                     end)) idx)
  = Some (col_sum (tabulate g idx) / INR (List.length idx))%R.
Proof.
  intros Hnd Hne.
  set (f := fun t => match cell (tabulate g idx) t with
                     | Some v => v
                     | None => 0%R
                     end).
  pose proof (tabulate_total_length f idx) as Hlen.
  assert (Hsum : col_sum (tabulate (fun t => Some (f t)) idx)
                 = col_sum (tabulate g idx)).
  { rewrite !col_sum_tabulate. f_equal. apply map_ext_in. intros x Hx.
    unfold f. rewrite cell_tabulate by assumption. reflexivity. }
  change (col_mean (tabulate (fun t => Some (f t)) idx)
          = Some (col_sum (tabulate g idx) / INR (List.length idx))%R).
  unfold col_mean.
  destruct (tabulate (fun t => Some (f t)) idx) as [|e s] eqn:Es.
  - destruct idx; [congruence | discriminate Hlen].
  - unfold col_sum in Hsum at 1. rewrite Hsum, Hlen. reflexivity.
Qed.

Lemma select_cols_lookup (cols cs : list (string * series)) (ts : list string)
    (x : string) :
  select_cols cols ts = Ok cs -> In x ts ->
  lookup_col cs x = lookup_col cols x.
Proof.
  revert cs. induction ts as [|t ts IH]; intros cs E Hin; [contradiction|].
  cbn [select_cols] in E.
  destruct (lookup_col cols t) as [s|] eqn:Et; [|discriminate].
  destruct (select_cols cols ts) as [cs'|e] eqn:E'; cbn [bind] in E;
    [|discriminate].
  inversion E. subst cs. cbn [lookup_col].
  destruct (String.eqb_spec x t) as [->|Hne]; [symmetry; exact Et|].
  destruct Hin as [->|Hin]; [congruence | exact (IH cs' eq_refl Hin)].
Qed.

(** The mean per day of a column, as [pie] computes it. *)
Lemma pie_means (F : frame) (lo hi : Z) (x : string) (s : series) :
  well_formed F ->
  index_min F = Some lo -> index_max F = Some hi ->
  lookup_col (columns F) x = Some s ->
  lookup_col (map (fun c => (fst c, col_mean (snd c)))
                  (columns (fillna0 (resample_sum 1 F)))) x
  = Some (Some (col_sum s / INR (Z.to_nat (day_of hi - day_of lo + 1)))%R).
Proof.
  intros Hwf Elo Ehi Hl.
  destruct (resample_sum_columns 1 F eq_refl Hwf) as (R & Hcols & Hnd & HR).
  pose proof (resample_days_length F lo hi Elo Ehi) as Hlen.
  pose proof (index_min_le_max F lo hi Elo Ehi) as Hle.
  apply day_of_mono in Hle.
  set (idx := index (resample_sum 1 F)) in *.
  assert (Hne : idx <> []).
  { intros E. rewrite E in Hlen. cbn [List.length] in Hlen. lia. }
  set (fill := fun s0 : series =>
                 tabulate (fun t => Some (match cell s0 t with
                                          | Some v => v
                                          | None => 0%R
                                          end)) idx).
  assert (Hm : map (fun c => (fst c, col_mean (snd c)))
                   (columns (fillna0 (resample_sum 1 F)))
               = map (fun c => (fst c, col_mean (fill (R (snd c)))))
                     (columns F)).
  { unfold fillna0. cbn [columns]. fold idx. rewrite Hcols, !map_map.
    reflexivity. }
  rewrite Hm, (lookup_col_map (fun s0 => col_mean (fill (R s0)))), Hl.
  cbn [option_map]. f_equal.
  destruct (HR (x, s) (lookup_col_Some_In _ _ _ Hl)) as [Hsum (g & Hg)].
  cbn [snd] in Hsum, Hg. unfold fill. rewrite Hg.
  rewrite (col_mean_filled g idx Hnd Hne), <- Hg, Hsum, Hlen. reflexivity.
Qed.

Lemma flat_map_some {X Y : Type} (key : X -> option Y) (val : X -> Y)
    (l : list X) :
  (forall x, In x l -> key x = Some (val x)) ->
  flat_map (fun x => match key x with
                     | Some v => [(x, v)]
                     | None => []
                     end) l
  = map (fun x => (x, val x)) l.
Proof.
  induction l as [|x l IH]; intros H; [reflexivity|].
  cbn [flat_map map]. rewrite (H x (or_introl eq_refl)). cbn [app].
  f_equal. apply IH. intros y Hy. apply H. right. exact Hy.
Qed.

Lemma sorted_map_desc {X : Type} (val : X -> R) (l : list X) :
  StronglySorted (fun x y => val y <= val x)%R l ->
  StronglySorted (fun a b => snd b <= snd a)%R (map (fun x => (x, val x)) l).
Proof.
  induction 1 as [|x l _ IH Hx]; cbn [map]; constructor; [exact IH|].
  rewrite Forall_forall in *. intros b Hb. apply in_map_iff in Hb.
  destruct Hb as (y & <- & Hy). cbn [snd]. exact (Hx y Hy).
Qed.

(** X23: without obfuscation and without the column 'other', on a table
    whose entries sit on its rows, [pie] asked for tags that are columns
    of the table returns one wedge per given tag, in descending order of
    their values; the value of a wedge is the total of the tag's column
    divided by the number of calendar days from the first to the last
    row of the table, days without pings included. *)
Theorem X23_pie_wedges_are_daily_means (ts : list string) (lo hi : Z)
    (w : world) :
  obfuscate (cfg self) = false ->
  well_formed (table_of self w) ->
  index_min (table_of self w) = Some lo ->
  index_max (table_of self w) = Some hi ->
  (forall t, In t ts -> In t (keys (table_of self w))) ->
  exists res w',
    pie labels self (Some ts) None false w = (Ok res, w') /\
    Permutation res
      (map (fun t => (t, (table_total (table_of self w) t
                          / INR (Z.to_nat (day_of hi - day_of lo + 1)))%R))
           ts) /\
    StronglySorted (fun a b => snd b <= snd a)%R res.
Proof.
  intros Hobf Hwf Elo Ehi Hknown. set (F := table_of self w) in *.
  destruct (view_frame_known self ts w Hknown) as (F' & Hsel & Hrun).
  fold F in Hsel.
  destruct (select_inv F F' ts Hsel) as (Hi' & Hk' & _ & _).
  pose proof (select_well_formed F F' ts Hsel Hwf) as Hwf'.
  assert (Elo' : index_min F' = Some lo)
    by (unfold index_min in *; rewrite Hi'; exact Elo).
  assert (Ehi' : index_max F' = Some hi)
    by (unfold index_max in *; rewrite Hi'; exact Ehi).
  set (N := INR (Z.to_nat (day_of hi - day_of lo + 1))).
  set (val := fun t => (table_total F t / N)%R).
  set (means := map (fun c => (fst c, col_mean (snd c)))
                    (columns (fillna0 (resample_sum 1 F')))).
  set (key := fun x => match lookup_col means x with
                       | Some m => m
                       | None => None
                       end).
  assert (Hkey : forall x, In x ts -> key x = Some (val x)).
  { intros x Hx.
    destruct (lookup_col_In (columns F) x (Hknown x Hx)) as (s & Hl & _).
    assert (Hl' : lookup_col (columns F') x = Some s).
    { unfold select in Hsel.
      destruct (select_cols (columns F) ts) as [cs|e] eqn:E; cbn [bind] in Hsel;
        [|discriminate].
      inversion Hsel. cbn [columns].
      rewrite (select_cols_lookup (columns F) cs ts x E Hx). exact Hl. }
    unfold key, means. rewrite (pie_means F' lo hi x s Hwf' Elo' Ehi' Hl').
    unfold val, table_total. rewrite Hl. reflexivity. }
  assert (Hkeys : map fst means = ts).
  { unfold means. rewrite map_map. cbn [fst].
    change (keys (fillna0 (resample_sum 1 F')) = ts).
    rewrite keys_fillna0, keys_resample_sum. exact Hk'. }
  assert (Hsort : sorted_desc_nan key ts = sorted_desc val ts).
  { unfold sorted_desc_nan, sorted_desc. apply sort_by_ext_in.
    intros x y Hx Hy. rewrite (Hkey x Hx), (Hkey y Hy). reflexivity. }
  exists (map (fun x => (x, val x)) (sorted_desc val ts)).
  eexists. split; [|split].
  - unfold pie, view_tags. unfold bindM at 1, ret at 1.
    unfold bindM at 1. rewrite Hrun.
    unfold bindM at 1, ret at 1. unfold _obfuscate. rewrite Hobf.
    unfold bindM at 1, ret at 1. unfold bindM at 1, load at 1.
    cbn [heap]. rewrite nth_app_last. fold means. fold key.
    rewrite Hkeys, Hsort. unfold ret. f_equal. f_equal.
    apply (flat_map_some key val). intros x Hx. apply Hkey.
    unfold sorted_desc in Hx. apply sort_by_In in Hx. exact Hx.
  - apply Permutation_map. unfold sorted_desc. apply sort_by_perm.
  - apply sorted_map_desc. apply sorted_desc_sorted.
Qed.

End PieWedges.

Lemma X23_pie_wedges_are_daily_means_witness :
  exists res w',
    pie sample_labels log_three (Some ["tagB"; "tagA"]) None false world_three
    = (Ok res, w') /\
    Permutation res
      (map (fun t => (t, (table_total (table_of log_three world_three) t
                          / INR (Z.to_nat (day_of 1400007200000000%Z
                                           - day_of 1400000000000000%Z + 1)%Z))%R))
           ["tagB"; "tagA"]) /\
    StronglySorted (fun a b => snd b <= snd a)%R res.
Proof.
  apply (X23_pie_wedges_are_daily_means sample_labels log_three
           ["tagB"; "tagA"] 1400000000000000 1400007200000000 world_three).
  - reflexivity.
  - exact (init_well_formed UTC cfg_split no_noise log_three_bare (None, None)
             now_2014 empty_world world_three log_three init_three_lines).
  - reflexivity.
  - reflexivity.
  - intros t Ht. simpl. destruct Ht as [<-|[<-|[]]]; auto.
Defined.

(** ** The rows of the weekday view *)

Section WeekdayRows.

Variable labels : nat -> string.
Variable self : TagTimeLog.

(** The first lines of [day_of_the_week_sums] are those of the hour
    views. *)
Lemma sorted_view_bind {B : Type} (tags : option (list string))
    (top_n : option Z) (other : bool) (k : ref -> M B) (w : world) :
  (tags1 <~ view_tags self tags top_n ;;
   tags2 <~ match tags1 with
            | Some ts => ret (Some ts)
            | None =>
                raise (TypeError
                         "top_n_tags() takes exactly 3 arguments (2 given)")
            end ;;
   D <~ view_frame self tags2 ;;
   _ <~ (if other then add_other self D tags2 else ret tt) ;;
   k D) w
  = (D <~ sorted_view self tags top_n other ;; k D) w.
Proof.
  unfold sorted_view, bindM.
  destruct (view_tags self tags top_n w) as [[[ts|]|e] w1]; try reflexivity.
  unfold ret at 1 3.
  destruct (view_frame self (Some ts) w1) as [[D|e] w2]; [|reflexivity].
  destruct ((if other then add_other self D (Some ts) else ret tt) w2)
    as [[u|e] w3]; reflexivity.
Qed.

(** Lines 261-266: the shares per weekday, in a new object. *)
Lemma weekday_shares_run {B : Type} (D : ref) (k : ref -> M B) (w : world) :
  (F <~ load D ;;
   D1 <~ alloc (fillna0 (resample_sum 1 F)) ;;
   F1 <~ load D1 ;;
   D2 <~ alloc (normalize_rows F1) ;;
   F2 <~ load D2 ;;
   D3 <~ alloc (groupby_weekday_mean F2) ;;
   F3 <~ load D3 ;;
   _ <~ store D3 (scale_rows 24 (row_sums F3) F3) ;;
   k D3) w
  = let F := nth D (heap w) empty_frame in
    let h2 := (heap w ++ [fillna0 (resample_sum 1 F)])
              ++ [normalize_rows (fillna0 (resample_sum 1 F))] in
    k (List.length h2)
      {| heap := h2 ++ [weekday_shares F]; draws := draws w |}.
Proof.
  unfold bindM, load, alloc, store. cbn [heap draws].
  rewrite !nth_app_last, set_nth_app_last. reflexivity.
Qed.

Lemma weekdays_NoDup : NoDup weekdays.
Proof.
  unfold weekdays. repeat constructor; cbn [In]; intros H;
    repeat (destruct H as [H|H]; [discriminate|]); exact H.
Qed.

Lemma resample_sum_index_ext (k : Z) (A B : frame) :
  index A = index B -> index (resample_sum k A) = index (resample_sum k B).
Proof.
  intros H. unfold resample_sum, index_min, index_max. rewrite H.
  destruct (index B); reflexivity.
Qed.

(** X24: [day_of_the_week_sums] with tags that are columns of the table
    returns a frame whose rows are the weekdays (0 to 6, in increasing
    order, each once) of the calendar days from the first to the last
    row of the table, and in which every row that has a total has the
    total 24: the hours of a day. *)
Theorem X24_weekday_rows_total_24 (tags : option (list string))
    (top_n : option Z) (other : bool) (w : world) :
  (selfD self < List.length (heap w))%nat ->
  tags <> None \/ top_n <> None ->
  (forall ts t, tags = Some ts -> In t ts -> In t (keys (table_of self w))) ->
  exists res w',
    day_of_the_week_sums labels self tags top_n other w = (Ok res, w') /\
    index res
    = filter (fun d =>
                existsb (fun b => weekday b =? d)
                        (index (resample_sum 1 (table_of self w))))
             weekdays /\
    (forall t v, cell (row_sums res) t = Some v -> v = 24%R).
Proof.
  intros HD Hgiven Hknown.
  destruct (sorted_view_spec self tags top_n other w HD Hgiven Hknown)
    as (Fv & Hsv & Hiv & _).
  set (w1 := {| heap := heap w ++ [Fv]; draws := draws w |}) in *.
  set (h2 := (heap w1 ++ [fillna0 (resample_sum 1 Fv)])
             ++ [normalize_rows (fillna0 (resample_sum 1 Fv))]).
  set (w2 := {| heap := h2 ++ [weekday_shares Fv]; draws := draws w1 |}).
  destruct (obfuscate_spec labels self (List.length h2) w2)
    as (w3 & Hrun & Hi & Hv & _).
  { unfold w2. cbn [heap]. rewrite length_app. cbn [List.length]. lia. }
  assert (Hn : nth (List.length h2) (heap w2) empty_frame = weekday_shares Fv)
    by (unfold w2; cbn [heap]; apply nth_app_last).
  rewrite Hn in Hi, Hv.
  exists (nth (List.length h2) (heap w3) empty_frame), w3.
  split; [|split].
  - unfold day_of_the_week_sums.
    rewrite (sorted_view_bind tags top_n other
               (fun D =>
                  F <~ load D ;;
                  D1 <~ alloc (fillna0 (resample_sum 1 F)) ;;
                  F1 <~ load D1 ;;
                  D2 <~ alloc (normalize_rows F1) ;;
                  F2 <~ load D2 ;;
                  D3 <~ alloc (groupby_weekday_mean F2) ;;
                  F3 <~ load D3 ;;
                  _ <~ store D3 (scale_rows 24 (row_sums F3) F3) ;;
                  _ <~ _obfuscate labels self D3 ;;
                  load D3) w).
    unfold bindM at 1. rewrite Hsv. fold w1.
    rewrite (weekday_shares_run (List.length (heap w))
               (fun D3 => _ <~ _obfuscate labels self D3 ;; load D3) w1).
    cbv zeta.
    assert (Hnv : nth (List.length (heap w)) (heap w1) empty_frame = Fv)
      by (unfold w1; cbn [heap]; apply nth_app_last).
    rewrite Hnv. fold h2. fold w2. unfold bindM. rewrite Hrun. reflexivity.
  - rewrite Hi. unfold weekday_shares, scale_rows, groupby_weekday_mean,
      normalize_rows, fillna0. cbn [index].
    rewrite (resample_sum_index_ext 1 Fv (table_of self w) Hiv). reflexivity.
  - intros t v H.
    rewrite (row_sums_same_values _ _ Hi Hv) in H. unfold weekday_shares in H.
    refine (scaled_row_total 24
              (groupby_weekday_mean
                 (normalize_rows (fillna0 (resample_sum 1 Fv)))) t v _ H).
    unfold groupby_weekday_mean. cbn [index].
    apply NoDup_filter, weekdays_NoDup.
Qed.

End WeekdayRows.

Lemma X24_weekday_rows_total_24_witness :
  exists res w',
    day_of_the_week_sums sample_labels log_three_obfuscated (Some ["tagA"])
                         (Some 1) true world_three
    = (Ok res, w') /\
    index res
    = filter (fun d =>
                existsb (fun b => weekday b =? d)
                        (index (resample_sum 1
                                  (table_of log_three_obfuscated world_three))))
             weekdays /\
    (forall t v, cell (row_sums res) t = Some v -> v = 24%R).
Proof.
  apply (X24_weekday_rows_total_24 sample_labels log_three_obfuscated
           (Some ["tagA"]) (Some 1) true world_three).
  - simpl. lia.
  - left. discriminate.
  - intros ts t E Ht. inversion E. subst ts. destruct Ht as [<-|[]].
    simpl. left. reflexivity.
Defined.

(** ** The shared default of [startend] *)

Section DefaultBounds.

Variable utcoffset : Z -> Z.

(** The default list after a call that returns. *)
Lemma startend_after_returns (c : config) (noise : nat -> R)
    (lines : list string) (startend : option Z * option Z) (now : datetime)
    (w0 w : world) (self : TagTimeLog) :
  init utcoffset c noise lines startend now w0 = (Ok self, w) ->
  exists s,
    match fst startend with
    | Some s0 => s = s0
    | None => fromtimestamp utcoffset 1 = Ok s
    end /\
    startend_after utcoffset c noise lines startend now
    = (Some s, Some (match snd startend with Some e => e | None => now end)).
Proof.
  intros H. destruct (init_inv _ _ _ _ _ _ _ _ _ H)
    as (st & start & lo & hi & Hst & Hstart & _).
  exists start. split; [exact Hstart|].
  unfold startend_after, parse_file. rewrite Hst. cbn [bind].
  destruct (fst startend) as [s0|]; [subst; reflexivity|].
  rewrite Hstart. reflexivity.
Qed.


End DefaultBounds.

Lemma three_lines_default :
  startend_after UTC cfg_split no_noise log_three_bare (None, None) now_2014
  = (Some 1000000, Some now_2014).
Proof.
  unfold startend_after, parse_file.
  rewrite (parse_loop_unsmoothed UTC cfg_split no_noise log_three_bare
             [(1400000000000000%Z, ["tagA"]%string);
              (1400003600000000%Z, ["tagB"]%string);
              (1400007200000000%Z, ["tagA"; "tagB"]%string)])
    by unsmoothed_side.
  reflexivity.
Qed.

Lemma three_lines_again :
  exists self w,
    init UTC cfg_split no_noise log_three_bare (Some 1000000, Some now_2014)
         (now_2014 + us_per_day) world_three = (Ok self, w).
Proof.
  unfold init, parse_file.
  rewrite (parse_loop_unsmoothed UTC cfg_split no_noise log_three_bare
             [(1400000000000000%Z, ["tagA"]%string);
              (1400003600000000%Z, ["tagB"]%string);
              (1400007200000000%Z, ["tagA"; "tagB"]%string)])
    by unsmoothed_side.
  do 2 eexists. reflexivity.
Qed.

